(* ===== verification/_CoqProject ===== *)
-Q . S2P
Prelude.v
Vlan.v
Fdb.v
Protect.v
SwitchState.v
Stp.v
StpFacts.v
Switch.v
SwitchInv.v
Deliver.v
SwitchProps.v
StpProps.v
StpTime.v
VhostMem.v
VhostDev.v
VhostFacts.v
VhostProps.v
VhostDrain.v
VhostConn.v
VhostRecv.v
VhostSession.v
Lease.v
GoText.v
NetText.v
Forwards.v
ForwardsProps.v
Framing.v
Ports.v
Xdp.v
Server.v
ServerProps.v
Dhcp.v
DhcpProps.v
Dhcp6Props.v
DhcpDemo.v
Gateway.v
GatewayProps.v
GatewayDemo.v
Json.v
ApiTypes.v
Manager.v
System.v
SystemProps.v
ManagerProps.v
Policy.v
Api.v
ApiProps.v
ApiDecode.v
ApiStatus.v
Command.v
CommandProps.v
Settings.v
SystemDemo.v
