(* ===== verification/Prelude.v ===== *)
(** * gvisor-vswitch: a verified model of the virtual switch

    gvisor-vswitch is a user-space Ethernet switch for virtual machines.  Guests
    attach through ports (sockets, tap devices, vhost-user); the switch core
    forwards their frames by MAC address and VLAN, with an 802.1D spanning tree
    and loop protection; a gateway, itself a port, answers DHCP and routes.
    A manager creates and removes these objects, an HTTP API drives the manager,
    and a command sets everything up.  This development models all of these
    parts, as functions on explicit state and step relations over them, and
    proves them correct.

    ** Conventions

    A Go expression that may panic is a term of type [res]; the (value, error)
    pair of a fallible function is a [result]; a loop that is not structural
    takes fuel and returns [None] when it runs out.  Integers are [Z], with
    [u8] .. [u64], [s64] written where the code wraps; byte slices are lists of
    [Z]; instants are nanosecond counts.  Go iterates over maps in random order:
    every loop over a map takes its order as an argument, and the theorems
    quantify over all orders ([range_order]).  The clock is an argument as well,
    one per reading.  What a component does to its surroundings is a list of
    effects.  In the switch core, the device and the gateway every exported call,
    frame, message or tick is one atomic step; the code holds a lock for its
    duration, or reads fields atomically.  Pumps, server ports, AF_XDP ports, and
    the calls that create, change and delete ports and gateways are cut at the
    points where the code leaves its locks, and their theorems are about all
    interleavings of these pieces.

    ** Files, and the code they model

    - [Prelude]: outcomes, machine integers, byte slices, little- and big-endian
      codecs, map iteration, tactics and hint databases.
    - [Vlan]: switchcore/port.go and vlan.go: port attributes, frame parsing,
      ingress classification ([ingressKey]), egress filter ([egressEligible]),
      tag rewriting ([egressFrame]).
    - [Fdb]: switchcore/fdb.go: the forwarding database, and [FdbSpec], its
      contract.
    - [Protect]: switchcore/protect.go: reserved addresses, BPDU recognition,
      the storm-control bucket (in binary64, as the code), loop probes.
    - [SwitchState]: the structs of switch.go and stp.go.  Port entries are
      shared objects and live in a store; registry, forwarding database and
      spanning tree refer to them by location.
    - [Stp]: switchcore/stp.go, every operation of the spanning tree.
      [StpFacts]: what the protocol may change, and the order on priority vectors.
    - [Switch]: switchcore/switch.go: registry, administration, and the pipeline
      [Deliver]/[deliver] ([ingress], [forward], [flood], [send]).
    - [SwitchInv]: the invariant [switch_ok] and the preorder [evolves] that
      keeps it.  [Deliver]: the specification of the pipeline.
    - [SwitchProps], [StpProps], [StpTime]: the theorems on the switch, on the
      spanning tree's decisions, and on its behaviour over time.
    - [VhostMem]: vhostuser/memory.go and queue.go: memory table and split
      virtqueues.  Guest memory is a store of mappings and a Go slice into it is
      a view, so overlapping rings alias.
    - [VhostDev]: vhostuser/proto.go and device.go: messages, ring life cycle,
      transmit ([pumpRound], [drainTX]) and receive ([WriteFrame]).
    - [VhostFacts], [VhostProps], [VhostDrain], [VhostConn], [VhostRecv]: the
      invariant [dev_ok], memory safety and crashes, the transmit path,
      messages, the receive path.  [VhostSession]: [serve] as a step relation,
      interleaved with everything else that touches the device.
    - [Lease]: gateway/binding.go and the part of net/netip it uses.
    - [GoText]: the text functions of strconv, strings, fmt, net and net/netip
      that the code uses.  [NetText]: addresses are parsed back from their text.
    - [Forwards]: gateway/forwards.go; [ForwardsProps]: its theorems.
    - [Framing]: ports/framing.go and pump.go, with their theorems.
    - [Ports]: ports/ports.go, net.go, client.go, tap.go, vsock.go, afxdp.go and
      vhostuser.go.  [Xdp]: the data path of afxdp.go over the rings of its
      socket, with the theorem about it.  [Server]: ports/server.go, its critical sections as the step
      relation [srv_step].  [ServerProps]: theorems on both.
    - [Dhcp]: gateway/dhcp4.go, dhcp6.go and [parseIngress] of craft.go.
      [DhcpProps], [Dhcp6Props]: their theorems; [DhcpDemo]: a concrete gateway
      on which the theorems are instantiated.
    - [Gateway]: gateway/gateway.go, ra.go and the rest of craft.go.
      [GatewayProps], [GatewayDemo]: theorems, and a concrete gateway.
    - [Json]: the decoding of encoding/json.  [ApiTypes]: api/types.go and the
      types of api/gateway.go, with their decoders.
    - [Manager]: manager/manager.go, gateways.go, fdb.go and config.go.  Ports and
      gateways are objects that manager, switch and goroutines share, so they
      live in stores.
    - [System]: the running program, [sys_step]: API calls in pieces, the
      callbacks of ports/, removals of dead ports, frames and ticks.
      [SystemProps], [ManagerProps]: theorems on runs and on single calls.
      [Policy]: the policy a port is shown with and the policy enforced on it.
    - [Api]: api/server.go and the handlers of api/gateway.go, written against
      the classes [GatewayBackend] and [Backend], of which the manager is the
      instance.  [ApiProps], [ApiDecode], [ApiStatus]: routes and
      authorisation, decoded values, status codes.
    - [Settings]: what is set through the manager and what is read back.
    - [Command]: cmd/gvswitch/main.go; [CommandProps]: its theorems.
    - [SystemDemo]: a concrete program, started from a configuration, on which
      the theorems on manager, API and command are instantiated.

    ** What is shown

    Switch.  The registry, the forwarding database and the spanning tree agree in
    every reachable state, under any sequence of administrative calls, ticks and
    frames; no frame makes the pipeline panic; every frame that leaves came from
    an enabled, forwarding port of the same VLAN and leaves, rendered for the
    port, through another one; a flood reaches every eligible port exactly once;
    a learned address attracts its traffic; reserved addresses are never
    forwarded; the guards shut the ports they should.  The forwarding database
    implements its two-table contract.  VLANs are isolated, and tags survive a
    trunk.

    Spanning tree.  Recomputation elects the least priority vector and assigns
    the roles it implies, whatever the map order; blocked ports carry no data;
    a superior bridge is adopted from its BPDU; a port reaches forwarding in
    two forward delays.  Two theorems show defects: a removed root port silences
    the bridge, and a shared segment makes the root port arbitrary.

    vhost-user.  Whatever the front end and the guest do, the device keeps and
    resolves only slices of memory that is mapped; the transmit path terminates
    on well-formed rings, delivers what was offered and returns every buffer;
    over a whole session descriptors are neither lost nor closed twice, and a
    session that ended holds nothing; framing round-trips.  Three theorems
    exhibit inputs that crash or hang the process, and [late_message_leaks] a
    message that is handled after the end of its session.

    DHCP.  The address given to a client was free or its own, respects static
    bindings, and is booked; active leases are not taken from their holders; the
    pool is used to the last address and the search for one terminates; an
    offered address is acknowledged; no frame makes a server panic.

    Gateway.  Every frame goes to one service or to the stack, and none makes the
    gateway panic; a router solicitation is answered with the configured
    advertisement; the listeners on the host are those of the forward rules, and
    a declarative update converges to the desired set.

    Transports.  Frames survive the stream framing; a pump delivers in order,
    whatever its goroutines do; a server port has at most one session, or one
    per connection when it multiplexes; a datagram port serves the sender it
    should and answers it; an AF_XDP port passes on every packet once, in order
    and unaltered, and loses no frame of the shared memory; constructors that
    fail give back what they acquired.

    Manager.  In every state that some interleaving reaches, the manager's
    records, the switch's registry and the objects behind them agree.  Creating
    a port is all or nothing; changing its policy reaches the port and its
    connections and nothing else, and GET shows the policy in force as long as
    the calls on a port do not overlap; [overlapping_patches] is a run in which
    they do and GET is wrong; a port whose peer is gone is removed; the settings
    of a gateway are reported as they were made and can be sent back.

    API and command.  Only an authorised request with a writing method and a
    route changes anything, every request is a run of the transition system, and
    the order in which routes are registered does not matter; decoded numbers fit
    their fields; unknown objects answer 404 and existing ones 409.  When the
    command serves, everything its configuration lists is there; when it exits,
    everything is closed.

    ** Fuel and bounds

    [maxChainLen] is the code's own bound on descriptor chains.  [drainLoop] has
    explicit fuel; [drain_complete] shows that one more than the number of
    offered buffers is enough, and [overlapping_rings_hang] that no fuel is when
    the rings overlap.  [fillSeg] runs on the length of its segment, since every
    iteration writes a byte.  [allocate] gets fuel for every leased or reserved
    address plus two, which [pool_first_free] shows to be enough.  [rxStream]
    and [parseOptions] run on the length of their input, of which every round
    consumes a part; [rxStream_prefix] and [parseOptions_wire] show that more
    fuel than bytes is enough.

    ** Not modelled

    Interleavings inside the calls that are one step: GET, for example, reads a
    record and the switch in one step although the code takes two locks in turn.
    Two mappings of the same file are separate memory.  Reading and writing of
    sockets beyond their bytes, the text of HTTP requests and the encoding of
    answers, the parsing of command-line flags, and messages on the terminal:
    system calls or library code.  The stub of afxdp.go for other platforms.  The network stack of the gateway
    and the engine of its port forwards are outside the repository.  Those, the
    header accessors and encoders of gVisor, the rings of its AF_XDP sockets, the
    DHCP message libraries, mmap, netlink and the answers of the kernel are
    parameters, with their documented
    behaviour as hypotheses where a theorem needs it. *)
From stdpp Require Export base tactics numbers option list gmap strings fin_maps.
From Stdlib Require Export ZArith Lia.

#[global] Open Scope Z_scope.

(** ** Outcomes of Go code

    A Go expression either yields a value or panics (index or slice bounds out
    of range, nil dereference).  [res] keeps the panic visible, so that "this
    input cannot crash the process" is a statement about the model. *)

Inductive res (A : Type) : Type :=
  | Ret (a : A)
  | Panic.
Arguments Ret {A} _.
Arguments Panic {A}.

#[export] Instance res_ret : MRet res := fun A a => Ret a.
#[export] Instance res_bind : MBind res :=
  fun A B f m => match m with Ret a => f a | Panic => Panic end.

(** Values of Go's [error] interface made by [fmt.Errorf]: the format string
    and its operands, unrendered. *)
Inductive goerr : Type :=
  | Errorf (fmt : string) (args : list earg)
with earg : Type :=
  | AStr (s : string)
  | AInt (z : Z)
  | AErr (e : goerr).

(** The [(T, error)] result pair of a fallible Go function. *)
Inductive result (A : Type) : Type :=
  | Ok (a : A)
  | Err (e : goerr).
Arguments Ok {A} _.
Arguments Err {A} _.

Definition is_ok {A} (r : result A) : bool :=
  match r with Ok _ => true | Err _ => false end.

(** [x <-? m; k]: go on with [k], unless [m] failed. *)
Definition rbind {A B} (m : result A) (k : A -> result B) : result B :=
  match m with Ok x => k x | Err e => Err e end.
Notation "x <-? m ; k" := (rbind m (fun x => k)) (at level 60, m at next level, right associativity).

(** ** Machine integers *)

Definition u8 (z : Z) : Z := z mod 2 ^ 8.
Definition u16 (z : Z) : Z := z mod 2 ^ 16.
Definition u32 (z : Z) : Z := z mod 2 ^ 32.
Definition u64 (z : Z) : Z := z mod 2 ^ 64.
Definition s32 (z : Z) : Z := (z + 2 ^ 31) mod 2 ^ 32 - 2 ^ 31.
Definition s64 (z : Z) : Z := (z + 2 ^ 63) mod 2 ^ 64 - 2 ^ 63.

Definition maxInt64 : Z := 2 ^ 63 - 1.
Definition minInt64 : Z := - 2 ^ 63.

(** ** time.Time and time.Duration

    An instant is its nanosecond count; a duration is an int64 nanosecond
    count, and [Time.Sub] saturates at the int64 bounds. *)

Definition Second : Z := 1000000000.
Definition Minute : Z := 60 * Second.
Definition Hour : Z := 60 * Minute.

Definition time_sub (t u : Z) : Z := Z.max minInt64 (Z.min maxInt64 (t - u)).
Definition time_add (t d : Z) : Z := t + d.
Definition time_after (t u : Z) : bool := u <? t.
Definition time_before (t u : Z) : bool := t <? u.

(** ** Byte slices *)

Abbreviation bytes := (list Z) (only parsing).

Definition byteb (b : Z) : bool := (0 <=? b) && (b <? 256).
Definition bytes_okb (bs : bytes) : bool := forallb byteb bs.
Definition bytes_ok (bs : bytes) : Prop := Forall (fun b => 0 <= b < 256) bs.

Definition len (bs : bytes) : Z := Z.of_nat (length bs).

(** [b[lo:hi]] *)
Definition slice (b : bytes) (lo hi : Z) : res bytes :=
  if (0 <=? lo) && (lo <=? hi) && (hi <=? len b)
  then Ret (take (Z.to_nat (hi - lo)) (drop (Z.to_nat lo) b))
  else Panic.

(** [b[lo:]] *)
Definition slice_from (b : bytes) (lo : Z) : res bytes := slice b lo (len b).

(** [b[i]] *)
Definition index (b : bytes) (i : Z) : res Z :=
  if (0 <=? i) && (i <? len b)
  then match b !! Z.to_nat i with Some x => Ret x | None => Panic end
  else Panic.

(** [make([]byte, n)] *)
Definition make_bytes (n : nat) : bytes := replicate n 0.

(** [copy(dst[off:], src)]: copies as much of [src] as fits. *)
Definition copy_at (dst : bytes) (off : nat) (src : bytes) : bytes :=
  take off dst ++ take (length dst - off) src ++ drop (off + length src) dst.

(** [binary.BigEndian] and [binary.LittleEndian]. *)
Definition be_get (bs : bytes) : Z := foldl (fun acc b => acc * 256 + b) 0 bs.
Fixpoint le_put (n : nat) (v : Z) : bytes :=
  match n with
  | O => []
  | S n' => v mod 256 :: le_put n' (v / 256)
  end.
Fixpoint le_get (bs : bytes) : Z :=
  match bs with
  | [] => 0
  | b :: bs' => b + 256 * le_get bs'
  end.
Definition be_put (n : nat) (v : Z) : bytes := rev (le_put n v).

(** ** Maps

    Go's randomised map iteration: any permutation of the bindings. *)
Definition range_order {K A} `{Countable K} (range : gmap K A -> list (K * A)) : Prop :=
  forall m, range m ≡ₚ map_to_list m.

(** ** Tactics and hint databases *)

Create HintDb vsw.
Create Rewrite HintDb vsw.

(** Case analysis on the scrutinee of a match or if in the goal or in a
    hypothesis, keeping its equation. *)
Ltac split_match :=
  match goal with
  | |- context [match ?x with _ => _ end] => destruct x eqn:?
  | H : context [match ?x with _ => _ end] |- _ => destruct x eqn:?
  end.

(** Turn boolean tests of the code into propositions. *)
Ltac bool_prop :=
  repeat match goal with
  | H : _ && _ = true |- _ => apply andb_true_iff in H; destruct H
  | H : _ || _ = false |- _ => apply orb_false_iff in H; destruct H
  | H : negb _ = true |- _ => apply negb_true_iff in H
  | H : negb _ = false |- _ => apply negb_false_iff in H
  | H : (_ =? _) = true |- _ => apply Z.eqb_eq in H
  | H : (_ =? _) = false |- _ => apply Z.eqb_neq in H
  | H : (_ <? _) = true |- _ => apply Z.ltb_lt in H
  | H : (_ <? _) = false |- _ => apply Z.ltb_ge in H
  | H : (_ <=? _) = true |- _ => apply Z.leb_le in H
  | H : (_ <=? _) = false |- _ => apply Z.leb_gt in H
  | H : bool_decide _ = true |- _ => apply bool_decide_eq_true in H
  | H : bool_decide _ = false |- _ => apply bool_decide_eq_false in H
  end.

(** Length goals over [len] and [length]: the database [lens] pushes lengths
    through the list operations of the model. *)
Create Rewrite HintDb lens.
#[export] Hint Rewrite @length_app @length_take @length_drop
  @length_replicate @length_rev @length_cons @length_nil : lens.
Ltac lens :=
  unfold len, make_bytes in *; autorewrite with lens in *; lia.

(** ** Lemmas on outcomes *)

Lemma bind_Ret {A B} (a : A) (f : A -> res B) : mbind f (Ret a) = f a.
Proof. reflexivity. Qed.

Lemma bind_Ret_inv {A B} (m : res A) (f : A -> res B) b :
  mbind f m = Ret b -> exists a, m = Ret a /\ f a = Ret b.
Proof. destruct m; cbn; intros; [eauto | discriminate]. Qed.

#[export] Hint Rewrite @bind_Ret : vsw.

(** Step through the monadic binds of a hypothesis [_ = Ret _]. *)
Ltac inv_bind H :=
  let x := fresh "x" in let E := fresh "E" in
  apply bind_Ret_inv in H as (x & E & H).

(** ** Lemmas on map iteration *)

Lemma elem_of_range {K A} `{Countable K} (range : gmap K A -> list (K * A)) m k x :
  range_order range -> (k, x) ∈ range m <-> m !! k = Some x.
Proof. intros Hr. rewrite (Hr m). apply elem_of_map_to_list. Qed.

Lemma NoDup_range {K A} `{Countable K} (range : gmap K A -> list (K * A)) m :
  range_order range -> NoDup (range m).*1.
Proof. intros Hr. rewrite (Hr m). apply NoDup_fst_map_to_list. Qed.

(** ** Lemmas on slices *)

Lemma slice_ret b lo hi :
  0 <= lo -> lo <= hi -> hi <= len b ->
  slice b lo hi = Ret (take (Z.to_nat (hi - lo)) (drop (Z.to_nat lo) b)).
Proof.
  intros. unfold slice.
  rewrite (proj2 (Z.leb_le 0 lo)), (proj2 (Z.leb_le lo hi)),
    (proj2 (Z.leb_le hi (len b))) by lia.
  reflexivity.
Qed.

Lemma slice_inv b lo hi s :
  slice b lo hi = Ret s ->
  0 <= lo /\ lo <= hi /\ hi <= len b /\
  s = take (Z.to_nat (hi - lo)) (drop (Z.to_nat lo) b).
Proof.
  unfold slice. split_match; [|discriminate]. intros [= <-].
  bool_prop. auto.
Qed.

Lemma slice_length b lo hi s :
  slice b lo hi = Ret s -> len s = hi - lo.
Proof.
  intros (? & ? & ? & ->)%slice_inv. unfold len in *.
  rewrite length_take, length_drop. lia.
Qed.

Lemma slice_from_ret b lo :
  0 <= lo <= len b -> slice_from b lo = Ret (drop (Z.to_nat lo) b).
Proof.
  intros. unfold slice_from. rewrite slice_ret by lia. f_equal.
  apply take_ge. unfold len in *. rewrite length_drop. lia.
Qed.

Lemma index_ret b i :
  0 <= i < len b -> index b i = Ret (nth (Z.to_nat i) b 0).
Proof.
  intros [H1 H2]. unfold index.
  rewrite (proj2 (Z.leb_le 0 i)), (proj2 (Z.ltb_lt i (len b))) by lia. cbn.
  assert (Hl : (Z.to_nat i < length b)%nat) by (unfold len in H2; lia).
  destruct (b !! Z.to_nat i) as [x|] eqn:E.
  - by rewrite (nth_lookup_Some _ _ _ _ E).
  - apply lookup_ge_None in E. lia.
Qed.

Lemma index_inv b i x : index b i = Ret x -> 0 <= i < len b /\ b !! Z.to_nat i = Some x.
Proof.
  unfold index. repeat split_match; try discriminate.
  intros [= <-]. bool_prop. auto.
Qed.

Lemma length_copy_at dst off src :
  (off <= length dst)%nat -> length (copy_at dst off src) = length dst.
Proof.
  intros. unfold copy_at.
  rewrite !length_app, !length_take, length_drop. lia.
Qed.

Lemma copy_at_fits dst off src :
  (off + length src <= length dst)%nat ->
  copy_at dst off src = take off dst ++ src ++ drop (off + length src) dst.
Proof.
  intros. unfold copy_at. rewrite (take_ge src) by lia. reflexivity.
Qed.

Lemma bytes_okb_spec bs : bytes_okb bs = true -> bytes_ok bs.
Proof.
  unfold bytes_okb, bytes_ok. rewrite forallb_forall, Forall_forall. intros H x Hx.
  apply list_elem_of_In, H in Hx. unfold byteb in Hx. bool_prop. lia.
Qed.

(** ** Lemmas on endianness *)

Lemma length_le_put n v : length (le_put n v) = n.
Proof. revert v; induction n; intros; cbn; auto. Qed.

Lemma length_be_put n v : length (be_put n v) = n.
Proof. unfold be_put. rewrite length_rev. apply length_le_put. Qed.

Lemma pow256 n : 256 ^ Z.of_nat (S n) = 256 * 256 ^ Z.of_nat n.
Proof. rewrite Nat2Z.inj_succ, Z.pow_succ_r by lia. reflexivity. Qed.

Lemma pow256_pos n : 0 < 256 ^ Z.of_nat n.
Proof. apply Z.pow_pos_nonneg; lia. Qed.

Lemma le_get_put n v : le_get (le_put n v) = v mod 256 ^ Z.of_nat n.
Proof.
  revert v; induction n as [|n IH]; intros v; cbn [le_put le_get].
  - by rewrite Z.mod_1_r.
  - rewrite IH, pow256.
    pose proof (pow256_pos n). rewrite Z.rem_mul_r by lia. reflexivity.
Qed.

Lemma le_get_bound bs :
  bytes_ok bs -> 0 <= le_get bs < 256 ^ Z.of_nat (length bs).
Proof.
  induction 1 as [|b bs Hb Hbs IH]; cbn [le_get length]; [cbn; lia|].
  rewrite pow256. pose proof (pow256_pos (length bs)). lia.
Qed.

Lemma le_put_get bs : bytes_ok bs -> le_put (length bs) (le_get bs) = bs.
Proof.
  induction 1 as [|b bs Hb Hbs IH]; cbn [le_put le_get length]; [done|].
  rewrite Z.mul_comm, Z.mod_add, Z.mod_small, Z.div_add, Z.div_small by lia.
  rewrite Z.add_0_l. by rewrite IH.
Qed.

Lemma be_get_snoc bs b : be_get (bs ++ [b]) = be_get bs * 256 + b.
Proof. unfold be_get. by rewrite foldl_app. Qed.

Lemma be_get_rev bs : be_get (rev bs) = le_get bs.
Proof.
  induction bs as [|b bs IH]; cbn [rev le_get]; [done|].
  rewrite be_get_snoc, IH. lia.
Qed.

Lemma be_get_le_get bs : be_get bs = le_get (rev bs).
Proof. by rewrite <- be_get_rev, rev_involutive. Qed.

Lemma be_get_put n v : be_get (be_put n v) = v mod 256 ^ Z.of_nat n.
Proof. unfold be_put. by rewrite be_get_rev, le_get_put. Qed.

Lemma bytes_ok_rev bs : bytes_ok bs -> bytes_ok (rev bs).
Proof. intros H. apply Forall_rev, H. Qed.

Lemma be_put_get bs : bytes_ok bs -> be_put (length bs) (be_get bs) = bs.
Proof.
  intros H. unfold be_put. rewrite be_get_le_get.
  rewrite <- (length_rev bs), le_put_get by by apply bytes_ok_rev.
  apply rev_involutive.
Qed.

Lemma be_get_bound bs :
  bytes_ok bs -> 0 <= be_get bs < 256 ^ Z.of_nat (length bs).
Proof.
  intros H. rewrite be_get_le_get, <- (length_rev bs).
  by apply le_get_bound, bytes_ok_rev.
Qed.

Lemma bytes_ok_app a b : bytes_ok (a ++ b) <-> bytes_ok a /\ bytes_ok b.
Proof. apply Forall_app. Qed.

Lemma bytes_ok_take n bs : bytes_ok bs -> bytes_ok (take n bs).
Proof. apply Forall_take. Qed.

Lemma bytes_ok_drop n bs : bytes_ok bs -> bytes_ok (drop n bs).
Proof. apply Forall_drop. Qed.

Lemma bytes_ok_le_put n v : bytes_ok (le_put n v).
Proof.
  revert v; induction n; intros; cbn; constructor; [|apply IHn].
  pose proof (Z.mod_pos_bound v 256). lia.
Qed.

Lemma bytes_ok_be_put n v : bytes_ok (be_put n v).
Proof. apply bytes_ok_rev, bytes_ok_le_put. Qed.

#[export] Hint Resolve bytes_ok_take bytes_ok_drop bytes_ok_be_put
  bytes_ok_le_put : vsw.
#[export] Hint Rewrite be_get_put le_get_put : vsw.
#[export] Hint Rewrite length_be_put length_le_put : lens.
