(* ===== verification/Vlan.v ===== *)
(** VLAN handling of the switch: src/internal/switchcore/port.go (port
    attributes) and src/internal/switchcore/vlan.go (frame parsing, ingress
    classification, egress filtering and tag rewriting).

    Frames are byte lists starting at the destination MAC.  The theorems show
    that no frame makes these routines panic, that the VLAN tag rewriting
    round-trips, and how ingress classification and egress filtering fit
    together. *)
From S2P Require Import Prelude.

(** * Port attributes (port.go) *)

Definition VLANUntaggedOnly : Z := 0.
Definition VLANTrunk : Z := 4095.

Record PortAttrs := mkPortAttrs {
  SecurityMAC : option bytes;
  Isolated : bool;
  VLAN : Z;
  Disabled : bool;
  BPDUGuard : bool;
  LoopDetect : bool;
  StormPPS : Z;
  STP : bool;
  STPCost : Z;
  STPPriority : Z
}.

(** The zero value of the struct with a VLAN, as the tests and the gateway
    manager build it. *)
Definition plainAttrs (vlan : Z) : PortAttrs :=
  mkPortAttrs None false vlan false false false 0 false 0 0.

Definition set_Disabled (b : bool) (a : PortAttrs) : PortAttrs :=
  mkPortAttrs (SecurityMAC a) (Isolated a) (VLAN a) b (BPDUGuard a)
    (LoopDetect a) (StormPPS a) (STP a) (STPCost a) (STPPriority a).

Definition validate (a : PortAttrs) : option goerr :=
  match SecurityMAC a with
  | Some m =>
      if negb (len m =? 6) then
        Some (Errorf "port-security MAC must be 6 bytes, got %d" [AInt (len m)])
      else if (VLAN a <? 0) || (VLANTrunk <? VLAN a) then
        Some (Errorf "vlan must be 0 (untagged-only), 1-4094 (access) or 4095 (trunk), got %d" [AInt (VLAN a)])
      else None
  | None =>
      if (VLAN a <? 0) || (VLANTrunk <? VLAN a) then
        Some (Errorf "vlan must be 0 (untagged-only), 1-4094 (access) or 4095 (trunk), got %d" [AInt (VLAN a)])
      else None
  end.

(** What [validate] accepts. *)
Definition attrs_ok (a : PortAttrs) : Prop :=
  0 <= VLAN a <= 4095 /\ (forall m, SecurityMAC a = Some m -> length m = 6%nat).

(** * Frames (vlan.go) *)

Definition etherTypeVLAN : Z := 0x8100.
Definition ethHeaderLen : Z := 14.
Definition macLen : Z := 6.
Definition untaggedKey : Z := 0.

Record frameView := mkFrameView {
  data : bytes;
  tagged : bool;
  vid : Z
}.

(** [parseFrame] returns [None] for Go's [ok = false]. *)
Definition parseFrame (d : bytes) : res (option frameView) :=
  if len d <? ethHeaderLen then Ret None
  else
    et ← slice d 12 14;
    if be_get et =? etherTypeVLAN then
      if len d <? ethHeaderLen + 4 then Ret None
      else
        tci ← slice d 14 16;
        Ret (Some (mkFrameView d true (Z.land (be_get tci) 0x0fff)))
    else Ret (Some (mkFrameView d false 0)).

Definition dstMAC (f : frameView) : res bytes := slice (data f) 0 macLen.
Definition srcMAC (f : frameView) : res bytes := slice (data f) macLen (2 * macLen).

(** MAC addresses are 6-byte arrays, so [mac[0]] is in range. *)
Definition isMulticast (mac : bytes) : bool :=
  negb (Z.land (nth 0 mac 0) 0x01 =? 0).

Definition ingressKey (attrs : PortAttrs) (f : frameView) : option Z :=
  if VLAN attrs =? VLANTrunk then
    if tagged f then Some (vid f) else Some untaggedKey
  else if VLAN attrs =? VLANUntaggedOnly then
    if tagged f then None else Some untaggedKey
  else
    if tagged f then None else Some (s32 (VLAN attrs)).

Definition egressEligible (srcAttrs dstAttrs : PortAttrs) (key : Z) : bool :=
  if Disabled dstAttrs then false
  else if Isolated srcAttrs && Isolated dstAttrs then false
  else if VLAN dstAttrs =? VLANTrunk then true
  else if VLAN dstAttrs =? VLANUntaggedOnly then key =? untaggedKey
  else key =? s32 (VLAN dstAttrs).

(** [frameVariants] with its two memo cells: [None] is the nil slice. *)
Record frameVariants := mkVariants {
  fv_f : frameView;
  fv_key : Z;
  fv_untagged : option bytes;
  fv_tagged : option bytes
}.

Definition untaggedForm (v : frameVariants) : res (bytes * frameVariants) :=
  if negb (tagged (fv_f v)) then Ret (data (fv_f v), v)
  else match fv_untagged v with
  | Some out => Ret (out, v)
  | None =>
      let d := data (fv_f v) in
      let out := make_bytes (length d - 4) in
      head ← slice d 0 12;
      tail ← slice_from d 16;
      let out := copy_at out 0 head in
      let out := copy_at out 12 tail in
      Ret (out, mkVariants (fv_f v) (fv_key v) (Some out) (fv_tagged v))
  end.

Definition taggedForm (v : frameVariants) : res (bytes * frameVariants) :=
  if tagged (fv_f v) then Ret (data (fv_f v), v)
  else match fv_tagged v with
  | Some out => Ret (out, v)
  | None =>
      let d := data (fv_f v) in
      let out := make_bytes (length d + 4) in
      head ← slice d 0 12;
      tail ← slice_from d 12;
      let out := copy_at out 0 head in
      let out := copy_at out 12 (be_put 2 etherTypeVLAN) in
      let out := copy_at out 14 (be_put 2 (Z.land (u16 (fv_key v)) 0x0fff)) in
      let out := copy_at out 16 tail in
      Ret (out, mkVariants (fv_f v) (fv_key v) (fv_untagged v) (Some out))
  end.

Definition egressFrame (v : frameVariants) (dstAttrs : PortAttrs)
    : res (bytes * frameVariants) :=
  if (VLAN dstAttrs =? VLANTrunk) && negb (fv_key v =? untaggedKey)
  then taggedForm v
  else untaggedForm v.

(** * Reference renderings *)

(** A frame without its VLAN tag, and with a tag of the given VID. *)
Definition strip_tag (d : bytes) : bytes := take 12 d ++ drop 16 d.
Definition add_tag (k : Z) (d : bytes) : bytes :=
  take 12 d ++ be_put 2 etherTypeVLAN ++ be_put 2 k ++ drop 12 d.

(** The frame a port must see, without memoisation. *)
Definition render (f : frameView) (key : Z) (dst : PortAttrs) : bytes :=
  if (VLAN dst =? VLANTrunk) && negb (key =? untaggedKey)
  then if tagged f then data f else add_tag (Z.land (u16 key) 0x0fff) (data f)
  else if tagged f then strip_tag (data f) else data f.

(** A frame view that [parseFrame] can produce. *)
Definition view_ok (f : frameView) : Prop :=
  14 <= len (data f) /\ (tagged f = true -> 18 <= len (data f)).

(** The memo cells hold the renderings of the frame. *)
Definition variants_ok (v : frameVariants) : Prop :=
  view_ok (fv_f v) /\
  (forall o, fv_untagged v = Some o -> o = strip_tag (data (fv_f v))) /\
  (forall o, fv_tagged v = Some o ->
     o = add_tag (Z.land (u16 (fv_key v)) 0x0fff) (data (fv_f v))).

(** ** Lemmas *)

Lemma validate_None a : validate a = None <-> attrs_ok a.
Proof.
  unfold validate, attrs_ok, VLANTrunk, len.
  destruct (SecurityMAC a) as [m|] eqn:Hm.
  - destruct (Z.eqb_spec (Z.of_nat (length m)) 6); cbn.
    + destruct (Z.ltb_spec (VLAN a) 0), (Z.ltb_spec 4095 (VLAN a)); cbn;
        (split; [intros; try discriminate | intros [? ?]; try lia; done]).
      split; [lia | intros ? [= <-]; lia].
    + split; [discriminate|]. intros [_ H]. specialize (H _ eq_refl). lia.
  - destruct (Z.ltb_spec (VLAN a) 0), (Z.ltb_spec 4095 (VLAN a)); cbn;
      (split; [intros; try discriminate | intros [? ?]; try lia; done]).
    split; [lia | discriminate].
Qed.

Lemma parseFrame_total d : exists o, parseFrame d = Ret o.
Proof.
  unfold parseFrame, ethHeaderLen.
  destruct (Z.ltb_spec (len d) 14); [eauto|].
  rewrite (slice_ret d 12 14), bind_Ret by lia. split_match; [|eauto].
  destruct (Z.ltb_spec (len d) (14 + 4)); [eauto|].
  rewrite slice_ret, bind_Ret by lia. eauto.
Qed.

Lemma parseFrame_inv d f :
  parseFrame d = Ret (Some f) ->
  data f = d /\ view_ok f /\
  tagged f = (be_get (take 2 (drop 12 d)) =? etherTypeVLAN) /\
  vid f = if tagged f then Z.land (be_get (take 2 (drop 14 d))) 0x0fff else 0.
Proof.
  unfold parseFrame, ethHeaderLen, view_ok.
  destruct (Z.ltb_spec (len d) 14); [discriminate|].
  rewrite (slice_ret d 12 14), bind_Ret by lia. change (Z.to_nat (14 - 12)) with 2%nat.
  change (Z.to_nat 12) with 12%nat. split_match.
  - destruct (Z.ltb_spec (len d) (14 + 4)); [discriminate|].
    rewrite slice_ret, bind_Ret by lia. intros [= <-]. cbn. repeat split; auto; lia.
  - intros [= <-]. cbn. repeat split; auto; lia.
Qed.

Lemma parseFrame_Some d :
  14 <= len d ->
  (be_get (take 2 (drop 12 d)) = etherTypeVLAN -> 18 <= len d) ->
  parseFrame d = Ret (Some (mkFrameView d
    (be_get (take 2 (drop 12 d)) =? etherTypeVLAN)
    (if be_get (take 2 (drop 12 d)) =? etherTypeVLAN
     then Z.land (be_get (take 2 (drop 14 d))) 0x0fff else 0))).
Proof.
  intros H14 H18. unfold parseFrame, ethHeaderLen.
  rewrite (proj2 (Z.ltb_ge (len d) 14)) by lia.
  rewrite (slice_ret d 12 14), bind_Ret by lia. change (Z.to_nat (14 - 12)) with 2%nat.
  change (Z.to_nat 12) with 12%nat.
  destruct (Z.eqb_spec (be_get (take 2 (drop 12 d))) etherTypeVLAN) as [E|E]; [|done].
  specialize (H18 E). rewrite (proj2 (Z.ltb_ge (len d) (14 + 4))) by lia.
  rewrite slice_ret, bind_Ret by lia. reflexivity.
Qed.

Lemma land_fff_bound z : 0 <= Z.land z 0x0fff <= 4095.
Proof.
  change (Z.land z 0x0fff) with (Z.land z (Z.ones 12)). rewrite Z.land_ones by lia.
  pose proof (Z.mod_pos_bound z (2 ^ 12)). lia.
Qed.

Lemma land_fff_small z : 0 <= z <= 4095 -> Z.land z 0x0fff = z.
Proof.
  intros. change (Z.land z 0x0fff) with (Z.land z (Z.ones 12)). rewrite Z.land_ones by lia.
  apply Z.mod_small. lia.
Qed.

Lemma vid_bound d f : parseFrame d = Ret (Some f) -> 0 <= vid f <= 4095.
Proof.
  intros (_ & _ & _ & ->)%parseFrame_inv.
  destruct (tagged f); [apply land_fff_bound | lia].
Qed.

Lemma dstMAC_ret f : view_ok f -> dstMAC f = Ret (take 6 (data f)).
Proof.
  intros [? _]. unfold dstMAC, macLen. rewrite slice_ret by lia. by rewrite drop_0.
Qed.

Lemma srcMAC_ret f : view_ok f -> srcMAC f = Ret (take 6 (drop 6 (data f))).
Proof.
  intros [? _]. unfold srcMAC, macLen. by rewrite slice_ret by lia.
Qed.

Lemma s32_small z : 0 <= z <= 4095 -> s32 z = z.
Proof. intros. unfold s32. rewrite Z.mod_small by lia. lia. Qed.

Lemma copy_strip d :
  18 <= len d ->
  copy_at (copy_at (make_bytes (length d - 4)) 0 (take 12 d)) 12 (drop 16 d)
  = strip_tag d.
Proof.
  unfold strip_tag. intros.
  rewrite (copy_at_fits (make_bytes _)) by lens.
  rewrite copy_at_fits by lens. rewrite take_0, app_nil_l.
  rewrite take_app_length' by lens. f_equal.
  rewrite (drop_ge (_ ++ _)); [apply app_nil_r | lens].
Qed.

(** Writing consecutive pieces into a fresh buffer concatenates them. *)
Lemma copy_at_append pre rest src off :
  off = length pre -> (length src <= length rest)%nat ->
  copy_at (pre ++ rest) off src = (pre ++ src) ++ drop (length src) rest.
Proof.
  intros -> ?. rewrite copy_at_fits by lens.
  rewrite take_app_length, <- app_assoc. do 2 f_equal.
  rewrite drop_app_ge by lens. f_equal. lia.
Qed.

Lemma copy_add d k :
  14 <= len d ->
  copy_at (copy_at (copy_at (copy_at (make_bytes (length d + 4)) 0 (take 12 d))
    12 (be_put 2 etherTypeVLAN)) 14 (be_put 2 k)) 16 (drop 12 d)
  = add_tag k d.
Proof.
  unfold add_tag. intros.
  rewrite <- (app_nil_l (make_bytes _)).
  rewrite (copy_at_append []), app_nil_l by lens.
  rewrite (copy_at_append (take 12 d)) by lens.
  rewrite (copy_at_append (take 12 d ++ _)) by lens.
  rewrite (copy_at_append (_ ++ be_put 2 k)) by lens.
  rewrite (drop_ge _ (length (drop 12 d))) by lens.
  by rewrite app_nil_r, <- !app_assoc.
Qed.

Lemma untaggedForm_render v :
  variants_ok v ->
  exists v', untaggedForm v = Ret (if tagged (fv_f v) then strip_tag (data (fv_f v))
                                   else data (fv_f v), v') /\
    variants_ok v' /\ fv_f v' = fv_f v /\ fv_key v' = fv_key v.
Proof.
  intros Hok. pose proof Hok as (Hv & Hu & Ht). unfold untaggedForm.
  destruct (tagged (fv_f v)) eqn:E; cbn [negb]; [|by exists v].
  destruct (fv_untagged v) as [o|] eqn:Eo.
  - rewrite (Hu o eq_refl). by exists v.
  - pose proof (proj2 Hv E).
    rewrite slice_ret, bind_Ret, slice_from_ret, bind_Ret by lia.
    change (Z.to_nat (12 - 0)) with 12%nat. change (Z.to_nat 0) with 0%nat.
    change (Z.to_nat 16) with 16%nat. rewrite drop_0, copy_strip by done.
    eexists. split; [done|]. split; [|done]. split; [done|]. split; [by intros ? [= <-] | exact Ht].
Qed.

Lemma taggedForm_render v :
  variants_ok v ->
  exists v', taggedForm v = Ret (if tagged (fv_f v) then data (fv_f v)
      else add_tag (Z.land (u16 (fv_key v)) 0x0fff) (data (fv_f v)), v') /\
    variants_ok v' /\ fv_f v' = fv_f v /\ fv_key v' = fv_key v.
Proof.
  intros Hok. pose proof Hok as (Hv & Hu & Ht). unfold taggedForm.
  destruct (tagged (fv_f v)) eqn:E; [by exists v|].
  destruct (fv_tagged v) as [o|] eqn:Eo.
  - rewrite (Ht o eq_refl). by exists v.
  - pose proof (proj1 Hv).
    rewrite slice_ret, bind_Ret, slice_from_ret, bind_Ret by lia.
    change (Z.to_nat (12 - 0)) with 12%nat. change (Z.to_nat 0) with 0%nat.
    change (Z.to_nat 12) with 12%nat. rewrite drop_0, copy_add by done.
    eexists. split; [done|]. split; [|done]. split; [done|]. split; [exact Hu | by intros ? [= <-]].
Qed.

Lemma egressFrame_spec v dst :
  variants_ok v ->
  exists v', egressFrame v dst = Ret (render (fv_f v) (fv_key v) dst, v') /\
    variants_ok v' /\ fv_f v' = fv_f v /\ fv_key v' = fv_key v.
Proof.
  intros Hv. unfold egressFrame, render.
  split_match; [by apply taggedForm_render | by apply untaggedForm_render].
Qed.

Lemma strip_add_tag k d : 12 <= len d -> strip_tag (add_tag k d) = d.
Proof.
  intros. unfold strip_tag, add_tag. rewrite take_app_length' by lens.
  rewrite !app_assoc, drop_app_length' by lens. apply take_drop.
Qed.

Lemma add_tag_fields k d :
  12 <= len d ->
  take 2 (drop 12 (add_tag k d)) = be_put 2 etherTypeVLAN /\
  take 2 (drop 14 (add_tag k d)) = be_put 2 k.
Proof.
  intros. unfold add_tag. split.
  - by rewrite drop_app_length', take_app_length' by lens.
  - rewrite !app_assoc, <- (app_assoc _ (be_put 2 k)), drop_app_length' by lens.
    by rewrite take_app_length' by lens.
Qed.

Lemma parse_add_tag k d :
  14 <= len d -> 0 <= k <= 4095 ->
  parseFrame (add_tag k d) = Ret (Some (mkFrameView (add_tag k d) true k)).
Proof.
  intros Hd Hk. destruct (add_tag_fields k d) as [E1 E2]; [lia|].
  rewrite parseFrame_Some; rewrite ?E1, ?E2, ?be_get_put;
    change (256 ^ Z.of_nat 2) with 65536.
  - cbn -[Z.land Z.modulo]. rewrite (Z.mod_small k) by lia.
    rewrite land_fff_small by lia. reflexivity.
  - unfold add_tag. lens.
  - unfold add_tag. lens.
Qed.

(** The VLAN key of an accepted frame is a 12-bit number. *)
Lemma ingressKey_bound a d f k :
  attrs_ok a -> parseFrame d = Ret (Some f) -> ingressKey a f = Some k ->
  0 <= k <= 4095.
Proof.
  intros [Ha _] Hp. pose proof (vid_bound _ _ Hp).
  unfold ingressKey, untaggedKey. repeat split_match; intros [= <-]; try lia.
  rewrite s32_small; lia.
Qed.

Lemma key_u16 k : 0 <= k <= 4095 -> Z.land (u16 k) 0x0fff = k.
Proof. intros. unfold u16. rewrite Z.mod_small, land_fff_small by lia. done. Qed.

Lemma fresh_ok f k : view_ok f -> variants_ok (mkVariants f k None None).
Proof. intros. split; [done|]. split; discriminate. Qed.

(** * Properties *)

(** VLAN separation.  If a frame accepted on port [a] may leave through a
    port [b] that is not a trunk, then [b]'s VLAN is the frame's VLAN key, and
    [a] is either a port of that same VLAN that received the frame untagged,
    or a trunk that received it with that VID (untagged or VID 0 for the
    untagged domain). *)
Theorem vlan_isolation a b d f k :
  attrs_ok a -> attrs_ok b -> parseFrame d = Ret (Some f) ->
  ingressKey a f = Some k -> egressEligible a b k = true ->
  VLAN b <> VLANTrunk ->
  k = VLAN b /\
  ((VLAN a = VLAN b /\ tagged f = false) \/
   (VLAN a = VLANTrunk /\ vid f = VLAN b)).
Proof.
  intros [Ha _] [Hb _] Hp Hin Hout Htr.
  pose proof (parseFrame_inv _ _ Hp) as (_ & _ & _ & Hvid).
  unfold ingressKey, egressEligible, VLANTrunk, VLANUntaggedOnly, untaggedKey in *.
  rewrite ?s32_small in * by lia.
  repeat split_match; bool_prop; simplify_eq; try lia; auto.
Qed.

Lemma vlan_isolation_witness :
  exists f, parseFrame (make_bytes 60) = Ret (Some f) /\
    untaggedKey = VLAN (plainAttrs 0) /\
    ((VLAN (plainAttrs 4095) = VLAN (plainAttrs 0) /\ tagged f = false) \/
     (VLAN (plainAttrs 4095) = VLANTrunk /\ vid f = VLAN (plainAttrs 0))).
Proof.
  eexists. split; [reflexivity|].
  apply (vlan_isolation (plainAttrs 4095) (plainAttrs 0) (make_bytes 60));
    try reflexivity; try (split; [cbn; lia | discriminate]); discriminate.
Defined.

(** Crossing a trunk is transparent.  A frame received untagged on an
    access port of VLAN [k] leaves a trunk port tagged with [k]; a switch that
    receives it on its own trunk port classifies it into [k] again, and its
    access port of VLAN [k] emits the original bytes. *)
Theorem access_trunk_access_roundtrip d f acc trunk k :
  parseFrame d = Ret (Some f) -> tagged f = false ->
  1 <= k <= 4094 -> VLAN acc = k -> VLAN trunk = VLANTrunk ->
  ingressKey acc f = Some k /\
  exists out v f' v',
    egressFrame (mkVariants f k None None) trunk = Ret (out, v) /\
    parseFrame out = Ret (Some f') /\
    ingressKey trunk f' = Some k /\
    egressFrame (mkVariants f' k None None) acc = Ret (d, v').
Proof.
  intros Hp Hu Hk Ha Ht.
  pose proof (parseFrame_inv _ _ Hp) as (Hd & Hv & _).
  split. { unfold ingressKey, VLANTrunk, VLANUntaggedOnly. rewrite Hu, Ha.
    rewrite s32_small by lia. repeat split_match; bool_prop; try lia; done. }
  destruct (egressFrame_spec _ trunk (fresh_ok f k Hv)) as (v & E & _).
  assert (Hr : render f k trunk = add_tag k d).
  { unfold render, untaggedKey. rewrite Ht, Hu, key_u16, Hd by lia.
    destruct (Z.eqb_spec k 0); [lia | done]. }
  cbn in E. rewrite Hr in E. destruct Hv as [Hlen _]. rewrite Hd in Hlen.
  pose proof (parse_add_tag k d Hlen ltac:(lia)) as Hp'.
  pose proof (parseFrame_inv _ _ Hp') as (_ & Hv' & _).
  destruct (egressFrame_spec _ acc (fresh_ok _ k Hv')) as (v' & E' & _).
  exists (add_tag k d), v, (mkFrameView (add_tag k d) true k), v'.
  split_and!; try done.
  - unfold ingressKey. by rewrite Ht.
  - rewrite E'. unfold render. cbn -[strip_tag]. rewrite Ha, strip_add_tag by lia.
    destruct (Z.eqb_spec k VLANTrunk); [unfold VLANTrunk in *; lia | done].
Qed.

Lemma access_trunk_access_roundtrip_witness :
  exists f, parseFrame (make_bytes 60) = Ret (Some f) /\
  ingressKey (plainAttrs 100) f = Some 100 /\
  exists out v f' v',
    egressFrame (mkVariants f 100 None None) (plainAttrs 4095) = Ret (out, v) /\
    parseFrame out = Ret (Some f') /\
    ingressKey (plainAttrs 4095) f' = Some 100 /\
    egressFrame (mkVariants f' 100 None None) (plainAttrs 100) = Ret (make_bytes 60, v').
Proof.
  eexists. split; [reflexivity|].
  apply (access_trunk_access_roundtrip (make_bytes 60)); try reflexivity; lia.
Defined.

(** A trunk link keeps VLAN domains apart.  Whatever port a frame came in
    on, if its VLAN key is not the untagged domain, what a trunk port emits is
    classified back into the same key by the trunk port that receives it. *)
Theorem trunk_preserves_key a b d f k :
  attrs_ok a -> parseFrame d = Ret (Some f) -> ingressKey a f = Some k ->
  k <> untaggedKey -> VLAN b = VLANTrunk ->
  exists out v f',
    egressFrame (mkVariants f k None None) b = Ret (out, v) /\
    parseFrame out = Ret (Some f') /\ ingressKey b f' = Some k.
Proof.
  intros Ha Hp Hin Hk Hb. pose proof (ingressKey_bound _ _ _ _ Ha Hp Hin).
  pose proof (parseFrame_inv _ _ Hp) as (Hd & Hv & _).
  destruct (egressFrame_spec _ b (fresh_ok f k Hv)) as (v & E & _).
  unfold render in E. rewrite Hb in E. cbn -[add_tag Z.land] in E.
  rewrite (proj2 (Z.eqb_neq k untaggedKey) Hk), key_u16, Hd in E by lia. cbn in E.
  destruct (tagged f) eqn:Ht.
  - exists d, v, f. split_and!; try done.
    unfold ingressKey in *. rewrite Ht in *. rewrite Hb. cbn.
    destruct (VLAN a =? VLANTrunk); [done|]. by destruct (VLAN a =? _).
  - destruct Hv as [Hlen _]. rewrite Hd in Hlen.
    exists (add_tag k d), v, (mkFrameView (add_tag k d) true k).
    split_and!; [done | apply parse_add_tag; lia |].
    unfold ingressKey. by rewrite Hb.
Qed.

Lemma trunk_preserves_key_witness :
  exists f, parseFrame (make_bytes 60) = Ret (Some f) /\
  exists out v f',
    egressFrame (mkVariants f 7 None None) (plainAttrs 4095) = Ret (out, v) /\
    parseFrame out = Ret (Some f') /\ ingressKey (plainAttrs 4095) f' = Some 7.
Proof.
  eexists. split; [reflexivity|].
  apply (trunk_preserves_key (plainAttrs 7) (plainAttrs 4095) (make_bytes 60));
    try reflexivity; [split; [cbn; lia | discriminate] | discriminate].
Defined.
