(* ===== verification/Fdb.v ===== *)
(** The forwarding database: src/internal/switchcore/fdb.go.

    The table maps (VLAN key, MAC) to a port.  Entries are dynamic (learned,
    ageing, carrying the pointer of the live registry entry) or static
    (administered, naming the port by identifier only).  [FdbSpec] is the
    abstract contract: two separate tables, one per kind; every operation of
    the implementation is shown to implement it. *)
From S2P Require Import Prelude.

(** Pointers to [portEntry] objects. *)
Abbreviation loc := nat (only parsing).

Abbreviation fdbKey := (Z * list Z)%type (only parsing).

Record fdbEntry := mkFdbEntry {
  fe_portID : string;
  fe_port : option loc;
  fe_lastSeen : Z;
  fe_static : bool
}.

Record fdb := mkFdb {
  fdb_m : gmap fdbKey fdbEntry;
  fdb_maxAge : Z
}.

Definition newFDB (maxAge : Z) : fdb := mkFdb ∅ maxAge.

Definition learn (f : fdb) (now : Z) (vlan : Z) (mac : bytes) (srcID : string) (src : loc) : fdb :=
  let k := (vlan, mac) in
  let e' := mkFdbEntry srcID (Some src) now false in
  match fdb_m f !! k with
  | Some e => if fe_static e then f else mkFdb (<[k := e']> (fdb_m f)) (fdb_maxAge f)
  | None => mkFdb (<[k := e']> (fdb_m f)) (fdb_maxAge f)
  end.

Definition lookup_mac (f : fdb) (now : Z) (vlan : Z) (mac : bytes) : option loc * string :=
  match fdb_m f !! (vlan, mac) with
  | None => (None, EmptyString)
  | Some e =>
      if negb (fe_static e) && (fdb_maxAge f <? time_sub now (fe_lastSeen e))
      then (None, EmptyString)
      else (fe_port e, fe_portID e)
  end.

Definition setMaxAge (f : fdb) (d : Z) : fdb := mkFdb (fdb_m f) d.
Definition getMaxAge (f : fdb) : Z := fdb_maxAge f.

Definition addStatic (f : fdb) (now : Z) (vlan : Z) (mac : bytes) (portID : string) : fdb :=
  mkFdb (<[(vlan, mac) := mkFdbEntry portID None now true]> (fdb_m f)) (fdb_maxAge f).

Definition removeStatic (f : fdb) (vlan : Z) (mac : bytes) : fdb * option goerr :=
  let k := (vlan, mac) in
  let notFound := (f, Some (Errorf "static fdb entry not found" [])) in
  match fdb_m f !! k with
  | None => notFound
  | Some e =>
      if negb (fe_static e) then notFound
      else (mkFdb (delete k (fdb_m f)) (fdb_maxAge f), None)
  end.

Definition removeDynamic (f : fdb) (vlan : Z) (mac : bytes) : fdb * option goerr :=
  let k := (vlan, mac) in
  match fdb_m f !! k with
  | None => (f, Some (Errorf "fdb entry not found" []))
  | Some e =>
      if fe_static e
      then (f, Some (Errorf "entry is static; delete it via the static fdb API" []))
      else (mkFdb (delete k (fdb_m f)) (fdb_maxAge f), None)
  end.

(** Deleting the entries that satisfy a test while ranging over the map. *)
Definition delete_if (p : fdbKey -> fdbEntry -> bool) (m : gmap fdbKey fdbEntry)
    : gmap fdbKey fdbEntry :=
  filter (fun kv => p kv.1 kv.2 = false) m.
Definition select_if (p : fdbKey -> fdbEntry -> bool) (m : gmap fdbKey fdbEntry)
    : gmap fdbKey fdbEntry :=
  filter (fun kv => p kv.1 kv.2 = true) m.

Definition flushPort_test (portID : string) (k : fdbKey) (e : fdbEntry) : bool :=
  negb (fe_static e) && bool_decide (fe_portID e = portID).

Definition flushPort (f : fdb) (portID : string) : fdb :=
  mkFdb (delete_if (flushPort_test portID) (fdb_m f)) (fdb_maxAge f).

Definition flush_test (portID : string) (vlan : option Z) (k : fdbKey) (e : fdbEntry) : bool :=
  if fe_static e then false
  else if bool_decide (portID <> EmptyString) && bool_decide (fe_portID e <> portID) then false
  else match vlan with
       | Some v => k.1 =? v
       | None => true
       end.

(** [flush] also returns how many entries it removed. *)
Definition flush (f : fdb) (portID : string) (vlan : option Z) : fdb * Z :=
  (mkFdb (delete_if (flush_test portID vlan) (fdb_m f)) (fdb_maxAge f),
   Z.of_nat (size (select_if (flush_test portID vlan) (fdb_m f)))).

Definition expire_test (cutoff : Z) (k : fdbKey) (e : fdbEntry) : bool :=
  negb (fe_static e) && time_before (fe_lastSeen e) cutoff.

Definition expire (f : fdb) (now : Z) : fdb :=
  let cutoff := time_add now (- fdb_maxAge f) in
  mkFdb (delete_if (expire_test cutoff) (fdb_m f)) (fdb_maxAge f).

(** ** Snapshot rows *)

Definition hex : string := "0123456789abcdef".
Definition hex_digit (n : Z) : Ascii.ascii :=
  match String.get (Z.to_nat n) hex with Some c => c | None => Ascii.zero end.

Definition colon : Ascii.ascii := Ascii.ascii_of_nat 58.

Fixpoint macString_from (i : nat) (m : bytes) : string :=
  match m with
  | [] => EmptyString
  | b :: m' =>
      let digits := String (hex_digit (Z.shiftr b 4))
                      (String (hex_digit (Z.land b 0xf)) (macString_from (S i) m')) in
      if (0 <? i)%nat then String colon digits else digits
  end.
Definition macString (m : bytes) : string := macString_from 0 m.

Record FDBEntry := mkFDBEntry {
  row_VLAN : Z;
  row_MAC : string;
  row_PortID : string;
  row_Age : Z;
  row_Static : bool
}.

Definition snapshot_row (now maxAge : Z) (kv : fdbKey * fdbEntry) : option FDBEntry :=
  let '(k, e) := kv in
  let age := time_sub now (fe_lastSeen e) in
  if negb (fe_static e) && (maxAge <? age) then None
  else Some (mkFDBEntry k.1 (macString k.2) (fe_portID e)
              (if negb (fe_static e) then age else 0) (fe_static e)).

Definition snapshot (range : gmap fdbKey fdbEntry -> list (fdbKey * fdbEntry))
    (f : fdb) (now : Z) : list FDBEntry :=
  omap (snapshot_row now (fdb_maxAge f)) (range (fdb_m f)).

Definition macKey (mac : bytes) : result bytes :=
  if negb (len mac =? 6) then Err (Errorf "MAC must be 6 bytes" [])
  else Ok mac.

(** * Lemmas *)

Lemma lookup_delete_if (p : fdbKey -> fdbEntry -> bool) (m : gmap fdbKey fdbEntry) (k : fdbKey) :
  delete_if p m !! k = match m !! k with
                       | Some e => if p k e then None else Some e
                       | None => None
                       end.
Proof.
  unfold delete_if. destruct (m !! k) as [e|] eqn:E.
  - destruct (p k e) eqn:P.
    + apply map_lookup_filter_None. right. intros x Hx. simplify_eq. cbn. congruence.
    + by apply map_lookup_filter_Some.
  - apply map_lookup_filter_None. by left.
Qed.

Lemma lookup_select_if (p : fdbKey -> fdbEntry -> bool) (m : gmap fdbKey fdbEntry) (k : fdbKey) :
  select_if p m !! k = match m !! k with
                       | Some e => if p k e then Some e else None
                       | None => None
                       end.
Proof.
  unfold select_if. destruct (m !! k) as [e|] eqn:E.
  - destruct (p k e) eqn:P.
    + by apply map_lookup_filter_Some.
    + apply map_lookup_filter_None. right. intros x Hx. simplify_eq. cbn. congruence.
  - apply map_lookup_filter_None. by left.
Qed.

Lemma lookup_learn f now vlan mac id p (k : fdbKey) :
  fdb_m (learn f now vlan mac id p) !! k =
    if decide (k = (vlan, mac)) then
      match fdb_m f !! k with
      | Some e => if fe_static e then Some e else Some (mkFdbEntry id (Some p) now false)
      | None => Some (mkFdbEntry id (Some p) now false)
      end
    else fdb_m f !! k.
Proof.
  unfold learn. case_decide; subst.
  - repeat split_match; simplify_map_eq; auto.
  - repeat split_match; cbn; auto; by rewrite lookup_insert_ne.
Qed.

Lemma learn_maxAge f now vlan mac id p :
  fdb_maxAge (learn f now vlan mac id p) = fdb_maxAge f.
Proof. unfold learn. by repeat split_match. Qed.

(** * Abstract specification *)

Module FdbSpec.

(** Administered entries and learned entries live in tables of their own. *)
Record spec := mkSpec {
  sp_static : gmap fdbKey string;
  sp_dyn : gmap fdbKey (string * option loc * Z);
  sp_maxAge : Z
}.

Definition new (maxAge : Z) : spec := mkSpec ∅ ∅ maxAge.

Inductive op : Type :=
  | Learn (now vlan : Z) (mac : bytes) (id : string) (p : loc)
  | Lookup (now vlan : Z) (mac : bytes)
  | SetMaxAge (d : Z)
  | AddStatic (now vlan : Z) (mac : bytes) (id : string)
  | RemoveStatic (vlan : Z) (mac : bytes)
  | RemoveDynamic (vlan : Z) (mac : bytes)
  | FlushPort (id : string)
  | Flush (id : string) (vlan : option Z)
  | Expire (now : Z).

(** What the caller of an operation sees. *)
Inductive obs : Type :=
  | ONone
  | OFound (r : option loc * string)
  | OErr (e : option goerr)
  | OCount (n : Z).

Definition drop_dyn (p : fdbKey -> string * option loc * Z -> bool)
    (m : gmap fdbKey (string * option loc * Z)) : gmap fdbKey (string * option loc * Z) :=
  filter (fun kv => p kv.1 kv.2 = false) m.

Definition flush_match (id : string) (vlan : option Z) (k : fdbKey)
    (x : string * option loc * Z) : bool :=
  (bool_decide (id = EmptyString) || bool_decide (x.1.1 = id)) &&
  match vlan with Some v => k.1 =? v | None => true end.

Definition step (o : op) (s : spec) : spec * obs :=
  match o with
  | Learn now vlan mac id p =>
      (match sp_static s !! (vlan, mac) with
       | Some _ => s
       | None => mkSpec (sp_static s) (<[(vlan, mac) := (id, Some p, now)]> (sp_dyn s)) (sp_maxAge s)
       end, ONone)
  | Lookup now vlan mac =>
      (s, OFound match sp_static s !! (vlan, mac) with
                 | Some id => (None, id)
                 | None => match sp_dyn s !! (vlan, mac) with
                   | Some (id, p, seen) =>
                       if sp_maxAge s <? time_sub now seen then (None, EmptyString) else (p, id)
                   | None => (None, EmptyString)
                   end
                 end)
  | SetMaxAge d => (mkSpec (sp_static s) (sp_dyn s) d, ONone)
  | AddStatic _ vlan mac id =>
      (mkSpec (<[(vlan, mac) := id]> (sp_static s)) (delete (vlan, mac) (sp_dyn s)) (sp_maxAge s), ONone)
  | RemoveStatic vlan mac =>
      match sp_static s !! (vlan, mac) with
      | Some _ => (mkSpec (delete (vlan, mac) (sp_static s)) (sp_dyn s) (sp_maxAge s), OErr None)
      | None => (s, OErr (Some (Errorf "static fdb entry not found" [])))
      end
  | RemoveDynamic vlan mac =>
      match sp_dyn s !! (vlan, mac) with
      | Some _ => (mkSpec (sp_static s) (delete (vlan, mac) (sp_dyn s)) (sp_maxAge s), OErr None)
      | None => (s, OErr (Some (match sp_static s !! (vlan, mac) with
                  | Some _ => Errorf "entry is static; delete it via the static fdb API" []
                  | None => Errorf "fdb entry not found" []
                  end)))
      end
  | FlushPort id =>
      (mkSpec (sp_static s) (drop_dyn (fun _ x => bool_decide (x.1.1 = id)) (sp_dyn s)) (sp_maxAge s), ONone)
  | Flush id vlan =>
      let kept := drop_dyn (flush_match id vlan) (sp_dyn s) in
      (mkSpec (sp_static s) kept (sp_maxAge s),
       OCount (Z.of_nat (size (sp_dyn s)) - Z.of_nat (size kept)))
  | Expire now =>
      (mkSpec (sp_static s) (drop_dyn (fun _ x => x.2 <? now - sp_maxAge s) (sp_dyn s)) (sp_maxAge s), ONone)
  end.

End FdbSpec.

(** The same operations on the implementation. *)
Definition fdb_step (o : FdbSpec.op) (f : fdb) : fdb * FdbSpec.obs :=
  match o with
  | FdbSpec.Learn now vlan mac id p => (learn f now vlan mac id p, FdbSpec.ONone)
  | FdbSpec.Lookup now vlan mac => (f, FdbSpec.OFound (lookup_mac f now vlan mac))
  | FdbSpec.SetMaxAge d => (setMaxAge f d, FdbSpec.ONone)
  | FdbSpec.AddStatic now vlan mac id => (addStatic f now vlan mac id, FdbSpec.ONone)
  | FdbSpec.RemoveStatic vlan mac => let '(f', e) := removeStatic f vlan mac in (f', FdbSpec.OErr e)
  | FdbSpec.RemoveDynamic vlan mac => let '(f', e) := removeDynamic f vlan mac in (f', FdbSpec.OErr e)
  | FdbSpec.FlushPort id => (flushPort f id, FdbSpec.ONone)
  | FdbSpec.Flush id vlan => let '(f', n) := flush f id vlan in (f', FdbSpec.OCount n)
  | FdbSpec.Expire now => (expire f now, FdbSpec.ONone)
  end.

(** The observations of a sequence of operations. *)
Fixpoint trace {S} (step : FdbSpec.op -> S -> S * FdbSpec.obs) (ops : list FdbSpec.op) (s : S)
    : list FdbSpec.obs :=
  match ops with
  | [] => []
  | o :: ops' => let '(s', ob) := step o s in ob :: trace step ops' s'
  end.

(** Representation invariant: exactly the dynamic entries carry a pointer. *)
Definition fdb_ok (f : fdb) : Prop :=
  map_Forall (fun _ e => fe_static e = true <-> fe_port e = None) (fdb_m f).

Definition static_part (e : fdbEntry) : option string :=
  if fe_static e then Some (fe_portID e) else None.
Definition dyn_part (e : fdbEntry) : option (string * option loc * Z) :=
  if fe_static e then None else Some (fe_portID e, fe_port e, fe_lastSeen e).

(** Abstraction function. *)
Definition abs (f : fdb) : FdbSpec.spec :=
  FdbSpec.mkSpec (omap static_part (fdb_m f)) (omap dyn_part (fdb_m f)) (fdb_maxAge f).

Lemma lookup_drop_dyn (q : fdbKey -> string * option loc * Z -> bool)
    (m : gmap fdbKey (string * option loc * Z)) (k : fdbKey) :
  FdbSpec.drop_dyn q m !! k = match m !! k with
                              | Some x => if q k x then None else Some x
                              | None => None
                              end.
Proof.
  unfold FdbSpec.drop_dyn. destruct (m !! k) as [e|] eqn:E.
  - destruct (q k e) eqn:P.
    + apply map_lookup_filter_None. right. intros x Hx. simplify_eq. cbn. congruence.
    + by apply map_lookup_filter_Some.
  - apply map_lookup_filter_None. by left.
Qed.

Section refine.
Context (f : fdb).
Context (p : fdbKey -> fdbEntry -> bool) (q : fdbKey -> string * option loc * Z -> bool).
Context (Hstatic : forall k e, fe_static e = true -> p k e = false).
Context (Hdyn : forall k e, fe_static e = false ->
  p k e = q k (fe_portID e, fe_port e, fe_lastSeen e)).

Lemma delete_if_abs a :
  abs (mkFdb (delete_if p (fdb_m f)) a) =
  FdbSpec.mkSpec (FdbSpec.sp_static (abs f)) (FdbSpec.drop_dyn q (FdbSpec.sp_dyn (abs f))) a.
Proof using All.
  unfold abs; cbn. f_equal; apply map_eq; intros k.
  - rewrite !lookup_omap, lookup_delete_if. destruct (fdb_m f !! k) as [e|]; [|done].
    cbn. unfold static_part. destruct (fe_static e) eqn:E.
    + rewrite Hstatic by done. cbn. by rewrite ?E.
    + destruct (p k e); cbn; by rewrite ?E.
  - rewrite lookup_drop_dyn, !lookup_omap, lookup_delete_if.
    destruct (fdb_m f !! k) as [e|]; [|done].
    cbn. unfold dyn_part. destruct (fe_static e) eqn:E.
    + rewrite Hstatic by done. cbn. by rewrite E.
    + rewrite (Hdyn k e E). cbn. destruct (q k _); cbn; by rewrite ?E.
Qed.

Lemma select_if_size :
  Z.of_nat (size (select_if p (fdb_m f))) =
  Z.of_nat (size (FdbSpec.sp_dyn (abs f))) -
  Z.of_nat (size (FdbSpec.drop_dyn q (FdbSpec.sp_dyn (abs f)))).
Proof using All.
  rewrite <- !size_dom.
  assert (E : dom (FdbSpec.sp_dyn (abs f)) =
    dom (select_if p (fdb_m f)) ∪ dom (FdbSpec.drop_dyn q (FdbSpec.sp_dyn (abs f)))
    /\ dom (select_if p (fdb_m f)) ## dom (FdbSpec.drop_dyn q (FdbSpec.sp_dyn (abs f)))).
  { assert (Hk : forall k, (k ∈ dom (FdbSpec.sp_dyn (abs f)) <->
       k ∈ dom (select_if p (fdb_m f)) \/
       k ∈ dom (FdbSpec.drop_dyn q (FdbSpec.sp_dyn (abs f)))) /\
       (k ∈ dom (select_if p (fdb_m f)) ->
        k ∈ dom (FdbSpec.drop_dyn q (FdbSpec.sp_dyn (abs f))) -> False)).
    { intros k. rewrite !elem_of_dom, lookup_select_if, lookup_drop_dyn. cbn.
      rewrite lookup_omap. destruct (fdb_m f !! k) as [e|]; cbn; [|unfold is_Some; naive_solver].
      unfold dyn_part. destruct (fe_static e) eqn:E.
      - rewrite Hstatic by done. unfold is_Some. naive_solver.
      - rewrite (Hdyn k e E). destruct (q k _); unfold is_Some; naive_solver. }
    split; [apply set_eq; intros k; rewrite elem_of_union; apply Hk|].
    intros k H1 H2. by apply (Hk k). }
  destruct E as [-> Hd]. rewrite size_union by done. lia.
Qed.

Lemma delete_if_ok a : fdb_ok f -> fdb_ok (mkFdb (delete_if p (fdb_m f)) a).
Proof.
  intros Hok k e. cbn. rewrite lookup_delete_if.
  destruct (fdb_m f !! k) as [e'|] eqn:E; [|done].
  destruct (p k e'); [done|]. intros [= <-]. by apply (Hok k e').
Qed.
End refine.

Lemma learn_refines f now vlan mac id p :
  abs (learn f now vlan mac id p) = (FdbSpec.step (FdbSpec.Learn now vlan mac id p) (abs f)).1.
Proof.
  cbn. unfold abs, learn. rewrite lookup_omap.
  destruct (fdb_m f !! (vlan, mac)) as [e|] eqn:E; cbn;
    [unfold static_part; destruct (fe_static e) eqn:Es; cbn; [done|]|];
    (f_equal; apply map_eq; intros k; rewrite ?lookup_insert, ?lookup_omap;
     rewrite ?lookup_insert; case_decide; subst; rewrite ?E; cbn;
     unfold static_part, dyn_part; rewrite ?Es; done).
Qed.

Lemma addStatic_refines f now vlan mac id :
  abs (addStatic f now vlan mac id) = (FdbSpec.step (FdbSpec.AddStatic now vlan mac id) (abs f)).1.
Proof.
  cbn. unfold abs, addStatic; cbn. f_equal; apply map_eq; intros k;
    rewrite ?lookup_insert, ?lookup_delete, ?lookup_omap, ?lookup_insert;
    case_decide; subst; done.
Qed.

(** Deleting one entry of either kind. *)
Lemma delete_abs f k a :
  abs (mkFdb (delete k (fdb_m f)) a) =
  FdbSpec.mkSpec (delete k (FdbSpec.sp_static (abs f))) (delete k (FdbSpec.sp_dyn (abs f))) a.
Proof.
  unfold abs; cbn. f_equal; apply map_eq; intros k';
    rewrite ?lookup_delete, ?lookup_omap, ?lookup_delete; by case_decide.
Qed.

Lemma lookup_static_part f k e :
  fdb_m f !! k = Some e -> FdbSpec.sp_static (abs f) !! k = static_part e.
Proof. intros E. cbn. by rewrite lookup_omap, E. Qed.
Lemma lookup_dyn_part f k e :
  fdb_m f !! k = Some e -> FdbSpec.sp_dyn (abs f) !! k = dyn_part e.
Proof. intros E. cbn. by rewrite lookup_omap, E. Qed.
Lemma lookup_abs_None f k :
  fdb_m f !! k = None ->
  FdbSpec.sp_static (abs f) !! k = None /\ FdbSpec.sp_dyn (abs f) !! k = None.
Proof. intros E. cbn. by rewrite !lookup_omap, E. Qed.

Lemma removeStatic_refines f vlan mac :
  FdbSpec.step (FdbSpec.RemoveStatic vlan mac) (abs f) =
  let '(f', e) := removeStatic f vlan mac in (abs f', FdbSpec.OErr e).
Proof.
  unfold removeStatic. cbn -[abs].
  destruct (fdb_m f !! (vlan, mac)) as [e|] eqn:E.
  - rewrite (lookup_static_part _ _ _ E). pose proof (lookup_dyn_part _ _ _ E) as D.
    unfold static_part, dyn_part in *. destruct (fe_static e); cbn -[abs]; [|done].
    by rewrite delete_abs, (delete_id (FdbSpec.sp_dyn _)).
  - by rewrite (proj1 (lookup_abs_None _ _ E)).
Qed.

Lemma removeDynamic_refines f vlan mac :
  FdbSpec.step (FdbSpec.RemoveDynamic vlan mac) (abs f) =
  let '(f', e) := removeDynamic f vlan mac in (abs f', FdbSpec.OErr e).
Proof.
  unfold removeDynamic. cbn -[abs].
  destruct (fdb_m f !! (vlan, mac)) as [e|] eqn:E.
  - rewrite (lookup_dyn_part _ _ _ E). pose proof (lookup_static_part _ _ _ E) as D.
    unfold static_part, dyn_part in *. destruct (fe_static e); cbn -[abs]; [by rewrite D|].
    by rewrite delete_abs, (delete_id (FdbSpec.sp_static _)).
  - by destruct (lookup_abs_None _ _ E) as [-> ->].
Qed.

Lemma lookup_refines f now vlan mac :
  fdb_ok f ->
  FdbSpec.step (FdbSpec.Lookup now vlan mac) (abs f) =
  (abs f, FdbSpec.OFound (lookup_mac f now vlan mac)).
Proof.
  intros Hok. cbn -[abs]. unfold lookup_mac.
  destruct (fdb_m f !! (vlan, mac)) as [e|] eqn:E.
  - rewrite (lookup_static_part _ _ _ E), (lookup_dyn_part _ _ _ E).
    unfold static_part, dyn_part. pose proof (Hok _ _ E) as [Hs _].
    destruct (fe_static e); cbn; [by rewrite Hs | done].
  - by destruct (lookup_abs_None _ _ E) as [-> ->].
Qed.

Lemma flush_tests id vlan :
  (forall k e, fe_static e = true -> flush_test id vlan k e = false) /\
  (forall k e, fe_static e = false -> flush_test id vlan k e =
     FdbSpec.flush_match id vlan k (fe_portID e, fe_port e, fe_lastSeen e)).
Proof.
  unfold flush_test, FdbSpec.flush_match. split; intros k e ->; [done|]. cbn.
  destruct (decide (id = EmptyString)) as [->|Hid].
  - by rewrite (bool_decide_eq_false_2 (EmptyString <> EmptyString)) by (intros []; done).
  - rewrite (bool_decide_eq_true_2 (id <> EmptyString)), (bool_decide_eq_false_2 (id = EmptyString)) by done.
    destruct (decide (fe_portID e = id)).
    + by rewrite (bool_decide_eq_false_2 (fe_portID e <> id)), bool_decide_eq_true_2 by tauto.
    + by rewrite (bool_decide_eq_true_2 (fe_portID e <> id)), bool_decide_eq_false_2 by done.
Qed.

Lemma fdb_step_refines o f :
  fdb_ok f ->
  FdbSpec.step o (abs f) = (abs (fdb_step o f).1, (fdb_step o f).2).
Proof.
  intros Hok. destruct o; cbn [fdb_step fst snd].
  - by rewrite learn_refines.
  - by apply lookup_refines.
  - done.
  - by rewrite addStatic_refines.
  - rewrite removeStatic_refines. by destruct (removeStatic f vlan mac).
  - rewrite removeDynamic_refines. by destruct (removeDynamic f vlan mac).
  - cbn -[abs]. unfold flushPort. erewrite delete_if_abs; [reflexivity|..];
      unfold flushPort_test; intros ? ? ->; done.
  - destruct (flush_tests id vlan) as [H1 H2]. cbn -[abs].
    by erewrite delete_if_abs, select_if_size.
  - cbn -[abs]. unfold expire. erewrite delete_if_abs; [reflexivity|..];
      unfold expire_test; intros ? ? ->; done.
Qed.

Lemma fdb_step_ok o f : fdb_ok f -> fdb_ok (fdb_step o f).1.
Proof.
  intros Hok. destruct o; cbn [fdb_step fst]; try done.
  - intros k e. rewrite lookup_learn. case_decide; [|apply Hok].
    destruct (fdb_m f !! k) as [e'|] eqn:E; [destruct (fe_static e') eqn:Es|];
      intros [= <-]; [by apply (Hok k)|done|done].
  - intros k e. cbn. rewrite lookup_insert. case_decide; [|apply Hok].
    by intros [= <-].
  - unfold removeStatic. repeat split_match; simplify_eq; try done. by apply map_Forall_delete.
  - unfold removeDynamic. repeat split_match; simplify_eq; try done. by apply map_Forall_delete.
  - by apply delete_if_ok.
  - by apply delete_if_ok.
  - by apply delete_if_ok.
Qed.

Lemma trace_refines ops f :
  fdb_ok f -> trace fdb_step ops f = trace FdbSpec.step ops (abs f).
Proof.
  revert f; induction ops as [|o ops IH]; intros f Hok; cbn [trace]; [done|].
  rewrite fdb_step_refines by done. pose proof (fdb_step_ok o f Hok).
  destruct (fdb_step o f) as [f' ob]; cbn in *. f_equal. by apply IH.
Qed.

(** C17: the table implements its contract.  Over any sequence of operations on
    a fresh table, every lookup result, error and flush count is the one of
    the abstract specification with separate static and dynamic tables: static
    entries shadow learned ones, never age, and no learning or flush touches
    them. *)
Theorem fdb_refinement maxAge ops :
  trace fdb_step ops (newFDB maxAge) = trace FdbSpec.step ops (FdbSpec.new maxAge).
Proof.
  rewrite trace_refines by by apply map_Forall_empty.
  unfold abs; cbn. by rewrite !omap_empty.
Qed.

(** Entries the sweep may drop are those lookups already ignore. *)
Lemma expire_test_stale f t t' e k :
  fdb_maxAge f < maxInt64 -> t <= t' ->
  expire_test (time_add t (- fdb_maxAge f)) k e = true ->
  negb (fe_static e) && (fdb_maxAge f <? time_sub t' (fe_lastSeen e)) = true.
Proof.
  unfold expire_test, time_add, time_before, time_sub, minInt64, maxInt64.
  intros. bool_prop. rewrite H1. cbn. apply Z.ltb_lt. lia.
Qed.

Lemma omap_filter_None {A B} (g : A -> option B) (P : A -> Prop) `{forall x, Decision (P x)} (l : list A) :
  (forall x, ~ P x -> g x = None) -> omap g (filter P l) = omap g l.
Proof.
  intros Hg. induction l as [|x l IH]; [done|]. rewrite filter_cons.
  case_decide as HP; cbn; [by rewrite IH|]. by rewrite (Hg x HP), IH.
Qed.

(** Dropping bindings that yield no row does not change the rows. *)
Lemma omap_delete_if {B : Type} (p : fdbKey -> fdbEntry -> bool) (m : gmap fdbKey fdbEntry)
    (g : fdbKey * fdbEntry -> option B) :
  (forall k e, p k e = true -> g (k, e) = None) ->
  omap g (map_to_list (delete_if p m)) ≡ₚ omap g (map_to_list m).
Proof.
  intros Hg. unfold delete_if. rewrite map_filter_alt, map_to_list_to_map.
  - rewrite omap_filter_None; [done|]. intros [k e] Hne. apply Hg.
    cbn in Hne. by destruct (p k e).
  - eapply sublist_NoDup; [apply (NoDup_fst_map_to_list m)|].
    apply fmap_sublist, sublist_filter.
Qed.

Lemma snapshot_perm range f t :
  range_order range -> snapshot range f t ≡ₚ snapshot map_to_list f t.
Proof. intros Hr. unfold snapshot. by rewrite (Hr (fdb_m f)). Qed.

(** The ageing sweep is invisible.  Running [expire] at time [t] changes no
    lookup made at [t] or later, and no row of a later snapshot, in whatever
    order the map is ranged over. *)
Theorem expire_transparent range f t t' vlan mac :
  range_order range -> fdb_maxAge f < maxInt64 -> t <= t' ->
  lookup_mac (expire f t) t' vlan mac = lookup_mac f t' vlan mac /\
  snapshot range (expire f t) t' ≡ₚ snapshot range f t'.
Proof.
  intros Hr Hmax Ht. split.
  - unfold lookup_mac, expire; cbn. rewrite lookup_delete_if.
    destruct (fdb_m f !! (vlan, mac)) as [e|]; [|done].
    destruct (expire_test _ _ e) eqn:E; [|done].
    by rewrite (expire_test_stale _ _ _ _ _ Hmax Ht E).
  - rewrite (snapshot_perm range (expire f t)), (snapshot_perm range f) by done.
    apply omap_delete_if. intros k e He.
    unfold snapshot_row. by rewrite (expire_test_stale _ _ _ _ _ Hmax Ht He).
Qed.

Lemma expire_transparent_witness :
  let f := learn (newFDB 10) 0 1 (make_bytes 6) "vm1" 0 in
  lookup_mac (expire f 20) 20 1 (make_bytes 6) = lookup_mac f 20 1 (make_bytes 6) /\
  snapshot map_to_list (expire f 20) 20 ≡ₚ snapshot map_to_list f 20.
Proof.
  apply (expire_transparent map_to_list); [by intros m | vm_compute; reflexivity | lia].
Defined.

(** The API's view agrees with forwarding.  The rows of a snapshot are
    exactly the entries lookups find at that time: each row comes from a MAC
    whose lookup yields the row's port, and every lookup hit has its row. *)
Theorem snapshot_agrees range f t vlan :
  range_order range ->
  (forall row, row ∈ snapshot range f t -> row_VLAN row = vlan ->
     exists mac, row_MAC row = macString mac /\
       (lookup_mac f t vlan mac).2 = row_PortID row) /\
  (forall mac id, (lookup_mac f t vlan mac).2 = id -> id <> EmptyString ->
     exists row, row ∈ snapshot range f t /\ row_VLAN row = vlan /\
       row_MAC row = macString mac /\ row_PortID row = id).
Proof.
  intros Hr.
  assert (Hin : forall row, row ∈ snapshot range f t <->
    exists k e, fdb_m f !! k = Some e /\ snapshot_row t (fdb_maxAge f) (k, e) = Some row).
  { intros row. unfold snapshot. rewrite (Hr (fdb_m f)), list_elem_of_omap. split.
    - intros ([k e] & Hm%elem_of_map_to_list & Hx). eauto.
    - intros (k & e & Hm & Hx). exists (k, e). by rewrite elem_of_map_to_list. }
  split.
  - intros row ([v mac] & e & Hm & Hx)%Hin <-. cbn in Hx.
    destruct (negb (fe_static e) && _) eqn:E; [done|]. simplify_eq. cbn.
    exists mac. split; [done|]. unfold lookup_mac. by rewrite Hm, E.
  - intros mac id <- Hne. unfold lookup_mac in *.
    destruct (fdb_m f !! (vlan, mac)) as [e|] eqn:Hm; [|done].
    destruct (negb (fe_static e) && _) eqn:E; [done|]. cbn in *.
    eexists (mkFDBEntry _ _ _ _ _). split; [|done]. apply Hin.
    exists (vlan, mac), e. split; [done|]. cbn. by rewrite E.
Qed.

Lemma snapshot_agrees_witness :
  let f := learn (newFDB 10) 0 1 (make_bytes 6) "vm1" 0 in
  exists row, row ∈ snapshot map_to_list f 5 /\ row_VLAN row = 1 /\
    row_MAC row = macString (make_bytes 6) /\ row_PortID row = "vm1"%string.
Proof.
  apply (snapshot_agrees map_to_list); [by intros m | vm_compute; reflexivity | discriminate].
Defined.
