(* ===== verification/Protect.v ===== *)
(** Loop-prevention building blocks: src/internal/switchcore/protect.go.

    Reserved group addresses, BPDU recognition, the storm-control token bucket
    and loop probes.  The bucket's refill is computed in binary64 arithmetic,
    as the code does; [SpecFloat] gives its exact semantics. *)
From Stdlib Require Import SpecFloat.
From S2P Require Import Prelude Vlan.

(** * Reserved addresses and BPDUs *)

Definition mac_at (m : bytes) (i : nat) : Z := nth i m 0.

Definition isReservedGroupMAC (m : bytes) : bool :=
  (mac_at m 0 =? 0x01) && (mac_at m 1 =? 0x80) && (mac_at m 2 =? 0xc2) &&
  (mac_at m 3 =? 0x00) && (mac_at m 4 =? 0x00) && (Z.land (mac_at m 5) 0xf0 =? 0x00).

Definition bpduDstMAC : bytes := [0x01; 0x80; 0xc2; 0x00; 0x00; 0x00].

Definition isBPDU (dst frame : bytes) : res bool :=
  if negb (bool_decide (dst = bpduDstMAC)) then Ret false
  else if len frame <? ethHeaderLen + 3 then Ret false
  else
    et ← slice frame 12 14;
    if 1500 <? be_get et then Ret false
    else
      b14 ← index frame 14;
      if negb (b14 =? 0x42) then Ret false
      else
        b15 ← index frame 15;
        if negb (b15 =? 0x42) then Ret false
        else
          b16 ← index frame 16;
          Ret (b16 =? 0x03).

(** * Storm control *)

Record stormBucket := mkBucket {
  tokens : Z;
  lastNano : Z
}.

Definition newBucket : stormBucket := mkBucket 0 0.

(** binary64 conversions and operations, rounding to nearest even. *)
Definition float64 (z : Z) : spec_float := binary_normalize 53 1024 z 0 false.
Definition fdiv : spec_float -> spec_float -> spec_float := SFdiv 53 1024.
Definition fmul : spec_float -> spec_float -> spec_float := SFmul 53 1024.

(** [int64(f)]: truncation towards zero.  Go leaves the conversion of an
    out-of-range value to the platform; [ovf] is what the platform yields. *)
Definition int64_of_float (ovf : Z) (f : spec_float) : Z :=
  match f with
  | S754_finite s m e =>
      let n := if 0 <=? e then Zpos m * 2 ^ e else Zpos m / 2 ^ (- e) in
      let z := if s then - n else n in
      if (minInt64 <=? z) && (z <=? maxInt64) then z else ovf
  | S754_zero _ => 0
  | _ => ovf
  end.

Definition refill (ovf elapsed pps : Z) : Z :=
  int64_of_float ovf (fmul (fdiv (float64 elapsed) (float64 1000000000)) (float64 pps)).

(** Deliveries of one port are taken one at a time, so the compare-and-swap of
    [lastNano] always succeeds. *)
Definition allow (ovf : Z) (b : stormBucket) (now pps : Z) : stormBucket * bool :=
  let '(b, last) :=
    if lastNano b =? 0 then (mkBucket pps now, now) else (b, lastNano b) in
  let elapsed := s64 (now - last) in
  let b :=
    if 0 <? elapsed then
      let t := s64 (tokens b + refill ovf elapsed pps) in
      mkBucket (if pps <? t then pps else t) now
    else b in
  let t := s64 (tokens b - 1) in
  (mkBucket t (lastNano b), 0 <=? t).

(** Feed a bucket with frames at the given instants; count those let through. *)
Fixpoint allow_seq (ovf : Z) (b : stormBucket) (pps : Z) (times : list Z) : stormBucket * Z :=
  match times with
  | [] => (b, 0)
  | t :: times' =>
      let '(b', ok) := allow ovf b t pps in
      let '(b'', n) := allow_seq ovf b' pps times' in
      (b'', (if ok : bool then 1 else 0) + n)
  end.

(** * Loop probes *)

Definition loopProbeEtherType : Z := 0x88B5.
Definition loopProbeMagic : Z := 0x67767377.
Definition defaultLoopProbeInterval : Z := 2 * Second.
Definition loopProbeDst : bytes := [0x03; 0x67; 0x76; 0x73; 0x77; 0x00].

Definition buildLoopProbe (bridgeID : Z) : bytes :=
  let f := make_bytes 60 in
  let f := copy_at f 0 loopProbeDst in
  let f := copy_at f 6 [0x02] in
  let f := copy_at f 7 (be_put 4 (u32 (Z.shiftr bridgeID 16))) in
  let f := copy_at f 11 [u8 (Z.shiftr bridgeID 8)] in
  let f := copy_at f 12 (be_put 2 loopProbeEtherType) in
  let f := copy_at f 14 (be_put 4 loopProbeMagic) in
  copy_at f 18 (be_put 8 bridgeID).

Definition isOwnLoopProbe (instanceID : Z) (frame : bytes) : res bool :=
  if len frame <? 26 then Ret false
  else
    et ← slice frame 12 14;
    if negb (be_get et =? loopProbeEtherType) then Ret false
    else
      magic ← slice frame 14 18;
      if negb (be_get magic =? loopProbeMagic) then Ret false
      else
        id ← slice frame 18 26;
        Ret (be_get id =? instanceID).

(** * Lemmas *)

Lemma isBPDU_total dst frame : exists b, isBPDU dst frame = Ret b.
Proof.
  unfold isBPDU, ethHeaderLen. split_match; [eauto|].
  destruct (Z.ltb_spec (len frame) (14 + 3)); [eauto|].
  rewrite (slice_ret frame 12 14), bind_Ret by lia. split_match; [eauto|].
  rewrite (index_ret frame 14), bind_Ret by lia. split_match; [eauto|].
  rewrite (index_ret frame 15), bind_Ret by lia. split_match; [eauto|].
  rewrite (index_ret frame 16), bind_Ret by lia. eauto.
Qed.

Lemma isBPDU_len dst frame : isBPDU dst frame = Ret true -> 17 <= len frame.
Proof.
  unfold isBPDU, ethHeaderLen. split_match; [done|].
  destruct (Z.ltb_spec (len frame) (14 + 3)); [done|]. lia.
Qed.

Lemma isOwnLoopProbe_total id frame : exists b, isOwnLoopProbe id frame = Ret b.
Proof.
  unfold isOwnLoopProbe. destruct (Z.ltb_spec (len frame) 26); [eauto|].
  rewrite (slice_ret frame 12 14), bind_Ret by lia. split_match; [eauto|].
  rewrite (slice_ret frame 14 18), bind_Ret by lia. split_match; [eauto|].
  rewrite (slice_ret frame 18 26), bind_Ret by lia. eauto.
Qed.

Lemma s64_small z : minInt64 <= z <= maxInt64 -> s64 z = z.
Proof. unfold minInt64, maxInt64, s64. intros. rewrite Z.mod_small; lia. Qed.

(** Instants [t0], [t0 + gap], [t0 + 2 gap], ... *)
Fixpoint spaced (t0 gap : Z) (n : nat) : list Z :=
  match n with
  | O => []
  | S n' => t0 :: spaced (t0 + gap) gap n'
  end.

(** One frame that arrives before a whole token has accrued. *)
Lemma allow_no_refill ovf b now pps gap :
  now = lastNano b + gap -> 0 < lastNano b -> 0 <= gap -> now <= maxInt64 ->
  gap = 0 \/ refill ovf gap pps = 0 ->
  minInt64 < tokens b <= pps -> pps < 2 ^ 32 ->
  allow ovf b now pps = (mkBucket (tokens b - 1) now, 0 <=? tokens b - 1).
Proof.
  intros -> Hl Hg Hn Hr [Ht1 Ht2] Hp. unfold allow.
  rewrite (proj2 (Z.eqb_neq _ 0)) by lia.
  replace (lastNano b + gap - lastNano b) with gap by lia.
  rewrite (s64_small gap) by (unfold minInt64, maxInt64 in *; lia).
  destruct (Z.ltb_spec 0 gap) as [Hpos|Hz]; cbn [tokens lastNano].
  - destruct Hr as [->|Hr]; [lia|]. rewrite Hr, Z.add_0_r.
    rewrite (s64_small (tokens b)) by (unfold minInt64, maxInt64 in *; lia).
    rewrite (proj2 (Z.ltb_ge pps (tokens b))) by lia.
    rewrite s64_small by (unfold minInt64, maxInt64 in *; lia). done.
  - replace (lastNano b + gap) with (lastNano b) by lia.
    rewrite s64_small by (unfold minInt64, maxInt64 in *; lia). done.
Qed.

Lemma allow_seq_no_refill ovf pps gap n b :
  0 < lastNano b -> 0 <= gap -> lastNano b + gap * Z.of_nat n <= maxInt64 ->
  gap = 0 \/ refill ovf gap pps = 0 ->
  minInt64 + Z.of_nat n < tokens b <= pps -> pps < 2 ^ 32 ->
  (allow_seq ovf b pps (spaced (lastNano b + gap) gap n)).2 =
  Z.max 0 (Z.min (Z.of_nat n) (tokens b)).
Proof.
  revert b; induction n as [|n IH]; intros b Hl Hg Hm Hr Ht Hp; [cbn; lia|].
  cbn [spaced allow_seq].
  rewrite (allow_no_refill ovf b _ pps gap) by (auto; nia).
  specialize (IH (mkBucket (tokens b - 1) (lastNano b + gap))). cbn [tokens lastNano] in IH.
  destruct (allow_seq ovf (mkBucket (tokens b - 1) (lastNano b + gap)) pps
    (spaced (lastNano b + gap + gap) gap n)) as [b'' m] eqn:E.
  cbn [snd] in *. rewrite IH by (auto; nia).
  destruct (Z.leb_spec 0 (tokens b - 1)); lia.
Qed.

(** A fresh bucket fed with frames spaced so that no gap yields a token. *)
Lemma storm_budget ovf pps gap n t0 :
  0 < t0 -> 0 <= gap -> t0 + gap * Z.of_nat n <= maxInt64 ->
  gap = 0 \/ refill ovf gap pps = 0 ->
  0 <= pps < 2 ^ 32 -> Z.of_nat n < 2 ^ 62 ->
  (allow_seq ovf newBucket pps (spaced t0 gap n)).2 = Z.min (Z.of_nat n) pps.
Proof.
  intros Ht Hg Hm Hr Hp Hn. destruct n as [|n]; [cbn; lia|]. cbn [spaced allow_seq].
  assert (E : allow ovf newBucket t0 pps = (mkBucket (pps - 1) t0, 0 <=? pps - 1)).
  { unfold allow. cbn [lastNano newBucket Z.eqb]. rewrite Z.sub_diag.
    cbn [tokens lastNano]. change (s64 0) with 0. cbn [Z.ltb Z.compare].
    cbn [tokens lastNano]. rewrite s64_small by (unfold minInt64, maxInt64; lia). done. }
  rewrite E.
  pose proof (allow_seq_no_refill ovf pps gap n (mkBucket (pps - 1) t0)) as H.
  cbn [tokens lastNano] in H.
  destruct (allow_seq ovf (mkBucket (pps - 1) t0) pps (spaced (t0 + gap) gap n)) as [b m].
  cbn [snd] in *. rewrite H by (unfold minInt64 in *; auto; nia).
  destruct (Z.leb_spec 0 (pps - 1)); lia.
Qed.



(** Sustained traffic is starved, not rate-limited.  With a limit of 100
    frames per second, a stream of one frame every 5 ms passes 100 frames in
    total however long it lasts: each refill truncates to zero tokens while
    [lastNano] still advances. *)
Theorem storm_starvation ovf n t0 :
  0 < t0 -> t0 + 5000000 * Z.of_nat n <= maxInt64 ->
  (allow_seq ovf newBucket 100 (spaced t0 5000000 n)).2 = Z.min (Z.of_nat n) 100.
Proof.
  intros. apply storm_budget; [lia.. | | lia | unfold maxInt64 in *; lia].
  right. vm_compute. reflexivity.
Qed.

Lemma storm_starvation_witness :
  (allow_seq 0 newBucket 100 (spaced 1 5000000 (Z.to_nat 2000))).2 =
  Z.min (Z.of_nat (Z.to_nat 2000)) 100.
Proof. apply storm_starvation; [lia | vm_compute; discriminate]. Defined.

Lemma isOwnLoopProbe_built inst id :
  0 <= id < 2 ^ 64 -> isOwnLoopProbe inst (buildLoopProbe id) = Ret (id =? inst).
Proof.
  intros Hid. unfold isOwnLoopProbe.
  assert (E0 : len (buildLoopProbe id) = 60) by reflexivity.
  assert (E1 : slice (buildLoopProbe id) 12 14 = Ret (be_put 2 loopProbeEtherType)) by reflexivity.
  assert (E2 : slice (buildLoopProbe id) 14 18 = Ret (be_put 4 loopProbeMagic)) by reflexivity.
  assert (E3 : slice (buildLoopProbe id) 18 26 = Ret (be_put 8 id)) by reflexivity.
  rewrite E0, E1, bind_Ret, E2, bind_Ret, E3, bind_Ret. cbn [Z.ltb Z.compare].
  rewrite !be_get_put. cbn -[Z.modulo Z.pow be_put buildLoopProbe].
  change (256 ^ 8) with (2 ^ 64). by rewrite (Z.mod_small id).
Qed.

(** Loop probes are recognised exactly by the instance that sent them, are
    never mistaken for reserved or BPDU traffic, and are flooded by ordinary
    switches (multicast destination). *)
Theorem loop_probe_own inst id :
  0 <= id < 2 ^ 64 ->
  isOwnLoopProbe inst (buildLoopProbe id) = Ret (id =? inst) /\
  take 6 (buildLoopProbe id) = loopProbeDst /\
  isReservedGroupMAC loopProbeDst = false /\ isMulticast loopProbeDst = true.
Proof. intros Hid. split_and!; try done. by apply isOwnLoopProbe_built. Qed.

Lemma loop_probe_own_witness :
  isOwnLoopProbe 7 (buildLoopProbe 7) = Ret (7 =? 7) /\
  take 6 (buildLoopProbe 7) = loopProbeDst /\
  isReservedGroupMAC loopProbeDst = false /\ isMulticast loopProbeDst = true.
Proof. apply loop_probe_own; lia. Defined.
