(* ===== verification/SwitchState.v ===== *)
(** State of a switch: the structs of src/internal/switchcore/switch.go and
    src/internal/switchcore/stp.go.

    [portEntry] objects are shared: the registry, the forwarding database and
    the spanning tree all hold pointers to them, and a port that is removed and
    added again under the same identifier gets a new object.  They therefore
    live in a store [heap] and are referred to by location.  What a switch does
    to its surroundings (frames handed to a transport, transports closed, hooks
    fired, goroutines started) is a list of effects. *)
From S2P Require Import Prelude Vlan Fdb Protect.

(** Dataplane states; the zero value is forwarding. *)
Inductive stpStateT : Type :=
  | stpForwarding | stpBlocking | stpListening | stpLearning.
#[export] Instance stpStateT_eq_dec : EqDecision stpStateT.
Proof. solve_decision. Defined.

Record portCounters := mkCounters {
  rxFrames : Z; rxBytes : Z; rxDropped : Z;
  txFrames : Z; txBytes : Z; txDropped : Z;
  stormDropped : Z
}.
Definition zeroCounters : portCounters := mkCounters 0 0 0 0 0 0 0.

Definition count_rx (n : Z) (c : portCounters) : portCounters :=
  mkCounters (u64 (rxFrames c + 1)) (u64 (rxBytes c + n)) (rxDropped c)
    (txFrames c) (txBytes c) (txDropped c) (stormDropped c).
Definition count_rxDropped (c : portCounters) : portCounters :=
  mkCounters (rxFrames c) (rxBytes c) (u64 (rxDropped c + 1))
    (txFrames c) (txBytes c) (txDropped c) (stormDropped c).
Definition count_tx (n : Z) (c : portCounters) : portCounters :=
  mkCounters (rxFrames c) (rxBytes c) (rxDropped c)
    (u64 (txFrames c + 1)) (u64 (txBytes c + n)) (txDropped c) (stormDropped c).
Definition count_txDropped (c : portCounters) : portCounters :=
  mkCounters (rxFrames c) (rxBytes c) (rxDropped c)
    (txFrames c) (txBytes c) (u64 (txDropped c + 1)) (stormDropped c).
Definition count_stormDropped (c : portCounters) : portCounters :=
  mkCounters (rxFrames c) (rxBytes c) (u64 (rxDropped c + 1))
    (txFrames c) (txBytes c) (txDropped c) (u64 (stormDropped c + 1)).

Record portEntry := mkEntry {
  pe_id : string;
  pe_attrs : PortAttrs;
  pe_stats : portCounters;
  pe_gone : bool;
  pe_blockReason : string;
  pe_storm : stormBucket;
  pe_stpState : stpStateT;
  pe_portNum : Z
}.

Definition set_attrs (a : PortAttrs) (e : portEntry) : portEntry :=
  mkEntry (pe_id e) a (pe_stats e) (pe_gone e) (pe_blockReason e) (pe_storm e) (pe_stpState e) (pe_portNum e).
Definition set_stats (f : portCounters -> portCounters) (e : portEntry) : portEntry :=
  mkEntry (pe_id e) (pe_attrs e) (f (pe_stats e)) (pe_gone e) (pe_blockReason e) (pe_storm e) (pe_stpState e) (pe_portNum e).
Definition set_gone (e : portEntry) : portEntry :=
  mkEntry (pe_id e) (pe_attrs e) (pe_stats e) true (pe_blockReason e) (pe_storm e) (pe_stpState e) (pe_portNum e).
Definition set_blockReason (r : string) (e : portEntry) : portEntry :=
  mkEntry (pe_id e) (pe_attrs e) (pe_stats e) (pe_gone e) r (pe_storm e) (pe_stpState e) (pe_portNum e).
Definition set_storm (b : stormBucket) (e : portEntry) : portEntry :=
  mkEntry (pe_id e) (pe_attrs e) (pe_stats e) (pe_gone e) (pe_blockReason e) b (pe_stpState e) (pe_portNum e).
Definition set_stpState (x : stpStateT) (e : portEntry) : portEntry :=
  mkEntry (pe_id e) (pe_attrs e) (pe_stats e) (pe_gone e) (pe_blockReason e) (pe_storm e) x (pe_portNum e).

(** ** Spanning-tree state (stp.go) *)

Record STPConfig := mkSTPConfig {
  Enabled : bool;
  Priority : Z;
  HelloTime : Z;
  MaxAge : Z;
  ForwardDelay : Z
}.

Definition defaultSTPConfig : STPConfig :=
  mkSTPConfig false 32768 (2 * Second) (20 * Second) (15 * Second).

Record priorityVector := mkVector {
  pv_rootID : Z;
  pv_cost : Z;
  pv_bridgeID : Z;
  pv_portID : Z
}.
#[export] Instance priorityVector_eq_dec : EqDecision priorityVector.
Proof. solve_decision. Defined.

Inductive roleT : Type := RoleRoot | RoleDesignated | RoleBlocked.
#[export] Instance roleT_eq_dec : EqDecision roleT.
Proof. solve_decision. Defined.

(** The struct's [rxTimes] field is never read or written. *)
Record stpPort := mkStpPort {
  sp_entry : loc;
  sp_role : roleT;
  sp_hasInfo : bool;
  sp_info : priorityVector;
  sp_infoAge : Z;
  sp_stateTimer : Z
}.

Definition sp_set_role (r : roleT) (p : stpPort) : stpPort :=
  mkStpPort (sp_entry p) r (sp_hasInfo p) (sp_info p) (sp_infoAge p) (sp_stateTimer p).
Definition sp_set_info (has : bool) (i : priorityVector) (age : Z) (p : stpPort) : stpPort :=
  mkStpPort (sp_entry p) (sp_role p) has i age (sp_stateTimer p).
Definition sp_set_timer (t : Z) (p : stpPort) : stpPort :=
  mkStpPort (sp_entry p) (sp_role p) (sp_hasInfo p) (sp_info p) (sp_infoAge p) t.

Record stpBridge := mkBridge {
  cfg : STPConfig;
  br_mac : bytes;
  sports : gmap string stpPort;
  rootID : Z;
  rootCost : Z;
  rootPort : string;
  tcWhile : Z;
  tcnPending : bool;
  lastHello : Z;
  br_now : Z
}.

Definition br_set_cfg (c : STPConfig) (b : stpBridge) : stpBridge :=
  mkBridge c (br_mac b) (sports b) (rootID b) (rootCost b) (rootPort b) (tcWhile b) (tcnPending b) (lastHello b) (br_now b).
Definition br_set_sports (m : gmap string stpPort) (b : stpBridge) : stpBridge :=
  mkBridge (cfg b) (br_mac b) m (rootID b) (rootCost b) (rootPort b) (tcWhile b) (tcnPending b) (lastHello b) (br_now b).
Definition br_set_root (r c : Z) (p : string) (b : stpBridge) : stpBridge :=
  mkBridge (cfg b) (br_mac b) (sports b) r c p (tcWhile b) (tcnPending b) (lastHello b) (br_now b).
Definition br_set_tcWhile (t : Z) (b : stpBridge) : stpBridge :=
  mkBridge (cfg b) (br_mac b) (sports b) (rootID b) (rootCost b) (rootPort b) t (tcnPending b) (lastHello b) (br_now b).
Definition br_set_tcn (x : bool) (b : stpBridge) : stpBridge :=
  mkBridge (cfg b) (br_mac b) (sports b) (rootID b) (rootCost b) (rootPort b) (tcWhile b) x (lastHello b) (br_now b).
Definition br_set_lastHello (t : Z) (b : stpBridge) : stpBridge :=
  mkBridge (cfg b) (br_mac b) (sports b) (rootID b) (rootCost b) (rootPort b) (tcWhile b) (tcnPending b) t (br_now b).
Definition br_set_now (t : Z) (b : stpBridge) : stpBridge :=
  mkBridge (cfg b) (br_mac b) (sports b) (rootID b) (rootCost b) (rootPort b) (tcWhile b) (tcnPending b) (lastHello b) t.

(** ** The switch

    Port-down hooks are callbacks of other components, named by a number. *)

Record Switch := mkSwitch {
  heap : gmap loc portEntry;
  nextLoc : loc;
  ports : gmap string loc;
  sfdb : fdb;
  instanceID : Z;
  loopProbeNanos : Z;
  portNumSeq : Z;
  stp : stpBridge;
  downCB : list nat;
  stopped : bool
}.

Definition with_heap (h : gmap loc portEntry) (s : Switch) : Switch :=
  mkSwitch h (nextLoc s) (ports s) (sfdb s) (instanceID s) (loopProbeNanos s) (portNumSeq s) (stp s) (downCB s) (stopped s).
Definition with_ports (m : gmap string loc) (s : Switch) : Switch :=
  mkSwitch (heap s) (nextLoc s) m (sfdb s) (instanceID s) (loopProbeNanos s) (portNumSeq s) (stp s) (downCB s) (stopped s).
Definition with_fdb (f : fdb) (s : Switch) : Switch :=
  mkSwitch (heap s) (nextLoc s) (ports s) f (instanceID s) (loopProbeNanos s) (portNumSeq s) (stp s) (downCB s) (stopped s).
Definition with_stp (b : stpBridge) (s : Switch) : Switch :=
  mkSwitch (heap s) (nextLoc s) (ports s) (sfdb s) (instanceID s) (loopProbeNanos s) (portNumSeq s) b (downCB s) (stopped s).

(** Update the object at a location. *)
Definition upd (l : loc) (f : portEntry -> portEntry) (s : Switch) : Switch :=
  with_heap (alter f l (heap s)) s.

(** Update one spanning-tree port. *)
Definition upd_sport (id : string) (f : stpPort -> stpPort) (s : Switch) : Switch :=
  with_stp (br_set_sports (alter f id (sports (stp s))) (stp s)) s.

(** Effects on the surroundings, in program order. *)
Inductive effect : Type :=
  | ESend (dst : loc) (src : string) (frame : bytes)
  | EClose (p : loc)
  | EPortDown (cb : nat) (id : string)
  | ESpawnPortChanged.

(** Iteration orders of the loops over Go maps, one per loop. *)
Record Ranges := mkRanges {
  r_flood : gmap string loc -> list (string * loc);
  r_enrol : gmap string loc -> list (string * loc);
  r_withdraw : gmap string stpPort -> list (string * stpPort);
  r_root : gmap string stpPort -> list (string * stpPort);
  r_roles : gmap string stpPort -> list (string * stpPort);
  r_age : gmap string stpPort -> list (string * stpPort);
  r_progress : gmap string stpPort -> list (string * stpPort);
  r_transmit : gmap string stpPort -> list (string * stpPort);
  r_teardown : gmap string stpPort -> list (string * stpPort);
  r_probe : gmap string loc -> list (string * loc);
  r_close : gmap string loc -> list (string * loc)
}.

Record ranges_ok (rg : Ranges) : Prop := {
  ok_flood : range_order (r_flood rg);
  ok_enrol : range_order (r_enrol rg);
  ok_withdraw : range_order (r_withdraw rg);
  ok_root : range_order (r_root rg);
  ok_roles : range_order (r_roles rg);
  ok_age : range_order (r_age rg);
  ok_progress : range_order (r_progress rg);
  ok_transmit : range_order (r_transmit rg);
  ok_teardown : range_order (r_teardown rg);
  ok_probe : range_order (r_probe rg);
  ok_close : range_order (r_close rg)
}.

Definition std_ranges : Ranges :=
  mkRanges map_to_list map_to_list map_to_list map_to_list map_to_list
    map_to_list map_to_list map_to_list map_to_list map_to_list map_to_list.

Lemma std_ranges_ok : ranges_ok std_ranges.
Proof. split; intros m; reflexivity. Qed.

(** ** Lemmas on updates *)

Lemma lookup_upd s l f l' :
  heap (upd l f s) !! l' = if decide (l = l') then f <$> heap s !! l' else heap s !! l'.
Proof. cbn. rewrite lookup_alter. case_decide; by subst. Qed.
