(* ===== verification/Stp.v ===== *)
(** Spanning tree (802.1D-1998): src/internal/switchcore/stp.go.

    The bridge state is part of the switch state, because role changes write
    the dataplane state of the shared port entries and flush the forwarding
    database.  Loops over Go maps take their iteration order from [Ranges]. *)
From S2P Require Import Prelude Vlan Fdb Protect SwitchState.

(** * Priority vectors *)

Definition better (a b : priorityVector) : bool :=
  if negb (pv_rootID a =? pv_rootID b) then pv_rootID a <? pv_rootID b
  else if negb (pv_cost a =? pv_cost b) then pv_cost a <? pv_cost b
  else if negb (pv_bridgeID a =? pv_bridgeID b) then pv_bridgeID a <? pv_bridgeID b
  else pv_portID a <? pv_portID b.

(** * Bridge and port identifiers *)

Definition stp_mac (instance : Z) : bytes :=
  0x02 :: be_put 4 (u32 (Z.shiftr instance 24)) ++ [u8 instance].

Definition newSTPBridge (instance : Z) : stpBridge :=
  mkBridge defaultSTPConfig (stp_mac instance) ∅ 0 0 EmptyString 0 false 0 0.

Definition bridgeID (b : stpBridge) : Z :=
  let m i := mac_at (br_mac b) i in
  Z.lor (Z.shiftl (Priority (cfg b)) 48)
    (Z.lor (Z.shiftl (m 0%nat) 40) (Z.lor (Z.shiftl (m 1%nat) 32) (Z.lor (Z.shiftl (m 2%nat) 24)
      (Z.lor (Z.shiftl (m 3%nat) 16) (Z.lor (Z.shiftl (m 4%nat) 8) (m 5%nat)))))).

Definition portID (prio num : Z) : Z :=
  Z.lor (Z.shiftl prio 8) (Z.land num 0xff).

(** The attributes and port number behind a spanning-tree port.  The pointer
    is never dangling ([switch_ok]); the default only makes the lookup total. *)
Definition nilEntry : portEntry :=
  mkEntry EmptyString (plainAttrs 0) zeroCounters true EmptyString newBucket stpForwarding 0.
Definition entry_of (s : Switch) (l : loc) : portEntry := default nilEntry (heap s !! l).

Definition portCost (s : Switch) (p : stpPort) : Z :=
  let c := STPCost (pe_attrs (entry_of s (sp_entry p))) in
  if 0 <? c then c else 100.

Definition portIDValue (s : Switch) (p : stpPort) : Z :=
  let e := entry_of s (sp_entry p) in
  let prio := STPPriority (pe_attrs e) in
  portID (if prio =? 0 then 128 else prio) (pe_portNum e).

(** * Port set *)

Definition participates (e : portEntry) : bool :=
  STP (pe_attrs e) && negb (Disabled (pe_attrs e)).

Definition enrol (acc : Switch * gset string) (kv : string * loc) : Switch * gset string :=
  let '(s, seen) := acc in
  let '(id, l) := kv in
  if participates (entry_of s l) then
    let seen := {[id]} ∪ seen in
    match sports (stp s) !! id with
    | Some _ => (s, seen)
    | None =>
        let p := mkStpPort l RoleBlocked false (mkVector 0 0 0 0) 0 0 in
        let s := with_stp (br_set_sports (<[id := p]> (sports (stp s))) (stp s)) s in
        (upd l (set_stpState stpBlocking) s, seen)
    end
  else (s, seen).

Definition withdraw (seen : gset string) (s : Switch) (kv : string * stpPort) : Switch :=
  let '(id, p) := kv in
  if negb (bool_decide (id ∈ seen)) || pe_gone (entry_of s (sp_entry p)) then
    let s := upd (sp_entry p) (set_stpState stpForwarding) s in
    with_stp (br_set_sports (delete id (sports (stp s))) (stp s)) s
  else s.

Definition resyncPorts (rg : Ranges) (s : Switch) : Switch :=
  let '(s, seen) := foldl enrol (s, ∅) (r_enrol rg (ports s)) in
  foldl (withdraw seen) s (r_withdraw rg (sports (stp s))).

(** * Root selection and roles *)

Definition ownVector (b : stpBridge) : priorityVector :=
  mkVector (bridgeID b) 0 (bridgeID b) 0.

Definition candidate (s : Switch) (p : stpPort) : priorityVector :=
  let i := sp_info p in
  mkVector (pv_rootID i) (u32 (pv_cost i + portCost s p)) (pv_bridgeID i) (pv_portID i).

Definition consider (s : Switch) (acc : priorityVector * option string)
    (kv : string * stpPort) : priorityVector * option string :=
  let '(best, root) := acc in
  let '(id, p) := kv in
  if negb (sp_hasInfo p) || (pv_bridgeID (sp_info p) =? bridgeID (stp s)) then acc
  else
    let cand := candidate s p in
    if better cand best then (cand, Some id) else acc.

Definition selectRoot (rg : Ranges) (s : Switch) : priorityVector * option string :=
  foldl (consider s) (ownVector (stp s), None) (r_root rg (sports (stp s))).

(** Our advertisement on the segment of a port. *)
Definition advertised (s : Switch) (p : stpPort) : priorityVector :=
  mkVector (rootID (stp s)) (rootCost (stp s)) (bridgeID (stp s)) (portIDValue s p).

Definition designated (s : Switch) (p : stpPort) : bool :=
  if negb (sp_hasInfo p) then true else better (advertised s p) (sp_info p).

Definition applyRole (id : string) (s : Switch) : Switch :=
  match sports (stp s) !! id with
  | None => s
  | Some p =>
      let cur := pe_stpState (entry_of s (sp_entry p)) in
      match sp_role p with
      | RoleBlocked =>
          if bool_decide (cur = stpBlocking) then s
          else
            let s := upd (sp_entry p) (set_stpState stpBlocking) s in
            with_fdb (flushPort (sfdb s) id) s
      | _ =>
          if bool_decide (cur = stpBlocking) then
            upd_sport id (sp_set_timer 0) (upd (sp_entry p) (set_stpState stpListening) s)
          else s
      end
  end.

Definition newRole (s : Switch) (root : option string) (id : string) (p : stpPort) : roleT :=
  if bool_decide (root = Some id) then RoleRoot
  else if designated s p then RoleDesignated
  else RoleBlocked.

Definition assignRole (root : option string) (acc : Switch * bool) (kv : string * stpPort)
    : Switch * bool :=
  let '(s, changed) := acc in
  let '(id, p) := kv in
  let role := newRole s root id p in
  let changed := if bool_decide (role = sp_role p) then changed else true in
  (applyRole id (upd_sport id (sp_set_role role) s), changed).

Definition signalTopologyChange (s : Switch) : Switch :=
  let b := stp s in
  let b := if bool_decide (rootPort b = EmptyString)
           then br_set_tcWhile (s64 (MaxAge (cfg b) + ForwardDelay (cfg b))) b
           else br_set_tcn true b in
  with_fdb (flush (sfdb s) EmptyString None).1 (with_stp b s).

Definition recompute (rg : Ranges) (s : Switch) : Switch :=
  if negb (Enabled (cfg (stp s))) then s
  else
    let '(best, root) := selectRoot rg s in
    let s := with_stp (br_set_root (pv_rootID best) (pv_cost best)
                         (default EmptyString root) (stp s)) s in
    let '(s, changed) := foldl (assignRole root) (s, false) (r_roles rg (sports (stp s))) in
    if changed : bool then signalTopologyChange s else s.

Definition becomeRoot (rg : Ranges) (s : Switch) : Switch :=
  recompute rg (with_stp (br_set_root (bridgeID (stp s)) 0 EmptyString (stp s)) s).

(** The goroutine started by [portChangedLocked]. *)
Definition portChangedTask (rg : Ranges) (s : Switch) : Switch :=
  if Enabled (cfg (stp s)) then recompute rg (resyncPorts rg s) else s.

Definition normConfig (c : STPConfig) : STPConfig :=
  mkSTPConfig (Enabled c)
    (if Priority c =? 0 then 32768 else Priority c)
    (if HelloTime c <=? 0 then 2 * Second else HelloTime c)
    (if MaxAge c <=? 0 then 20 * Second else MaxAge c)
    (if ForwardDelay c <=? 0 then 15 * Second else ForwardDelay c).

Definition SetSTPConfig (rg : Ranges) (c : STPConfig) (s : Switch) : Switch :=
  let c := normConfig c in
  let s := with_stp (br_set_cfg c (stp s)) s in
  if negb (Enabled c) then
    let s := foldl (fun s kv => upd (sp_entry kv.2) (set_stpState stpForwarding) s) s
               (r_teardown rg (sports (stp s))) in
    with_stp (br_set_sports ∅ (stp s)) s
  else becomeRoot rg (resyncPorts rg s).

(** * BPDU encoding *)

(** The 802.3 header and LLC bytes; [copy(f[7:12], b.mac[1:6])]. *)
Definition frameHeader (b : stpBridge) (payloadLen : nat) : bytes :=
  let f := make_bytes (14 + 3 + payloadLen) in
  let f := copy_at f 0 bpduDstMAC in
  let f := copy_at f 6 [0x02] in
  let f := copy_at f 7 (take 5 (drop 1 (br_mac b))) in
  let f := copy_at f 12 (be_put 2 (u16 (3 + Z.of_nat payloadLen))) in
  copy_at f 14 [0x42; 0x42; 0x03].

(** [uint16(d*256/time.Second)]: Go's division truncates towards zero. *)
Definition bpdu_time (d : Z) : Z := u16 (Z.quot (s64 (d * 256)) Second).

Definition messageAge (b : stpBridge) : Z :=
  if bool_decide (rootPort b = EmptyString) then 0
  else match sports b !! rootPort b with
       | Some rp => s64 (sp_infoAge rp + Second)
       | None => 0
       end.

Definition pad60 (f : bytes) : bytes :=
  if (length f <? 60)%nat then f ++ make_bytes (60 - length f) else f.

Definition buildConfig (s : Switch) (p : stpPort) (flags : Z) : bytes :=
  let b := stp s in
  let at_ i := (14 + 3 + i)%nat in
  let f := frameHeader b 35 in
  let f := copy_at f (at_ 4%nat) [flags] in
  let f := copy_at f (at_ 5%nat) (be_put 8 (rootID b)) in
  let f := copy_at f (at_ 13%nat) (be_put 4 (rootCost b)) in
  let f := copy_at f (at_ 17%nat) (be_put 8 (bridgeID b)) in
  let f := copy_at f (at_ 25%nat) (be_put 2 (portIDValue s p)) in
  let f := copy_at f (at_ 27%nat) (be_put 2 (bpdu_time (messageAge b))) in
  let f := copy_at f (at_ 29%nat) (be_put 2 (bpdu_time (MaxAge (cfg b)))) in
  let f := copy_at f (at_ 31%nat) (be_put 2 (bpdu_time (HelloTime (cfg b)))) in
  let f := copy_at f (at_ 33%nat) (be_put 2 (bpdu_time (ForwardDelay (cfg b)))) in
  pad60 f.

Definition buildTCN (b : stpBridge) : bytes :=
  pad60 (copy_at (frameHeader b 4) (14 + 3 + 3) [0x80]).

(** * The protocol clock *)

Definition stpMeta : string := "stp".

Definition transmitConfigs (rg : Ranges) (s : Switch) : list effect :=
  let b := stp s in
  let fresh := bool_decide (rootPort b = EmptyString) ||
    match sports b !! rootPort b with Some sp => sp_hasInfo sp | None => false end in
  if negb fresh then []
  else
    omap (fun kv : string * stpPort =>
        if bool_decide (sp_role kv.2 = RoleDesignated) then
          let flags := if 0 <? tcWhile b then Z.lor 0 0x01 else 0 in
          Some (ESend (sp_entry kv.2) stpMeta (buildConfig s kv.2 flags))
        else None)
      (r_transmit rg (sports b)).

Definition ageInfo (dt : Z) (acc : Switch * bool) (kv : string * stpPort) : Switch * bool :=
  let '(s, expired) := acc in
  let '(id, p) := kv in
  if negb (sp_hasInfo p) then acc
  else
    let age := s64 (sp_infoAge p + dt) in
    if MaxAge (cfg (stp s)) <=? age
    then (upd_sport id (sp_set_info false (sp_info p) age) s, true)
    else (upd_sport id (sp_set_info true (sp_info p) age) s, expired).

Definition progress (dt : Z) (s : Switch) (kv : string * stpPort) : Switch :=
  let '(id, p) := kv in
  match sp_role p with
  | RoleBlocked => s
  | _ =>
      let t := s64 (sp_stateTimer p + dt) in
      let due := ForwardDelay (cfg (stp s)) <=? t in
      match pe_stpState (entry_of s (sp_entry p)) with
      | stpListening =>
          if due then upd_sport id (sp_set_timer 0) (upd (sp_entry p) (set_stpState stpLearning) s)
          else upd_sport id (sp_set_timer t) s
      | stpLearning =>
          if due then
            let s := upd_sport id (sp_set_timer 0) (upd (sp_entry p) (set_stpState stpForwarding) s) in
            with_fdb (flushPort (sfdb s) id) s
          else upd_sport id (sp_set_timer t) s
      | _ => s
      end
  end.

Definition hello (rg : Ranges) (dt : Z) (s : Switch) : Switch * list effect :=
  let h := s64 (lastHello (stp s) + dt) in
  let s := with_stp (br_set_lastHello h (stp s)) s in
  if HelloTime (cfg (stp s)) <=? h then
    let s := with_stp (br_set_lastHello 0 (stp s)) s in
    let sent := transmitConfigs rg s in
    let s := if 0 <? tcWhile (stp s)
             then with_stp (br_set_tcWhile (s64 (tcWhile (stp s) - HelloTime (cfg (stp s)))) (stp s)) s
             else s in
    let tcn :=
      if tcnPending (stp s) && negb (bool_decide (rootPort (stp s) = EmptyString)) then
        match sports (stp s) !! rootPort (stp s) with
        | Some sp => [ESend (sp_entry sp) stpMeta (buildTCN (stp s))]
        | None => []
        end
      else [] in
    (s, sent ++ tcn)
  else (s, []).

Definition tickLocked (rg : Ranges) (dt : Z) (s : Switch) : Switch * list effect :=
  let s := resyncPorts rg s in
  let '(s, expired) := foldl (ageInfo dt) (s, false) (r_age rg (sports (stp s))) in
  let s := if expired : bool then recompute rg s else s in
  let s := foldl (progress dt) s (r_progress rg (sports (stp s))) in
  hello rg dt s.

(** One round of [run]: the interval is read before the wait, the rest
    happens after it. *)
Definition tickInterval (s : Switch) : Z :=
  let tick := Z.quot (HelloTime (cfg (stp s))) 2 in
  if tick <=? 0 then Second else tick.

Definition runTick (rg : Ranges) (tick : Z) (s : Switch) : Switch * list effect :=
  if negb (Enabled (cfg (stp s))) then (s, [])
  else tickLocked rg tick (with_stp (br_set_now (s64 (br_now (stp s) + tick)) (stp s)) s).

(** * Received BPDUs *)

Definition parseVector (body : bytes) : res priorityVector :=
  r ← slice body 5 13;
  c ← slice body 13 17;
  b ← slice body 17 25;
  p ← slice body 25 27;
  Ret (mkVector (be_get r) (be_get c) (be_get b) (be_get p)).

Definition handleConfig (rg : Ranges) (srcID : string) (p : stpPort) (body : bytes) (s : Switch)
    : res Switch :=
  info ← parseVector body;
  flags ← index body 4;
  let refresh := sp_hasInfo p && (pv_bridgeID info =? pv_bridgeID (sp_info p)) &&
                 (pv_portID info =? pv_portID (sp_info p)) in
  s ← (if negb (sp_hasInfo p) || refresh || better info (sp_info p) then
         age ← slice body 27 29;
         let age := Z.quot (s64 (be_get age * Second)) 256 in
         Ret (recompute rg (upd_sport srcID (sp_set_info true info age) s))
       else Ret s);
  let s := if negb (Z.land flags 0x01 =? 0)
           then with_fdb (flush (sfdb s) EmptyString None).1 s else s in
  Ret (if negb (Z.land flags 0x80 =? 0) && bool_decide (srcID = rootPort (stp s))
       then with_stp (br_set_tcn false (stp s)) s else s).

Definition handleBPDU (rg : Ranges) (srcID : string) (frame : bytes) (s : Switch)
    : res (Switch * list effect) :=
  if negb (Enabled (cfg (stp s))) then Ret (s, [])
  else match sports (stp s) !! srcID with
  | None => Ret (s, [])
  | Some p =>
      body ← slice_from frame (ethHeaderLen + 3);
      if len body <? 4 then Ret (s, [])
      else
        bpduType ← index body 3;
        if bpduType =? 0x80 then
          if bool_decide (sp_role p = RoleDesignated) then
            let s := signalTopologyChange s in
            Ret (s, [ESend (sp_entry p) stpMeta (buildConfig s p 0x80)])
          else Ret (s, [])
        else if negb (bpduType =? 0x00) || (len body <? 35) then Ret (s, [])
        else
          s ← handleConfig rg srcID p body s;
          Ret (s, [])
  end.

(** * Status *)

Definition stpStateName (v : stpStateT) : string :=
  match v with
  | stpBlocking => "blocking"
  | stpListening => "listening"
  | stpLearning => "learning"
  | stpForwarding => "forwarding"
  end.

Definition roleName (r : roleT) : string :=
  match r with
  | RoleRoot => "root" | RoleDesignated => "designated" | RoleBlocked => "blocked"
  end.

Definition dot : Ascii.ascii := Ascii.ascii_of_nat 46.

Fixpoint formatBridgeID_from (n : nat) (id : Z) : string :=
  match n with
  | O => EmptyString
  | S i =>
      let v := u8 (Z.shiftr id (8 * Z.of_nat i)) in
      let rest := formatBridgeID_from i id in
      String (hex_digit (Z.shiftr v 4)) (String (hex_digit (Z.land v 0xf))
        (if (i =? 6)%nat || ((0 <? i)%nat && (i <? 6)%nat) then String dot rest else rest))
  end.
Definition formatBridgeID (id : Z) : string := formatBridgeID_from 8 id.

Record STPPortStatus := mkPortStatus { ps_State : string; ps_Role : string }.

Record STPStatusT := mkStatus {
  st_Enabled : bool;
  st_BridgeID : string;
  st_RootID : string;
  st_IsRoot : bool;
  st_RootPort : string;
  st_RootPathCost : Z;
  st_Priority : Z;
  st_HelloSeconds : Z;
  st_MaxAgeSeconds : Z;
  st_ForwardDelaySeconds : Z;
  st_TopologyChange : bool
}.

Definition portStatus (s : Switch) (p : stpPort) : STPPortStatus :=
  mkPortStatus (stpStateName (pe_stpState (entry_of s (sp_entry p)))) (roleName (sp_role p)).

Definition STPStatus (s : Switch) : STPStatusT * gmap string STPPortStatus :=
  let b := stp s in
  let on := Enabled (cfg b) in
  (mkStatus on (formatBridgeID (bridgeID b))
     (if on then formatBridgeID (rootID b) else EmptyString)
     (on && bool_decide (rootPort b = EmptyString))
     (rootPort b) (rootCost b) (Priority (cfg b))
     (Z.quot (HelloTime (cfg b)) Second) (Z.quot (MaxAge (cfg b)) Second)
     (Z.quot (ForwardDelay (cfg b)) Second)
     ((0 <? tcWhile b) || tcnPending b),
   portStatus s <$> sports b).

Definition STPPortStatusOf (s : Switch) (id : string) : STPPortStatus * bool :=
  match sports (stp s) !! id with
  | None => (mkPortStatus "-" "-", false)
  | Some p => (portStatus s p, true)
  end.
