(* ===== verification/StpFacts.v ===== *)
(** Facts about the spanning tree that its clients rely on: the order on
    priority vectors, what the protocol may change of a switch ([stp_frame]),
    the roles it computes, and the BPDU codec. *)
From S2P Require Import Prelude Vlan Fdb Protect SwitchState Stp.

(** * Priority vectors *)

(** The lexicographic order the comparison implements. *)
Definition pv_lt (a b : priorityVector) : Prop :=
  pv_rootID a < pv_rootID b \/ pv_rootID a = pv_rootID b /\
  (pv_cost a < pv_cost b \/ pv_cost a = pv_cost b /\
  (pv_bridgeID a < pv_bridgeID b \/ pv_bridgeID a = pv_bridgeID b /\
   pv_portID a < pv_portID b)).

Lemma better_lt a b : better a b = true <-> pv_lt a b.
Proof.
  unfold better, pv_lt.
  destruct (Z.eqb_spec (pv_rootID a) (pv_rootID b)); cbn; [|rewrite Z.ltb_lt; lia].
  destruct (Z.eqb_spec (pv_cost a) (pv_cost b)); cbn; [|rewrite Z.ltb_lt; lia].
  destruct (Z.eqb_spec (pv_bridgeID a) (pv_bridgeID b)); cbn; rewrite Z.ltb_lt; lia.
Qed.

Lemma better_ge a b : better a b = false <-> ~ pv_lt a b.
Proof. rewrite <- better_lt. by destruct (better a b). Qed.

#[export] Instance pv_lt_strict : StrictOrder pv_lt.
Proof. split; [intros a | intros a b c]; unfold complement, pv_lt; lia. Qed.

Lemma pv_lt_total a b : pv_lt a b \/ a = b \/ pv_lt b a.
Proof.
  destruct a as [r c g p], b as [r' c' g' p']. unfold pv_lt. cbn.
  destruct (decide (r = r' /\ c = c' /\ g = g' /\ p = p')) as [(-> & -> & -> & ->)|]; [auto|lia].
Qed.

(** * What the protocol may change *)

(** The heap with the dataplane states forgotten. *)
Definition erased (s : Switch) : gmap loc portEntry := set_stpState stpForwarding <$> heap s.

(** [s'] differs from [s] only in dataplane states, protocol state and in
    learned forwarding entries that were flushed; spanning-tree ports keep
    their entry or take the one registered under their identifier. *)
Record stp_frame (s s' : Switch) : Prop := {
  fr_heap : erased s' = erased s;
  fr_ports : ports s' = ports s;
  fr_next : nextLoc s' = nextLoc s;
  fr_inst : instanceID s' = instanceID s;
  fr_stopped : stopped s' = stopped s;
  fr_down : downCB s' = downCB s;
  fr_cfg : cfg (stp s') = cfg (stp s);
  fr_mac : br_mac (stp s') = br_mac (stp s);
  fr_fdb : fdb_m (sfdb s') ⊆ fdb_m (sfdb s);
  fr_static : forall k e, fdb_m (sfdb s) !! k = Some e -> fe_static e = true ->
                          fdb_m (sfdb s') !! k = Some e;
  fr_age : fdb_maxAge (sfdb s') = fdb_maxAge (sfdb s);
  fr_sports : forall id p', sports (stp s') !! id = Some p' ->
    (exists p, sports (stp s) !! id = Some p /\ sp_entry p' = sp_entry p) \/
    ports s !! id = Some (sp_entry p')
}.

#[export] Instance stp_frame_refl : Reflexive stp_frame.
Proof. intros s. split; eauto. Qed.
#[export] Hint Extern 1 (stp_frame _ _) => reflexivity : core.

#[export] Instance stp_frame_trans : Transitive stp_frame.
Proof.
  intros a b c [] []. split; try congruence; eauto.
  - by transitivity (fdb_m (sfdb b)).
  - intros id p' H. destruct (fr_sports1 _ _ H) as [(p & Hp & ->)|Hp].
    + destruct (fr_sports0 _ _ Hp) as [(q & Hq & ->)|]; eauto.
    + right. congruence.
Qed.

(** Reading an entry through a frame. *)
Lemma frame_lookup s s' l :
  stp_frame s s' ->
  set_stpState stpForwarding <$> heap s' !! l = set_stpState stpForwarding <$> heap s !! l.
Proof.
  intros [H _ _ _ _ _ _ _ _ _ _]. unfold erased in H. apply (f_equal (.!! l)) in H.
  by rewrite !lookup_fmap in H.
Qed.

Lemma frame_entry s s' l :
  stp_frame s s' ->
  set_stpState stpForwarding (entry_of s' l) = set_stpState stpForwarding (entry_of s l).
Proof.
  intros H%(frame_lookup _ _ l). unfold entry_of.
  destruct (heap s' !! l), (heap s !! l); cbn in *; congruence.
Qed.

Lemma frame_Some s s' l e :
  stp_frame s s' -> heap s !! l = Some e ->
  exists x, heap s' !! l = Some (set_stpState x e).
Proof.
  intros H%(frame_lookup _ _ l) E. rewrite E in H.
  destruct (heap s' !! l) as [e'|]; [|done]. exists (pe_stpState e').
  destruct e, e'. cbn in *. unfold set_stpState in *; cbn in *. congruence.
Qed.

Lemma frame_upd_stp l x s : stp_frame s (upd l (set_stpState x) s).
Proof.
  split; eauto. unfold erased. cbn. apply map_eq. intros l'.
  rewrite !lookup_fmap, lookup_alter. case_decide; [subst|done].
  by destruct (heap s !! l').
Qed.

Lemma frame_with_stp b s :
  cfg b = cfg (stp s) -> br_mac b = br_mac (stp s) ->
  (forall id p', sports b !! id = Some p' ->
    exists p, sports (stp s) !! id = Some p /\ sp_entry p' = sp_entry p) ->
  stp_frame s (with_stp b s).
Proof. intros. split; eauto. Qed.

Lemma frame_upd_sport id f s :
  (forall p, sp_entry (f p) = sp_entry p) -> stp_frame s (upd_sport id f s).
Proof.
  intros Hf. apply frame_with_stp; cbn; try done. intros id' p'.
  rewrite lookup_alter. case_decide; [subst|eauto].
  destruct (sports (stp s) !! id') as [p|]; cbn; [|done]. intros [= <-]. eauto.
Qed.

Lemma frame_delete_if (q : fdbKey -> fdbEntry -> bool) s :
  (forall k e, fe_static e = true -> q k e = false) ->
  stp_frame s (with_fdb (mkFdb (delete_if q (fdb_m (sfdb s))) (fdb_maxAge (sfdb s))) s).
Proof.
  intros Hq. split; eauto; cbn.
  - apply map_subseteq_spec. intros k e. rewrite lookup_delete_if.
    destruct (fdb_m (sfdb s) !! k) as [e'|]; [|done]. by destruct (q k e').
  - intros k e E Hs. by rewrite lookup_delete_if, E, Hq.
Qed.

Lemma frame_flushPort id s : stp_frame s (with_fdb (flushPort (sfdb s) id) s).
Proof. apply frame_delete_if. unfold flushPort_test. by intros k e ->. Qed.

Lemma frame_flush id v s : stp_frame s (with_fdb (flush (sfdb s) id v).1 s).
Proof. apply frame_delete_if. unfold flush_test. by intros k e ->. Qed.

#[export] Hint Resolve frame_upd_stp frame_flushPort frame_flush : vsw.

Lemma frame_foldl {A : Type} (f : Switch -> A -> Switch) (l : list A) s :
  (forall s x, stp_frame s (f s x)) -> stp_frame s (foldl f s l).
Proof.
  intros Hf. revert s. induction l as [|x l IH]; intros s; cbn; [done|].
  by transitivity (f s x).
Qed.

Lemma frame_foldl_pair {A B : Type} (f : Switch * B -> A -> Switch * B) (l : list A) s b :
  (forall acc x, stp_frame acc.1 (f acc x).1) -> stp_frame s (foldl f (s, b) l).1.
Proof.
  intros Hf. revert s b. induction l as [|x l IH]; intros s b; cbn [foldl]; [done|].
  specialize (Hf (s, b) x). destruct (f (s, b) x) as [s' b']. cbn in Hf.
  by transitivity s'.
Qed.

(** * Frames of the operations *)

Lemma frame_enrol m s seen id l :
  m = ports s -> m !! id = Some l -> stp_frame s (enrol (s, seen) (id, l)).1.
Proof.
  intros -> Hl. unfold enrol. destruct (participates _); [|done].
  destruct (sports (stp s) !! id) eqn:E; [done|]. cbn.
  eapply stp_frame_trans; [|apply frame_upd_stp].
  split; cbn; eauto. intros id' p'. rewrite lookup_insert. case_decide; [subst|eauto].
  intros [= <-]. by right.
Qed.

Lemma frame_enrol_fold m (l : list (string * loc)) s seen :
  m = ports s -> (forall id x, (id, x) ∈ l -> m !! id = Some x) ->
  stp_frame s (foldl enrol (s, seen) l).1.
Proof.
  revert s seen. induction l as [|[id x] l IH]; intros s seen Hm Hin; cbn [foldl]; [done|].
  assert (Hf : stp_frame s (enrol (s, seen) (id, x)).1).
  { apply (frame_enrol m); [done|]. apply Hin. by left. }
  destruct (enrol (s, seen) (id, x)) as [s' seen']. cbn in Hf.
  transitivity s'; [done|]. apply IH; [by rewrite Hm, (fr_ports _ _ Hf)|].
  intros. apply Hin. by right.
Qed.

Lemma frame_withdraw seen s kv : stp_frame s (withdraw seen s kv).
Proof.
  unfold withdraw. destruct kv as [id p]. split_match; [|done].
  eapply stp_frame_trans; [apply (frame_upd_stp (sp_entry p) stpForwarding)|].
  apply frame_with_stp; cbn; try done. intros id' p' [_ Hp]%lookup_delete_Some. eauto.
Qed.

Section frames.
Context (rg : Ranges).

Lemma frame_resyncPorts s : ranges_ok rg -> stp_frame s (resyncPorts rg s).
Proof.
  intros Hrg. unfold resyncPorts.
  pose proof (frame_enrol_fold (ports s) (r_enrol rg (ports s)) s ∅ eq_refl) as Hf.
  destruct (foldl enrol _ _) as [s' seen]. cbn in Hf. transitivity s'.
  - apply Hf. intros id x. apply elem_of_range, Hrg.
  - apply frame_foldl. apply frame_withdraw.
Qed.

Lemma frame_applyRole id s : stp_frame s (applyRole id s).
Proof.
  unfold applyRole. destruct (sports (stp s) !! id) as [p|]; [|done].
  destruct (sp_role p); case_bool_decide; try done.
  3: eapply stp_frame_trans; [apply (frame_upd_stp (sp_entry p) stpBlocking) | apply frame_flushPort].
  all: eapply stp_frame_trans;
    [apply (frame_upd_stp (sp_entry p) stpListening) | by apply frame_upd_sport].
Qed.

Lemma frame_assignRole root acc kv : stp_frame acc.1 (assignRole root acc kv).1.
Proof.
  destruct acc as [s ch], kv as [id p]. cbn.
  eapply stp_frame_trans; [by apply (frame_upd_sport id (sp_set_role (newRole s root id p)))|].
  apply frame_applyRole.
Qed.

Lemma frame_signal s : stp_frame s (signalTopologyChange s).
Proof.
  unfold signalTopologyChange.
  match goal with |- context [with_stp ?x s] => set (b := x) end.
  transitivity (with_stp b s); [|apply (frame_flush EmptyString None (with_stp b s))].
  apply frame_with_stp; unfold b; case_bool_decide; cbn; eauto.
Qed.

Lemma frame_recompute s : stp_frame s (recompute rg s).
Proof.
  unfold recompute. destruct (negb _); [done|].
  destruct (selectRoot rg s) as [best root].
  set (s1 := with_stp _ s).
  assert (H1 : stp_frame s s1) by (apply frame_with_stp; cbn; eauto).
  pose proof (frame_foldl_pair (assignRole root) (r_roles rg (sports (stp s1))) s1 false
    (frame_assignRole root)) as H2.
  destruct (foldl (assignRole root) _ _) as [s2 ch]. cbn in H2.
  transitivity s1; [done|]. transitivity s2; [done|].
  destruct ch; [apply frame_signal | done].
Qed.

Lemma frame_becomeRoot s : stp_frame s (becomeRoot rg s).
Proof.
  unfold becomeRoot. eapply stp_frame_trans; [|apply frame_recompute].
  apply frame_with_stp; cbn; eauto.
Qed.

Lemma frame_portChangedTask s : ranges_ok rg -> stp_frame s (portChangedTask rg s).
Proof.
  intros Hrg. unfold portChangedTask. split_match; [|done].
  etransitivity; [by apply frame_resyncPorts | apply frame_recompute].
Qed.

Lemma frame_ageInfo dt acc kv : stp_frame acc.1 (ageInfo dt acc kv).1.
Proof.
  destruct acc as [s ex], kv as [id p]. unfold ageInfo.
  repeat split_match; cbn; try done; by apply frame_upd_sport.
Qed.

Lemma frame_progress dt s kv : stp_frame s (progress dt s kv).
Proof.
  destruct kv as [id p]. unfold progress.
  repeat split_match; try done; try (by apply frame_upd_sport);
    (eapply stp_frame_trans; [apply (frame_upd_stp (sp_entry p))|]);
    try (by apply frame_upd_sport);
    (eapply stp_frame_trans; [|apply frame_flushPort]); by apply frame_upd_sport.
Qed.

Lemma frame_hello dt s : stp_frame s (hello rg dt s).1.
Proof.
  unfold hello. repeat split_match; cbn; split; cbn; eauto.
Qed.

Lemma frame_tick dt s : ranges_ok rg -> stp_frame s (tickLocked rg dt s).1.
Proof.
  intros Hrg. unfold tickLocked.
  set (s1 := resyncPorts rg s).
  pose proof (frame_foldl_pair (ageInfo dt) (r_age rg (sports (stp s1))) s1 false
    (frame_ageInfo dt)) as H2.
  destruct (foldl (ageInfo dt) _ _) as [s2 ex]. cbn in H2.
  transitivity s1; [by apply frame_resyncPorts|]. transitivity s2; [done|].
  eapply stp_frame_trans; [|apply frame_hello].
  eapply stp_frame_trans; [|apply frame_foldl, frame_progress].
  destruct ex; [apply frame_recompute | done].
Qed.

Lemma frame_runTick dt s : ranges_ok rg -> stp_frame s (runTick rg dt s).1.
Proof.
  intros Hrg. unfold runTick. split_match; [done|].
  eapply stp_frame_trans; [|by apply frame_tick]. apply frame_with_stp; cbn; eauto.
Qed.
End frames.

(** * Received BPDUs *)

Lemma parseVector_total body : 35 <= len body -> exists v, parseVector body = Ret v.
Proof.
  intros. unfold parseVector.
  rewrite (slice_ret body 5 13), bind_Ret, (slice_ret body 13 17), bind_Ret,
    (slice_ret body 17 25), bind_Ret, (slice_ret body 25 27), bind_Ret by lia. eauto.
Qed.

Lemma handleConfig_spec rg id p body s :
  35 <= len body -> exists s', handleConfig rg id p body s = Ret s' /\ stp_frame s s'.
Proof.
  intros H. unfold handleConfig. destruct (parseVector_total body H) as [info ->].
  rewrite bind_Ret, (index_ret body 4), bind_Ret by lia.
  match goal with |- context [mbind _ ?m] => set (s1 := m) end.
  assert (H1 : exists s', s1 = Ret s' /\ stp_frame s s').
  { unfold s1. destruct (_ || better _ _); [|eauto]. rewrite (slice_ret body 27 29), bind_Ret by lia.
    eexists. split; [done|]. eapply stp_frame_trans; [|apply frame_recompute].
    by apply frame_upd_sport. }
  destruct H1 as (s' & -> & F). rewrite bind_Ret. eexists. split; [done|].
  transitivity s'; [done|]. clear.
  destruct (negb (Z.land _ 1 =? 0)), (negb (Z.land _ 128 =? 0) && _); try done;
    try apply frame_flush.
  - eapply stp_frame_trans; [apply (frame_flush EmptyString None)|].
    apply frame_with_stp; cbn; eauto.
  - apply frame_with_stp; cbn; eauto.
Qed.

(** A BPDU is processed without panicking, and any answer goes back out of the
    spanning-tree port it arrived on. *)
Lemma handleBPDU_spec rg id frame s :
  17 <= len frame ->
  exists s' fx, handleBPDU rg id frame s = Ret (s', fx) /\ stp_frame s s' /\
    (fx = [] \/ exists p, sports (stp s) !! id = Some p /\
       fx = [ESend (sp_entry p) stpMeta (buildConfig s' p 0x80)]).
Proof.
  intros H. unfold handleBPDU, ethHeaderLen. split_match; [by eauto 10|].
  destruct (sports (stp s) !! id) as [p|] eqn:Ep; [|by eauto 10].
  rewrite slice_from_ret, bind_Ret by lia. set (body := drop _ frame).
  destruct (Z.ltb_spec (len body) 4); [by eauto 10|].
  rewrite (index_ret body 3), bind_Ret by lia. split_match.
  - case_bool_decide; [|by eauto 10].
    eexists _, _. split; [done|]. split; [apply frame_signal|]. eauto.
  - destruct (negb (nth _ _ _ =? 0)); cbn [orb]; [by eauto 10|].
    destruct (Z.ltb_spec (len body) 35); [by eauto 10|].
    destruct (handleConfig_spec rg id p body s) as (s' & -> & F); [done|].
    rewrite bind_Ret. eauto 10.
Qed.
