(* ===== verification/Switch.v ===== *)
(** The switch: src/internal/switchcore/switch.go and the port-blocking and
    loop-probe parts of src/internal/switchcore/protect.go.

    Port registry, administration of the forwarding database, and the
    forwarding pipeline [deliver].  Every call is one atomic step; what
    [Port.Send] answers, the clock readings and the map iteration orders are
    inputs of the step, over which all theorems quantify. *)
From S2P Require Import Prelude Vlan Fdb Protect SwitchState Stp.

Definition defaultFDBMaxAge : Z := 5 * Minute.

(** * Construction *)

Definition newInstanceID (random : bytes) : Z := be_get (take 8 random).

Definition New (random : bytes) : Switch :=
  let id := newInstanceID random in
  mkSwitch ∅ 0 ∅ (newFDB defaultFDBMaxAge) id defaultLoopProbeInterval 0
    (newSTPBridge id) [] false.

(** * Port registry *)

Definition newEntry (id : string) (attrs : PortAttrs) (num : Z) : portEntry :=
  mkEntry id attrs zeroCounters false EmptyString newBucket stpForwarding num.

(** The new object's location stands for the [Port] it wraps. *)
Definition AddPort (id : string) (attrs : PortAttrs) (s : Switch)
    : Switch * option goerr * list effect :=
  match validate attrs with
  | Some err => (s, Some err, [])
  | None =>
      if bool_decide (id = EmptyString) then
        (s, Some (Errorf "port identifier must not be empty" []), [])
      else match ports s !! id with
      | Some _ => (s, Some (Errorf "port %q already exists" [AStr id]), [])
      | None =>
          let num := u16 (portNumSeq s + 1) in
          (mkSwitch (<[nextLoc s := newEntry id attrs num]> (heap s)) (S (nextLoc s))
             (<[id := nextLoc s]> (ports s)) (sfdb s) (instanceID s) (loopProbeNanos s) num
             (stp s) (downCB s) (stopped s),
           None, [ESpawnPortChanged])
      end
  end.

Definition portDown (id : string) (s : Switch) : Switch * list effect :=
  (with_fdb (flushPort (sfdb s) id) s, (fun cb => EPortDown cb id) <$> downCB s).

Definition NotifyDown : string -> Switch -> Switch * list effect := portDown.

Definition OnPortDown (cb : nat) (s : Switch) : Switch :=
  mkSwitch (heap s) (nextLoc s) (ports s) (sfdb s) (instanceID s) (loopProbeNanos s)
    (portNumSeq s) (stp s) (downCB s ++ [cb]) (stopped s).

Definition RemovePort (id : string) (s : Switch) : Switch * list effect :=
  match ports s !! id with
  | None => (s, [])
  | Some l =>
      let s := with_ports (delete id (ports s)) s in
      let s := upd l set_gone s in
      let '(s, fx) := portDown id s in
      (s, EClose l :: fx)
  end.

Definition Close (rg : Ranges) (s : Switch) : Switch * list effect :=
  (mkSwitch (heap s) (nextLoc s) ∅ (sfdb s) (instanceID s) (loopProbeNanos s)
     (portNumSeq s) (stp s) (downCB s) true,
   (fun kv => EClose kv.2) <$> r_close rg (ports s)).

Definition PortAttrs_of (id : string) (s : Switch) : option PortAttrs :=
  (fun l => pe_attrs (entry_of s l)) <$> ports s !! id.

Definition PortStats_of (id : string) (s : Switch) : option portCounters :=
  (fun l => pe_stats (entry_of s l)) <$> ports s !! id.

Definition UpdatePortAttrs (id : string) (attrs : PortAttrs) (s : Switch)
    : Switch * option goerr * list effect :=
  match validate attrs with
  | Some err => (s, Some err, [])
  | None =>
      match ports s !! id with
      | None => (s, Some (Errorf "port %q not found" [AStr id]), [])
      | Some l =>
          let old := pe_attrs (entry_of s l) in
          let vlanChanged := negb (VLAN old =? VLAN attrs) in
          let s := if Disabled old && negb (Disabled attrs)
                   then upd l (set_blockReason EmptyString) s else s in
          let s := upd l (set_attrs attrs) s in
          let s := if vlanChanged then with_fdb (flushPort (sfdb s) id) s else s in
          (s, None, [ESpawnPortChanged])
      end
  end.

Definition blockPort (l : loc) (reason : string) (s : Switch) : Switch :=
  let e := entry_of s l in
  let s := if negb (Disabled (pe_attrs e))
           then upd l (fun e => set_blockReason reason (set_attrs (set_Disabled true (pe_attrs e)) e)) s
           else s in
  with_fdb (flushPort (sfdb s) (pe_id e)) s.

Definition BlockReason (id : string) (s : Switch) : string :=
  match ports s !! id with
  | Some l => pe_blockReason (entry_of s l)
  | None => EmptyString
  end.

(** * Administration of the forwarding database *)

Definition AddStaticFDB (now vlan : Z) (mac : bytes) (portID : string) (s : Switch)
    : Switch * option goerr :=
  if (vlan <? 0) || (4094 <? vlan) then
    (s, Some (Errorf "static fdb vlan must be 0 (untagged domain) or 1-4094, got %d" [AInt vlan]))
  else if bool_decide (portID = EmptyString) then
    (s, Some (Errorf "static fdb entry needs a port" []))
  else match macKey mac with
  | Err err => (s, Some err)
  | Ok m =>
      if isMulticast m then (s, Some (Errorf "static fdb MAC must be unicast" []))
      else (with_fdb (addStatic (sfdb s) now (s32 vlan) m portID) s, None)
  end.

Definition RemoveStaticFDB (vlan : Z) (mac : bytes) (s : Switch) : Switch * option goerr :=
  match macKey mac with
  | Err err => (s, Some err)
  | Ok m => let '(f, e) := removeStatic (sfdb s) (s32 vlan) m in (with_fdb f s, e)
  end.

Definition DeleteFDBEntry (vlan : Z) (mac : bytes) (s : Switch) : Switch * option goerr :=
  match macKey mac with
  | Err err => (s, Some err)
  | Ok m => let '(f, e) := removeDynamic (sfdb s) (s32 vlan) m in (with_fdb f s, e)
  end.

Definition FlushFDB (portID : string) (vlan : option Z) (s : Switch) : Switch * Z :=
  let '(f, n) := flush (sfdb s) portID (s32 <$> vlan) in (with_fdb f s, n).

Definition SetFDBMaxAge (d : Z) (s : Switch) : Switch * option goerr :=
  if d <=? 0 then (s, Some (Errorf "aging time must be positive" []))
  else (with_fdb (setMaxAge (sfdb s) d) s, None).

(** One round of [ageLoop]. *)
Definition ageTick (now : Z) (s : Switch) : Switch := with_fdb (expire (sfdb s) now) s.

(** * Loop probes *)

Definition SetLoopProbeInterval (d : Z) (s : Switch) : Switch :=
  if 0 <? d then
    mkSwitch (heap s) (nextLoc s) (ports s) (sfdb s) (instanceID s) d
      (portNumSeq s) (stp s) (downCB s) (stopped s)
  else s.

(** One round of [loopProbeLoop]. *)
Definition loopProbeRound (rg : Ranges) (s : Switch) : list effect :=
  omap (fun kv : string * loc =>
      let a := pe_attrs (entry_of s kv.2) in
      if LoopDetect a && negb (Disabled a)
      then Some (ESend kv.2 "loop-probe" (buildLoopProbe (instanceID s))) else None)
    (r_probe rg (ports s)).

(** * The forwarding pipeline *)

(** The inputs a delivery takes from its surroundings: the answers of
    [Port.Send], the clock readings of learning, lookup and storm control, the
    platform's float-to-int overflow value, the map iteration orders. *)
Record Env := mkEnv {
  accepts : loc -> bytes -> bool;
  t_learn : Z;
  t_lookup : Z;
  t_storm : Z;
  ovf : Z;
  rgs : Ranges
}.

Section deliver.
Context (env : Env).

(** The closure [send]: the frame variants are shared by all its calls. *)
Definition send (srcID : string) (dst : loc) (st : Switch * frameVariants * list effect)
    : res (Switch * frameVariants * list effect) :=
  let '(s, v, fx) := st in
  x ← egressFrame v (pe_attrs (entry_of s dst));
  let '(out, v) := x in
  let s := upd dst (set_stats (if accepts env dst out then count_tx (len out)
                               else count_txDropped)) s in
  Ret (s, v, fx ++ [ESend dst srcID out]).

(** One iteration of the flood loop. *)
Definition floodStep (srcID : string) (srcAttrs : PortAttrs) (key : Z)
    (st : res (Switch * frameVariants * list effect)) (kv : string * loc)
    : res (Switch * frameVariants * list effect) :=
  st ← st;
  let '(id, dst) := kv in
  let d := entry_of st.1.1 dst in
  if bool_decide (id = srcID) || negb (bool_decide (pe_stpState d = stpForwarding)) ||
     negb (egressEligible srcAttrs (pe_attrs d) key)
  then Ret st
  else send srcID dst st.

Definition flood (srcID : string) (srcAttrs : PortAttrs) (f : frameView) (key : Z)
    (s : Switch) : res (Switch * list effect) :=
  st ← foldl (floodStep srcID srcAttrs key) (Ret (s, mkVariants f key None None, []))
         (r_flood (rgs env) (ports s));
  Ret (st.1.1, st.2).

(** Storm control, then flooding. *)
Definition stormFlood (src : loc) (srcID : string) (srcAttrs : PortAttrs) (f : frameView) (key : Z)
    (s : Switch) : res (Switch * list effect) :=
  if 0 <? StormPPS srcAttrs then
    let '(b, ok) := allow (ovf env) (pe_storm (entry_of s src)) (t_storm env) (StormPPS srcAttrs) in
    let s := upd src (set_storm b) s in
    if negb ok then Ret (upd src (set_stats count_stormDropped) s, [])
    else flood srcID srcAttrs f key s
  else flood srcID srcAttrs f key s.

(** Forwarding of a frame that passed the ingress checks. *)
Definition forward (src : loc) (srcID : string) (srcAttrs : PortAttrs) (f : frameView) (key : Z)
    (dstM : bytes) (s : Switch) : res (Switch * list effect) :=
  if isMulticast dstM then stormFlood src srcID srcAttrs f key s
  else
    let '(dst, dstID) := lookup_mac (sfdb s) (t_lookup env) key dstM in
    if bool_decide (dstID = EmptyString) then stormFlood src srcID srcAttrs f key s
    else
      let dst := match dst with Some l => Some l | None => ports s !! dstID end in
      match dst with
      | None => Ret (s, [])
      | Some l =>
          let d := entry_of s l in
          if negb (bool_decide (pe_id d = srcID)) && negb (pe_gone d) &&
             bool_decide (pe_stpState d = stpForwarding) && egressEligible srcAttrs (pe_attrs d) key
          then
            st ← send srcID l (s, mkVariants f key None None, []);
            Ret (st.1.1, st.2)
          else Ret (s, [])
      end.

Definition drop_rx (src : loc) (s : Switch) : res (Switch * list effect) :=
  Ret (upd src (set_stats count_rxDropped) s, []).

(** Does the port-security address reject this source? *)
Definition securityReject (srcAttrs : PortAttrs) (srcM : bytes) : bool :=
  match SecurityMAC srcAttrs with
  | None => false
  | Some m => negb (bool_decide (srcM = copy_at (make_bytes 6) 0 m))
  end.

(** Spanning-tree gate, classification, port security, learning. *)
Definition ingress (src : loc) (srcID : string) (srcAttrs : PortAttrs) (f : frameView)
    (dstM : bytes) (s : Switch) : res (Switch * list effect) :=
  let stpState := pe_stpState (entry_of s src) in
  if bool_decide (stpState = stpBlocking) || bool_decide (stpState = stpListening)
  then drop_rx src s
  else match ingressKey srcAttrs f with
  | None => drop_rx src s
  | Some key =>
      srcM ← srcMAC f;
      if securityReject srcAttrs srcM then drop_rx src s
      else
        let s := if negb (isMulticast srcM)
                 then with_fdb (learn (sfdb s) (t_learn env) key srcM srcID src) s else s in
        if bool_decide (stpState = stpLearning) then drop_rx src s
        else forward src srcID srcAttrs f key dstM s
  end.

(** Short-circuit conjunction with a test that may panic. *)
Definition and_res (b : bool) (m : res bool) : res bool := if b then m else Ret false.

Definition deliver (src : loc) (frame : bytes) (s : Switch) : res (Switch * list effect) :=
  o ← parseFrame frame;
  match o with
  | None => Ret (s, [])
  | Some f =>
      let e := entry_of s src in
      let srcID := pe_id e in
      if pe_gone e then Ret (s, [])
      else
        let srcAttrs := pe_attrs e in
        let s := upd src (set_stats (count_rx (len frame))) s in
        if Disabled srcAttrs then drop_rx src s
        else
          dstM ← dstMAC f;
          probe ← and_res (bool_decide (dstM = loopProbeDst)) (isOwnLoopProbe (instanceID s) frame);
          if probe : bool then Ret (blockPort src "loop" s, [])
          else if isReservedGroupMAC dstM then
            guard ← and_res (BPDUGuard srcAttrs) (isBPDU dstM frame);
            stpPort ← and_res (STP srcAttrs) (isBPDU dstM frame);
            if guard : bool then Ret (blockPort src "bpdu_guard" s, [])
            else if stpPort : bool then handleBPDU (rgs env) srcID frame s
            else Ret (s, [])
          else ingress src srcID srcAttrs f dstM s
  end.

(** [Switch.Deliver]. *)
Definition Deliver (srcID : string) (frame : bytes) (s : Switch) : res (Switch * list effect) :=
  match ports s !! srcID with
  | None => Ret (s, [])
  | Some l => deliver l frame s
  end.
End deliver.

(** * Delivery handles *)

Record PortRef := mkRef { ref_id : string; ref_cached : option loc }.

Definition Ref (id : string) : PortRef := mkRef id None.

Definition ref_stale (s : Switch) (r : PortRef) : bool :=
  match ref_cached r with None => true | Some l => pe_gone (entry_of s l) end.

Definition PortRef_Deliver (env : Env) (r : PortRef) (frame : bytes) (s : Switch)
    : res (PortRef * Switch * list effect) :=
  let cached :=
    if ref_stale s r then ports s !! ref_id r else ref_cached r in
  match cached with
  | None => Ret (r, s, [])
  | Some l =>
      x ← deliver env l frame s;
      Ret (mkRef (ref_id r) (Some l), x.1, x.2)
  end.
