(* ===== verification/SwitchInv.v ===== *)
(** The invariant of the switch: its definition, that every operation
    preserves it, and the step relation under which it is an invariant.

    [switch_ok] ties the three views of a port together: the registry, the
    forwarding database (whose learned entries carry pointers) and the
    spanning tree. *)
From S2P Require Import Prelude Vlan Fdb Protect SwitchState Stp StpFacts Switch.

(** * The invariant *)

Definition fdb_entry_ok (s : Switch) (k : fdbKey) (e : fdbEntry) : Prop :=
  0 <= k.1 <= 4095 /\ length k.2 = 6%nat /\ isMulticast k.2 = false /\
  fe_portID e <> EmptyString /\
  match fe_port e with
  | None => fe_static e = true
  | Some l => fe_static e = false /\
      exists pe, heap s !! l = Some pe /\ pe_id pe = fe_portID e /\
        (stopped s = false -> ports s !! fe_portID e = Some l)
  end.

Record switch_ok (s : Switch) : Prop := {
  ok_reg : forall id l, ports s !! id = Some l ->
    exists e, heap s !! l = Some e /\ pe_id e = id /\ pe_gone e = false;
  ok_live : forall l e, stopped s = false -> heap s !! l = Some e -> pe_gone e = false ->
    ports s !! pe_id e = Some l;
  ok_entry : forall l e, heap s !! l = Some e ->
    (l < nextLoc s)%nat /\ pe_id e <> EmptyString /\ attrs_ok (pe_attrs e);
  ok_fdb : forall k e, fdb_m (sfdb s) !! k = Some e -> fdb_entry_ok s k e;
  ok_stp : forall id p, sports (stp s) !! id = Some p ->
    exists e, heap s !! sp_entry p = Some e /\ pe_id e = id;
  ok_mac : length (br_mac (stp s)) = 6%nat
}.

(** * Changes that keep it *)

(** The part of the attributes that only an administrator changes. *)
Definition policy (a : PortAttrs) : Z * bool * option bytes := (VLAN a, Isolated a, SecurityMAC a).

(** An entry keeps its identity and liveness, and valid attributes; and, unless
    it is configured, its policy. *)
Definition entry_kept (e e' : portEntry) : Prop :=
  pe_id e' = pe_id e /\ pe_gone e' = pe_gone e /\
  (attrs_ok (pe_attrs e) -> attrs_ok (pe_attrs e')).

Definition entry_evolves (e e' : portEntry) : Prop :=
  pe_id e' = pe_id e /\ pe_gone e' = pe_gone e /\
  (attrs_ok (pe_attrs e) -> attrs_ok (pe_attrs e')) /\ policy (pe_attrs e') = policy (pe_attrs e).

(** Port objects evolve, forwarding entries may disappear, spanning-tree ports
    keep their object or take the registered one. *)
Record evolves_by (R : portEntry -> portEntry -> Prop) (s s' : Switch) : Prop := {
  ev_heap : forall l, option_Forall2 R (heap s !! l) (heap s' !! l);
  ev_ports : ports s' = ports s;
  ev_next : nextLoc s' = nextLoc s;
  ev_stopped : stopped s' = stopped s;
  ev_down : downCB s' = downCB s;
  ev_inst : instanceID s' = instanceID s;
  ev_mac : br_mac (stp s') = br_mac (stp s);
  ev_fdb : fdb_m (sfdb s') ⊆ fdb_m (sfdb s);
  ev_sports : forall id p', sports (stp s') !! id = Some p' ->
    (exists p, sports (stp s) !! id = Some p /\ sp_entry p' = sp_entry p) \/
    ports s !! id = Some (sp_entry p')
}.
Arguments ev_heap {R} _ _ _ _.
Arguments ev_ports {R} _ _ _.
Arguments ev_next {R} _ _ _.
Arguments ev_stopped {R} _ _ _.
Arguments ev_down {R} _ _ _.
Arguments ev_inst {R} _ _ _.
Arguments ev_mac {R} _ _ _.
Arguments ev_fdb {R} _ _ _.
Arguments ev_sports {R} _ _ _ _ _ _.

Abbreviation evolves := (evolves_by entry_evolves).

#[export] Instance entry_kept_refl : Reflexive entry_kept.
Proof. intros e. by split_and!. Qed.
#[export] Instance entry_kept_trans : Transitive entry_kept.
Proof. intros a b c (? & ? & ?) (? & ? & ?). split_and!; [congruence | congruence | auto]. Qed.
#[export] Instance entry_evolves_refl : Reflexive entry_evolves.
Proof. intros e. by split_and!. Qed.
#[export] Instance entry_evolves_trans : Transitive entry_evolves.
Proof. intros a b c (? & ? & ? & ?) (? & ? & ? & ?). split_and!; [congruence | congruence | auto | congruence]. Qed.

Lemma evolves_kept e e' : entry_evolves e e' -> entry_kept e e'.
Proof. by intros (? & ? & ? & _). Qed.

#[export] Instance evolves_refl `{!Reflexive R} : Reflexive (evolves_by R).
Proof. intros s. split; eauto. intros l. reflexivity. Qed.
#[export] Instance evolves_trans `{!Transitive R} : Transitive (evolves_by R).
Proof.
  intros a b c [] []. split; try congruence.
  - intros l. by transitivity (heap b !! l).
  - by transitivity (fdb_m (sfdb b)).
  - intros id p' H. destruct (ev_sports1 _ _ H) as [(p & Hp & ->)|Hp].
    + destruct (ev_sports0 _ _ Hp) as [(q & Hq & ->)|]; eauto.
    + right. congruence.
Qed.
#[export] Hint Extern 1 (evolves_by _ _ _) => reflexivity : core.

Lemma evolves_mono (R R' : portEntry -> portEntry -> Prop) s s' :
  (forall e e', R e e' -> R' e e') -> evolves_by R s s' -> evolves_by R' s s'.
Proof. intros HR []. split; try done. intros l. destruct (ev_heap0 l); constructor; auto. Qed.

Lemma evolves_frame s s' : stp_frame s s' -> evolves s s'.
Proof.
  intros F. pose proof F as []. split; auto. intros l.
  pose proof (frame_lookup _ _ l F) as E.
  destruct (heap s' !! l) as [e'|], (heap s !! l) as [e|]; cbn in E; try done; constructor.
  destruct e, e'. unfold set_stpState in E. cbn in E. inversion E; subst. unfold entry_evolves; cbn; auto.
Qed.

Lemma evolves_by_upd R l f s :
  Reflexive R -> (forall e, R e (f e)) -> evolves_by R s (upd l f s).
Proof.
  intros HR Hf. split; cbn; eauto. intros l'. rewrite lookup_alter.
  case_decide; [subst|reflexivity]. destruct (heap s !! l'); constructor. apply Hf.
Qed.

Lemma evolves_upd l f s :
  (forall e, entry_evolves e (f e)) -> evolves s (upd l f s).
Proof. apply evolves_by_upd, _. Qed.

Lemma evolves_fdb f s : fdb_m f ⊆ fdb_m (sfdb s) -> evolves s (with_fdb f s).
Proof. intros. split; cbn; eauto. intros l. reflexivity. Qed.

Lemma evolves_fwd R s s' l e :
  evolves_by R s s' -> heap s !! l = Some e ->
  exists e', heap s' !! l = Some e' /\ R e e'.
Proof. intros Hev He. pose proof (ev_heap _ _ Hev l) as H. rewrite He in H. inversion H; eauto. Qed.

Lemma evolves_bwd R s s' l e' :
  evolves_by R s s' -> heap s' !! l = Some e' ->
  exists e, heap s !! l = Some e /\ R e e'.
Proof. intros Hev He. pose proof (ev_heap _ _ Hev l) as H. rewrite He in H. inversion H; eauto. Qed.

Lemma switch_ok_kept s s' : switch_ok s -> evolves_by entry_kept s s' -> switch_ok s'.
Proof.
  intros Hok Hev. split.
  - intros id l Hl. rewrite (ev_ports _ _ Hev) in Hl.
    destruct (ok_reg _ Hok _ _ Hl) as (e & He & Hid & Hg).
    destruct (evolves_fwd _ _ _ _ _ Hev He) as (e' & He' & Hi' & Hg' & _).
    exists e'. split_and!; congruence.
  - intros l e' Hst He' Hg. rewrite (ev_stopped _ _ Hev) in Hst.
    destruct (evolves_bwd _ _ _ _ _ Hev He') as (e & He & Hi & Hg' & _).
    rewrite (ev_ports _ _ Hev), Hi. eapply ok_live; eauto; congruence.
  - intros l e' He'. destruct (evolves_bwd _ _ _ _ _ Hev He') as (e & He & Hi & _ & Ha).
    destruct (ok_entry _ Hok _ _ He) as (? & ? & ?).
    rewrite (ev_next _ _ Hev), Hi. auto.
  - intros k e He. eapply lookup_weaken in He; [|apply Hev].
    destruct (ok_fdb _ Hok _ _ He) as (Hk & Hl & Hm & Hid & Hp).
    do 4 (split; [done|]). destruct (fe_port e) as [l|]; [|done].
    destruct Hp as (Hs & pe & Hpe & Hi & Hreg).
    destruct (evolves_fwd _ _ _ _ _ Hev Hpe) as (pe' & Hpe' & Hi' & _).
    split; [done|]. exists pe'. rewrite (ev_stopped _ _ Hev), (ev_ports _ _ Hev).
    split_and!; congruence || auto.
  - intros id p' Hp'. destruct (ev_sports _ _ Hev _ _ Hp') as [(p & Hp & ->)|Hl].
    + destruct (ok_stp _ Hok _ _ Hp) as (e & He & <-).
      destruct (evolves_fwd _ _ _ _ _ Hev He) as (e' & He' & Hi & _). eauto.
    + destruct (ok_reg _ Hok _ _ Hl) as (e & He & <- & _).
      destruct (evolves_fwd _ _ _ _ _ Hev He) as (e' & He' & Hi & _). eauto.
  - rewrite (ev_mac _ _ Hev). apply Hok.
Qed.

Lemma switch_ok_evolves s s' : switch_ok s -> evolves s s' -> switch_ok s'.
Proof. intros Hok Hev. eapply switch_ok_kept; [done|]. eapply evolves_mono; [apply evolves_kept | done]. Qed.

(** Installing one forwarding entry that satisfies the invariant. *)
Lemma switch_ok_insert s k e a :
  switch_ok s -> fdb_entry_ok s k e ->
  switch_ok (with_fdb (mkFdb (<[k := e]> (fdb_m (sfdb s))) a) s).
Proof.
  intros [] Hk. split; cbn; eauto. intros k' e'. rewrite lookup_insert.
  case_decide; [subst; by intros [= <-] | apply ok_fdb0].
Qed.

Lemma entry_of_Some s l e : heap s !! l = Some e -> entry_of s l = e.
Proof. unfold entry_of. by intros ->. Qed.

(** A dangling pointer reads as a removed port. *)
Lemma entry_of_live s l : pe_gone (entry_of s l) = false -> heap s !! l = Some (entry_of s l).
Proof. unfold entry_of. by destruct (heap s !! l). Qed.
