(* ===== verification/Deliver.v ===== *)
(** The forwarding pipeline [deliver]: totality, what it may emit, and how it
    changes the switch. *)
From S2P Require Import Prelude Vlan Fdb Protect SwitchState Stp StpFacts Switch SwitchInv.

(** * Entries up to counters *)

(** A port object without its counters and storm bucket: all that forwarding
    decisions depend on. *)
Definition core (e : portEntry) : portEntry :=
  set_storm newBucket (set_stats (fun _ => zeroCounters) e).

Definition same_core (s s' : Switch) : Prop :=
  ports s' = ports s /\ forall l, core <$> heap s' !! l = core <$> heap s !! l.

#[export] Instance same_core_refl : Reflexive same_core.
Proof. by intros s. Qed.
#[export] Instance same_core_trans : Transitive same_core.
Proof. intros a b c [H1 H2] [H3 H4]. split; [congruence|]. intros l. by rewrite H4. Qed.
#[export] Hint Extern 1 (same_core _ _) => reflexivity : core.

Lemma core_entry s s' l : same_core s s' -> core (entry_of s' l) = core (entry_of s l).
Proof.
  intros [_ H]. specialize (H l). unfold entry_of.
  destruct (heap s' !! l), (heap s !! l); cbn in *; congruence.
Qed.

Lemma same_core_fields s s' l :
  same_core s s' ->
  pe_id (entry_of s' l) = pe_id (entry_of s l) /\
  pe_attrs (entry_of s' l) = pe_attrs (entry_of s l) /\
  pe_gone (entry_of s' l) = pe_gone (entry_of s l) /\
  pe_stpState (entry_of s' l) = pe_stpState (entry_of s l).
Proof.
  intros H%(core_entry _ _ l).
  destruct (entry_of s' l), (entry_of s l). unfold core in H. by inversion H.
Qed.

Lemma same_core_upd l f s :
  (forall e, core (f e) = core e) -> same_core s (upd l f s).
Proof.
  intros Hf. split; [done|]. intros l'. cbn. rewrite lookup_alter.
  case_decide; [subst|done]. destruct (heap s !! l'); cbn; [by rewrite Hf | done].
Qed.

Lemma same_core_stats l g s : same_core s (upd l (set_stats g) s).
Proof. by apply same_core_upd. Qed.
Lemma same_core_storm l b s : same_core s (upd l (set_storm b) s).
Proof. by apply same_core_upd. Qed.
Lemma same_core_fdb f s : same_core s (with_fdb f s).
Proof. by split. Qed.

Lemma evolves_stats l g s : evolves s (upd l (set_stats g) s).
Proof. by apply evolves_upd. Qed.
Lemma evolves_storm l b s : evolves s (upd l (set_storm b) s).
Proof. by apply evolves_upd. Qed.
#[export] Hint Resolve same_core_stats same_core_storm same_core_fdb
  evolves_stats evolves_storm : vsw.

(** * Sending *)

Section send.
Context (env : Env) (srcID : string) (srcAttrs : PortAttrs) (f : frameView) (key : Z).
Context (Hf : view_ok f).

Lemma send_spec dst s v fx :
  variants_ok v -> fv_f v = f -> fv_key v = key ->
  exists s' v', send env srcID dst (s, v, fx) =
      Ret (s', v', fx ++ [ESend dst srcID (render f key (pe_attrs (entry_of s dst)))]) /\
    variants_ok v' /\ fv_f v' = f /\ fv_key v' = key /\
    s' = upd dst (set_stats (if accepts env dst (render f key (pe_attrs (entry_of s dst)))
           then count_tx (len (render f key (pe_attrs (entry_of s dst))))
           else count_txDropped)) s.
Proof using Hf.
  intros Hv <- <-. unfold send.
  destruct (egressFrame_spec v (pe_attrs (entry_of s dst)) Hv) as (v' & -> & Hv' & E1 & E2).
  rewrite bind_Ret. by eexists _, _.
Qed.

(** Does a flood from the source leave through this port? *)
Definition flood_to (s : Switch) (kv : string * loc) : bool :=
  negb (bool_decide (kv.1 = srcID)) &&
  bool_decide (pe_stpState (entry_of s kv.2) = stpForwarding) &&
  egressEligible srcAttrs (pe_attrs (entry_of s kv.2)) key.

Definition copy_for (s : Switch) (dst : loc) : effect :=
  ESend dst srcID (render f key (pe_attrs (entry_of s dst))).

Definition flood_copies (s : Switch) (l : list (string * loc)) : list effect :=
  omap (fun kv => if flood_to s kv then Some (copy_for s kv.2) else None) l.

Lemma floodStep_spec s0 s v fx kv :
  same_core s0 s -> variants_ok v -> fv_f v = f -> fv_key v = key ->
  exists s' v', floodStep env srcID srcAttrs key (Ret (s, v, fx)) kv =
      Ret (s', v', fx ++ flood_copies s0 [kv]) /\
    same_core s0 s' /\ evolves s s' /\ sfdb s' = sfdb s /\
    variants_ok v' /\ fv_f v' = f /\ fv_key v' = key.
Proof using Hf.
  intros Hc Hv Ef Ek. destruct kv as [id dst]. unfold floodStep. rewrite bind_Ret. cbn [fst].
  unfold flood_copies, flood_to, copy_for. cbn -[send].
  destruct (same_core_fields _ _ dst Hc) as (_ & Ha & _ & Hs). rewrite <- Ha, <- Hs.
  destruct (bool_decide (id = srcID)), (bool_decide (pe_stpState _ = _)),
    (egressEligible _ _ _); cbn -[send]; rewrite ?app_nil_r; try (by eexists _, _; split_and!).
  destruct (send_spec dst s v fx Hv Ef Ek) as (s' & v' & E & Hv' & Ef' & Ek' & Hs').
  exists s', v'. rewrite E. split_and!; try done; rewrite Hs'; auto with vsw.
  transitivity s; auto with vsw.
Qed.

Lemma flood_fold s0 (l : list (string * loc)) s v fx :
  same_core s0 s -> variants_ok v -> fv_f v = f -> fv_key v = key ->
  exists s' v', foldl (floodStep env srcID srcAttrs key) (Ret (s, v, fx)) l =
      Ret (s', v', fx ++ flood_copies s0 l) /\
    same_core s0 s' /\ evolves s s' /\ sfdb s' = sfdb s.
Proof using Hf.
  revert s v fx. induction l as [|kv l IH]; intros s v fx Hc Hv Ef Ek; cbn [foldl].
  - exists s, v. cbn. by rewrite app_nil_r.
  - destruct (floodStep_spec s0 s v fx kv Hc Hv Ef Ek)
      as (s1 & v1 & -> & Hc1 & Hev1 & Hf1 & Hv1 & Ef1 & Ek1).
    destruct (IH s1 v1 (fx ++ flood_copies s0 [kv]) Hc1 Hv1 Ef1 Ek1)
      as (s2 & v2 & -> & Hc2 & Hev2 & Hf2).
    exists s2, v2. rewrite <- app_assoc. split_and!; try done; [|by transitivity s1|congruence].
    do 3 f_equal. unfold flood_copies. cbn. by destruct (flood_to s0 kv).
Qed.

Lemma flood_spec s :
  exists s', flood env srcID srcAttrs f key s =
      Ret (s', flood_copies s (r_flood (rgs env) (ports s))) /\
    same_core s s' /\ evolves s s' /\ sfdb s' = sfdb s.
Proof using Hf.
  unfold flood.
  destruct (flood_fold s (r_flood (rgs env) (ports s)) s (mkVariants f key None None) []
    ltac:(done) (fresh_ok f key Hf) eq_refl eq_refl) as (s' & v' & -> & H).
  rewrite bind_Ret. eauto.
Qed.

(** The verdict of storm control. *)
Definition storm_ok (s : Switch) (src : loc) : bool :=
  negb (0 <? StormPPS srcAttrs) ||
  (allow (ovf env) (pe_storm (entry_of s src)) (t_storm env) (StormPPS srcAttrs)).2.

Lemma flood_copies_core s s' l :
  same_core s s' -> flood_copies s' l = flood_copies s l.
Proof.
  intros Hc. unfold flood_copies, flood_to, copy_for. apply list_omap_ext, Forall2_same_length_lookup_2; [done|].
  intros i x y Hx Hy. simplify_eq.
  by destruct (same_core_fields _ _ x.2 Hc) as (_ & -> & _ & ->).
Qed.

Lemma stormFlood_spec src s :
  exists s', stormFlood env src srcID srcAttrs f key s =
      Ret (s', if storm_ok s src then flood_copies s (r_flood (rgs env) (ports s)) else []) /\
    same_core s s' /\ evolves s s' /\ sfdb s' = sfdb s.
Proof using Hf.
  unfold stormFlood, storm_ok. destruct (0 <? StormPPS srcAttrs); cbn [negb orb]; [|apply flood_spec].
  destruct (allow _ _ _ _) as [b ok]. cbn.
  assert (H1 : same_core s (upd src (set_storm b) s)) by auto with vsw.
  destruct ok; cbn.
  - destruct (flood_spec (upd src (set_storm b) s)) as (s' & -> & Hc & Hev & Hfd).
    exists s'. rewrite (flood_copies_core s) by done. split_and!; try done.
    + by transitivity (upd src (set_storm b) s).
    + transitivity (upd src (set_storm b) s); auto with vsw.
  - eexists. split; [done|]. split; [etransitivity; [apply H1|]; auto with vsw|].
    split; [etransitivity; [apply evolves_storm|]; auto with vsw | done].
Qed.
End send.

(** * Forwarding and ingress *)

Section ingress.
Context (env : Env) (src : loc) (srcID : string) (srcAttrs : PortAttrs) (f : frameView).
Context (Hf : view_ok f).

(** Where a frame goes: [None] means flooding, [Some o] the single port (if
    any) the forwarding database resolves the address to. *)
Definition resolve (s : Switch) (key : Z) (dstM : bytes) : option (option loc) :=
  if isMulticast dstM then None
  else
    let '(p, id) := lookup_mac (sfdb s) (t_lookup env) key dstM in
    if bool_decide (id = EmptyString) then None
    else Some match p with Some l => Some l | None => ports s !! id end.

Definition unicast_to (s : Switch) (key : Z) (l : loc) : bool :=
  negb (bool_decide (pe_id (entry_of s l) = srcID)) && negb (pe_gone (entry_of s l)) &&
  bool_decide (pe_stpState (entry_of s l) = stpForwarding) &&
  egressEligible srcAttrs (pe_attrs (entry_of s l)) key.

(** The copies a forwarded frame leaves as. *)
Definition copies (s : Switch) (key : Z) (dstM : bytes) : list effect :=
  match resolve s key dstM with
  | None => if storm_ok env srcAttrs s src
            then flood_copies srcID srcAttrs f key s (r_flood (rgs env) (ports s)) else []
  | Some None => []
  | Some (Some l) => if unicast_to s key l then [copy_for srcID f key s l] else []
  end.

Lemma forward_spec key dstM s :
  exists s', forward env src srcID srcAttrs f key dstM s = Ret (s', copies s key dstM) /\
    same_core s s' /\ evolves s s' /\ sfdb s' = sfdb s.
Proof using Hf.
  unfold forward, copies, resolve. destruct (isMulticast dstM); [by apply stormFlood_spec|].
  destruct (lookup_mac _ _ _ _) as [p id]. case_bool_decide; [by apply stormFlood_spec|].
  set (o := match p with Some l => Some l | None => _ end). destruct o as [l|]; [|by eauto].
  fold (unicast_to s key l). destruct (unicast_to s key l); [|by eauto].
  destruct (send_spec env srcID f key Hf l s (mkVariants f key None None) []
    (fresh_ok f key Hf) eq_refl eq_refl) as (s' & v' & -> & _ & _ & _ & ->).
  rewrite bind_Ret. cbn [fst snd app]. eexists. split; [done|].
  split_and!; auto with vsw.
Qed.

Definition srcM : bytes := take 6 (drop 6 (data f)).

(** The VLAN key under which a frame is admitted, if it is. *)
Definition admitted (s : Switch) : option Z :=
  let st := pe_stpState (entry_of s src) in
  if bool_decide (st = stpBlocking) || bool_decide (st = stpListening) then None
  else match ingressKey srcAttrs f with
       | None => None
       | Some key => if securityReject srcAttrs srcM then None else Some key
       end.

Definition learned (s : Switch) (key : Z) : Switch :=
  if negb (isMulticast srcM)
  then with_fdb (learn (sfdb s) (t_learn env) key srcM srcID src) s else s.

Lemma ingress_rejected dstM s :
  admitted s = None ->
  ingress env src srcID srcAttrs f dstM s = Ret (upd src (set_stats count_rxDropped) s, []).
Proof using Hf.
  unfold admitted, ingress. destruct (_ || _); [done|].
  destruct (ingressKey srcAttrs f); [|done]. rewrite srcMAC_ret, bind_Ret by done.
  fold srcM. by destruct (securityReject _ _).
Qed.

Lemma ingress_admitted key dstM s :
  admitted s = Some key ->
  exists s', ingress env src srcID srcAttrs f dstM s =
      Ret (s', if bool_decide (pe_stpState (entry_of s src) = stpLearning) then []
               else copies (learned s key) key dstM) /\
    same_core (learned s key) s' /\ evolves (learned s key) s' /\
    sfdb s' = sfdb (learned s key).
Proof using Hf.
  unfold admitted, ingress. destruct (_ || _); [done|].
  destruct (ingressKey srcAttrs f) as [k|]; [|done]. rewrite srcMAC_ret, bind_Ret by done.
  fold srcM. destruct (securityReject _ _); [done|]. intros [= ->]. fold (learned s key).
  case_bool_decide; [|apply forward_spec].
  eexists. split; [done|]. split_and!; auto with vsw.
Qed.

Lemma same_core_learned s key : same_core s (learned s key).
Proof. unfold learned. destruct (negb _); auto with vsw. Qed.

Lemma switch_ok_learned s key e :
  switch_ok s -> heap s !! src = Some e -> pe_gone e = false -> pe_id e = srcID ->
  0 <= key <= 4095 -> switch_ok (learned s key).
Proof using Hf.
  intros Hok He Hg Hid Hk. unfold learned. destruct (isMulticast srcM) eqn:Hm; [done|]. cbn.
  assert (Hnew : fdb_entry_ok s (key, srcM) (mkFdbEntry srcID (Some src) (t_learn env) false)).
  { destruct (ok_entry _ Hok _ _ He) as (_ & Hne & _). split; [done|]. split.
    { unfold srcM. cbn. destruct Hf. lens. }
    split; [done|]. cbn. rewrite <- Hid. split; [done|]. split; [done|].
    exists e. split_and!; try done. intros. by eapply ok_live. }
  unfold learn. destruct (fdb_m (sfdb s) !! _) as [e'|]; [|by apply switch_ok_insert].
  destruct (fe_static e'); [|by apply switch_ok_insert].
  eapply switch_ok_evolves; [done|]. by apply evolves_fdb.
Qed.
End ingress.

(** * The whole pipeline *)

(** The state after the receive counters were bumped. *)
Definition received (src : loc) (frame : bytes) (s : Switch) : Switch :=
  upd src (set_stats (count_rx (len frame))) s.

Definition dstM (frame : bytes) : bytes := take 6 frame.

(** A delivery ends in one of three ways: nothing leaves and nothing is
    learned; a BPDU was answered; an admitted data frame was forwarded. *)
Inductive delivered (env : Env) (src : loc) (frame : bytes) (s : Switch)
    : Switch -> list effect -> Prop :=
  | dl_quiet s' : evolves s s' -> delivered env src frame s s' []
  | dl_bpdu s' p :
      isReservedGroupMAC (dstM frame) = true -> evolves s s' ->
      sports (stp s) !! pe_id (entry_of s src) = Some p ->
      delivered env src frame s s' [ESend (sp_entry p) stpMeta (buildConfig s' p 0x80)]
  | dl_data f key s' fx :
      parseFrame frame = Ret (Some f) ->
      pe_gone (entry_of s src) = false ->
      Disabled (pe_attrs (entry_of s src)) = false ->
      isReservedGroupMAC (dstM frame) = false ->
      ~ (dstM frame = loopProbeDst /\ isOwnLoopProbe (instanceID s) frame = Ret true) ->
      admitted src (pe_attrs (entry_of s src)) f s = Some key ->
      fx = (if bool_decide (pe_stpState (entry_of s src) = stpLearning) then []
            else copies env src (pe_id (entry_of s src)) (pe_attrs (entry_of s src)) f
                   (learned env src (pe_id (entry_of s src)) f (received src frame s) key)
                   key (dstM frame)) ->
      let s1 := learned env src (pe_id (entry_of s src)) f (received src frame s) key in
      same_core s1 s' -> evolves s1 s' -> sfdb s' = sfdb s1 ->
      delivered env src frame s s' fx.

Lemma evolves_received src frame s : evolves s (received src frame s).
Proof. apply evolves_stats. Qed.

Lemma same_core_received src frame s : same_core s (received src frame s).
Proof. apply same_core_stats. Qed.
#[export] Hint Resolve evolves_received same_core_received : vsw.

Lemma evolves_blockPort l reason s : evolves s (blockPort l reason s).
Proof.
  unfold blockPort. set (s1 := if negb _ then _ else _).
  assert (H1 : evolves s s1).
  { unfold s1. destruct (negb _); [|done]. apply evolves_upd.
    intros e. by split_and!. }
  transitivity s1; [done|]. apply evolves_frame, frame_flushPort.
Qed.

Lemma admitted_core src a f s s' : same_core s s' -> admitted src a f s' = admitted src a f s.
Proof. intros Hc. unfold admitted. by destruct (same_core_fields _ _ src Hc) as (_ & _ & _ & ->). Qed.

(** An enabled port's data frame goes through [ingress]. *)
Lemma deliver_data env src frame s f :
  parseFrame frame = Ret (Some f) ->
  pe_gone (entry_of s src) = false -> Disabled (pe_attrs (entry_of s src)) = false ->
  isReservedGroupMAC (dstM frame) = false ->
  ~ (dstM frame = loopProbeDst /\ isOwnLoopProbe (instanceID s) frame = Ret true) ->
  deliver env src frame s =
    ingress env src (pe_id (entry_of s src)) (pe_attrs (entry_of s src)) f (dstM frame)
      (received src frame s).
Proof.
  intros Hp Hg Hdis Hres Hpr. destruct (parseFrame_inv _ _ Hp) as (Hd & Hv & _).
  unfold deliver. rewrite Hp, bind_Ret, Hg, Hdis, dstMAC_ret, bind_Ret, Hd by done.
  fold (received src frame s) (dstM frame).
  change (instanceID (received src frame s)) with (instanceID s).
  destruct (isOwnLoopProbe_total (instanceID s) frame) as [own Hown]. rewrite Hown.
  assert (Hand : and_res (bool_decide (dstM frame = loopProbeDst)) (Ret own) = Ret false).
  { unfold and_res. case_bool_decide; [|done]. destruct own; [|done]. by destruct Hpr. }
  by rewrite Hand, bind_Ret, Hres.
Qed.

(** The data path ends, and its outcome is a delivery. *)
Lemma ingress_delivered env src frame f s :
  parseFrame frame = Ret (Some f) -> pe_gone (entry_of s src) = false -> Disabled (pe_attrs (entry_of s src)) = false ->
  isReservedGroupMAC (dstM frame) = false ->
  ~ (dstM frame = loopProbeDst /\ isOwnLoopProbe (instanceID s) frame = Ret true) ->
  exists s' fx, ingress env src (pe_id (entry_of s src)) (pe_attrs (entry_of s src)) f (dstM frame) (received src frame s) = Ret (s', fx) /\
    delivered env src frame s s' fx.
Proof.
  intros Hp Hg Hdis Hres Hpr. destruct (parseFrame_inv _ _ Hp) as (_ & Hv & _).
  set (a := pe_attrs (entry_of s src)). set (id := pe_id (entry_of s src)).
  destruct (admitted src a f s) as [key|] eqn:Hadm; rewrite <- (admitted_core _ _ _ _ _ (same_core_received src frame s)) in Hadm.
  - destruct (ingress_admitted env src id a f Hv key (dstM frame) _ Hadm) as (s' & E & Hc & Hev & Hfd).
    eexists _, _. split; [exact E|]. eapply dl_data; try done.
    + by rewrite <- (admitted_core _ _ _ _ _ (same_core_received src frame s)).
    + by destruct (same_core_fields _ _ src (same_core_received src frame s)) as (_ & _ & _ & ->).
  - rewrite (ingress_rejected env src id a f Hv _ _ Hadm). eexists _, _. split; [done|]. constructor.
    etransitivity; [apply evolves_received | auto with vsw].
Qed.

(** Every delivery ends, and in one of those three ways. *)
Lemma deliver_cases env src frame s :
  exists s' fx, deliver env src frame s = Ret (s', fx) /\ delivered env src frame s s' fx.
Proof.
  unfold deliver. destruct (parseFrame_total frame) as [o Hp]. rewrite Hp, bind_Ret.
  destruct o as [f|]; [|by eauto using dl_quiet].
  destruct (parseFrame_inv _ _ Hp) as (Hd & Hv & _).
  destruct (pe_gone (entry_of s src)) eqn:Hg; [by eauto using dl_quiet|].
  fold (received src frame s). set (a := pe_attrs (entry_of s src)). set (id := pe_id (entry_of s src)).
  destruct (Disabled a) eqn:Hdis.
  { eexists _, _. split; [done|]. constructor. etransitivity; [apply evolves_received|].
    auto with vsw. }
  rewrite dstMAC_ret, bind_Ret, Hd by done. fold (dstM frame).
  change (instanceID (received src frame s)) with (instanceID s).
  destruct (isOwnLoopProbe_total (instanceID s) frame) as [own Hown].
  assert (Hprobe : and_res (bool_decide (dstM frame = loopProbeDst)) (isOwnLoopProbe (instanceID s) frame)
    = Ret (bool_decide (dstM frame = loopProbeDst) && own)).
  { rewrite Hown. unfold and_res. by case_bool_decide. }
  rewrite Hprobe, bind_Ret.
  destruct (bool_decide (dstM frame = loopProbeDst) && own) eqn:Hpr.
  { eexists _, _. split; [done|]. constructor.
    etransitivity; [apply evolves_received | apply evolves_blockPort]. }
  destruct (isReservedGroupMAC (dstM frame)) eqn:Hres.
  - destruct (isBPDU_total (dstM frame) frame) as [bp Hbp]. rewrite Hbp.
    assert (Hand : forall b, and_res b (Ret bp) = Ret (b && bp)) by by intros [].
    rewrite !Hand, !bind_Ret. destruct (BPDUGuard a && bp).
    { eexists _, _. split; [done|]. constructor.
      etransitivity; [apply evolves_received | apply evolves_blockPort]. }
    destruct (STP a && bp) eqn:Hstp; [|eexists _, _; split; [done|]; constructor; apply evolves_received].
    apply andb_true_iff in Hstp as [_ ->]. apply isBPDU_len in Hbp.
    destruct (handleBPDU_spec (rgs env) id frame (received src frame s) Hbp) as (s' & fx & -> & F & Hfx).
    exists s', fx. split; [done|].
    assert (evolves s s') by (etransitivity; [apply evolves_received | by apply evolves_frame]).
    destruct Hfx as [->|(p & Hsp & ->)]; [by constructor | by apply dl_bpdu].
  - apply ingress_delivered; try done. intros [Hm Ho]. rewrite Hown in Ho. simplify_eq. by rewrite bool_decide_eq_true_2 in Hpr.
Qed.

Lemma deliver_inv env src frame s s' fx :
  deliver env src frame s = Ret (s', fx) -> delivered env src frame s s' fx.
Proof. intros E. destruct (deliver_cases env src frame s) as (s'' & fx' & E' & H). rewrite E in E'. by simplify_eq. Qed.

(** * What leaves the switch *)

(** A frame [out] may leave through [dst] on behalf of source [e]. *)
Definition may_leave (s : Switch) (e : portEntry) (f : frameView) (key : Z)
    (dst : loc) (out : bytes) : Prop :=
  exists d, heap s !! dst = Some d /\ pe_id d <> pe_id e /\ pe_gone d = false /\
    pe_stpState d = stpForwarding /\
    egressEligible (pe_attrs e) (pe_attrs d) key = true /\
    out = render f key (pe_attrs d).

Lemma may_leave_core s s' e f key dst out :
  same_core s s' -> may_leave s' e f key dst out -> may_leave s e f key dst out.
Proof.
  intros [_ Hc] (d' & Hd' & ?). specialize (Hc dst). rewrite Hd' in Hc.
  destruct (heap s !! dst) as [d|] eqn:Hd; [|done]. exists d. split; [done|].
  destruct d, d'. unfold core in Hc. cbn in *. by inversion Hc; subst.
Qed.

Lemma flood_copies_elem srcID a f key s l x :
  x ∈ flood_copies srcID a f key s l <->
  exists id dst, (id, dst) ∈ l /\ flood_to srcID a key s (id, dst) = true /\
    x = copy_for srcID f key s dst.
Proof.
  unfold flood_copies. rewrite list_elem_of_omap. split.
  - intros ([id dst] & Hin & H). destruct (flood_to _ _ _ _ _) eqn:E; [|done].
    simplify_eq. eauto.
  - intros (id & dst & Hin & E & ->). exists (id, dst). by rewrite E.
Qed.

Lemma flood_to_registered e key s id dst :
  switch_ok s -> ports s !! id = Some dst ->
  flood_to (pe_id e) (pe_attrs e) key s (id, dst) = true <->
  exists d, heap s !! dst = Some d /\ pe_id d = id /\ id <> pe_id e /\ pe_gone d = false /\
    pe_stpState d = stpForwarding /\ egressEligible (pe_attrs e) (pe_attrs d) key = true.
Proof.
  intros Hok Hl. destruct (ok_reg _ Hok _ _ Hl) as (d & Hd & Hid & Hg).
  unfold flood_to. cbn. rewrite (entry_of_Some _ _ _ Hd). split.
  - intros H. bool_prop. eauto 10.
  - intros (d' & Hd' & _ & Hne & _ & Hs & He). simplify_eq.
    rewrite He, bool_decide_eq_false_2, bool_decide_eq_true_2 by done. done.
Qed.

Lemma copies_safe env src e f key dst s x :
  switch_ok s -> ranges_ok (rgs env) ->
  x ∈ copies env src (pe_id e) (pe_attrs e) f s key dst ->
  exists l out, x = ESend l (pe_id e) out /\ may_leave s e f key l out.
Proof.
  intros Hok Hrg. unfold copies. destruct (resolve _ _ _ _) as [[l|]|].
  - destruct (unicast_to _ _ _ _ _) eqn:E; [|by intros ?%elem_of_nil].
    intros ->%list_elem_of_singleton. unfold copy_for. eexists _, _. split; [done|].
    unfold unicast_to in E. bool_prop. eexists. split; [by apply entry_of_live|]. auto 10.
  - by intros ?%elem_of_nil.
  - destruct (storm_ok _ _ _ _); [|by intros ?%elem_of_nil].
    intros (id & l & Hin & Hto & ->)%flood_copies_elem.
    apply elem_of_range in Hin; [|apply Hrg].
    apply (flood_to_registered e key s id l Hok Hin) in Hto as (d & Hd & Hid & Hne & Hg & Hs & Ha).
    unfold copy_for. eexists _, _. split; [done|]. rewrite (entry_of_Some _ _ _ Hd).
    exists d. split_and!; congruence.
Qed.

Lemma admitted_inv src a f s key :
  admitted src a f s = Some key ->
  (pe_stpState (entry_of s src) = stpForwarding \/ pe_stpState (entry_of s src) = stpLearning) /\
  ingressKey a f = Some key /\ securityReject a (srcM f) = false.
Proof.
  unfold admitted. destruct (bool_decide (_ = stpBlocking)) eqn:E1; [done|].
  destruct (bool_decide (_ = stpListening)) eqn:E2; [done|]. bool_prop. cbn.
  destruct (ingressKey a f); [|done]. destruct (securityReject _ _) eqn:E; [done|].
  intros [= ->]. destruct (pe_stpState _); auto; done.
Qed.

(** The state a data frame is forwarded in. *)
Lemma switch_ok_forwarding env src frame s f key :
  switch_ok s -> parseFrame frame = Ret (Some f) ->
  pe_gone (entry_of s src) = false ->
  admitted src (pe_attrs (entry_of s src)) f s = Some key ->
  switch_ok (learned env src (pe_id (entry_of s src)) f (received src frame s) key).
Proof.
  intros Hok Hp Hg (_ & Hin & _)%admitted_inv.
  pose proof (entry_of_live _ _ Hg) as He.
  destruct (evolves_fwd _ _ _ _ _ (evolves_received src frame s) He) as (e' & He' & Hid' & Hg' & _).
  destruct (parseFrame_inv _ _ Hp) as (_ & Hv & _).
  apply (switch_ok_learned env src _ f Hv _ key e'); try done; [|congruence|].
  - eapply switch_ok_evolves; [exact Hok | apply evolves_received].
  - eapply ingressKey_bound; [eapply (ok_entry _ Hok); exact He | exact Hp | exact Hin].
Qed.

Lemma same_core_forwarding env src srcID frame s f key :
  same_core s (learned env src srcID f (received src frame s) key).
Proof. etransitivity; [apply same_core_received | apply same_core_learned]. Qed.

Lemma switch_ok_deliver env src frame s s' fx :
  switch_ok s -> deliver env src frame s = Ret (s', fx) -> switch_ok s'.
Proof.
  intros Hok [s'' Hev|s'' p _ Hev _|f key s'' fx' Hp Hg _ _ _ Hadm _ s1 _ Hev _]%deliver_inv;
    [by eapply switch_ok_evolves | by eapply switch_ok_evolves |].
  eapply switch_ok_evolves; [by apply switch_ok_forwarding | exact Hev].
Qed.

(** * Accepted data frames *)

(** Port object [e] at [src] accepts [frame] into VLAN [key] and forwards it. *)
Record admits (s : Switch) (src : loc) (e : portEntry) (frame : bytes) (f : frameView) (key : Z)
    : Prop := {
  ad_entry : heap s !! src = Some e;
  ad_live : pe_gone e = false;
  ad_enabled : Disabled (pe_attrs e) = false;
  ad_stp : pe_stpState e = stpForwarding;
  ad_parse : parseFrame frame = Ret (Some f);
  ad_data : isReservedGroupMAC (dstM frame) = false;
  ad_probe : ~ (dstM frame = loopProbeDst /\ isOwnLoopProbe (instanceID s) frame = Ret true);
  ad_key : ingressKey (pe_attrs e) f = Some key;
  ad_sec : securityReject (pe_attrs e) (srcM f) = false
}.

Lemma admits_admitted s src e frame f key :
  admits s src e frame f key -> admitted src (pe_attrs e) f s = Some key.
Proof.
  intros [He _ _ Hst _ _ _ Hk Hs]. unfold admitted.
  by rewrite (entry_of_Some _ _ _ He), Hst, Hk, Hs.
Qed.

Lemma deliver_admits env src e frame s f key :
  admits s src e frame f key ->
  let s1 := learned env src (pe_id e) f (received src frame s) key in
  exists s', deliver env src frame s =
      Ret (s', copies env src (pe_id e) (pe_attrs e) f s1 key (dstM frame)) /\
    same_core s1 s' /\ evolves s1 s' /\ sfdb s' = sfdb s1.
Proof.
  intros H. pose proof (admits_admitted _ _ _ _ _ _ H) as Hadm. destruct H as [He0 Hg Hdis Hst Hp Hres Hpr Hk Hs].
  pose proof (entry_of_Some _ _ _ He0) as He.
  rewrite (deliver_data env src frame s f) by (rewrite ?He; done). rewrite He.
  destruct (parseFrame_inv _ _ Hp) as (_ & Hv & _).
  rewrite <- (admitted_core _ _ _ _ _ (same_core_received src frame s)) in Hadm.
  destruct (ingress_admitted env src (pe_id e) (pe_attrs e) f Hv key (dstM frame) _ Hadm)
    as (s' & E & H). exists s'. split; [|exact H]. rewrite E.
  destruct (same_core_fields _ _ src (same_core_received src frame s)) as (_ & _ & _ & ->).
  by rewrite He, Hst.
Qed.

Lemma unicast_not_control m :
  isMulticast m = false -> isReservedGroupMAC m = false /\ m <> loopProbeDst.
Proof.
  unfold isMulticast, isReservedGroupMAC, mac_at. intros H. split.
  - destruct (Z.eqb_spec (nth 0 m 0) 1) as [E|]; [|done]. by rewrite E in H.
  - by intros ->.
Qed.
