(* ===== verification/SwitchProps.v ===== *)
(** Theorems about the switch: it never panics, its invariant holds in every
    reachable state, and which frames leave through which ports. *)
From S2P Require Import Prelude Vlan Fdb Protect SwitchState Stp StpFacts Switch SwitchInv Deliver.

(** * Steps and reachable states *)

(** One call into the switch or one round of a background goroutine, with the
    effects it has. *)
Inductive sw_step (s : Switch) : list effect -> Switch -> Prop :=
  | step_AddPort id attrs s' err fx :
      AddPort id attrs s = (s', err, fx) -> sw_step s fx s'
  | step_RemovePort id s' fx : RemovePort id s = (s', fx) -> sw_step s fx s'
  | step_NotifyDown id s' fx : NotifyDown id s = (s', fx) -> sw_step s fx s'
  | step_OnPortDown cb : sw_step s [] (OnPortDown cb s)
  | step_UpdatePortAttrs id attrs s' err fx :
      UpdatePortAttrs id attrs s = (s', err, fx) -> sw_step s fx s'
  | step_AddStaticFDB now vlan mac id s' err :
      AddStaticFDB now vlan mac id s = (s', err) -> sw_step s [] s'
  | step_RemoveStaticFDB vlan mac s' err :
      RemoveStaticFDB vlan mac s = (s', err) -> sw_step s [] s'
  | step_DeleteFDBEntry vlan mac s' err :
      DeleteFDBEntry vlan mac s = (s', err) -> sw_step s [] s'
  | step_FlushFDB id vlan s' n : FlushFDB id vlan s = (s', n) -> sw_step s [] s'
  | step_SetFDBMaxAge d s' err : SetFDBMaxAge d s = (s', err) -> sw_step s [] s'
  | step_SetLoopProbeInterval d : sw_step s [] (SetLoopProbeInterval d s)
  | step_SetSTPConfig rg c : ranges_ok rg -> sw_step s [] (SetSTPConfig rg c s)
  | step_deliver env src frame s' fx :
      ranges_ok (rgs env) -> deliver env src frame s = Ret (s', fx) -> sw_step s fx s'
  | step_ageTick now : sw_step s [] (ageTick now s)
  | step_loopProbe rg : ranges_ok rg -> sw_step s (loopProbeRound rg s) s
  | step_portChanged rg : ranges_ok rg -> sw_step s [] (portChangedTask rg s)
  | step_runTick rg dt s' fx : ranges_ok rg -> runTick rg dt s = (s', fx) -> sw_step s fx s'
  | step_Close rg s' fx : ranges_ok rg -> Close rg s = (s', fx) -> sw_step s fx s'.

Inductive reachable : Switch -> Prop :=
  | reach_New random : reachable (New random)
  | reach_step s fx s' : reachable s -> sw_step s fx s' -> reachable s'.

(** * Preservation of the invariant *)

Lemma switch_ok_New random : switch_ok (New random).
Proof. by split. Qed.

Lemma switch_ok_AddPort id attrs s :
  switch_ok s -> switch_ok (AddPort id attrs s).1.1.
Proof.
  intros Hok. unfold AddPort. destruct (validate attrs) eqn:Hv; [done|].
  apply validate_None in Hv. case_bool_decide as Hne; [done|].
  destruct (ports s !! id) eqn:Hid; [done|]. cbn.
  assert (Hfresh : forall l e, heap s !! l = Some e -> l <> nextLoc s).
  { intros l e He ->. apply (ok_entry _ Hok) in He as [? _]. lia. }
  assert (Hold : forall l e n, heap s !! l = Some e -> <[nextLoc s := n]> (heap s) !! l = Some e).
  { intros l e n He. rewrite lookup_insert_ne; [done|]. intros <-. by eapply Hfresh. }
  split; cbn.
  - intros id' l. rewrite lookup_insert. case_decide; subst.
    + intros [= <-]. eexists. rewrite lookup_insert_eq. by split_and!.
    + intros (e & He & ? & ?)%(ok_reg _ Hok). eauto 10.
  - intros l e Hst. rewrite lookup_insert. case_decide; subst.
    + intros [= <-] _. apply lookup_insert_eq.
    + intros He Hg. pose proof (ok_live _ Hok _ _ Hst He Hg).
      rewrite lookup_insert_ne; [done|]. congruence.
  - intros l e. rewrite lookup_insert. case_decide; subst.
    + intros [= <-]. split_and!; try done. lia.
    + intros (? & ? & ?)%(ok_entry _ Hok). split_and!; auto with lia.
  - intros k e (Hk & Hl & Hm & Hp & Hx)%(ok_fdb _ Hok). do 4 (split; [done|]).
    destruct (fe_port e) as [l|]; [|done]. destruct Hx as (Hs & pe & Hpe & Hi & Hreg).
    split; [done|]. exists pe. split; [by apply Hold|]. split; [done|]. cbn. intros Hst.
    rewrite lookup_insert_ne; [by auto|]. intros ->. specialize (Hreg Hst). congruence.
  - intros id' p (e & He & <-)%(ok_stp _ Hok). eauto.
  - apply Hok.
Qed.

(** Unregistering a port, with its learned entries. *)
Lemma switch_ok_RemovePort id s : switch_ok s -> switch_ok (RemovePort id s).1.
Proof.
  intros Hok. unfold RemovePort. destruct (ports s !! id) as [l|] eqn:Hl; [|done]. cbn.
  destruct (ok_reg _ Hok _ _ Hl) as (e & He & Hid & Hg).
  assert (Hsame : forall l' e', alter set_gone l (heap s) !! l' = Some e' ->
    exists e0, heap s !! l' = Some e0 /\ pe_id e' = pe_id e0 /\ pe_attrs e' = pe_attrs e0 /\
      (l' = l /\ pe_gone e' = true \/ l' <> l /\ e' = e0)).
  { intros l' e'. rewrite lookup_alter. case_decide; subst; [|by eauto 10].
    rewrite He. intros [= <-]. eauto 10. }
  assert (Hfwd : forall l' e0, heap s !! l' = Some e0 ->
    exists e', alter set_gone l (heap s) !! l' = Some e' /\ pe_id e' = pe_id e0 /\
      (l' <> l -> e' = e0)).
  { intros l' e0 H0. rewrite lookup_alter. case_decide; subst; rewrite H0; cbn; eexists; split_and!; done. }
  split; cbn.
  - intros id' l' [Hne Hl']%lookup_delete_Some.
    destruct (ok_reg _ Hok _ _ Hl') as (e0 & H0 & Hi0 & Hg0).
    destruct (Hfwd _ _ H0) as (e' & H' & Hi' & Heq).
    assert (l' <> l) by (intros ->; congruence). rewrite Heq in * by done. eauto.
  - intros l' e' Hst (e0 & H0 & Hi & _ & [[-> Hg']|[Hne ->]])%Hsame; [congruence|]. intros Hg'.
    pose proof (ok_live _ Hok _ _ Hst H0 Hg').
    rewrite lookup_delete_ne; [done|]. congruence.
  - intros l' e' (e0 & H0 & -> & -> & _)%Hsame. by apply (ok_entry _ Hok).
  - intros k fe. rewrite lookup_delete_if. destruct (fdb_m (sfdb s) !! k) as [fe'|] eqn:Hk; [|done].
    unfold flushPort_test. destruct (negb _ && _) eqn:E; [done|]. intros [= ->].
    destruct (ok_fdb _ Hok _ _ Hk) as (Hk1 & Hk2 & Hk3 & Hk4 & Hx). do 4 (split; [done|]).
    destruct (fe_port fe) as [l'|]; [|done]. destruct Hx as (Hs & pe & Hpe & Hi & Hreg).
    rewrite Hs in E. cbn in E. bool_prop. destruct (Hfwd _ _ Hpe) as (pe' & Hpe' & Hi' & _).
    split; [done|]. exists pe'. split_and!; [done | congruence |].
    cbn. intros Hst. rewrite lookup_delete_ne by done. auto.
  - intros id' p Hp. destruct (ok_stp _ Hok _ _ Hp) as (e0 & H0 & <-).
    destruct (Hfwd _ _ H0) as (e' & H' & Hi' & _). eauto.
  - apply Hok.
Qed.

Lemma switch_ok_UpdatePortAttrs id attrs s :
  switch_ok s -> switch_ok (UpdatePortAttrs id attrs s).1.1.
Proof.
  intros Hok. unfold UpdatePortAttrs. destruct (validate attrs) eqn:Hv; [done|].
  apply validate_None in Hv. destruct (ports s !! id) as [l|]; [|done]. cbn.
  set (s1 := if _ && _ then _ else _).
  assert (H1 : evolves_by entry_kept s s1) by (unfold s1; destruct (_ && _); [by apply evolves_by_upd; [apply _|] | done]).
  assert (H2 : evolves_by entry_kept s (upd l (set_attrs attrs) s1)).
  { transitivity s1; [done|]. by apply evolves_by_upd; [apply _|]. }
  eapply switch_ok_kept; [exact Hok|]. destruct (negb (_ =? _)); [|exact H2].
  etransitivity; [exact H2|]. eapply evolves_mono; [apply evolves_kept|].
  apply evolves_frame, (frame_flushPort id (upd l (set_attrs attrs) s1)).
Qed.

Lemma switch_ok_AddStaticFDB now vlan mac id s :
  switch_ok s -> switch_ok (AddStaticFDB now vlan mac id s).1.
Proof.
  intros Hok. unfold AddStaticFDB. destruct (_ || _) eqn:Hr; [done|]. case_bool_decide; [done|].
  unfold macKey. destruct (negb (len mac =? 6)) eqn:Hl; [done|].
  destruct (isMulticast mac) eqn:Hm; [done|]. bool_prop. cbn.
  rewrite s32_small by lia. apply switch_ok_insert; [done|].
  unfold fdb_entry_ok, len in *. cbn. split_and!; auto; lia.
Qed.

Lemma switch_ok_delete s k a :
  switch_ok s -> switch_ok (with_fdb (mkFdb (delete k (fdb_m (sfdb s))) a) s).
Proof. intros Hok. eapply switch_ok_evolves; [done|]. apply evolves_fdb, delete_subseteq. Qed.

Lemma switch_ok_remove_fdb s f' e vlan m :
  switch_ok s ->
  removeStatic (sfdb s) vlan m = (f', e) \/ removeDynamic (sfdb s) vlan m = (f', e) ->
  switch_ok (with_fdb f' s).
Proof.
  intros Hok H.
  assert (Hsub : fdb_m f' ⊆ fdb_m (sfdb s)).
  { unfold removeStatic, removeDynamic in H.
    destruct H; repeat split_match; simplify_eq; cbn; try done; apply delete_subseteq. }
  eapply switch_ok_evolves; [done|]. by apply evolves_fdb.
Qed.

Lemma evolves_SetSTPConfig rg c s : ranges_ok rg -> evolves s (SetSTPConfig rg c s).
Proof.
  intros Hrg. unfold SetSTPConfig. set (s1 := with_stp _ s).
  assert (H1 : evolves s s1) by (split; cbn; eauto; reflexivity).
  transitivity s1; [done|]. destruct (negb _).
  - set (s2 := foldl _ _ _).
    assert (H2 : evolves s1 s2) by (apply evolves_frame, frame_foldl; intros; apply frame_upd_stp).
    transitivity s2; [done|]. split; cbn; try done; reflexivity.
  - apply evolves_frame. etransitivity; [by apply frame_resyncPorts | apply frame_becomeRoot].
Qed.

Lemma switch_ok_SetSTPConfig rg c s :
  ranges_ok rg -> switch_ok s -> switch_ok (SetSTPConfig rg c s).
Proof. intros Hrg Hok. eapply switch_ok_evolves; [exact Hok|]. by apply evolves_SetSTPConfig. Qed.

Lemma switch_ok_step s fx s' : switch_ok s -> sw_step s fx s' -> switch_ok s'.
Proof.
  intros Hok H.
  assert (Hev : forall s', evolves s s' -> switch_ok s') by (intros; by eapply switch_ok_evolves).
  assert (Hflush : forall f, fdb_m f ⊆ fdb_m (sfdb s) -> switch_ok (with_fdb f s))
    by (intros; by apply Hev, evolves_fdb).
  destruct H as [id a s' err fx E|id s' fx E|id s' fx E|cb|id a s' err fx E|now v m id s' err E
    |v m s' err E|v m s' err E|id v s' n E|d s' err E|d|rg c Hrg|env src fr s' fx Hrg E|now
    |rg Hrg|rg Hrg|rg dt s' fx Hrg E|rg s' fx Hrg E].
  - pose proof (switch_ok_AddPort id a s Hok). by rewrite E in *.
  - pose proof (switch_ok_RemovePort id s Hok). by rewrite E in *.
  - unfold NotifyDown, portDown in E. simplify_eq. apply Hev, evolves_frame, frame_flushPort.
  - destruct Hok. by split; cbn.
  - pose proof (switch_ok_UpdatePortAttrs id a s Hok). by rewrite E in *.
  - pose proof (switch_ok_AddStaticFDB now v m id s Hok). by rewrite E in *.
  - unfold RemoveStaticFDB in E. destruct (macKey m); [|by simplify_eq].
    destruct (removeStatic _ _ _) eqn:E'. simplify_eq. eapply switch_ok_remove_fdb; eauto.
  - unfold DeleteFDBEntry in E. destruct (macKey m); [|by simplify_eq].
    destruct (removeDynamic _ _ _) eqn:E'. simplify_eq. eapply switch_ok_remove_fdb; eauto.
  - unfold FlushFDB in E. cbn in E. inversion E; subst.
    apply Hev, evolves_frame, (frame_flush id (s32 <$> v) s).
  - unfold SetFDBMaxAge in E. destruct (d <=? 0); simplify_eq; [done|]. by apply Hflush.
  - apply Hev. unfold SetLoopProbeInterval. destruct (0 <? d); [|done].
    split; cbn; eauto; reflexivity.
  - by apply switch_ok_SetSTPConfig.
  - by eapply switch_ok_deliver.
  - apply Hev, evolves_frame, frame_delete_if. unfold expire_test. by intros k e ->.
  - done.
  - by apply Hev, evolves_frame, frame_portChangedTask.
  - apply Hev, evolves_frame. pose proof (frame_runTick rg dt s Hrg). by rewrite E in *.
  - unfold Close in E. inversion E; subst. split; cbn; try done; try apply Hok.
    intros k e (Hk & Hl & Hm & Hp & Hx)%(ok_fdb _ Hok). do 4 (split; [done|]).
    destruct (fe_port e) as [l|]; [|done]. destruct Hx as (Hs & pe & Hpe & Hi & _).
    split; [done|]. by exists pe.
Qed.

Lemma reachable_switch_ok s : reachable s -> switch_ok s.
Proof. induction 1; [apply switch_ok_New | by eapply switch_ok_step]. Qed.

(** * A small network for the witnesses *)

Definition demo_env : Env := mkEnv (fun _ _ => true) 0 0 0 0 std_ranges.

(** A switch with three access ports of VLAN 0, at locations 0, 1 and 2. *)
Definition demo : Switch :=
  let add id s := (AddPort id (plainAttrs 0) s).1.1 in
  add "c"%string (add "b"%string (add "a"%string (New (make_bytes 8)))).

(** Frames between hosts [02:..:00:d] and [02:..:00:s], and a broadcast. *)
Definition host (n : Z) : bytes := [2; 0; 0; 0; 0; n].
Definition demo_frame (dst src : bytes) : bytes := dst ++ src ++ [8; 0] ++ make_bytes 46.
Definition broadcast : bytes := replicate 6 255.

(** The parts of a delivery's outcome. *)
Definition deliver_state (r : res (Switch * list effect)) : Switch :=
  match r with Ret x => x.1 | Panic => demo end.
Definition deliver_effects (r : res (Switch * list effect)) : list effect :=
  match r with Ret x => x.2 | Panic => [] end.

Lemma reach_AddPort id a s : reachable s -> reachable (AddPort id a s).1.1.
Proof.
  intros Hr. destruct (AddPort id a s) as [[s' err] fx] eqn:E.
  eapply reach_step; [exact Hr | by eapply step_AddPort].
Qed.

Lemma demo_reachable : reachable demo.
Proof. do 3 apply reach_AddPort. constructor. Qed.

Definition demo_entry (id : string) (n : Z) : portEntry := newEntry id (plainAttrs 0) n.

Lemma demo_admits (l : nat) id n d m :
  heap demo !! l = Some (demo_entry id n) -> isReservedGroupMAC d = false -> d <> loopProbeDst ->
  length d = 6%nat -> length m = 6%nat ->
  admits demo l (demo_entry id n) (demo_frame d m) (mkFrameView (demo_frame d m) false 0) 0.
Proof.
  intros Hl Hd Hp Ld Lm.
  assert (Hdm : dstM (demo_frame d m) = d) by (apply take_app_length'; lia).
  assert (Het : take 2 (drop 12 (demo_frame d m)) = [8; 0]).
  { unfold demo_frame. rewrite app_assoc, drop_app_length', take_app_length'; [done | done |].
    rewrite length_app. lia. }
  split; try done; rewrite ?Hdm; try done; [|by intros [? _]].
  rewrite parseFrame_Some; rewrite ?Het; try done; unfold demo_frame; lens.
Qed.

(** * Properties *)

(** C4: no frame can crash the switch.  Whatever bytes arrive on whatever port
    in whatever state, the pipeline ends normally: no slice or index of the
    code is out of range. *)
Theorem deliver_never_panics env r src srcID frame s :
  (exists s' fx, deliver env src frame s = Ret (s', fx)) /\
  (exists s' fx, Deliver env srcID frame s = Ret (s', fx)) /\
  (exists r' s' fx, PortRef_Deliver env r frame s = Ret (r', s', fx)).
Proof.
  split; [destruct (deliver_cases env src frame s) as (s' & fx & -> & _); eauto|]. split.
  - unfold Deliver. destruct (ports s !! srcID) as [l|]; [|eauto].
    destruct (deliver_cases env l frame s) as (s' & fx & -> & _); eauto.
  - unfold PortRef_Deliver. destruct (if ref_stale s r then _ else _) as [l|]; [|eauto].
    destruct (deliver_cases env l frame s) as (s' & fx & -> & _). rewrite bind_Ret. eauto.
Qed.

(** C1: the invariant of the switch.  In every reachable state the registry
    names live objects under their own identifier, a live object of an open
    switch is registered, every learned forwarding entry points to the port
    registered under its identifier, static entries name a port and never carry
    a pointer, spanning-tree ports have an object, and every VLAN key and MAC
    in the table is well formed. *)
Theorem reachable_invariant s : reachable s -> switch_ok s.
Proof. apply reachable_switch_ok. Qed.

Lemma reachable_invariant_witness : switch_ok demo.
Proof. apply reachable_invariant, demo_reachable. Defined.

Lemma forwarding_safe_ok env src e frame f s s' fx dst m out :
  switch_ok s -> ranges_ok (rgs env) -> heap s !! src = Some e ->
  parseFrame frame = Ret (Some f) -> isReservedGroupMAC (dstM frame) = false ->
  deliver env src frame s = Ret (s', fx) -> ESend dst m out ∈ fx ->
  m = pe_id e /\ exists key, admits s src e frame f key /\ may_leave s e f key dst out.
Proof.
  intros Hok Hrg He Hp Hres Hd Hin.
  apply deliver_inv in Hd.
  destruct Hd as [s' _|s' p Hres' _ _|f' key s' fx Hp' Hg Hdis _ Hpr Hadm Hfx s1 _ _ _];
    [by apply elem_of_nil in Hin | congruence |].
  pose proof (switch_ok_forwarding env src frame s f' key Hok Hp' Hg Hadm) as Hok1.
  rewrite (entry_of_Some _ _ _ He) in *. subst fx.
  destruct (bool_decide _) eqn:Hl; [by apply elem_of_nil in Hin|].
  apply copies_safe in Hin as (l & o & Ho & Hleave); [|done|done].
  inversion Ho; subst. split; [done|]. rewrite Hp in Hp'. simplify_eq. exists key.
  destruct (admitted_inv _ _ _ _ _ Hadm) as (Hst & Hkey & Hsec).
  rewrite (entry_of_Some _ _ _ He) in Hst. bool_prop. split.
  - split; try done. by destruct Hst.
  - eapply may_leave_core; [|exact Hleave]. apply same_core_forwarding.
Qed.

(** C2: only permitted copies leave.  A data frame emitted by a delivery comes
    from a live, enabled, forwarding port that admitted it (VLAN classification
    and port security), and leaves through another live port that is in the
    forwarding state and eligible for the frame's VLAN and the isolation rules,
    rendered for that port. *)
Theorem forwarding_safe env src e frame f s s' fx dst m out :
  reachable s -> ranges_ok (rgs env) -> heap s !! src = Some e ->
  parseFrame frame = Ret (Some f) -> isReservedGroupMAC (dstM frame) = false ->
  deliver env src frame s = Ret (s', fx) -> ESend dst m out ∈ fx ->
  m = pe_id e /\ exists key, admits s src e frame f key /\ may_leave s e f key dst out.
Proof. intros Hr. by apply forwarding_safe_ok, reachable_switch_ok. Qed.

Lemma forwarding_safe_witness :
  let fr := demo_frame broadcast (host 1) in
  "a"%string = pe_id (demo_entry "a" 1) /\ exists key,
    admits demo 0 (demo_entry "a" 1) fr (mkFrameView fr false 0) key /\
    may_leave demo (demo_entry "a" 1) (mkFrameView fr false 0) key 1 fr.
Proof.
  intros fr.
  apply (forwarding_safe demo_env 0 (demo_entry "a" 1) fr (mkFrameView fr false 0) demo
    (deliver_state (deliver demo_env 0 fr demo)) (deliver_effects (deliver demo_env 0 fr demo)));
    [apply demo_reachable | apply std_ranges_ok | reflexivity | reflexivity | reflexivity
    | reflexivity |].
  apply list_elem_of_In. vm_compute. tauto.
Defined.

(** The port a copy is sent to. *)
Definition sent_to (x : effect) : option loc :=
  match x with ESend dst _ _ => Some dst | _ => None end.

Lemma flood_copies_NoDup srcID a f key s (l : list (string * loc)) :
  NoDup l.*2 -> NoDup (sent_to <$> flood_copies srcID a f key s l).
Proof.
  induction l as [|[id dst] l IH]; [constructor|]. rewrite fmap_cons, NoDup_cons. cbn [snd].
  intros [Hni Hnd]. unfold flood_copies. cbn. fold (flood_copies srcID a f key s l).
  destruct (flood_to _ _ _ _ _); [|by apply IH]. cbn. apply NoDup_cons. split; [|by apply IH].
  intros (x & Hx & (id' & d' & Hin & _ & ->)%flood_copies_elem)%list_elem_of_fmap.
  cbn in Hx. simplify_eq. apply Hni, list_elem_of_fmap. by exists (id', d').
Qed.

(** Distinct identifiers are registered with distinct objects. *)
Lemma ports_NoDup s range :
  switch_ok s -> range_order range -> NoDup (range (ports s)).*2.
Proof.
  intros Hok Hr. apply NoDup_fmap_2_strong.
  - intros [i x] [j y] Hi Hj E. cbn in E. subst.
    apply elem_of_range in Hi, Hj; try done.
    destruct (ok_reg _ Hok _ _ Hi) as (e & He & <- & _).
    destruct (ok_reg _ Hok _ _ Hj) as (e' & He' & <- & _). congruence.
  - eapply NoDup_fmap_1, NoDup_range, Hr.
Qed.

(** A destination the table cannot resolve is flooded. *)
Lemma resolve_unknown env src srcID f s key d :
  isMulticast d = true \/ d <> srcM f /\ fdb_m (sfdb s) !! (key, d) = None ->
  resolve env (learned env src srcID f s key) key d = None.
Proof.
  intros H. unfold resolve. destruct (isMulticast d); [done|]. destruct H as [|[Hne Hl]]; [done|].
  unfold lookup_mac, learned. destruct (negb _); [|by rewrite Hl].
  cbn [sfdb with_fdb]. rewrite lookup_learn. case_decide; [congruence|]. by rewrite Hl.
Qed.



(** A learned address is found until it ages out. *)
Lemma lookup_learned f now now' key mac id l :
  (forall e, fdb_m f !! (key, mac) = Some e -> fe_static e = false) ->
  now <= now' -> now' - now <= fdb_maxAge f < maxInt64 ->
  lookup_mac (learn f now key mac id l) now' key mac = (Some l, id).
Proof.
  intros Hs Hle Hage. unfold lookup_mac. rewrite lookup_learn, learn_maxAge, decide_True by done.
  assert (E : match fdb_m f !! (key, mac) with
    | Some e => if fe_static e then Some e else Some (mkFdbEntry id (Some l) now false)
    | None => Some (mkFdbEntry id (Some l) now false) end = Some (mkFdbEntry id (Some l) now false)).
  { destruct (fdb_m f !! _) as [e|]; [by rewrite Hs | done]. }
  rewrite E. cbn. destruct (Z.ltb_spec (fdb_maxAge f) (time_sub now' now)); [|done].
  unfold time_sub, minInt64, maxInt64 in *. lia.
Qed.

Lemma admits_core s s' src e frame f key :
  same_core s s' -> instanceID s' = instanceID s -> admits s src e frame f key ->
  exists e', core e' = core e /\ admits s' src e' frame f key.
Proof.
  intros [_ Hc] Hi [He0 Hg0 Hdis0 Hst0 Hp0 Hr0 Hpr0 Hk0 Hs0]. specialize (Hc src).
  rewrite He0 in Hc.
  destruct (heap s' !! src) as [e'|] eqn:He; [|done]. cbn in Hc.
  exists e'. split; [congruence|]. destruct e, e'. unfold core in Hc. cbn in *.
  inversion Hc; subst. split; cbn; try done. by rewrite Hi.
Qed.



(** * Control frames *)

(** Reserved group addresses are consumed.  A frame to 01:80:C2:00:00:0x
    is never copied to another port: the only frame a delivery of it can
    produce is the spanning tree's own answer on the port it came from, and it
    teaches the switch no address. *)
Theorem reserved_consumed env src e frame s s' fx :
  reachable s -> heap s !! src = Some e -> isReservedGroupMAC (dstM frame) = true ->
  deliver env src frame s = Ret (s', fx) ->
  fdb_m (sfdb s') ⊆ fdb_m (sfdb s) /\
  forall dst m out, ESend dst m out ∈ fx ->
    m = stpMeta /\ exists d, heap s !! dst = Some d /\ pe_id d = pe_id e.
Proof.
  intros Hr He Hres Hd. apply deliver_inv in Hd.
  destruct Hd as [s' Hev|s' p _ Hev Hp|]; [| |congruence]; (split; [apply Hev|]).
  - by intros dst m out ?%elem_of_nil.
  - intros dst m out [= -> -> _]%list_elem_of_singleton. split; [done|].
    rewrite (entry_of_Some _ _ _ He) in Hp.
    by apply (ok_stp _ (reachable_switch_ok _ Hr)).
Qed.

Lemma reserved_consumed_witness :
  let fr := demo_frame bpduDstMAC (host 1) in
  fdb_m (sfdb (deliver_state (deliver demo_env 0 fr demo))) ⊆ fdb_m (sfdb demo) /\
  forall dst m out, ESend dst m out ∈ deliver_effects (deliver demo_env 0 fr demo) ->
    m = stpMeta /\ exists d, heap demo !! dst = Some d /\ pe_id d = "a"%string.
Proof.
  intros fr. apply (reserved_consumed demo_env 0 (demo_entry "a" 1) fr);
    [apply demo_reachable | reflexivity | reflexivity | reflexivity].
Defined.

(** Port [l] is shut down for [reason]: it is disabled, nothing learned on it
    is left, and no frame from it does anything but count. *)
Definition shut (l : loc) (id reason : string) (s : Switch) : Prop :=
  (exists e, heap s !! l = Some e /\ Disabled (pe_attrs e) = true /\ pe_blockReason e = reason) /\
  (forall k fe, fdb_m (sfdb s) !! k = Some fe -> fe_portID fe = id -> fe_static fe = true) /\
  (forall env frame, exists s', deliver env l frame s = Ret (s', []) /\ sfdb s' = sfdb s).

Lemma disabled_silent env l frame s :
  Disabled (pe_attrs (entry_of s l)) = true ->
  exists s', deliver env l frame s = Ret (s', []) /\ sfdb s' = sfdb s.
Proof.
  intros Hdis. unfold deliver. destruct (parseFrame_total frame) as [[f|] ->]; rewrite bind_Ret; [|by eauto].
  destruct (pe_gone _); [by eauto|]. rewrite Hdis. by eexists.
Qed.

Lemma blockPort_shut l e reason s :
  heap s !! l = Some e -> Disabled (pe_attrs e) = false ->
  shut l (pe_id e) reason (blockPort l reason s).
Proof.
  intros He Hdis. unfold blockPort. rewrite (entry_of_Some _ _ _ He), Hdis. cbn [negb].
  set (s1 := upd l _ s).
  assert (H1 : heap s1 !! l = Some (set_blockReason reason (set_attrs (set_Disabled true (pe_attrs e)) e))).
  { unfold s1. rewrite lookup_upd, decide_True, He by done. done. }
  split_and!.
  - eexists. split; [exact H1|]. by destruct e.
  - intros k fe. cbn. rewrite lookup_delete_if. destruct (fdb_m (sfdb s) !! k) as [fe'|]; [|done].
    unfold flushPort_test. destruct (fe_static fe') eqn:Es; cbn; [by intros [= <-]|].
    case_bool_decide; [done|]. by intros [= <-] ?.
  - intros env frame. apply disabled_silent. unfold entry_of. cbn [heap with_fdb]. by rewrite H1.
Qed.

Lemma isBPDU_dst d frame : isBPDU d frame = Ret true -> d = bpduDstMAC.
Proof. unfold isBPDU. case_bool_decide; [done | discriminate]. Qed.

Lemma isBPDU_untagged d frame :
  isBPDU d frame = Ret true -> be_get (take 2 (drop 12 frame)) <> etherTypeVLAN.
Proof.
  intros Hb. pose proof (isBPDU_len _ _ Hb). revert Hb. unfold isBPDU.
  case_bool_decide; [|done]. cbn [negb]. destruct (_ <? _); [done|].
  rewrite (slice_ret frame 12 14), bind_Ret by lia. change (Z.to_nat (14 - 12)) with 2%nat.
  change (Z.to_nat 12) with 12%nat. destruct (Z.ltb_spec 1500 (be_get (take 2 (drop 12 frame)))); [done|].
  unfold etherTypeVLAN. lia.
Qed.

Lemma shut_received l id e reason frame s :
  heap s !! l = Some e -> Disabled (pe_attrs e) = false -> pe_id e = id ->
  shut l id reason (blockPort l reason (received l frame s)).
Proof.
  intros He Hdis <-.
  apply (blockPort_shut l (set_stats (count_rx (len frame)) e) reason (received l frame s)); [|done].
  unfold received. by rewrite lookup_upd, decide_True, He by done.
Qed.

(** BPDU guard.  A BPDU on a guarded, enabled port shuts the port: it is
    disabled with reason bpdu_guard, its learned addresses are gone, nothing is
    sent, and no further frame from it has any effect. *)
Theorem bpdu_guard_shuts env src e frame s :
  heap s !! src = Some e -> pe_gone e = false -> Disabled (pe_attrs e) = false ->
  BPDUGuard (pe_attrs e) = true -> isBPDU (dstM frame) frame = Ret true ->
  exists s', deliver env src frame s = Ret (s', []) /\ shut src (pe_id e) "bpdu_guard" s'.
Proof.
  intros He Hg Hdis Hgd Hb. pose proof (isBPDU_len _ _ Hb) as Hlen.
  pose proof (isBPDU_untagged _ _ Hb) as Het.
  assert (Hp : parseFrame frame = Ret (Some (mkFrameView frame false 0))).
  { rewrite parseFrame_Some by (lia || done). by rewrite (proj2 (Z.eqb_neq _ _) Het). }
  destruct (parseFrame_inv _ _ Hp) as (_ & Hv & _). unfold deliver.
  rewrite Hp, bind_Ret, (entry_of_Some _ _ _ He), Hg, Hdis, dstMAC_ret, bind_Ret by done.
  cbn [data]. fold (dstM frame) (received src frame s).
  pose proof (isBPDU_dst _ _ Hb) as Hdm. rewrite Hdm in Hb |- *. cbn [and_res].
  replace (bool_decide (bpduDstMAC = loopProbeDst)) with false by done. cbn [and_res]. rewrite bind_Ret.
  change (isReservedGroupMAC bpduDstMAC) with true. cbn match. rewrite Hgd, Hb. cbn [and_res].
  rewrite !bind_Ret. destruct (STP (pe_attrs e)); cbn [and_res]; rewrite ?bind_Ret;
    (eexists; split; [done | by apply (shut_received _ _ e)]).
Qed.

(** A guarded port, and a configuration BPDU. *)
Definition guardAttrs : PortAttrs := mkPortAttrs None false 0 false true false 0 false 0 0.
Definition guarded : Switch := (AddPort "g" guardAttrs (New (make_bytes 8))).1.1.
Definition demo_bpdu : bytes := bpduDstMAC ++ host 1 ++ [0; 38; 0x42; 0x42; 0x03] ++ make_bytes 43.

Lemma bpdu_guard_shuts_witness :
  exists s', deliver demo_env 0 demo_bpdu guarded = Ret (s', []) /\ shut 0 "g" "bpdu_guard" s'.
Proof.
  apply (bpdu_guard_shuts demo_env 0 (newEntry "g" guardAttrs 1) demo_bpdu guarded); reflexivity.
Defined.

(** Loop detection.  A probe the switch emitted that comes back on any
    live, enabled port of the same switch shuts that port with reason loop. *)
Theorem loop_detected rg env s l m probe src e :
  0 <= instanceID s < 2 ^ 64 -> ESend l m probe ∈ loopProbeRound rg s ->
  heap s !! src = Some e -> pe_gone e = false -> Disabled (pe_attrs e) = false ->
  exists s', deliver env src probe s = Ret (s', []) /\ shut src (pe_id e) "loop" s'.
Proof.
  intros Hi Hin He Hg Hdis. unfold loopProbeRound in Hin.
  apply list_elem_of_omap in Hin as ([id l'] & _ & Hx).
  destruct (_ && _); [|done]. simplify_eq. unfold deliver.
  set (fr := buildLoopProbe (instanceID s)).
  assert (Hp : parseFrame fr = Ret (Some (mkFrameView fr false 0))) by reflexivity.
  destruct (parseFrame_inv _ _ Hp) as (_ & Hv & _).
  rewrite Hp, bind_Ret, (entry_of_Some _ _ _ He), Hg, Hdis, dstMAC_ret, bind_Ret by done.
  cbn [data]. fold (received src fr s). change (take 6 fr) with loopProbeDst.
  rewrite bool_decide_eq_true_2 by done. cbn [and_res].
  change (instanceID (received src fr s)) with (instanceID s).
  assert (Hown : isOwnLoopProbe (instanceID s) fr = Ret true)
    by (unfold fr; by rewrite isOwnLoopProbe_built, Z.eqb_refl).
  rewrite Hown, bind_Ret.
  eexists. split; [done|]. by apply (shut_received _ _ e).
Qed.

(** Two ports, one of them probing. *)
Definition probing : Switch :=
  (AddPort "q" (plainAttrs 0)
    (AddPort "p" (mkPortAttrs None false 0 false false true 0 false 0 0) (New (make_bytes 8))).1.1).1.1.

Lemma loop_detected_witness :
  exists s', deliver demo_env 1 (buildLoopProbe 0) probing = Ret (s', []) /\ shut 1 "q" "loop" s'.
Proof.
  apply (loop_detected std_ranges demo_env probing 0 "loop-probe" (buildLoopProbe 0) 1
    (demo_entry "q" 2));
    try reflexivity; [vm_compute; split; [discriminate | reflexivity]|].
  apply list_elem_of_In. vm_compute. tauto.
Defined.
