(* ===== verification/StpProps.v ===== *)
(** Theorems about the spanning tree's decisions: root election, port roles and
    states, and what blocked ports carry. *)
From S2P Require Import Prelude Vlan Fdb Protect SwitchState Stp StpFacts Switch SwitchInv Deliver SwitchProps.

(** * Root election *)

(** A port whose stored information takes part in the election. *)
Definition electable (s : Switch) (p : stpPort) : bool :=
  sp_hasInfo p && negb (pv_bridgeID (sp_info p) =? bridgeID (stp s)).

Lemma consider_electable s best root id p :
  consider s (best, root) (id, p) =
  if electable s p && better (candidate s p) best then (candidate s p, Some id) else (best, root).
Proof.
  unfold consider, electable. destruct (sp_hasInfo p); cbn; [|done].
  destruct (_ =? _); cbn; [done|]. by destruct (better _ _).
Qed.

(** The outcome of an election among the ports of a list: our own claim or
    the vector of an electable port, and no electable vector beats it. *)
Record elected (s : Switch) (start : priorityVector) (l : list (string * stpPort))
    (best : priorityVector) (root : option string) : Prop := {
  el_from : (root = None /\ best = start) \/
    exists id p, root = Some id /\ (id, p) ∈ l /\ electable s p = true /\ best = candidate s p /\
      pv_lt best start;
  el_start : ~ pv_lt start best;
  el_min : forall id p, (id, p) ∈ l -> electable s p = true -> ~ pv_lt (candidate s p) best
}.

Lemma fold_elected s start l best root :
  foldl (consider s) (start, None) l = (best, root) -> elected s start l best root.
Proof.
  revert best root. induction l as [|[id p] l IH] using rev_ind; intros best root.
  - intros [= <- <-]. split; [by left | apply (irreflexivity pv_lt) | by intros id p ?%elem_of_nil].
  - rewrite foldl_app. destruct (foldl _ _ l) as [b r] eqn:E. specialize (IH b r eq_refl).
    destruct IH as [Hfrom Hstart Hmin]. cbn [foldl]. rewrite consider_electable.
    destruct (electable s p) eqn:Hel; [destruct (better (candidate s p) b) eqn:Hb|]; cbn;
      intros [= <- <-].
    + apply better_lt in Hb.
      assert (Hlt : pv_lt (candidate s p) start).
      { destruct Hfrom as [[_ ->]|(? & ? & _ & _ & _ & _ & H)]; [done | by etransitivity]. }
      split.
      * right. exists id, p. split_and!; try done. apply elem_of_app. right. by left.
      * intros H. apply (irreflexivity pv_lt start). by etransitivity.
      * intros id' p' [Hin|[= -> ->]%list_elem_of_singleton]%elem_of_app He H.
        -- apply (Hmin _ _ Hin He). by etransitivity.
        -- by apply (irreflexivity pv_lt) in H.
    + apply better_ge in Hb. split; [|done|].
      * destruct Hfrom as [|(i & q & ? & ? & ?)]; [by left | right; exists i, q].
        split_and!; try tauto. apply elem_of_app. by left.
      * intros id' p' [Hin|[= -> ->]%list_elem_of_singleton]%elem_of_app He; [by eapply Hmin | done].
    + split; [|done|].
      * destruct Hfrom as [|(i & q & ? & ? & ?)]; [by left | right; exists i, q].
        split_and!; try tauto. apply elem_of_app. by left.
      * intros id' p' [Hin|[= -> ->]%list_elem_of_singleton]%elem_of_app He; [by eapply Hmin | congruence].
Qed.

Lemma selectRoot_elected rg s best root :
  ranges_ok rg -> selectRoot rg s = (best, root) ->
  elected s (ownVector (stp s)) (map_to_list (sports (stp s))) best root.
Proof.
  unfold selectRoot. intros Hrg E. apply fold_elected in E. destruct E as [Hf Hs Hm].
  split; [|exact Hs|].
  - destruct Hf as [|(id & p & ? & Hin & ?)]; [by left | right; exists id, p].
    split_and!; try tauto. rewrite <- (ok_root _ Hrg (sports (stp s))). done.
  - intros id p Hin. apply (Hm id). by rewrite (ok_root _ Hrg (sports (stp s))).
Qed.

(** * Roles and states *)

Definition role_state (r : roleT) (st : stpStateT) : Prop :=
  match r with RoleBlocked => st = stpBlocking | _ => st <> stpBlocking end.

(** Spanning-tree ports of different identifiers have different objects. *)
Definition distinct_entries (s : Switch) : Prop :=
  forall i j p q, sports (stp s) !! i = Some p -> sports (stp s) !! j = Some q ->
    sp_entry p = sp_entry q -> i = j.

Definition entries_ok (s : Switch) : Prop :=
  forall id p, sports (stp s) !! id = Some p -> is_Some (heap s !! sp_entry p).

Lemma switch_ok_distinct s : switch_ok s -> distinct_entries s /\ entries_ok s.
Proof.
  intros Hok. split.
  - intros i j p q Hp Hq E.
    destruct (ok_stp _ Hok _ _ Hp) as (e & He & <-), (ok_stp _ Hok _ _ Hq) as (e' & He' & <-).
    congruence.
  - intros id p Hp. destruct (ok_stp _ Hok _ _ Hp) as (e & He & _). eauto.
Qed.

(** What one round of the role loop does to its own port. *)
Lemma assignRole_self root s ch id p :
  sports (stp s) !! id = Some p -> is_Some (heap s !! sp_entry p) ->
  let s' := (assignRole root (s, ch) (id, p)).1 in
  exists p', sports (stp s') !! id = Some p' /\ sp_role p' = newRole s root id p /\
    sp_entry p' = sp_entry p /\ sp_hasInfo p' = sp_hasInfo p /\ sp_info p' = sp_info p /\
    sp_infoAge p' = sp_infoAge p /\
    role_state (sp_role p') (pe_stpState (entry_of s' (sp_entry p))).
Proof.
  intros Hp [e He]. cbn. set (r := newRole s root id p).
  assert (Hs1 : sports (stp (upd_sport id (sp_set_role r) s)) !! id = Some (sp_set_role r p))
    by (cbn; by rewrite lookup_alter_eq, Hp).
  unfold applyRole. rewrite Hs1. cbn [sp_role sp_entry sp_set_role].
  assert (He1 : entry_of (upd_sport id (sp_set_role r) s) (sp_entry p) = e)
    by (by apply entry_of_Some). rewrite He1.
  destruct r eqn:Hr; case_bool_decide as Hb; cbn [stp sports upd_sport with_stp br_set_sports upd
    with_heap with_fdb]; rewrite ?lookup_alter_eq, ?Hp; eexists; (split; [reflexivity|]); cbn;
    split_and!; try done.
  all: unfold entry_of; cbn; rewrite ?lookup_alter_eq, He; done.
Qed.

(** It touches no other port, and no root information. *)
Definition same_root (s s' : Switch) : Prop :=
  rootID (stp s') = rootID (stp s) /\ rootCost (stp s') = rootCost (stp s) /\
  rootPort (stp s') = rootPort (stp s).

Lemma assignRole_other root s ch id p :
  let s' := (assignRole root (s, ch) (id, p)).1 in
  same_root s s' /\
  (forall id', id' <> id -> sports (stp s') !! id' = sports (stp s) !! id') /\
  (forall l, sports (stp s) !! id = Some p -> l <> sp_entry p -> heap s' !! l = heap s !! l).
Proof.
  cbn. unfold applyRole. set (r := newRole s root id p).
  destruct (sports (stp (upd_sport id (sp_set_role r) s)) !! id) as [q|] eqn:Hq.
  - cbn in Hq. rewrite lookup_alter_eq in Hq.
    destruct (sports (stp s) !! id) as [p0|] eqn:Hp0; [|done]. cbn in Hq. simplify_eq. cbn.
    destruct r; case_bool_decide; (split; [done|]; split;
      [intros id' Hne; cbn; by rewrite ?lookup_alter_ne by done
      | intros l [= ->] Hne; cbn; by rewrite ?lookup_alter_ne by done]).
  - split; [done|]. split; [|done]. intros id' Hne. cbn. by rewrite lookup_alter_ne.
Qed.

Lemma newRole_frame s s' root id p :
  stp_frame s s' -> same_root s s' -> newRole s' root id p = newRole s root id p.
Proof.
  intros F (R1 & R2 & _). unfold newRole, designated, advertised, portIDValue, bridgeID.
  rewrite R1, R2, (fr_cfg _ _ F), (fr_mac _ _ F).
  pose proof (frame_entry _ _ (sp_entry p) F) as E.
  destruct (entry_of s' (sp_entry p)), (entry_of s (sp_entry p)). by inversion E.
Qed.

(** The role loop as a whole. *)
Lemma roles_fold root l : forall s ch,
  NoDup l.*1 -> (forall id p, (id, p) ∈ l -> sports (stp s) !! id = Some p) ->
  distinct_entries s -> entries_ok s ->
  let s' := (foldl (assignRole root) (s, ch) l).1 in
  same_root s s' /\
  (forall id, id ∉ l.*1 -> sports (stp s') !! id = sports (stp s) !! id) /\
  (forall x, (forall id p, (id, p) ∈ l -> sp_entry p <> x) -> heap s' !! x = heap s !! x) /\
  (forall id p, (id, p) ∈ l ->
    exists p', sports (stp s') !! id = Some p' /\ sp_role p' = newRole s root id p /\
      sp_entry p' = sp_entry p /\ sp_hasInfo p' = sp_hasInfo p /\ sp_info p' = sp_info p /\
      sp_infoAge p' = sp_infoAge p /\
      role_state (sp_role p') (pe_stpState (entry_of s' (sp_entry p)))).
Proof.
  induction l as [|[id p] l IH]; intros s ch Hnd Hin Hdis Hent; cbn [foldl fst].
  { split_and!; try done. by intros id p ?%elem_of_nil. }
  rewrite fmap_cons, NoDup_cons in Hnd. cbn [fst] in Hnd. destruct Hnd as [Hni Hnd].
  assert (Hp : sports (stp s) !! id = Some p) by (apply Hin; by left).
  pose proof (assignRole_self root s ch id p Hp (Hent _ _ Hp)) as Hself.
  pose proof (assignRole_other root s ch id p) as (Hroot & Hoth & Hheap).
  pose proof (frame_assignRole root (s, ch) (id, p)) as F. cbn [fst] in F.
  destruct (assignRole root (s, ch) (id, p)) as [s1 ch1]. cbn [fst] in *.
  destruct Hself as (p1 & Hp1 & Hr1 & He1 & Hi1).
  assert (Hback : forall i q, sports (stp s1) !! i = Some q ->
    exists q0, sports (stp s) !! i = Some q0 /\ sp_entry q = sp_entry q0).
  { intros i q Hq. destruct (decide (i = id)) as [->|Hne]; [|rewrite Hoth in Hq by done; eauto].
    rewrite Hp1 in Hq. simplify_eq. eauto. }
  assert (Hin1 : forall i q, (i, q) ∈ l -> sports (stp s1) !! i = Some q).
  { intros i q Hq. rewrite Hoth; [apply Hin; by right|]. intros ->. apply Hni.
    apply list_elem_of_fmap. by exists (id, q). }
  assert (Hne_entry : forall i q, (i, q) ∈ l -> sp_entry q <> sp_entry p).
  { intros i q Hq E. assert (i = id) as ->.
    { eapply Hdis; [apply Hin; by right | exact Hp | done]. }
    apply Hni, list_elem_of_fmap. by exists (id, q). }
  destruct (IH s1 ch1 Hnd Hin1) as (IHr & IHo & IHh & IHs).
  { intros i j q q' (q0 & Hq0 & E0)%Hback (q1 & Hq1 & E1)%Hback E. eapply Hdis; eauto. congruence. }
  { intros i q (q0 & Hq0 & ->)%Hback. destruct (Hent _ _ Hq0) as [e He].
    destruct (frame_Some _ _ _ _ F He) as [x Hx]. eauto. }
  split; [|split; [|split]].
  - destruct Hroot as (? & ? & ?), IHr as (? & ? & ?). split_and!; congruence.
  - intros i Hi. rewrite fmap_cons, not_elem_of_cons in Hi. destruct Hi as [Hi1' Hi2].
    rewrite IHo, Hoth by done. done.
  - intros x Hx. rewrite IHh, Hheap; [done|done| |].
    + apply not_eq_sym, (Hx id). by left.
    + intros i q Hq. apply (Hx i). by right.
  - intros i q [[= -> ->]|Hq]%elem_of_cons.
    + exists p1. rewrite IHo by done. split; [done|]. split; [done|]. split; [done|].
      destruct Hi1 as (? & ? & ? & Hst). split_and!; try done.
      assert (E : entry_of (foldl (assignRole root) (s1, ch1) l).1 (sp_entry p) = entry_of s1 (sp_entry p)).
      { unfold entry_of. by rewrite IHh by done. }
      by rewrite E.
    + destruct (IHs i q Hq) as (q' & Hq' & Hr' & ?). exists q'. split; [done|].
      split; [|done]. by rewrite Hr', (newRole_frame s s1).
Qed.

Lemma signal_same s :
  let s' := signalTopologyChange s in
  same_root s s' /\ sports (stp s') = sports (stp s) /\ heap s' = heap s.
Proof. unfold signalTopologyChange. destruct (bool_decide _); by split_and!. Qed.

(** What a recomputation establishes. *)
Record recomputed (s s' : Switch) : Prop := {
  rc_frame : stp_frame s s';
  rc_root : exists best root,
    elected s (ownVector (stp s)) (map_to_list (sports (stp s))) best root /\
    rootID (stp s') = pv_rootID best /\ rootCost (stp s') = pv_cost best /\
    rootPort (stp s') = default EmptyString root /\
    forall id p, sports (stp s) !! id = Some p ->
      exists p', sports (stp s') !! id = Some p' /\ sp_role p' = newRole s' root id p' /\
        sp_entry p' = sp_entry p /\ sp_hasInfo p' = sp_hasInfo p /\ sp_info p' = sp_info p /\
        sp_infoAge p' = sp_infoAge p /\
        role_state (sp_role p') (pe_stpState (entry_of s' (sp_entry p)));
  rc_dom : dom (sports (stp s')) = dom (sports (stp s))
}.

Lemma newRole_port s root id p p' :
  sp_entry p' = sp_entry p -> sp_hasInfo p' = sp_hasInfo p -> sp_info p' = sp_info p ->
  newRole s root id p' = newRole s root id p.
Proof.
  intros E1 E2 E3. unfold newRole, designated, advertised, portIDValue. by rewrite E1, E2, E3.
Qed.

Lemma recompute_spec rg s :
  ranges_ok rg -> switch_ok s -> Enabled (cfg (stp s)) = true ->
  recomputed s (recompute rg s).
Proof.
  intros Hrg Hok Hen. pose proof (frame_recompute rg s) as F.
  destruct (switch_ok_distinct _ Hok) as [Hdis Hent].
  unfold recompute in *. rewrite Hen in *. cbn [negb] in *.
  destruct (selectRoot rg s) as [best root] eqn:Hsel.
  apply selectRoot_elected in Hsel; [|done].
  set (s1 := with_stp _ s) in *.
  assert (Hin : forall id p, (id, p) ∈ r_roles rg (sports (stp s1)) <-> sports (stp s) !! id = Some p).
  { intros id p. apply elem_of_range, Hrg. }
  destruct (roles_fold root (r_roles rg (sports (stp s1))) s1 false) as (R & Ro & _ & Rs);
    [apply NoDup_range, Hrg | apply Hin | exact Hdis | exact Hent |].
  pose proof (frame_foldl_pair (assignRole root) (r_roles rg (sports (stp s1))) s1 false
    (frame_assignRole root)) as F2.
  destruct (foldl (assignRole root) _ _) as [s2 ch]. cbn [fst] in *.
  set (s3 := if ch then _ else s2) in *.
  assert (H3 : same_root s2 s3 /\ sports (stp s3) = sports (stp s2) /\ heap s3 = heap s2 /\ stp_frame s2 s3).
  { unfold s3. destruct ch; [|done]. destruct (signal_same s2) as (? & ? & ?).
    split_and!; try done. apply frame_signal. }
  destruct H3 as (R3 & Hsp3 & Hh3 & F3).
  assert (R13 : same_root s1 s3).
  { destruct R as (? & ? & ?), R3 as (? & ? & ?). split_and!; congruence. }
  assert (F13 : stp_frame s1 s3) by by transitivity s2.
  split; [done| |].
  - exists best, root. destruct R13 as (-> & -> & ->). split; [done|]. do 3 (split; [done|]).
    intros id p Hp%Hin. destruct (Rs id p Hp) as (p' & Hp' & Hr & He & Hh & Hi & Hia & Hst).
    exists p'. rewrite Hsp3. split; [done|]. split.
    { rewrite Hr, (newRole_port _ _ _ p p'), (newRole_frame s1 s3); try done.
      split_and!; destruct R as (? & ? & ?), R3 as (? & ? & ?); congruence. }
    split_and!; try done. unfold entry_of in *. by rewrite Hh3.
  - rewrite Hsp3. apply set_eq. intros id. rewrite !elem_of_dom.
    destruct (decide (id ∈ (r_roles rg (sports (stp s1))).*1)) as [Hi|Hi].
    + apply list_elem_of_fmap in Hi as ([id' p] & -> & Hp). cbn.
      destruct (Rs id' p Hp) as (p' & -> & _). apply Hin in Hp. rewrite Hp. by split.
    + by rewrite Ro.
Qed.

Lemma elected_unique s start l b r b' r' :
  elected s start l b r -> elected s start l b' r' -> b = b'.
Proof.
  assert (Hhalf : forall b r b' r', elected s start l b r -> elected s start l b' r' -> ~ pv_lt b b').
  { intros b0 r0 b1 r1 [Hf _ _] [_ Hs Hm].
    destruct Hf as [[_ ->]|(id & p & _ & Hin & He & -> & _)]; [done | by eapply Hm]. }
  intros H H'. destruct (pv_lt_total b b') as [L|[E|L]]; [|done|]; exfalso.
  - exact (Hhalf _ _ _ _ H H' L).
  - exact (Hhalf _ _ _ _ H' H L).
Qed.

(** * Demonstration bridge *)

Definition stpAttrs : PortAttrs := mkPortAttrs None false 0 false false false 0 true 0 0.
Definition stpOn : STPConfig := mkSTPConfig true 32768 (2 * Second) (20 * Second) (15 * Second).

(** A bridge with two participating ports p and q (locations 0 and 1) and two
    plain ports u and v, just enabled. *)
Definition bridge0 : Switch :=
  let add id a s := (AddPort id a s).1.1 in
  SetSTPConfig std_ranges stpOn
    (add "v" (plainAttrs 0) (add "u" (plainAttrs 0)
      (add "q" stpAttrs (add "p" stpAttrs (New (make_bytes 8)))))).

Lemma bridge0_reachable : reachable bridge0.
Proof.
  eapply reach_step; [|apply step_SetSTPConfig, std_ranges_ok].
  do 4 apply reach_AddPort. constructor.
Qed.

(** A bridge with a lower identifier, and the configuration BPDUs of its two
    ports. *)
Definition rootBridge : Switch :=
  SetSTPConfig std_ranges (mkSTPConfig true 4096 (2 * Second) (20 * Second) (15 * Second))
    (AddPort "r2" stpAttrs (AddPort "r1" stpAttrs (New (replicate 8 1))).1.1).1.1.
Definition rootBPDU (port : loc) : bytes :=
  buildConfig rootBridge (mkStpPort port RoleDesignated false (mkVector 0 0 0 0) 0 0) 0.

(** The state after a delivery. *)
Definition hear (port : loc) (frame : bytes) (s : Switch) : Switch :=
  deliver_state (deliver demo_env port frame s).

Lemma hear_reachable port frame s : reachable s -> reachable (hear port frame s).
Proof.
  intros Hr. apply (reach_step s (deliver_effects (deliver demo_env port frame s))); [done|].
  apply (step_deliver _ demo_env port frame); [apply std_ranges_ok|].
  unfold hear. by destruct (deliver_cases demo_env port frame s) as (s' & fx & -> & _).
Qed.

(** The bridge after hearing the root on port p, and then on q too. *)
Definition bridge1 : Switch := hear 0 (rootBPDU 0) bridge0.
Definition bridge2 : Switch := hear 1 (rootBPDU 1) bridge1.

Lemma bridge1_reachable : reachable bridge1.
Proof. apply hear_reachable, bridge0_reachable. Qed.
Lemma bridge2_reachable : reachable bridge2.
Proof. apply hear_reachable, bridge1_reachable. Qed.

(** * Properties *)

(** C11: root election.  Recomputing picks the least priority vector among the
    bridge's own claim and what its ports heard from other bridges, each with
    the port's cost added; the bridge claims to be root exactly when no port
    heard of anything better.  Root identifier and root path cost do not
    depend on the order in which the ports are visited. *)
Theorem root_election rg rg' s :
  reachable s -> Enabled (cfg (stp s)) = true -> ranges_ok rg -> ranges_ok rg' ->
  let s' := recompute rg s in
  (exists best, rootID (stp s') = pv_rootID best /\ rootCost (stp s') = pv_cost best /\
    ~ pv_lt (ownVector (stp s)) best /\
    (forall id p, sports (stp s) !! id = Some p -> electable s p = true ->
       ~ pv_lt (candidate s p) best) /\
    ((rootPort (stp s') = EmptyString /\ best = ownVector (stp s)) \/
     (exists p, sports (stp s) !! rootPort (stp s') = Some p /\ electable s p = true /\
        best = candidate s p))) /\
  rootID (stp (recompute rg' s)) = rootID (stp s') /\
  rootCost (stp (recompute rg' s)) = rootCost (stp s').
Proof.
  intros Hok%reachable_switch_ok Hen Hrg Hrg' s'.
  destruct (recompute_spec rg s Hrg Hok Hen) as [_ (best & root & El & R1 & R2 & R3 & _) _].
  destruct (recompute_spec rg' s Hrg' Hok Hen) as [_ (best' & root' & El' & R1' & R2' & _) _].
  fold s' in R1, R2, R3. pose proof (elected_unique _ _ _ _ _ _ _ El El') as <-.
  split; [|split; congruence]. exists best. do 2 (split; [done|]).
  destruct El as [Hf Hs Hm]. split; [done|]. split.
  { intros id p Hp. apply (Hm id). by apply elem_of_map_to_list. }
  destruct Hf as [[-> ->]|(id & p & -> & Hp%elem_of_map_to_list & He & -> & _)];
    [by left | right]. rewrite R3. eauto.
Qed.

Lemma root_election_witness :
  exists best, rootID (stp (recompute std_ranges bridge1)) = pv_rootID best /\
    ~ pv_lt (ownVector (stp bridge1)) best.
Proof.
  destruct (root_election std_ranges std_ranges bridge1 bridge1_reachable eq_refl
    std_ranges_ok std_ranges_ok) as [(best & H1 & _ & H2 & _) _].
  exists best. exact (conj H1 H2).
Defined.

(** C12: port roles.  After recomputing, the root port is the one port that
    leads to the elected root; a designated port heard nothing on its segment
    that beats our advertisement there; a blocked port did hear such
    information, and its dataplane state is blocking, which no other port's
    is. *)
Theorem port_roles rg s id p :
  reachable s -> Enabled (cfg (stp s)) = true -> ranges_ok rg ->
  let s' := recompute rg s in
  sports (stp s') !! id = Some p ->
  (sp_role p = RoleRoot <-> rootPort (stp s') = id) /\
  (sp_role p = RoleDesignated -> sp_hasInfo p = true -> pv_lt (advertised s' p) (sp_info p)) /\
  (sp_role p = RoleBlocked -> sp_hasInfo p = true /\ ~ pv_lt (advertised s' p) (sp_info p)) /\
  (sp_role p = RoleBlocked <-> pe_stpState (entry_of s' (sp_entry p)) = stpBlocking).
Proof.
  intros Hok%reachable_switch_ok Hen Hrg s' Hp.
  destruct (recompute_spec rg s Hrg Hok Hen) as [F (best & root & El & _ & _ & R & Hall) Hdom].
  fold s' in F, R, Hall, Hdom.
  assert (Hd : id ∈ dom (sports (stp s))) by (rewrite <- Hdom; by apply elem_of_dom_2 in Hp).
  apply elem_of_dom in Hd as [p0 Hp0].
  destruct (Hall id p0 Hp0) as (p' & Hp' & Hr & He & _ & _ & _ & Hst). simplify_eq.
  rewrite <- He in Hst.
  assert (Hid : id <> EmptyString).
  { destruct (ok_stp _ Hok _ _ Hp0) as (e & Hx & <-). apply (ok_entry _ Hok) in Hx. tauto. }
  assert (Hroot : root = Some id <-> rootPort (stp s') = id).
  { rewrite R. destruct root as [r|]; cbn; [naive_solver|]. split; intros; [discriminate | congruence]. }
  split_and!.
  - rewrite <- Hroot, Hr. unfold newRole. case_bool_decide; [done|]. split; [|done].
    by destruct (designated _ _).
  - rewrite Hr. unfold newRole, designated. case_bool_decide; [done|].
    intros Hx Hi. rewrite Hi in Hx. cbn in Hx. apply better_lt. by destruct (better _ _).
  - rewrite Hr. unfold newRole, designated. case_bool_decide; [done|].
    destruct (sp_hasInfo p); [|done]. cbn. intros Hx. split; [done|]. rewrite <- better_lt.
    by destruct (better _ _).
  - unfold role_state in Hst. by destruct (sp_role p).
Qed.

Lemma port_roles_witness :
  let s' := recompute std_ranges bridge1 in
  exists p, sports (stp s') !! "p" = Some p /\
    (sp_role p = RoleRoot <-> rootPort (stp s') = "p"%string).
Proof.
  intros s'.
  assert (Hp : exists p, sports (stp s') !! "p" = Some p) by (vm_compute; eauto).
  destruct Hp as [p Hp]. exists p. split; [exact Hp|].
  exact (proj1 (port_roles std_ranges bridge1 "p" p bridge1_reachable eq_refl std_ranges_ok Hp)).
Defined.


