(* ===== verification/StpTime.v ===== *)
(** Theorems about the spanning tree over time: configuration BPDUs between
    bridges, and the protocol clock. *)
From S2P Require Import Prelude Vlan Fdb Protect SwitchState Stp StpFacts Switch SwitchInv Deliver SwitchProps StpProps.

(** * The BPDU codec *)

(** The protocol fields fit their place in the frame. *)
Record bridge_ranges (s : Switch) (p : stpPort) : Prop := {
  br_mac_len : length (br_mac (stp s)) = 6%nat;
  br_rootID : 0 <= rootID (stp s) < 2 ^ 64;
  br_rootCost : 0 <= rootCost (stp s) < 2 ^ 32;
  br_bridgeID : 0 <= bridgeID (stp s) < 2 ^ 64;
  br_portID : 0 <= portIDValue s p < 2 ^ 16
}.

Lemma be_get_put_small n v : 0 <= v < 256 ^ Z.of_nat n -> be_get (be_put n v) = v.
Proof. intros. by rewrite be_get_put, Z.mod_small. Qed.

(** The fields of the frame, by position. *)
Lemma config_layout s p flags :
  length (br_mac (stp s)) = 6%nat ->
  let fr := buildConfig s p flags in
  let body := drop 17 fr in
  length fr = 60%nat /\ isBPDU (dstM fr) fr = Ret true /\
  take 2 (drop 12 fr) = [0; 38] /\
  index body 3 = Ret 0 /\ index body 4 = Ret flags /\
  slice body 5 13 = Ret (be_put 8 (rootID (stp s))) /\
  slice body 13 17 = Ret (be_put 4 (rootCost (stp s))) /\
  slice body 17 25 = Ret (be_put 8 (bridgeID (stp s))) /\
  slice body 25 27 = Ret (be_put 2 (portIDValue s p)) /\
  slice body 27 29 = Ret (be_put 2 (bpdu_time (messageAge (stp s)))).
Proof.
  intros Hm. set (bid := bridgeID (stp s)). set (age := messageAge (stp s)).
  unfold buildConfig. fold bid age. unfold frameHeader.
  destruct (br_mac (stp s)) as [|m0 [|m1 [|m2 [|m3 [|m4 [|m5 [|]]]]]]]; try discriminate.
  cbn zeta. split_and!; reflexivity.
Qed.

Lemma config_vector s p flags :
  bridge_ranges s p -> parseVector (drop 17 (buildConfig s p flags)) = Ret (advertised s p).
Proof.
  intros [Hm Hr Hc Hb Hp].
  destruct (config_layout s p flags Hm) as (_ & _ & _ & _ & _ & E1 & E2 & E3 & E4 & _).
  unfold parseVector. rewrite E1, bind_Ret, E2, bind_Ret, E3, bind_Ret, E4, bind_Ret.
  unfold advertised. by rewrite !be_get_put_small.
Qed.

(** BPDUs survive the wire.  A configuration BPDU built for a port is a
    60-byte frame that the receiver recognises as an untagged configuration
    BPDU, with the flags given, and decodes to exactly the vector the sender
    advertises. *)
Theorem config_bpdu_roundtrip s p flags :
  bridge_ranges s p ->
  let fr := buildConfig s p flags in
  length fr = 60%nat /\ isBPDU (dstM fr) fr = Ret true /\
  index (drop 17 fr) 3 = Ret 0 /\ index (drop 17 fr) 4 = Ret flags /\
  parseVector (drop 17 fr) = Ret (advertised s p).
Proof.
  intros H fr. pose proof H as [Hm _ _ _ _].
  destruct (config_layout s p flags Hm) as (L & B & _ & T & F & _).
  split_and!; try done. by apply config_vector.
Qed.

Definition rootPort1 : stpPort := mkStpPort 0 RoleDesignated false (mkVector 0 0 0 0) 0 0.

Lemma rootBridge_ranges : bridge_ranges rootBridge rootPort1.
Proof. split; vm_compute; try done; split; discriminate || reflexivity. Qed.

Lemma config_bpdu_roundtrip_witness :
  let fr := buildConfig rootBridge rootPort1 1 in
  length fr = 60%nat /\ isBPDU (dstM fr) fr = Ret true /\
  index (drop 17 fr) 3 = Ret 0 /\ index (drop 17 fr) 4 = Ret 1 /\
  parseVector (drop 17 fr) = Ret (advertised rootBridge rootPort1).
Proof. apply config_bpdu_roundtrip, rootBridge_ranges. Defined.

(** * Electing a root heard on a port *)

Lemma handleBPDU_config rg id fr s p :
  Enabled (cfg (stp s)) = true -> sports (stp s) !! id = Some p ->
  length fr = 60%nat -> index (drop 17 fr) 3 = Ret 0 ->
  handleBPDU rg id fr s =
    (s' ← handleConfig rg id p (drop 17 fr) s; Ret (s', [])).
Proof.
  intros Hen Hp Hl Ht. unfold handleBPDU, ethHeaderLen. rewrite Hen, Hp. cbn [negb].
  rewrite slice_from_ret, bind_Ret by (unfold len; lia). change (Z.to_nat (14 + 3)) with 17%nat.
  assert (Hb : len (drop 17 fr) = 43) by lens. rewrite Hb, Ht. reflexivity.
Qed.

(** Information stored on a port that had none. *)
Lemma handleConfig_fresh rg id p body s info age :
  parseVector body = Ret info -> index body 4 = Ret 0 -> slice body 27 29 = Ret age ->
  sp_hasInfo p = false ->
  handleConfig rg id p body s =
    Ret (recompute rg (upd_sport id (sp_set_info true info (Z.quot (s64 (be_get age * Second)) 256)) s)).
Proof.
  intros Hv Hf Ha Hp. unfold handleConfig. rewrite Hv, bind_Ret, Hf, bind_Ret, Hp. cbn [negb orb].
  rewrite Ha, !bind_Ret. reflexivity.
Qed.

(** A superior bridge is elected.  When a bridge that has heard nothing
    yet receives on a port the configuration BPDU of a bridge that knows a
    lower root identifier than its own, it adopts that root, with the
    advertised cost plus the port's cost, and that port becomes its root port,
    holding the advertised vector. *)
Theorem superior_bpdu_elects_root rg sA pA s id p :
  bridge_ranges sA pA -> reachable s -> Enabled (cfg (stp s)) = true -> ranges_ok rg ->
  sports (stp s) !! id = Some p ->
  (forall i q, sports (stp s) !! i = Some q -> sp_hasInfo q = false) ->
  rootID (stp sA) < bridgeID (stp s) -> bridgeID (stp sA) <> bridgeID (stp s) ->
  exists s', handleBPDU rg id (buildConfig sA pA 0) s = Ret (s', []) /\
    rootID (stp s') = rootID (stp sA) /\
    rootCost (stp s') = u32 (rootCost (stp sA) + portCost s p) /\
    rootPort (stp s') = id /\
    exists p', sports (stp s') !! id = Some p' /\ sp_role p' = RoleRoot /\
      sp_hasInfo p' = true /\ sp_info p' = advertised sA pA.
Proof.
  intros HA Hok%reachable_switch_ok Hen Hrg Hp Hno Hlt Hne. pose proof HA as [Hm _ _ _ _].
  destruct (config_layout sA pA 0 Hm) as (L & _ & _ & T & F & _ & _ & _ & _ & Ag).
  rewrite (handleBPDU_config rg id _ s p Hen Hp L T).
  rewrite (handleConfig_fresh rg id p _ s _ _ (config_vector _ _ _ HA) F Ag (Hno _ _ Hp)), bind_Ret.
  match goal with |- context [upd_sport id ?f s] => set (p1 := f p); set (s1 := upd_sport id f s) end.
  assert (F1 : stp_frame s s1) by by apply frame_upd_sport.
  assert (Hok1 : switch_ok s1) by (eapply switch_ok_evolves; [done | by apply evolves_frame]).
  assert (Hp1 : sports (stp s1) !! id = Some p1) by (cbn; by rewrite lookup_alter_eq, Hp).
  destruct (recompute_spec rg s1 Hrg Hok1 Hen) as [_ (best & root & El & R1 & R2 & R3 & Hall) _].
  assert (Hel : electable s1 p1 = true).
  { unfold electable. cbn. by apply negb_true_iff, Z.eqb_neq. }
  assert (Hcand : pv_lt (candidate s1 p1) (ownVector (stp s1))) by (left; exact Hlt).
  destruct El as [[[-> ->]|(i & q & -> & Hq%elem_of_map_to_list & Eq & -> & _)] _ Hmin].
  { exfalso. eapply (Hmin id p1); [by apply elem_of_map_to_list | done | done]. }
  assert (i = id) as ->.
  { destruct (decide (i = id)); [done|]. cbn in Hq. rewrite lookup_alter_ne in Hq by done.
    unfold electable in Eq. by rewrite (Hno _ _ Hq) in Eq. }
  rewrite Hp1 in Hq. injection Hq as <-.
  destruct (Hall id p1 Hp1) as (p' & Hp' & Hr & _ & Hh & Hi & _).
  eexists. split; [reflexivity|]. split; [exact R1|]. split; [exact R2|]. split; [exact R3|].
  exists p'. split; [exact Hp'|]. split_and!; [|exact Hh|exact Hi].
  rewrite Hr. unfold newRole. by rewrite bool_decide_eq_true_2.
Qed.

Lemma superior_bpdu_elects_root_witness :
  exists s', handleBPDU std_ranges "p" (buildConfig rootBridge rootPort1 0) bridge0 = Ret (s', []) /\
    rootID (stp s') = rootID (stp rootBridge) /\
    rootPort (stp s') = "p"%string.
Proof.
  assert (Hp : exists p, sports (stp bridge0) !! "p" = Some p) by (vm_compute; eauto).
  destruct Hp as [p Hp].
  destruct (superior_bpdu_elects_root std_ranges rootBridge rootPort1 bridge0 "p" p)
    as (s' & H1 & H2 & _ & H3 & _);
    [apply rootBridge_ranges | apply bridge0_reachable | reflexivity | apply std_ranges_ok
    | exact Hp | | vm_compute; reflexivity | vm_compute; discriminate |].
  - intros i q Hq. apply elem_of_map_to_list in Hq. vm_compute in Hq.
    apply list_elem_of_In in Hq. cbn in Hq. destruct Hq as [[= _ <-]|[[= _ <-]|[]]]; reflexivity.
  - exists s'. exact (conj H1 (conj H2 H3)).
Defined.

(** * The protocol clock *)

(** The spanning-tree ports are exactly the participating ports, and none
    holds information about another bridge. *)
Record steady (s : Switch) : Prop := {
  sd_in : forall id l, ports s !! id = Some l -> participates (entry_of s l) = true ->
    is_Some (sports (stp s) !! id);
  sd_port : forall id p, sports (stp s) !! id = Some p ->
    ports s !! id = Some (sp_entry p) /\ participates (entry_of s (sp_entry p)) = true /\
    pe_gone (entry_of s (sp_entry p)) = false /\ sp_hasInfo p = false
}.

Lemma enrol_steady l : forall s seen,
  steady s -> (forall id x, (id, x) ∈ l -> ports s !! id = Some x) ->
  exists seen', foldl enrol (s, seen) l = (s, seen') /\ seen ⊆ seen' /\
    forall id x, (id, x) ∈ l -> participates (entry_of s x) = true -> id ∈ seen'.
Proof.
  induction l as [|[id x] l IH]; intros s seen Hs Hin; cbn [foldl].
  { exists seen. split_and!; try done. by intros id x ?%elem_of_nil. }
  assert (Hrest : forall i y, (i, y) ∈ l -> ports s !! i = Some y) by (intros; apply Hin; by right).
  unfold enrol at 2. destruct (participates (entry_of s x)) eqn:Hp.
  - assert (Hx : is_Some (sports (stp s) !! id)) by (eapply sd_in; [done | apply Hin; by left | done]).
    destruct Hx as [p ->]. destruct (IH s ({[id]} ∪ seen) Hs Hrest) as (seen' & -> & Hsub & Hall).
    exists seen'. split; [done|]. split; [set_solver|].
    intros i y [[= -> ->]|Hi]%elem_of_cons Hy; [set_solver | by eapply Hall].
  - destruct (IH s seen Hs Hrest) as (seen' & -> & Hsub & Hall). exists seen'. split_and!; try done.
    intros i y [[= -> ->]|Hi]%elem_of_cons Hy; [congruence | by eapply Hall].
Qed.

Lemma foldl_fix {A B : Type} (f : B -> A -> B) (l : list A) b :
  (forall x, x ∈ l -> f b x = b) -> foldl f b l = b.
Proof.
  induction l as [|x l IH]; intros H; cbn; [done|]. rewrite H by by left.
  apply IH. intros y Hy. apply H. by right.
Qed.

Lemma resync_steady rg s : ranges_ok rg -> steady s -> resyncPorts rg s = s.
Proof.
  intros Hrg Hs. unfold resyncPorts.
  destruct (enrol_steady (r_enrol rg (ports s)) s ∅ Hs) as (seen & -> & _ & Hseen).
  { intros id x. apply elem_of_range, Hrg. }
  apply foldl_fix. intros [id p] Hp. apply elem_of_range in Hp; [|apply Hrg].
  destruct (sd_port _ Hs _ _ Hp) as (Hl & Hpa & Hg & _). unfold withdraw. rewrite Hg.
  rewrite bool_decide_eq_true_2; [done|].
  eapply Hseen; [|done]. apply elem_of_range; [apply Hrg | done].
Qed.

Lemma age_steady rg dt s :
  ranges_ok rg -> steady s ->
  foldl (ageInfo dt) (s, false) (r_age rg (sports (stp s))) = (s, false).
Proof.
  intros Hrg Hs. apply foldl_fix. intros [id p] Hp. apply elem_of_range in Hp; [|apply Hrg].
  unfold ageInfo. by destruct (sd_port _ Hs _ _ Hp) as (_ & _ & _ & ->).
Qed.

(** One port's forward-delay progression. *)
Definition climb (fd dt : Z) (x : stpStateT * Z) : stpStateT * Z :=
  let t := s64 (x.2 + dt) in
  match x.1 with
  | stpListening => if fd <=? t then (stpLearning, 0) else (stpListening, t)
  | stpLearning => if fd <=? t then (stpForwarding, 0) else (stpLearning, t)
  | _ => x
  end.

Definition climb_port (fd dt : Z) (r : roleT) (x : stpStateT * Z) : stpStateT * Z :=
  match r with RoleBlocked => x | _ => climb fd dt x end.

Lemma progress_self dt s id p e :
  sports (stp s) !! id = Some p -> heap s !! sp_entry p = Some e ->
  let x := climb_port (ForwardDelay (cfg (stp s))) dt (sp_role p) (pe_stpState e, sp_stateTimer p) in
  let s' := progress dt s (id, p) in
  sports (stp s') !! id = Some (sp_set_timer x.2 p) /\
  heap s' !! sp_entry p = Some (set_stpState x.1 e).
Proof.
  intros Hp He. unfold progress. rewrite (entry_of_Some _ _ _ He).
  destruct p as [l r h i a t], e as [? ? ? ? ? ? st ?]. cbn in *.
  destruct r, st; cbn; try done; destruct (_ <=? _); cbn;
    rewrite ?lookup_alter_eq, ?Hp, ?He; done.
Qed.

Lemma progress_other dt s id p :
  let s' := progress dt s (id, p) in
  same_root s s' /\ ports s' = ports s /\ cfg (stp s') = cfg (stp s) /\
  (forall id', id' <> id -> sports (stp s') !! id' = sports (stp s) !! id') /\
  (forall l, l <> sp_entry p -> heap s' !! l = heap s !! l).
Proof.
  unfold progress. destruct (sp_role p), (pe_stpState (entry_of s (sp_entry p))); try (destruct (_ <=? _));
    (split; [done|]; split; [done|]; split; [done|]; split;
      [intros id' Hne; cbn; by rewrite ?lookup_alter_ne by done
      |intros l Hne; cbn; by rewrite ?lookup_alter_ne by done]).
Qed.

Lemma progress_fold dt l : forall s,
  NoDup l.*1 -> (forall id p, (id, p) ∈ l -> sports (stp s) !! id = Some p) ->
  distinct_entries s -> entries_ok s ->
  let s' := foldl (progress dt) s l in
  same_root s s' /\ ports s' = ports s /\ cfg (stp s') = cfg (stp s) /\
  (forall id, id ∉ l.*1 -> sports (stp s') !! id = sports (stp s) !! id) /\
  (forall x, (forall id p, (id, p) ∈ l -> sp_entry p <> x) -> heap s' !! x = heap s !! x) /\
  (forall id p e, (id, p) ∈ l -> heap s !! sp_entry p = Some e ->
    let x := climb_port (ForwardDelay (cfg (stp s))) dt (sp_role p) (pe_stpState e, sp_stateTimer p) in
    sports (stp s') !! id = Some (sp_set_timer x.2 p) /\
    heap s' !! sp_entry p = Some (set_stpState x.1 e)).
Proof.
  induction l as [|[id p] l IH]; intros s Hnd Hin Hdis Hent; cbn [foldl].
  { split_and!; try done. by intros id p e ?%elem_of_nil. }
  rewrite fmap_cons, NoDup_cons in Hnd. cbn [fst] in Hnd. destruct Hnd as [Hni Hnd].
  assert (Hp : sports (stp s) !! id = Some p) by (apply Hin; by left).
  destruct (Hent _ _ Hp) as [e0 He0].
  pose proof (progress_self dt s id p e0 Hp He0) as [Hself1 Hself2].
  pose proof (progress_other dt s id p) as (Hroot & Hports & Hcfg & Hoth & Hheap).
  pose proof (frame_progress dt s (id, p)) as F.
  set (s1 := progress dt s (id, p)) in *.
  assert (Hin1 : forall i q, (i, q) ∈ l -> i <> id /\ sp_entry q <> sp_entry p /\ sports (stp s1) !! i = Some q).
  { intros i q Hq. assert (Hne : i <> id).
    { intros ->. apply Hni, list_elem_of_fmap. by exists (id, q). }
    split; [done|]. split; [|rewrite Hoth by done; apply Hin; by right].
    intros E. apply Hne. eapply Hdis; [apply Hin; by right | exact Hp | done]. }
  assert (Hback : forall i q, sports (stp s1) !! i = Some q ->
    exists q0, sports (stp s) !! i = Some q0 /\ sp_entry q = sp_entry q0).
  { intros i q Hq. destruct (decide (i = id)) as [->|Hne]; [|rewrite Hoth in Hq by done; eauto].
    rewrite Hself1 in Hq. simplify_eq. eauto. }
  destruct (IH s1 Hnd) as (IHr & IHp & IHc & IHo & IHh & IHs).
  { intros i q Hq. by apply Hin1. }
  { intros i j q q' (q0 & Hq0 & E0)%Hback (q1 & Hq1 & E1)%Hback E. eapply Hdis; eauto. congruence. }
  { intros i q (q0 & Hq0 & ->)%Hback. destruct (Hent _ _ Hq0) as [e He].
    destruct (frame_Some _ _ _ _ F He) as [x Hx]. eauto. }
  split; [|split; [congruence|split; [congruence|split; [|split]]]].
  - destruct Hroot as (? & ? & ?), IHr as (? & ? & ?). split_and!; congruence.
  - intros i Hi. rewrite fmap_cons, not_elem_of_cons in Hi. destruct Hi as [Hi1 Hi2].
    by rewrite IHo, Hoth by done.
  - intros x Hx. rewrite IHh, Hheap; [done| |].
    + apply not_eq_sym, (Hx id). by left.
    + intros i q Hq. apply (Hx i). by right.
  - intros i q e [[= -> ->]|Hq]%elem_of_cons He.
    + rewrite He in He0. injection He0 as <-. rewrite IHo by done. split; [exact Hself1|].
      rewrite IHh; [exact Hself2|]. intros j r Hj. by apply (Hin1 j r).
    + destruct (Hin1 i q Hq) as (_ & Hne & _).
      destruct (IHs i q e Hq) as [H1 H2]; [by rewrite Hheap|].
      rewrite Hcfg in H1, H2. by split.
Qed.

Lemma hello_same rg dt s :
  let s' := (hello rg dt s).1 in
  same_root s s' /\ ports s' = ports s /\ heap s' = heap s /\ sports (stp s') = sports (stp s) /\
  cfg (stp s') = cfg (stp s).
Proof. unfold hello. repeat split_match; by split_and!. Qed.

(** Steadiness survives changes of dataplane states and timers. *)
Lemma steady_frame s s' :
  switch_ok s -> steady s -> stp_frame s s' ->
  (forall id p', sports (stp s') !! id = Some p' ->
     exists p, sports (stp s) !! id = Some p /\ sp_entry p' = sp_entry p /\ sp_hasInfo p' = sp_hasInfo p) ->
  dom (sports (stp s')) = dom (sports (stp s)) ->
  steady s'.
Proof.
  intros Hok Hs F Hback Hdom.
  assert (Hpart : forall l, participates (entry_of s' l) = participates (entry_of s l) /\
    pe_gone (entry_of s' l) = pe_gone (entry_of s l)).
  { intros l. pose proof (frame_entry _ _ l F) as E. unfold participates.
    destruct (entry_of s' l), (entry_of s l). by inversion E. }
  split.
  - intros id l. rewrite (fr_ports _ _ F), (proj1 (Hpart l)). intros Hl Hp.
    apply elem_of_dom. rewrite Hdom. apply elem_of_dom. by eapply sd_in.
  - intros id p' Hp'. destruct (Hback _ _ Hp') as (p & Hp & -> & ->).
    rewrite (fr_ports _ _ F), (proj1 (Hpart _)), (proj2 (Hpart _)). by apply (sd_port _ Hs).
Qed.

(** A tick in a steady state: every port climbs, nothing else changes. *)
Lemma tick_steady rg dt s :
  ranges_ok rg -> switch_ok s -> steady s -> Enabled (cfg (stp s)) = true ->
  let s' := (runTick rg dt s).1 in
  switch_ok s' /\ steady s' /\ same_root s s' /\ cfg (stp s') = cfg (stp s) /\
  dom (sports (stp s')) = dom (sports (stp s)) /\
  (forall id p e, sports (stp s) !! id = Some p -> heap s !! sp_entry p = Some e ->
    let x := climb_port (ForwardDelay (cfg (stp s))) dt (sp_role p) (pe_stpState e, sp_stateTimer p) in
    sports (stp s') !! id = Some (sp_set_timer x.2 p) /\
    heap s' !! sp_entry p = Some (set_stpState x.1 e)).
Proof.
  intros Hrg Hok Hs Hen. pose proof (frame_runTick rg dt s Hrg) as F.
  assert (Hok' : switch_ok (runTick rg dt s).1) by (eapply switch_ok_evolves; [done | by apply evolves_frame]).
  unfold runTick in *. rewrite Hen in *. cbn [negb] in *.
  set (s0 := with_stp (br_set_now _ _) s) in *.
  assert (Hs0 : steady s0) by (split; apply Hs).
  destruct (switch_ok_distinct _ Hok) as [Hdis Hent].
  unfold tickLocked in *. rewrite (resync_steady rg s0 Hrg Hs0), (age_steady rg dt s0 Hrg Hs0) in *.
  assert (Hin : forall id p, (id, p) ∈ r_progress rg (sports (stp s0)) <-> sports (stp s) !! id = Some p).
  { intros id p. apply elem_of_range, Hrg. }
  destruct (progress_fold dt (r_progress rg (sports (stp s0))) s0) as (R & Hp & Hc & Ho & Hh & Hself);
    [apply NoDup_range, Hrg | apply Hin | exact Hdis | exact Hent |].
  set (s1 := foldl (progress dt) s0 _) in *.
  change (same_root s s1) in R. change (cfg (stp s1) = cfg (stp s)) in Hc.
  destruct (hello_same rg dt s1) as (R2 & Hp2 & Hh2 & Hsp2 & Hc2).
  assert (Hall : forall id p e, sports (stp s) !! id = Some p -> heap s !! sp_entry p = Some e ->
    let x := climb_port (ForwardDelay (cfg (stp s))) dt (sp_role p) (pe_stpState e, sp_stateTimer p) in
    sports (stp (hello rg dt s1).1) !! id = Some (sp_set_timer x.2 p) /\
    heap (hello rg dt s1).1 !! sp_entry p = Some (set_stpState x.1 e)).
  { intros id p e Hid%Hin He. rewrite Hsp2, Hh2. by apply Hself. }
  assert (Hdom : forall id p', sports (stp (hello rg dt s1).1) !! id = Some p' ->
    exists p e, sports (stp s) !! id = Some p /\ heap s !! sp_entry p = Some e).
  { intros id p'. rewrite Hsp2. destruct (decide (id ∈ (r_progress rg (sports (stp s0))).*1)) as [Hi|Hi].
    - apply list_elem_of_fmap in Hi as ([i q] & -> & Hq%Hin). intros _.
      destruct (Hent _ _ Hq) as [e He]. eauto.
    - rewrite Ho by done. intros Hq. destruct (Hent _ _ Hq) as [e He]. eauto. }
  assert (Hdm : dom (sports (stp (hello rg dt s1).1)) = dom (sports (stp s))).
  { apply set_eq. intros id. rewrite !elem_of_dom. split.
    - intros [p' Hp']. destruct (Hdom _ _ Hp') as (p & e & Hq & _). eauto.
    - intros [p Hq]. destruct (Hent _ _ Hq) as [e He]. destruct (Hall _ _ _ Hq He) as [-> _]. eauto. }
  split; [done|]. split.
  { apply (steady_frame s); [done|done|exact F| |exact Hdm]. intros id p' Hp'.
    destruct (Hdom _ _ Hp') as (p & e & Hq & He). destruct (Hall _ _ _ Hq He) as [H1 _].
    exists p. rewrite H1 in Hp'. injection Hp' as <-. done. }
  split; [destruct R as (? & ? & ?), R2 as (? & ? & ?); split_and!; congruence|].
  split; [congruence|]. by split.
Qed.

(** [n] rounds of the protocol goroutine. *)
Definition run_tick (rg : Ranges) (s : Switch) : Switch := (runTick rg (tickInterval s) s).1.
Definition run_ticks (rg : Ranges) (n : nat) (s : Switch) : Switch := Nat.iter n (run_tick rg) s.

Lemma iter_climb_forwarding fd dt n t :
  Nat.iter n (climb fd dt) (stpForwarding, t) = (stpForwarding, t).
Proof. induction n as [|n IH]; [done|]. by rewrite Nat.iter_succ_r. Qed.

Section climb.
Context (fd dt : Z) (Hdt : 0 < dt) (Hfd : 0 < fd) (Hmax : fd + dt <= maxInt64).

Lemma climb_learning k : forall t,
  0 <= t <= fd -> fd <= t + Z.of_nat k * dt -> (0 < k)%nat ->
  (Nat.iter k (climb fd dt) (stpLearning, t)).1 = stpForwarding.
Proof using All.
  induction k as [|k IH]; intros t Ht Hk Hpos; [lia|]. rewrite Nat.iter_succ_r.
  unfold climb at 2. cbn [fst snd]. rewrite s64_small by (unfold minInt64; lia).
  destruct (Z.leb_spec fd (t + dt)) as [|Hlt]; [by rewrite iter_climb_forwarding|].
  apply IH; lia.
Qed.

Lemma climb_listening k k' : forall t,
  0 <= t <= fd -> fd <= t + Z.of_nat k * dt -> (0 < k)%nat -> fd <= Z.of_nat k' * dt ->
  (Nat.iter (k + k') (climb fd dt) (stpListening, t)).1 = stpForwarding.
Proof using All.
  induction k as [|k IH]; intros t Ht Hk Hpos Hk'; [lia|].
  change (S k + k')%nat with (S (k + k')). rewrite Nat.iter_succ_r.
  unfold climb at 2. cbn [fst snd]. rewrite s64_small by (unfold minInt64; lia).
  destruct (Z.leb_spec fd (t + dt)) as [|Hlt]; [apply climb_learning; (destruct k'; lia) || nia|].
  apply IH; lia.
Qed.

(** From any state but blocking, two forward delays are enough. *)
Lemma climb_reaches k n st t :
  st <> stpBlocking -> 0 <= t <= fd -> fd <= Z.of_nat k * dt -> (2 * k <= n)%nat ->
  (Nat.iter n (climb fd dt) (st, t)).1 = stpForwarding.
Proof using All.
  intros Hst Ht Hk Hn. assert (0 < k)%nat by (destruct k; lia). destruct st; try done.
  - by rewrite iter_climb_forwarding.
  - replace n with (k + (n - k))%nat by lia. apply climb_listening; lia || nia.
  - apply climb_learning; lia || nia.
Qed.
End climb.

Lemma tickInterval_cfg s s' : cfg (stp s') = cfg (stp s) -> tickInterval s' = tickInterval s.
Proof. unfold tickInterval. by intros ->. Qed.

Lemma climb_blocked fd dt n x : Nat.iter n (climb_port fd dt RoleBlocked) x = x.
Proof. induction n as [|n IH]; [done|]. by rewrite Nat.iter_succ_r. Qed.

(** [n] ticks in a steady state. *)
Lemma ticks_steady rg n : forall s,
  ranges_ok rg -> switch_ok s -> steady s -> Enabled (cfg (stp s)) = true ->
  let s' := run_ticks rg n s in
  switch_ok s' /\ steady s' /\ same_root s s' /\ cfg (stp s') = cfg (stp s) /\
  dom (sports (stp s')) = dom (sports (stp s)) /\
  (forall id p e, sports (stp s) !! id = Some p -> heap s !! sp_entry p = Some e ->
    let x := Nat.iter n (climb_port (ForwardDelay (cfg (stp s))) (tickInterval s) (sp_role p))
               (pe_stpState e, sp_stateTimer p) in
    sports (stp s') !! id = Some (sp_set_timer x.2 p) /\
    heap s' !! sp_entry p = Some (set_stpState x.1 e)).
Proof.
  induction n as [|n IH]; intros s Hrg Hok Hs Hen.
  { split_and!; try done. intros id p e Hp He. cbn. rewrite Hp, He. by destruct p, e. }
  unfold run_ticks. rewrite Nat.iter_succ_r.
  destruct (tick_steady rg (tickInterval s) s Hrg Hok Hs Hen) as (Hok1 & Hs1 & R1 & C1 & D1 & S1).
  fold (run_tick rg s) in *. fold (run_ticks rg n (run_tick rg s)).
  destruct (IH (run_tick rg s) Hrg Hok1 Hs1) as (Hok2 & Hs2 & R2 & C2 & D2 & S2); [by rewrite C1|].
  rewrite (tickInterval_cfg s _ C1) in S2. rewrite C1 in S2.
  split; [done|]. split; [done|]. split; [|split; [congruence|split; [congruence|]]].
  { destruct R1 as (? & ? & ?), R2 as (? & ? & ?). split_and!; congruence. }
  intros id p e Hp He. destruct (S1 id p e Hp He) as [Hp1 He1].
  rewrite Nat.iter_succ_r. set (x1 := climb_port _ _ _ _) in *.
  destruct (S2 id _ _ Hp1 He1) as [Hp2 He2]. cbn [sp_role sp_set_timer pe_stpState set_stpState sp_stateTimer] in Hp2, He2.
  rewrite <- (surjective_pairing x1) in Hp2, He2. by split.
Qed.


(** Decide steadiness of a concrete switch by enumerating its maps. *)
Ltac steady_by_computation :=
  split;
  [ intros id l Hl; apply elem_of_map_to_list, list_elem_of_In in Hl; vm_compute in Hl;
    repeat destruct Hl as [[= <- <-]|Hl]; try destruct Hl;
    vm_compute; intros; try discriminate; eauto
  | intros id p Hp; apply elem_of_map_to_list, list_elem_of_In in Hp; vm_compute in Hp;
    repeat destruct Hp as [[= <- <-]|Hp]; try destruct Hp;
    vm_compute; auto ].

(** A bridge on its own. *)
Lemma bridge0_steady : steady bridge0.
Proof. steady_by_computation. Qed.


(** * Two weaknesses *)

Lemma steady_silent rg dt s :
  ranges_ok rg -> switch_ok s -> steady s -> Enabled (cfg (stp s)) = true ->
  rootPort (stp s) <> EmptyString -> sports (stp s) !! rootPort (stp s) = None ->
  (runTick rg dt s).2 = [].
Proof.
  intros Hrg Hok Hs Hen Hr Hnone. unfold runTick. rewrite Hen. cbn [negb].
  set (s0 := with_stp (br_set_now _ _) s).
  assert (Hs0 : steady s0) by (split; apply Hs). unfold tickLocked.
  rewrite (resync_steady rg s0 Hrg Hs0), (age_steady rg dt s0 Hrg Hs0).
  destruct (switch_ok_distinct _ Hok) as [Hdis Hent].
  destruct (progress_fold dt (r_progress rg (sports (stp s0))) s0) as (R & _ & _ & Ho & _);
    [apply NoDup_range, Hrg | intros id p; apply elem_of_range, Hrg | exact Hdis | exact Hent |].
  set (s1 := foldl (progress dt) s0 _) in *. change (same_root s s1) in R.
  destruct R as (_ & _ & Rp).
  assert (Hnone1 : sports (stp s1) !! rootPort (stp s1) = None).
  { rewrite Rp, Ho; [exact Hnone|]. intros ([i q] & E & Hq)%list_elem_of_fmap. cbn in E. subst i.
    apply elem_of_range in Hq; [|apply Hrg]. cbn in Hq. congruence. }
  unfold hello. destruct (_ <=? _); [|done]. cbn [snd].
  unfold transmitConfigs. cbn [stp sports rootPort with_stp br_set_lastHello].
  rewrite Hnone1, bool_decide_eq_false_2 by (by rewrite Rp). cbn [negb orb app].
  destruct (0 <? _); cbn [stp sports rootPort with_stp br_set_lastHello br_set_tcWhile tcnPending];
    rewrite Hnone1; by destruct (_ && _).
Qed.

(** A lost root port silences the bridge.  When the root port has been
    removed from the tree and no other port holds information, the protocol
    clock keeps believing in the old root: it sends no BPDU on any tick, ever,
    although the bridge should claim to be root itself. *)
Theorem lost_root_port_silences rg s n :
  reachable s -> Enabled (cfg (stp s)) = true -> ranges_ok rg -> steady s ->
  rootPort (stp s) <> EmptyString -> sports (stp s) !! rootPort (stp s) = None ->
  let s' := run_ticks rg n s in
  rootPort (stp s') = rootPort (stp s) /\ (runTick rg (tickInterval s') s').2 = [].
Proof.
  intros Hok%reachable_switch_ok Hen Hrg Hs Hr Hnone s'.
  destruct (ticks_steady rg n s Hrg Hok Hs Hen) as (Hok' & Hs' & (_ & _ & Rp) & Hc & Hd & _).
  fold s' in Hok', Hs', Rp, Hc, Hd. split; [done|].
  apply steady_silent; try done; [by rewrite Hc | by rewrite Rp |].
  apply not_elem_of_dom. rewrite Hd, Rp. by apply not_elem_of_dom.
Qed.

(** Removing the root port of [bridge1] leads there within one tick. *)
Definition orphan : Switch := run_tick std_ranges (RemovePort "p" bridge1).1.

Lemma orphan_reachable : reachable orphan.
Proof.
  eapply reach_step; [eapply reach_step; [apply bridge1_reachable|] |].
  - apply (step_RemovePort _ "p" _ (RemovePort "p" bridge1).2). apply surjective_pairing.
  - apply (step_runTick _ std_ranges (tickInterval (RemovePort "p" bridge1).1) orphan
      (runTick std_ranges (tickInterval (RemovePort "p" bridge1).1) (RemovePort "p" bridge1).1).2);
      [apply std_ranges_ok | apply surjective_pairing].
Qed.

Lemma orphan_steady : steady orphan.
Proof. steady_by_computation. Qed.

Lemma lost_root_port_silences_witness :
  rootPort (stp (run_ticks std_ranges 1000 orphan)) = rootPort (stp orphan) /\
  (runTick std_ranges (tickInterval (run_ticks std_ranges 1000 orphan))
     (run_ticks std_ranges 1000 orphan)).2 = [].
Proof.
  apply lost_root_port_silences; [apply orphan_reachable | vm_compute; reflexivity | apply std_ranges_ok
    | apply orphan_steady | vm_compute; discriminate | vm_compute; reflexivity].
Defined.

(** Iteration orders that visit every map backwards. *)
Definition backwards {A : Type} (m : gmap string A) : list (string * A) := rev (map_to_list m).
Definition rev_ranges : Ranges :=
  mkRanges backwards backwards backwards backwards backwards backwards backwards backwards
    backwards backwards backwards.

Lemma rev_ranges_ok : ranges_ok rev_ranges.
Proof. split; intros m; symmetry; apply Permutation_rev. Qed.

(** The root port of a shared segment is arbitrary.  When two ports of
    equal cost hear the same designated port, the vectors tie, and which of
    the two becomes root port depends on the iteration order of the map, not
    on the port identifiers: two recomputations of the same state disagree. *)
Theorem shared_segment_root_port_arbitrary :
  exists s rg rg', reachable s /\ ranges_ok rg /\ ranges_ok rg' /\
    rootPort (stp (recompute rg s)) = "p"%string /\
    rootPort (stp (recompute rg' s)) = "q"%string.
Proof.
  set (s := hear 1 (rootBPDU 0) bridge1).
  assert (Hr : reachable s) by apply hear_reachable, bridge1_reachable.
  assert (E : rootPort (stp (recompute std_ranges s)) = "p"%string /\
              rootPort (stp (recompute rev_ranges s)) = "q"%string \/
              rootPort (stp (recompute std_ranges s)) = "q"%string /\
              rootPort (stp (recompute rev_ranges s)) = "p"%string) by (vm_compute; auto).
  destruct E as [[E1 E2]|[E1 E2]].
  - exists s, std_ranges, rev_ranges. exact (conj Hr (conj std_ranges_ok (conj rev_ranges_ok (conj E1 E2)))).
  - exists s, rev_ranges, std_ranges. exact (conj Hr (conj rev_ranges_ok (conj std_ranges_ok (conj E2 E1)))).
Qed.
