(* ===== verification/VhostMem.v ===== *)
(** Guest memory and virtqueues of the vhost-user back end:
    src/internal/vhostuser/memory.go, src/internal/vhostuser/queue.go.

    Guest memory is a store of mappings; the slices the code keeps into it are
    views (mapping, offset, length), so that two rings laid over the same bytes
    alias, as they do in the process.  Slice expressions that Go would reject,
    and accesses to unmapped memory, are [Panic]. *)
From S2P Require Import Prelude.

(** * Views into mapped memory *)

Abbreviation store := (gmap nat (list Z)) (only parsing).

Record view := mkView { vw_map : nat; vw_off : Z; vw_len : Z }.

(** [v[lo:hi]]; capacity equals length for every slice the code keeps. *)
Definition vslice (v : view) (lo hi : Z) : res view :=
  if (0 <=? lo) && (lo <=? hi) && (hi <=? vw_len v)
  then Ret (mkView (vw_map v) (vw_off v + lo) (hi - lo)) else Panic.

Definition vread (st : store) (v : view) : res bytes :=
  match st !! vw_map v with
  | Some b => slice b (vw_off v) (vw_off v + vw_len v)
  | None => Panic
  end.

(** [copy(v, data)]: writes what fits; the count is [Z.min (len data) (vw_len v)]. *)
Definition vwrite (st : store) (v : view) (d : bytes) : res store :=
  match st !! vw_map v with
  | Some b =>
      if (0 <=? vw_off v) && (0 <=? vw_len v) && (vw_off v + vw_len v <=? len b)
      then Ret (<[vw_map v := copy_at b (Z.to_nat (vw_off v)) (take (Z.to_nat (vw_len v)) d)]> st)
      else Panic
  | None => Panic
  end.

(** A nil slice has no elements. *)
Definition nonnil (o : option view) : res view :=
  match o with Some v => Ret v | None => Panic end.

(** * Memory table (memory.go) *)

Record memRegion := mkRegion {
  mr_gpa : Z;
  mr_size : Z;
  mr_uva : Z;
  mr_mapped : view;
  mr_raw : nat
}.

Abbreviation memTable := (list memRegion) (only parsing).

(** [memTable.close]: unmap every region. *)
Definition memTable_close (t : memTable) (st : store) : store :=
  foldl (fun st r => delete (mr_raw r) st) st t.

(** The first region whose test accepts the range; the test computes in uint64. *)
Fixpoint region_slice (base : memRegion -> Z) (a size : Z) (t : memTable) : option (res view) :=
  match t with
  | [] => None
  | r :: t' =>
      if (base r <=? a) && (u64 (u64 (a - base r) + size) <=? mr_size r) then
        let off := u64 (a - base r) in
        Some (vslice (mr_mapped r) off (u64 (off + size)))
      else region_slice base a size t'
  end.

Definition gpaSlice (t : memTable) (gpa size : Z) : res (result view) :=
  if size =? 0 then Ret (Err (Errorf "zero-length gpa range" []))
  else match region_slice mr_gpa gpa size t with
  | Some rv => v ← rv; Ret (Ok v)
  | None => Ret (Err (Errorf "gpa range [%#x, +%d) not in any region" [AInt gpa; AInt size]))
  end.

Definition uvaSlice (t : memTable) (uva size : Z) : res (result view) :=
  if size =? 0 then Ret (Err (Errorf "zero-length uva range" []))
  else match region_slice mr_uva uva size t with
  | Some rv => v ← rv; Ret (Ok v)
  | None => Ret (Err (Errorf "uva range [%#x, +%d) not in any region" [AInt uva; AInt size]))
  end.

Section parse.
(** The kernel's mmap: the contents of [length] bytes of [fd] from [offset], or
    an error.  The page size is a power of two. *)
Context (mmap : nat -> Z -> Z -> result (list Z)) (pagesize : Z).

Definition u64_at (p : bytes) (o : Z) : res Z := b ← slice p o (o + 8); Ret (le_get b).

(** The mapping loop from region [i] on; [next] is the next mapping identity. *)
Fixpoint mapRegions (n : nat) (i : nat) (payload : bytes) (fds : list nat) (t : memTable)
    (st : store) (next : nat) : res (store * nat * result memTable) :=
  match n with
  | O => Ret (st, next, Ok t)
  | S n' =>
      p ← slice_from payload (8 + Z.of_nat i * 32);
      gpa ← u64_at p 0;
      size ← u64_at p 8;
      uva ← u64_at p 16;
      mmapOffset ← u64_at p 24;
      let pad := Z.land mmapOffset (u64 (pagesize - 1)) in
      match fds !! i with
      | None => Panic
      | Some fd =>
          match mmap fd (s64 (u64 (mmapOffset - pad))) (s64 (u64 (size + pad))) with
          | Err e =>
              Ret (memTable_close t st, next,
                   Err (Errorf "mmap region %d (size %d): %w" [AInt (Z.of_nat i); AInt size; AErr e]))
          | Ok raw =>
              v ← vslice (mkView next 0 (len raw)) pad (u64 (pad + size));
              mapRegions n' (S i) payload fds (t ++ [mkRegion gpa size uva v next])
                (<[next := raw]> st) (S next)
          end
      end
  end.

Definition parseMemTable (payload : bytes) (fds : list nat) (st : store) (next : nat)
    : res (store * nat * result memTable) :=
  let fail e := Ret (st, next, Err e) in
  if len payload <? 8 then fail (Errorf "short mem table payload" [])
  else
    nb ← slice payload 0 4;
    let n := le_get nb in
    if (n =? 0) || (32 <? n) then fail (Errorf "bad region count %d" [AInt n])
    else if Z.of_nat (length fds) <? n then
      fail (Errorf "mem table has %d regions but %d fds" [AInt n; AInt (Z.of_nat (length fds))])
    else if len payload <? 8 + n * 32 then
      fail (Errorf "short mem table payload for %d regions" [AInt n])
    else mapRegions (Z.to_nat n) 0 payload fds [] st next.
End parse.

(** * Split virtqueues (queue.go) *)

Definition descSize : Z := 16.
Definition descFlagNext : Z := 1.
Definition descFlagWrite : Z := 2.
Definition descFlagIndirect : Z := 4.
Definition availFlagNoInterrupt : Z := 1.
Definition virtioNetHdrSize : Z := 12.
Definition maxChainLen : nat := 256.

Record vring := mkVring {
  num : Z;
  desc : option view;
  avail : option view;
  used : option view;
  lastAvail : Z;
  usedIdx : Z;
  kick : option nat;
  call : option nat;
  enabled : bool;
  started : bool;
  pumpRunning : bool
}.

Definition vset_avail (a : Z) (v : vring) : vring :=
  mkVring (num v) (desc v) (avail v) (used v) a (usedIdx v) (kick v) (call v) (enabled v) (started v) (pumpRunning v).
Definition vset_used (u : Z) (v : vring) : vring :=
  mkVring (num v) (desc v) (avail v) (used v) (lastAvail v) u (kick v) (call v) (enabled v) (started v) (pumpRunning v).

(** The little-endian word of flags and index at the head of a ring. *)
Definition atomicLoadU32 (st : store) (o : option view) : res Z :=
  b ← nonnil o;
  w ← vslice b 0 4;
  d ← vread st w;
  Ret (le_get d).

Definition atomicStoreU32 (st : store) (o : option view) (x : Z) : res store :=
  b ← nonnil o;
  w ← vslice b 0 4;
  vwrite st w (le_put 4 x).

Definition availIdx (st : store) (v : vring) : res Z :=
  w ← atomicLoadU32 st (avail v);
  Ret (u16 (Z.shiftr w 16)).

Definition availNoInterrupt (st : store) (v : vring) : res bool :=
  w ← atomicLoadU32 st (avail v);
  Ret (negb (Z.land (u16 w) availFlagNoInterrupt =? 0)).

(** [uint32(i) % v.num] panics when [num] is zero. *)
Definition umod (a b : Z) : res Z := if b =? 0 then Panic else Ret (a mod b).

Definition availEntry (st : store) (v : vring) (i : Z) : res Z :=
  k ← umod i (num v);
  let off := u32 (4 + 2 * k) in
  b ← nonnil (avail v);
  w ← vslice b off (vw_len b);
  w ← vslice w 0 2;
  d ← vread st w;
  Ret (le_get d).

Definition publishUsed (st : store) (v : vring) (count : Z) : res (store * vring) :=
  let v := vset_used (u16 (usedIdx v + count)) v in
  st ← atomicStoreU32 st (used v) (u32 (Z.shiftl (usedIdx v) 16));
  Ret (st, v).

Definition setUsedElem (st : store) (v : vring) (slot head written : Z) : res store :=
  k ← umod (u32 (usedIdx v + slot)) (num v);
  let off := u32 (4 + 8 * k) in
  b ← nonnil (used v);
  w ← vslice b off (vw_len b);
  w1 ← vslice w 0 4;
  st ← vwrite st w1 (le_put 4 head);
  w ← vslice b (u32 (off + 4)) (vw_len b);
  w2 ← vslice w 0 4;
  vwrite st w2 (le_put 4 written).

(** [notify]: the eventfd to write to, if any. *)
Definition notify (st : store) (v : vring) : res (option nat) :=
  match call v with
  | None => Ret None
  | Some f => b ← availNoInterrupt st v; Ret (if b : bool then None else Some f)
  end.

Record descriptor := mkDesc { d_addr : Z; d_len : Z; d_flags : Z; d_next : Z }.

Definition descAt (st : store) (v : vring) (i : Z) : res (result descriptor) :=
  if num v <=? i then Ret (Err (Errorf "descriptor index %d out of range" [AInt i]))
  else
    let off := u32 (i * descSize) in
    b ← nonnil (desc v);
    w ← vslice b off (u32 (off + descSize));
    d ← vread st w;
    Ret (Ok (mkDesc (le_get (take 8 d)) (le_get (take 4 (drop 8 d)))
               (le_get (take 2 (drop 12 d))) (le_get (take 2 (drop 14 d))))).

Record chain := mkChain { ch_head : Z; readable : list view; writable : list view }.

Definition has (flags bit : Z) : bool := negb (Z.land flags bit =? 0).

(** The walk with [n] descriptors left before the length limit. *)
Fixpoint walkChain (n : nat) (st : store) (v : vring) (mem : memTable) (c : chain) (idx : Z)
    : res (result chain) :=
  match n with
  | O => Ret (Err (Errorf "descriptor chain too long" []))
  | S n' =>
      rd ← descAt st v idx;
      match rd with
      | Err e => Ret (Err e)
      | Ok d =>
          if has (d_flags d) descFlagIndirect then Ret (Err (Errorf "unexpected indirect descriptor" []))
          else
            rs ← gpaSlice mem (d_addr d) (d_len d);
            match rs with
            | Err e => Ret (Err e)
            | Ok seg =>
                let next c :=
                  if has (d_flags d) descFlagNext then walkChain n' st v mem c (d_next d)
                  else Ret (Ok c) in
                if has (d_flags d) descFlagWrite then
                  next (mkChain (ch_head c) (readable c) (writable c ++ [seg]))
                else if (0 <? length (writable c))%nat then
                  Ret (Err (Errorf "readable descriptor after writable" []))
                else next (mkChain (ch_head c) (readable c ++ [seg]) (writable c))
            end
      end
  end.

Definition resolveChain (st : store) (v : vring) (mem : memTable) (head : Z) : res (result chain) :=
  walkChain maxChainLen st v mem (mkChain head [] []) head.

Definition popAvail (st : store) (v : vring) : res (vring * option Z) :=
  i ← availIdx st v;
  if lastAvail v =? i then Ret (v, None)
  else
    head ← availEntry st v (lastAvail v);
    Ret (vset_avail (u16 (lastAvail v + 1)) v, Some head).
