(* ===== verification/VhostDev.v ===== *)
(** The vhost-user-net device: src/internal/vhostuser/device.go and
    src/internal/vhostuser/proto.go.

    The device is a state with the guest memory in it; messages of the front
    end, rounds of the transmit pump and frames written by the switch are its
    steps.  Each runs under the device lock and is therefore atomic. *)
From S2P Require Import Prelude VhostMem.

(** * Protocol (proto.go) *)

Definition reqGetFeatures : Z := 1.
Definition reqSetFeatures : Z := 2.
Definition reqSetOwner : Z := 3.
Definition reqResetOwner : Z := 4.
Definition reqSetMemTable : Z := 5.
Definition reqSetVringNum : Z := 8.
Definition reqSetVringAddr : Z := 9.
Definition reqSetVringBase : Z := 10.
Definition reqGetVringBase : Z := 11.
Definition reqSetVringKick : Z := 12.
Definition reqSetVringCall : Z := 13.
Definition reqSetVringErr : Z := 14.
Definition reqGetProtocolFeatures : Z := 15.
Definition reqSetProtocolFeatures : Z := 16.
Definition reqSetVringEnable : Z := 18.

Definition flagVersion1 : Z := 1.
Definition flagReply : Z := 4.
Definition flagNeedReply : Z := 8.

Definition featNetMrgRxbuf : Z := 2 ^ 15.
Definition featVersion1 : Z := 2 ^ 32.
Definition featAccessPlatform : Z := 2 ^ 33.
Definition featProtocolFeatures : Z := 2 ^ 30.
Definition protoFeatReplyAck : Z := 2 ^ 3.

Definition supportedFeatures : Z :=
  Z.lor (Z.lor featVersion1 featNetMrgRxbuf) featProtocolFeatures.
Definition supportedProtocolFeatures : Z := protoFeatReplyAck.

Definition hdrSize : Z := 12.
Definition maxPayloadSize : Z := 4096.
Definition invalidFDFlag : Z := 0x100.
Definition vringIdxMask : Z := 0xff.

Record message := mkMsg {
  m_req : Z;
  m_flags : Z;
  m_payload : bytes;
  m_fds : list nat
}.

(** [readMsg] on the bytes of the stream: header, then payload.  The
    descriptors received alongside are the second argument; [None] stands for
    a stream that ends before the message does. *)
Definition readMsg (stream : bytes) (fds : list nat) : option (result message) :=
  if len stream <? hdrSize then None
  else
    let size := le_get (take 4 (drop 8 stream)) in
    if maxPayloadSize <? size then Some (Err (Errorf "payload size %d exceeds limit" [AInt size]))
    else if len stream <? hdrSize + size then None
    else Some (Ok (mkMsg (le_get (take 4 stream)) (le_get (take 4 (drop 4 stream)))
                     (take (Z.to_nat size) (drop 12 stream)) fds)).

(** The bytes [writeReply] puts on the stream. *)
Definition writeReply (req : Z) (payload : bytes) : bytes :=
  le_put 4 req ++ le_put 4 (Z.lor flagVersion1 flagReply) ++
  le_put 4 (u32 (len payload)) ++ payload.

Definition u64Payload (v : Z) : bytes := le_put 8 v.

Definition vringStatePayload (p : bytes) : res (result (Z * Z)) :=
  if len p <? 8 then Ret (Err (Errorf "short vring state payload" []))
  else
    a ← slice p 0 4;
    b ← slice p 4 8;
    Ret (Ok (le_get a, le_get b)).

Record vringAddr := mkAddr {
  va_index : Z; va_flags : Z; va_desc : Z; va_used : Z; va_avail : Z; va_log : Z
}.

Definition parseVringAddr (p : bytes) : res (result vringAddr) :=
  if len p <? 40 then Ret (Err (Errorf "short vring addr payload" []))
  else
    i ← slice p 0 4;
    f ← slice p 4 8;
    d ← slice p 8 16;
    u ← slice p 16 24;
    a ← slice p 24 32;
    l ← slice p 32 40;
    Ret (Ok (mkAddr (le_get i) (le_get f) (le_get d) (le_get u) (le_get a) (le_get l))).

(** * The device *)

Definition rxQueue : nat := 0.
Definition txQueue : nat := 1.
Definition nQueues : Z := 2.
Definition maxFrameSize : Z := 65535.

Record NetDevice := mkDev {
  features : Z;
  offered : Z;
  protoFeatures : Z;
  protoOn : bool;
  mem : option memTable;
  rings : list vring;
  gmem : store;
  nextMap : nat;
  dclosed : bool
}.

(** What the device does to its surroundings. *)
Inductive vfx : Type :=
  | VReply (b : bytes)
  | VCloseFd (fd : nat)
  | VCloseFile (f : nat)
  | VSpawnPump (kick : nat)
  | VPoke (f : nat)
  | VNotify (f : nat)
  | VState (up : bool).

Definition zeroRing : vring :=
  mkVring 0 None None None 0 0 None None false false false.

Definition NewNetDevice (accessPlatform : bool) : NetDevice :=
  let off := if accessPlatform then Z.lor supportedFeatures featAccessPlatform else supportedFeatures in
  mkDev 0 off 0 false None [zeroRing; zeroRing] ∅ 0 false.

Definition with_rings (r : list vring) (d : NetDevice) : NetDevice :=
  mkDev (features d) (offered d) (protoFeatures d) (protoOn d) (mem d) r (gmem d) (nextMap d) (dclosed d).
Definition with_gmem (g : store) (d : NetDevice) : NetDevice :=
  mkDev (features d) (offered d) (protoFeatures d) (protoOn d) (mem d) (rings d) g (nextMap d) (dclosed d).
Definition with_mem (m : option memTable) (g : store) (n : nat) (d : NetDevice) : NetDevice :=
  mkDev (features d) (offered d) (protoFeatures d) (protoOn d) m (rings d) g n (dclosed d).
Definition with_feats (f : Z) (on : bool) (d : NetDevice) : NetDevice :=
  mkDev f (offered d) (protoFeatures d) on (mem d) (rings d) (gmem d) (nextMap d) (dclosed d).
Definition with_proto (p : Z) (d : NetDevice) : NetDevice :=
  mkDev (features d) (offered d) p (protoOn d) (mem d) (rings d) (gmem d) (nextMap d) (dclosed d).

Definition set_ring (i : nat) (v : vring) (d : NetDevice) : NetDevice :=
  with_rings (<[i := v]> (rings d)) d.

Definition mrgRxbuf (d : NetDevice) : bool := has (features d) featNetMrgRxbuf.

Definition ring (d : NetDevice) (idx : Z) : option vring :=
  if nQueues <=? idx then None else rings d !! Z.to_nat idx.

Definition closeFile (f : option nat) : list vfx :=
  match f with Some x => [VCloseFile x] | None => [] end.

Definition stopRing (v : vring) : vring * list vfx :=
  (mkVring (num v) None None None (lastAvail v) (usedIdx v) None None false false (pumpRunning v),
   closeFile (kick v) ++ closeFile (call v)).

(** Stop every ring of the device. *)
Definition stopRings (d : NetDevice) : NetDevice * list vfx :=
  (with_rings (fst ∘ stopRing <$> rings d) d, concat ((snd ∘ stopRing) <$> rings d)).

Definition set_started (v : vring) (run : bool) : vring :=
  mkVring (num v) (desc v) (avail v) (used v) (lastAvail v) (usedIdx v) (kick v) (call v)
    (enabled v) true run.

Definition evalRing (d : NetDevice) (idx : nat) : NetDevice * list vfx :=
  match rings d !! idx with
  | None => (d, [])
  | Some v =>
      if started v then (d, [])
      else match mem d, desc v, kick v with
      | Some _, Some _, Some k =>
          if num v =? 0 then (d, [])
          else if protoOn d && negb (enabled v) then (d, [])
          else if (idx =? txQueue)%nat then
            (set_ring idx (set_started v true) d,
             (if pumpRunning v then [VPoke k] else [VSpawnPump k]) ++ [VState true])
          else (set_ring idx (set_started v (pumpRunning v)) d, [])
      | _, _, _ => (d, [])
      end
  end.

Definition evalRings (d : NetDevice) : NetDevice * list vfx :=
  let '(d, fx0) := evalRing d rxQueue in
  let '(d, fx1) := evalRing d txQueue in
  (d, fx0 ++ fx1).

(** [Close], the body of the [sync.Once]. *)
Definition dev_Close (d : NetDevice) : NetDevice * list vfx :=
  if dclosed d then (d, [])
  else
    let '(d, fx) := stopRings d in
    let g := match mem d with Some t => memTable_close t (gmem d) | None => gmem d end in
    (mkDev (features d) (offered d) (protoFeatures d) (protoOn d) None (rings d) g (nextMap d) true, fx).

(** * Messages *)

Definition err (fmt : string) (args : list earg) : option goerr := Some (Errorf fmt args).

(** Outcome of a request: state, effects, descriptors still owned by the
    message, reply payload if the request has one, error. *)
Definition outcome : Type := (NetDevice * list vfx * list nat * option bytes * option goerr)%type.

Section handle.
Context (mmap : nat -> Z -> Z -> result (list Z)) (pagesize : Z).

Definition setMemTable (m : message) (d : NetDevice) : res outcome :=
  x ← parseMemTable mmap pagesize (m_payload m) (m_fds m) (gmem d) (nextMap d);
  let '(g, next, r) := x in
  match r with
  | Err e => Ret (with_mem (mem d) g next d, [], m_fds m, None, Some e)
  | Ok t =>
      let '(d, fx0) :=
        match mem d with
        | Some old =>
            let '(d, fx) := stopRings d in
            (with_mem (Some t) (memTable_close old g) next d, fx)
        | None => (with_mem (Some t) g next d, [])
        end in
      let '(d, fx1) := evalRings d in
      Ret (d, fx0 ++ fx1, m_fds m, None, None)
  end.

Definition vset_desc (o : option view) (v : vring) : vring :=
  mkVring (num v) o (avail v) (used v) (lastAvail v) (usedIdx v) (kick v) (call v) (enabled v) (started v) (pumpRunning v).
Definition vset_availRing (o : option view) (v : vring) : vring :=
  mkVring (num v) (desc v) o (used v) (lastAvail v) (usedIdx v) (kick v) (call v) (enabled v) (started v) (pumpRunning v).
Definition vset_usedRing (o : option view) (v : vring) : vring :=
  mkVring (num v) (desc v) (avail v) o (lastAvail v) (usedIdx v) (kick v) (call v) (enabled v) (started v) (pumpRunning v).
Definition vset_num (n : Z) (v : vring) : vring :=
  mkVring n (desc v) (avail v) (used v) (lastAvail v) (usedIdx v) (kick v) (call v) (enabled v) (started v) (pumpRunning v).
Definition vset_enabled (en st : bool) (v : vring) : vring :=
  mkVring (num v) (desc v) (avail v) (used v) (lastAvail v) (usedIdx v) (kick v) (call v) en st (pumpRunning v).
Definition vset_kick (f : option nat) (st : bool) (v : vring) : vring :=
  mkVring (num v) (desc v) (avail v) (used v) (lastAvail v) (usedIdx v) f (call v) (enabled v) st (pumpRunning v).
Definition vset_call (f : option nat) (v : vring) : vring :=
  mkVring (num v) (desc v) (avail v) (used v) (lastAvail v) (usedIdx v) (kick v) f (enabled v) (started v) (pumpRunning v).
Definition vset_pump (b : bool) (v : vring) : vring :=
  mkVring (num v) (desc v) (avail v) (used v) (lastAvail v) (usedIdx v) (kick v) (call v) (enabled v) (started v) b.

(** The slice of a result, nil on error. *)
Definition ok_view (r : result view) : option view :=
  match r with Ok v => Some v | Err _ => None end.

Definition setVringAddr (m : message) (d : NetDevice) : res outcome :=
  let fail d e := Ret (d, [], m_fds m, None, Some e) in
  ra ← parseVringAddr (m_payload m);
  match ra with
  | Err e => fail d e
  | Ok a =>
      match ring d (va_index a) with
      | None => fail d (Errorf "bad vring index %d" [AInt (va_index a)])
      | Some v =>
          let i := Z.to_nat (va_index a) in
          match mem d with
          | None => fail d (Errorf "vring addr before mem table / num" [])
          | Some t =>
              if num v =? 0 then fail d (Errorf "vring addr before mem table / num" [])
              else
                rd ← uvaSlice t (va_desc a) (u64 (num v * descSize));
                let v := vset_desc (ok_view rd) v in
                match rd with
                | Err e => fail (set_ring i v d) (Errorf "desc table: %w" [AErr e])
                | Ok _ =>
                    rv ← uvaSlice t (va_avail a) (u64 (4 + num v * 2 + 2));
                    let v := vset_availRing (ok_view rv) v in
                    match rv with
                    | Err e => fail (set_ring i v d) (Errorf "avail ring: %w" [AErr e])
                    | Ok _ =>
                        ru ← uvaSlice t (va_used a) (u64 (4 + num v * 8 + 2));
                        let v := vset_usedRing (ok_view ru) v in
                        match ru with
                        | Err e => fail (set_ring i v d) (Errorf "used ring: %w" [AErr e])
                        | Ok _ =>
                            w ← atomicLoadU32 (gmem d) (used v);
                            let v := vset_used (u16 (Z.shiftr w 16)) v in
                            let '(d, fx) := evalRing (set_ring i v d) i in
                            Ret (d, fx, m_fds m, None, None)
                        end
                    end
                end
          end
      end
  end.

Definition setVringFD (m : message) (isKick : bool) (d : NetDevice) : res outcome :=
  let fail e := Ret (d, [], m_fds m, None, Some e) in
  if len (m_payload m) <? 8 then fail (Errorf "short vring fd payload" [])
  else
    b ← slice (m_payload m) 0 8;
    let val := le_get b in
    let idx := u32 (Z.land val vringIdxMask) in
    match ring d idx with
    | None => fail (Errorf "bad vring index %d" [AInt idx])
    | Some v =>
        let install (f : option nat) (rest : list nat) :=
          let i := Z.to_nat idx in
          let '(v, fx0) :=
            if isKick then
              (vset_kick f (match kick v with Some _ => false | None => started v end) v,
               closeFile (kick v))
            else (vset_call f v, closeFile (call v)) in
          let '(d, fx1) := evalRing (set_ring i v d) i in
          Ret (d, fx0 ++ fx1, rest, None, None) in
        if Z.land val invalidFDFlag =? 0 then
          match m_fds m with
          | [] => fail (Errorf "vring fd message without fd" [])
          | fd :: rest => install (Some fd) rest
          end
        else install None (m_fds m)
    end.

(** A request whose payload is a vring index and a number. *)
Definition with_state (m : message) (d : NetDevice)
    (k : Z -> Z -> NetDevice * list vfx * option bytes * option goerr) : res outcome :=
  r ← vringStatePayload (m_payload m);
  match r with
  | Err e => Ret (d, [], m_fds m, None, Some e)
  | Ok (idx, n) => let '(d, fx, reply, e) := k idx n in Ret (d, fx, m_fds m, reply, e)
  end.

Definition pure_state (m : message) (d : NetDevice) (reply : option bytes) (e : option goerr)
    : res outcome := Ret (d, [], m_fds m, reply, e).

Definition dispatch (m : message) (d : NetDevice) : res outcome :=
  let req := m_req m in
  if req =? reqGetFeatures then pure_state m d (Some (u64Payload (offered d))) None
  else if req =? reqSetFeatures then
    if 8 <=? len (m_payload m) then
      b ← slice (m_payload m) 0 8;
      let feats := le_get b in
      let bad := Z.ldiff feats (offered d) in
      if negb (bad =? 0) then pure_state m d None (err "set_features: unsupported bits %#x" [AInt bad])
      else pure_state m (with_feats feats (has feats featProtocolFeatures) d) None None
    else pure_state m d None None
  else if req =? reqGetProtocolFeatures then
    pure_state m d (Some (u64Payload supportedProtocolFeatures)) None
  else if req =? reqSetProtocolFeatures then
    if 8 <=? len (m_payload m) then
      b ← slice (m_payload m) 0 8;
      pure_state m (with_proto (le_get b) d) None None
    else pure_state m d None None
  else if (req =? reqSetOwner) || (req =? reqSetVringErr) then pure_state m d None None
  else if req =? reqResetOwner then
    let '(d, fx) := stopRings d in Ret (d, fx, m_fds m, None, None)
  else if req =? reqSetMemTable then setMemTable m d
  else if req =? reqSetVringNum then
    with_state m d (fun idx n =>
      match ring d idx with
      | Some v =>
          if (0 <? n) && (n <=? 32768) && (Z.land n (n - 1) =? 0)
          then (set_ring (Z.to_nat idx) (vset_num n v) d, [], None, None)
          else (d, [], None, err "bad vring num %d for ring %d" [AInt n; AInt idx])
      | None => (d, [], None, err "bad vring num %d for ring %d" [AInt n; AInt idx])
      end)
  else if req =? reqSetVringBase then
    with_state m d (fun idx base =>
      match ring d idx with
      | Some v => (set_ring (Z.to_nat idx) (vset_avail (u16 base) v) d, [], None, None)
      | None => (d, [], None, None)
      end)
  else if req =? reqGetVringBase then
    with_state m d (fun idx _ =>
      match ring d idx with
      | Some v =>
          let '(v, fx) := stopRing v in
          (set_ring (Z.to_nat idx) v d, fx, Some (le_put 4 idx ++ le_put 4 (lastAvail v)), None)
      | None => (d, [], None, err "bad vring index %d" [AInt idx])
      end)
  else if req =? reqSetVringAddr then setVringAddr m d
  else if req =? reqSetVringKick then setVringFD m true d
  else if req =? reqSetVringCall then setVringFD m false d
  else if req =? reqSetVringEnable then
    with_state m d (fun idx on =>
      match ring d idx with
      | Some v =>
          if on =? 0 then (set_ring (Z.to_nat idx) (vset_enabled false false v) d, [], None, None)
          else
            let '(d, fx) := evalRing (set_ring (Z.to_nat idx) (vset_enabled true (started v) v) d) (Z.to_nat idx) in
            (d, fx, None, None)
      | None => (d, [], None, None)
      end)
  else pure_state m d None (err "unsupported request %d" [AInt req]).

(** [handle]; [werr] is what writing the reply to the connection returns. *)
Definition handle (werr : option goerr) (m : message) (d : NetDevice)
    : res (NetDevice * list vfx * option goerr) :=
  o ← dispatch m d;
  let '(d, fx, fds, reply, e) := o in
  let closing := VCloseFd <$> fds in
  match reply with
  | Some p => Ret (d, fx ++ [VReply (writeReply (m_req m) p)] ++ closing, werr)
  | None =>
      if has (m_flags m) flagNeedReply && has (protoFeatures d) protoFeatReplyAck then
        let status := match e with Some _ => 1 | None => 0 end in
        Ret (d, fx ++ [VReply (writeReply (m_req m) (u64Payload status))] ++ closing,
             match werr with Some w => Some w | None => e end)
      else Ret (d, fx ++ closing, e)
  end.
End handle.

(** * Transmit: guest to switch *)

(** [append(frame, s[skip:]...)] over the segments. *)
Fixpoint gatherCopy (st : store) (skip : Z) (segs : list view) : res bytes :=
  match segs with
  | [] => Ret []
  | s :: segs' =>
      if vw_len s <=? skip then gatherCopy st (skip - vw_len s) segs'
      else
        b ← vread st s;
        rest ← gatherCopy st 0 segs';
        Ret (drop (Z.to_nat skip) b ++ rest)
  end.

Definition total_len (segs : list view) : Z := foldl (fun n s => n + vw_len s) 0 segs.

(** [None] is the nil slice: no frame. *)
Definition gatherTX (st : store) (c : chain) : res (option bytes) :=
  let total := total_len (readable c) in
  if (total <=? virtioNetHdrSize) || (maxFrameSize <? total - virtioNetHdrSize) then Ret None
  else f ← gatherCopy st virtioNetHdrSize (readable c); Ret (Some f).

(** The loop of [drainTXLocked]: [None] when the fuel runs out. *)
Fixpoint drainLoop (fuel : nat) (t : memTable) (st : store) (v : vring) (frames : list bytes) (count : Z)
    : option (res (store * vring * list bytes * Z)) :=
  match fuel with
  | O => None
  | S fuel' =>
      match popAvail st v with
      | Panic => Some Panic
      | Ret (v, None) => Some (Ret (st, v, frames, count))
      | Ret (v, Some head) =>
          let body :=
            rc ← resolveChain st v t head;
            fr ← match rc with
                 | Ok c => gatherTX st c
                 | Err _ => Ret None
                 end;
            st ← setUsedElem st v 0 head 0;
            x ← publishUsed st v 1;
            Ret (x, fr) in
          match body with
          | Panic => Some Panic
          | Ret (st, v, fr) =>
              drainLoop fuel' t st v
                (match fr with Some f => frames ++ [f] | None => frames end) (count + 1)
          end
      end
  end.

Definition drainTX (fuel : nat) (t : memTable) (st : store) (v : vring)
    : option (res (store * vring * list bytes * list vfx)) :=
  match drainLoop fuel t st v [] 0 with
  | None => None
  | Some Panic => Some Panic
  | Some (Ret (st, v, frames, count)) =>
      Some (
        n ← (if 0 <? count then notify st v else Ret None);
        Ret (st, v, frames, match n with Some f => [VNotify f] | None => [] end))
  end.

(** One round of [txPump] before it blocks on the eventfd. *)
Definition pumpRound (fuel : nat) (d : NetDevice) : option (res (NetDevice * list bytes * list vfx)) :=
  match rings d !! txQueue, mem d with
  | Some v, Some t =>
      if started v then
        match drainTX fuel t (gmem d) v with
        | None => None
        | Some Panic => Some Panic
        | Some (Ret (st, v, frames, fx)) => Some (Ret (set_ring txQueue v (with_gmem st d), frames, fx))
        end
      else Some (Ret (d, [], []))
  | _, _ => Some (Ret (d, [], []))
  end.

(** The deferred function of [txPump]: hand over to a pump on the new fd. *)
Definition pumpExit (d : NetDevice) : NetDevice * list vfx :=
  match rings d !! txQueue with
  | None => (d, [])
  | Some v =>
      match started v, kick v with
      | true, Some k => (set_ring txQueue (vset_pump true v) d, [VSpawnPump k])
      | _, _ => (set_ring txQueue (vset_pump false v) d, [])
      end
  end.

(** * Receive: switch to guest *)

Record wstate := mkW {
  w_st : store;
  w_src : bytes;
  w_hdrLeft : Z;
  w_hdrSeg : option view;
  w_rem : Z
}.

(** The inner loop over one segment; an iteration writes at least one byte, so
    the segment's length is enough fuel. *)
Fixpoint fillSeg (fuel : nat) (seg : view) (w : wstate) (written : Z) : res (wstate * Z) :=
  match fuel with
  | O => Ret (w, written)
  | S fuel' =>
      if (0 <? vw_len seg) && (0 <? w_rem w) then
        if 0 <? w_hdrLeft w then
          let n := Z.min (vw_len seg) (w_hdrLeft w) in
          st ← vwrite (w_st w) seg (make_bytes (Z.to_nat (w_hdrLeft w)));
          let hs := match w_hdrSeg w with Some s => Some s | None => Some seg end in
          seg' ← vslice seg n (vw_len seg);
          fillSeg fuel' seg' (mkW st (w_src w) (w_hdrLeft w - n) hs (w_rem w - n)) (u32 (written + n))
        else
          let n := Z.min (vw_len seg) (len (w_src w)) in
          st ← vwrite (w_st w) seg (w_src w);
          src ← slice_from (w_src w) n;
          seg' ← vslice seg n (vw_len seg);
          fillSeg fuel' seg' (mkW st src (w_hdrLeft w) (w_hdrSeg w) (w_rem w - n)) (u32 (written + n))
      else Ret (w, written)
  end.

Fixpoint fillSegs (segs : list view) (w : wstate) (written : Z) : res (wstate * Z) :=
  match segs with
  | [] => Ret (w, written)
  | s :: segs' =>
      x ← fillSeg (Z.to_nat (vw_len s)) s w written;
      let '(w, written) := x in
      if w_rem w =? 0 then Ret (w, written) else fillSegs segs' w written
  end.

(** [setUsedElem(uint16(i), u.head, u.written)] for every chain. *)
Fixpoint setUsedElems (st : store) (v : vring) (i : nat) (us : list (Z * Z)) : res store :=
  match us with
  | [] => Ret st
  | (head, written) :: us' =>
      st ← setUsedElem st v (u16 (Z.of_nat i)) head written;
      setUsedElems st v (S i) us'
  end.

Definition usedCount (us : list (Z * Z)) : Z := u16 (Z.of_nat (length us)).

(** Why the buffer loop ended. *)
Inductive wend : Type :=
  | WStop (v : vring) (w : wstate) (us : list (Z * Z))
  | WMalformed (v : vring) (w : wstate) (us : list (Z * Z)).

Fixpoint writeLoop (fuel : nat) (mrg : bool) (t : memTable) (v : vring) (w : wstate) (us : list (Z * Z))
    : option (res wend) :=
  match fuel with
  | O => None
  | S fuel' =>
      if negb (0 <? w_rem w) then Some (Ret (WStop v w us))
      else if negb mrg && (length us =? 1)%nat then Some (Ret (WStop v w us))
      else match popAvail (w_st w) v with
      | Panic => Some Panic
      | Ret (v, None) => Some (Ret (WStop v w us))
      | Ret (v, Some head) =>
          match resolveChain (w_st w) v t head with
          | Panic => Some Panic
          | Ret (Err _) => Some (Ret (WMalformed v w (us ++ [(head, 0)])))
          | Ret (Ok c) =>
              match fillSegs (writable c) w 0 with
              | Panic => Some Panic
              | Ret (w, written) => writeLoop fuel' mrg t v w (us ++ [(head, written)])
              end
          end
      end
  end.

Definition notify_fx (n : option nat) : list vfx := match n with Some f => [VNotify f] | None => [] end.

(** Give chains back to the driver. *)
Definition publish (st : store) (v : vring) (us : list (Z * Z)) : res (store * vring * list vfx) :=
  st ← setUsedElems st v 0 us;
  x ← publishUsed st v (usedCount us);
  n ← notify x.1 x.2;
  Ret (x, notify_fx n).

Definition finishWrite (startAvail : Z) (e : wend) : res (store * vring * list vfx * bool) :=
  match e with
  | WMalformed v w us =>
      x ← publish (w_st w) v ((fun u : Z * Z => (u.1, 0)) <$> us);
      Ret (x, false)
  | WStop v w us =>
      if 0 <? w_rem w then Ret (w_st w, vset_avail startAvail v, [], false)
      else
        st ← match w_hdrSeg w with
             | Some s =>
                 if virtioNetHdrSize <=? vw_len s then
                   nb ← vslice s 10 12; vwrite (w_st w) nb (le_put 2 (usedCount us))
                 else Ret (w_st w)
             | None => Ret (w_st w)
             end;
        x ← publish st v us;
        Ret (x, true)
  end.

Definition WriteFrame (fuel : nat) (frame : bytes) (d : NetDevice)
    : option (res (NetDevice * list vfx * bool)) :=
  if maxFrameSize <? len frame then Some (Ret (d, [], false))
  else match rings d !! rxQueue, mem d with
  | Some v, Some t =>
      if negb (started v) then Some (Ret (d, [], false))
      else
        let w := mkW (gmem d) frame virtioNetHdrSize None (virtioNetHdrSize + len frame) in
        match writeLoop fuel (mrgRxbuf d) t v w [] with
        | None => None
        | Some e =>
            Some (
              e ← e;
              x ← finishWrite (lastAvail v) e;
              let '(st, v, fx, ok) := x in
              Ret (set_ring rxQueue v (with_gmem st d), fx, ok))
        end
  | _, _ => Some (Ret (d, [], false))
  end.
