(* ===== verification/VhostFacts.v ===== *)
(** The memory-safety invariant of the vhost-user device: every slice it keeps
    lies inside memory that is currently mapped, whatever the front end sends,
    whatever the guest writes, and whenever memory is remapped. *)
From S2P Require Import Prelude VhostMem VhostDev.

(** * Stores of the same shape *)

(** Same mappings, of the same sizes. *)
Definition same_shape (st st' : store) : Prop :=
  forall k, length <$> st' !! k = length <$> st !! k.

#[export] Instance same_shape_refl : Reflexive same_shape.
Proof. by intros st. Qed.
#[export] Instance same_shape_trans : Transitive same_shape.
Proof. intros a b c H1 H2 k. by rewrite H2. Qed.
#[export] Hint Extern 1 (same_shape _ _) => reflexivity : core.

Definition view_in (st : store) (v : view) : Prop :=
  exists b, st !! vw_map v = Some b /\ 0 <= vw_off v /\ 0 <= vw_len v /\ vw_off v + vw_len v <= len b.

Lemma view_in_shape st st' v : same_shape st st' -> view_in st v -> view_in st' v.
Proof.
  intros Hs (b & Hb & ? & ? & ?). specialize (Hs (vw_map v)). rewrite Hb in Hs.
  destruct (st' !! vw_map v) as [b'|] eqn:E; [|done]. cbn in Hs. exists b'.
  unfold len in *. split_and!; try done. injection Hs as ->. lia.
Qed.

Lemma vwrite_shape st v d st' : vwrite st v d = Ret st' -> same_shape st st'.
Proof.
  unfold vwrite. destruct (st !! vw_map v) as [b|] eqn:Hb; [|done].
  destruct (_ && _) eqn:E; [|done]. intros [= <-] k. bool_prop. rewrite lookup_insert.
  case_decide; [subst|done]. rewrite Hb. cbn. f_equal. apply length_copy_at.
  unfold len in *. lia.
Qed.

Lemma vslice_inv v lo hi w :
  vslice v lo hi = Ret w ->
  0 <= lo <= hi /\ hi <= vw_len v /\ w = mkView (vw_map v) (vw_off v + lo) (hi - lo).
Proof. unfold vslice. destruct (_ && _) eqn:E; [|done]. intros [= <-]. bool_prop. done. Qed.

Lemma view_in_slice st v lo hi w : vslice v lo hi = Ret w -> view_in st v -> view_in st w.
Proof.
  intros (? & ? & ->)%vslice_inv (b & Hb & ? & ? & ?). exists b. cbn. split_and!; try done; lia.
Qed.

Ltac vstep :=
  repeat match goal with
  | H : mbind _ _ = Ret _ |- _ => inv_bind H
  | H : Ret _ = Ret _ |- _ => injection H as H; subst
  | H : (_, _) = (_, _) |- _ => injection H as ? ?; subst
  end.

Lemma setUsedElem_shape st v slot head written st' :
  setUsedElem st v slot head written = Ret st' -> same_shape st st'.
Proof.
  unfold setUsedElem. intros H. vstep. etransitivity; eapply vwrite_shape; eauto.
Qed.

Lemma publishUsed_shape st v n st' v' :
  publishUsed st v n = Ret (st', v') ->
  same_shape st st' /\ v' = vset_used (u16 (usedIdx v + n)) v.
Proof.
  unfold publishUsed, atomicStoreU32. intros H. vstep. split; [|done]. by eapply vwrite_shape.
Qed.

Lemma setUsedElems_shape us : forall st v i st',
  setUsedElems st v i us = Ret st' -> same_shape st st'.
Proof.
  induction us as [|[head written] us IH]; cbn; intros st v i st' H; [by simplify_eq|].
  vstep. etransitivity; [by eapply setUsedElem_shape | by eapply IH].
Qed.

(** * Rings up to their cursors *)

(** All of a ring but the positions in its avail and used rings. *)
Definition ring_base (v : vring) : vring := vset_avail 0 (vset_used 0 v).

Lemma popAvail_base st v v' o : popAvail st v = Ret (v', o) -> ring_base v' = ring_base v.
Proof. unfold popAvail. intros H. inv_bind H. destruct (_ =? _); [by simplify_eq|]. by vstep. Qed.

Lemma drainLoop_spec fuel t : forall st v frames count st' v' frames' count',
  drainLoop fuel t st v frames count = Some (Ret (st', v', frames', count')) ->
  same_shape st st' /\ ring_base v' = ring_base v.
Proof.
  induction fuel as [|fuel IH]; cbn [drainLoop]; intros st v frames count st' v' frames' count' H; [done|].
  destruct (popAvail st v) as [[v1 [head|]]|] eqn:Hp; [| |done].
  - apply popAvail_base in Hp.
    match type of H with match ?b with _ => _ end = _ => destruct b as [[[st1 v2] fr]|] eqn:Hb; [|done] end.
    inv_bind Hb. inv_bind Hb. inv_bind Hb. inv_bind Hb. injection Hb as ->.
    destruct (publishUsed_shape _ _ _ _ _ E2) as [Hs ->].
    apply setUsedElem_shape in E1. apply IH in H as [Hs' Hb'].
    split; [by repeat (etransitivity; [eassumption|]) | rewrite Hb', <- Hp; done].
  - simplify_eq. split; [done|]. by eapply popAvail_base.
Qed.

Lemma drainTX_spec fuel t st v st' v' frames fx :
  drainTX fuel t st v = Some (Ret (st', v', frames, fx)) ->
  same_shape st st' /\ ring_base v' = ring_base v.
Proof.
  unfold drainTX. destruct (drainLoop fuel t st v [] 0) as [[[[[st1 v1] fr1] n1]|]|] eqn:E; try done.
  intros [= H]. inv_bind H. simplify_eq. by eapply drainLoop_spec.
Qed.

Lemma fillSeg_shape fuel : forall seg w written w' written',
  fillSeg fuel seg w written = Ret (w', written') -> same_shape (w_st w) (w_st w').
Proof.
  induction fuel as [|fuel IH]; cbn [fillSeg]; intros seg w written w' written' H; [by simplify_eq|].
  destruct (_ && _); [|by simplify_eq]. destruct (0 <? w_hdrLeft w); vstep;
    (etransitivity; [by eapply vwrite_shape | by apply IH in H]).
Qed.

Lemma fillSegs_shape segs : forall w written w' written',
  fillSegs segs w written = Ret (w', written') -> same_shape (w_st w) (w_st w').
Proof.
  induction segs as [|s segs IH]; cbn [fillSegs]; intros w written w' written' H; [by simplify_eq|].
  inv_bind H. destruct x as [w1 wr1]. apply fillSeg_shape in E.
  destruct (_ =? _); [by simplify_eq|]. etransitivity; [done | by eapply IH].
Qed.

Definition end_ring (e : wend) : vring := match e with WStop v _ _ | WMalformed v _ _ => v end.
Definition end_store (e : wend) : store := match e with WStop _ w _ | WMalformed _ w _ => w_st w end.

Lemma writeLoop_spec fuel mrg t : forall v w us e,
  writeLoop fuel mrg t v w us = Some (Ret e) ->
  same_shape (w_st w) (end_store e) /\ ring_base (end_ring e) = ring_base v.
Proof.
  induction fuel as [|fuel IH]; cbn [writeLoop]; intros v w us e H; [done|].
  destruct (negb (0 <? w_rem w)); [by simplify_eq|].
  destruct (negb mrg && _); [by simplify_eq|].
  destruct (popAvail (w_st w) v) as [[v1 [head|]]|] eqn:Hp; [| |done]; apply popAvail_base in Hp.
  2: { injection H as <-. by split. }
  destruct (resolveChain _ _ _ _) as [[c|er]|]; [|injection H as <-; by split|done].
  destruct (fillSegs _ _ _) as [[w1 wr]|] eqn:Hf; [|done].
  apply fillSegs_shape in Hf. apply IH in H as [Hs Hb].
  split; [by etransitivity | congruence].
Qed.

Lemma publish_spec st v us st' v' fx :
  publish st v us = Ret (st', v', fx) -> same_shape st st' /\ ring_base v' = ring_base v.
Proof.
  unfold publish. intros H. inv_bind H. inv_bind H. inv_bind H. destruct x0 as [st2 v2].
  injection H as -> -> <-. destruct (publishUsed_shape _ _ _ _ _ E0) as [Hs ->].
  split; [|done]. etransitivity; [by eapply setUsedElems_shape | done].
Qed.

Lemma finishWrite_spec a e st' v' fx ok :
  finishWrite a e = Ret (st', v', fx, ok) ->
  same_shape (end_store e) st' /\ ring_base v' = ring_base (end_ring e).
Proof.
  destruct e as [v w us|v w us]; cbn [finishWrite end_store end_ring]; intros H.
  - destruct (0 <? w_rem w); [by simplify_eq|]. inv_bind H. inv_bind H. destruct x0 as [[st2 v2] fx2].
    injection H as -> -> <- <-. apply publish_spec in E0 as [Hs Hb]. split; [|done].
    etransitivity; [|exact Hs]. destruct (w_hdrSeg w) as [s|]; [|by simplify_eq].
    destruct (_ <=? _); [|by simplify_eq]. inv_bind E. by eapply vwrite_shape.
  - inv_bind H. destruct x as [[st2 v2] fx2]. injection H as -> -> <- <-. by eapply publish_spec.
Qed.

(** * The invariant *)

Definition ring_views (v : vring) : list view :=
  option_list (desc v) ++ option_list (avail v) ++ option_list (used v).

Definition fresh_from (st : store) (next : nat) : Prop :=
  forall k, is_Some (st !! k) -> (k < next)%nat.

(** A region's slice lies in its own mapping. *)
Definition region_in (st : store) (lo hi : nat) (r : memRegion) : Prop :=
  vw_map (mr_mapped r) = mr_raw r /\ (lo <= mr_raw r < hi)%nat /\ view_in st (mr_mapped r).

Record dev_ok (d : NetDevice) : Prop := {
  dk_two : length (rings d) = 2%nat;
  dk_views : forall i v x, rings d !! i = Some v -> x ∈ ring_views v -> view_in (gmem d) x;
  dk_mem : forall t r, mem d = Some t -> r ∈ t -> region_in (gmem d) 0 (nextMap d) r;
  dk_fresh : fresh_from (gmem d) (nextMap d);
  dk_unmapped : mem d = None -> forall i v, rings d !! i = Some v ->
    ring_views v = [] /\ started v = false
}.

Lemma dev_ok_New ap : dev_ok (NewNetDevice ap).
Proof.
  split; cbn; try done.
  - intros i v x Hv Hx. destruct i as [|[|]]; cbn in Hv; simplify_eq; by apply elem_of_nil in Hx.
  - intros k [x Hx]. by rewrite lookup_empty in Hx.
  - intros _ i v Hv. by destruct i as [|[|]]; cbn in Hv; simplify_eq.
Qed.

(** Changing one ring. *)
Lemma dev_ok_set_ring d i v v' :
  dev_ok d -> rings d !! i = Some v ->
  (forall x, x ∈ ring_views v' -> x ∈ ring_views v \/ view_in (gmem d) x) ->
  (mem d = None -> ring_views v' = [] /\ started v' = false) ->
  dev_ok (set_ring i v' d).
Proof.
  intros Hok Hv Hx Hm. split; cbn; try apply Hok.
  - rewrite length_insert. apply Hok.
  - intros j w x Hj Hin. destruct (decide (i = j)) as [<-|Hne].
    + rewrite list_lookup_insert_eq in Hj by (by eapply lookup_lt_Some). simplify_eq.
      destruct (Hx x Hin) as [Hx'|]; [by eapply dk_views | done].
    + rewrite list_lookup_insert_ne in Hj by done. by eapply dk_views.
  - intros Hn j w Hj. destruct (decide (i = j)) as [<-|Hne].
    + rewrite list_lookup_insert_eq in Hj by (by eapply lookup_lt_Some). simplify_eq. by apply Hm.
    + rewrite list_lookup_insert_ne in Hj by done. by eapply dk_unmapped.
Qed.

(** Changes that keep the slices of a ring. *)
Lemma dev_ok_set_same d i v v' :
  dev_ok d -> rings d !! i = Some v -> ring_views v' = ring_views v ->
  (started v' = true -> started v = true \/ is_Some (mem d)) -> dev_ok (set_ring i v' d).
Proof.
  intros Hok Hv He Hs. eapply dev_ok_set_ring; [done | done | rewrite He; auto |].
  intros Hn. destruct (dk_unmapped _ Hok Hn _ _ Hv) as [H1 H2]. rewrite He. split; [done|].
  destruct (started v'); [|done]. destruct (Hs eq_refl) as [|[t Ht]]; congruence.
Qed.

(** The guest or the device writing to memory. *)
Lemma dev_ok_shape d st : dev_ok d -> same_shape (gmem d) st -> dev_ok (with_gmem st d).
Proof.
  intros [] Hs. split; cbn; try done.
  - intros i v x Hv Hx. eapply view_in_shape; [done|]. eapply dk_views0; eauto.
  - intros t r Ht Hr. destruct (dk_mem0 t r Ht Hr) as (? & ? & ?). split_and!; try done.
    all: try lia. by eapply view_in_shape.
  - intros k [x Hx]. apply dk_fresh0. specialize (Hs k). rewrite Hx in Hs.
    destruct (gmem d !! k); [eauto | done].
Qed.

Lemma stopRings_lookup d i v :
  rings (stopRings d).1 !! i = Some v -> exists v0, rings d !! i = Some v0 /\ v = (stopRing v0).1.
Proof. cbn. rewrite list_lookup_fmap. destruct (rings d !! i) as [v0|]; [|done]. intros [= <-]. eauto. Qed.

Lemma dev_ok_stopRings d : dev_ok d -> dev_ok (stopRings d).1.
Proof.
  intros Hok. split; try apply Hok.
  - cbn. rewrite length_fmap. apply Hok.
  - intros i v x (v0 & _ & ->)%stopRings_lookup Hx. by apply elem_of_nil in Hx.
  - by intros _ i v (v0 & _ & ->)%stopRings_lookup.
Qed.

Lemma evalRing_ok d i : dev_ok d -> dev_ok (evalRing d i).1 /\ mem (evalRing d i).1 = mem d /\
  gmem (evalRing d i).1 = gmem d.
Proof.
  intros Hok. unfold evalRing. destruct (rings d !! i) as [v|] eqn:Hv; [|done].
  destruct (started v) eqn:Hst; [done|].
  destruct (mem d) as [t|] eqn:Hm; [|done]. destruct (desc v) eqn:Hd; [|done].
  destruct (kick v) as [k|]; [|done]. destruct (num v =? 0); [done|].
  destruct (protoOn d && _); [done|].
  destruct (_ =? _)%nat; cbn; (split; [|done]); (eapply dev_ok_set_same; [done | done | done | eauto]).
Qed.

Lemma evalRings_ok d : dev_ok d -> dev_ok (evalRings d).1.
Proof.
  intros Hok. unfold evalRings. pose proof (evalRing_ok d rxQueue Hok) as [H1 _].
  destruct (evalRing d rxQueue) as [d1 fx1]. cbn in H1.
  pose proof (evalRing_ok d1 txQueue H1) as [H2 _]. by destruct (evalRing d1 txQueue).
Qed.

(** * Mapping and unmapping *)

Lemma memTable_close_lookup t (st : store) k :
  (forall r, r ∈ t -> mr_raw r <> k) -> memTable_close t st !! k = st !! k.
Proof.
  revert st. induction t as [|r t IH]; intros st H; cbn; [done|].
  fold (memTable_close t (delete (mr_raw r) st)). rewrite IH; [|intros; apply H; by right].
  apply lookup_delete_ne, H. by left.
Qed.

Lemma memTable_close_sub t st : memTable_close t st ⊆ st.
Proof.
  revert st. induction t as [|r t IH]; intros st; cbn; [done|].
  etransitivity; [apply IH | apply delete_subseteq].
Qed.

Lemma view_in_ext (st st' : store) v : st' !! vw_map v = st !! vw_map v -> view_in st v -> view_in st' v.
Proof. intros E (b & Hb & ?). exists b. by rewrite E. Qed.

Section mapping.
Context (mmap : nat -> Z -> Z -> result (list Z)) (pagesize : Z).

(** Mapping a table touches only new mappings, and its regions are mapped. *)
Lemma mapRegions_ok (st0 : store) n0 payload fds n : forall i t (st : store) next (st' : store) next' r,
  (forall k, (k < n0)%nat -> st !! k = st0 !! k) -> fresh_from st next -> (n0 <= next)%nat ->
  (forall x, x ∈ t -> region_in st n0 next x) ->
  mapRegions mmap pagesize n i payload fds t st next = Ret (st', next', r) ->
  (forall k, (k < n0)%nat -> st' !! k = st0 !! k) /\ fresh_from st' next' /\ (n0 <= next')%nat /\
  forall t', r = Ok t' -> forall x, x ∈ t' -> region_in st' n0 next' x.
Proof.
  induction n as [|n IH]; intros i t st next st' next' r Hk Hf Hn Ht H; cbn [mapRegions] in H.
  { simplify_eq. split_and!; try done. by intros ? [= <-]. }
  inv_bind H. inv_bind H. inv_bind H. inv_bind H. inv_bind H.
  destruct (fds !! i) as [fd|]; [|done].
  destruct (mmap _ _ _) as [raw|er] eqn:Hm.
  - inv_bind H. eapply IH; [| | | |exact H]; clear H.
    + intros k Hlt. rewrite lookup_insert_ne by lia. by apply Hk.
    + intros k Hs. rewrite lookup_insert in Hs. case_decide; [lia|]. apply Hf in Hs. lia.
    + lia.
    + intros x' [Hx| ->%list_elem_of_singleton]%elem_of_app.
      * destruct (Ht x' Hx) as (H1 & H2 & H3). split_and!; try done; try lia.
        eapply view_in_ext; [|exact H3]. rewrite lookup_insert_ne; [done|]. rewrite H1. lia.
      * apply vslice_inv in E4 as (? & Hhi & ->). cbn [vw_len] in Hhi. split_and!; cbn; try done; try lia.
        exists raw. cbn. rewrite lookup_insert_eq. split_and!; try done; lia.
  - simplify_eq. split_and!; try done.
    + intros k Hlt. rewrite memTable_close_lookup; [by apply Hk|].
      intros x' Hx. destruct (Ht x' Hx) as (_ & ? & _). lia.
    + intros k [y Hy]. apply Hf. eapply lookup_weaken in Hy; [|apply memTable_close_sub]. eauto.
Qed.

Lemma parseMemTable_ok payload fds (st : store) next (st' : store) next' r :
  fresh_from st next -> parseMemTable mmap pagesize payload fds st next = Ret (st', next', r) ->
  (forall k, (k < next)%nat -> st' !! k = st !! k) /\ fresh_from st' next' /\ (next <= next')%nat /\
  forall t', r = Ok t' -> forall x, x ∈ t' -> region_in st' next next' x.
Proof.
  intros Hf. unfold parseMemTable. intros H.
  destruct (_ <? _); [by simplify_eq|]. inv_bind H.
  destruct (_ || _); [by simplify_eq|]. destruct (_ <? _); [by simplify_eq|].
  destruct (_ <? _); [by simplify_eq|].
  eapply (mapRegions_ok st next); [| | | |exact H]; try done. by intros ? ?%elem_of_nil.
Qed.

(** * Messages *)

Lemma region_in_le (st : store) lo hi hi' r : (hi <= hi')%nat -> region_in st lo hi r -> region_in st 0 hi' r.
Proof. intros Hle (? & ? & ?). split_and!; try done; lia. Qed.

(** The state after mapping a new table and closing the old one. *)
Lemma dev_ok_remap d g next t :
  dev_ok d -> fresh_from g next ->
  (forall k, (k < nextMap d)%nat -> g !! k = gmem d !! k) ->
  (forall x, x ∈ t -> region_in g (nextMap d) next x) ->
  dev_ok (match mem d with
          | Some old => with_mem (Some t) (memTable_close old g) next (stopRings d).1
          | None => with_mem (Some t) g next d
          end).
Proof.
  intros Hok Hf Hk Ht. destruct (mem d) as [old|] eqn:Hm.
  - split; cbn; try done.
    + rewrite length_fmap. apply Hok.
    + intros i v x (v0 & _ & ->)%(stopRings_lookup d) Hx. by apply elem_of_nil in Hx.
    + intros t' x [= <-] Hx. destruct (Ht x Hx) as (H1 & H2 & H3). split_and!; try done; try lia.
      eapply view_in_ext; [|exact H3]. apply memTable_close_lookup. intros r Hr.
      destruct (dk_mem _ Hok _ _ Hm Hr) as (_ & ? & _). rewrite H1. lia.
    + intros k [y Hy]. apply Hf. eapply lookup_weaken in Hy; [|apply memTable_close_sub]. eauto.
  - split; cbn; try done.
    + apply Hok.
    + intros i v x Hv Hx. destruct (dk_unmapped _ Hok Hm _ _ Hv) as [E _]. rewrite E in Hx.
      by apply elem_of_nil in Hx.
    + intros t' x [= <-] Hx. eapply region_in_le; [|by apply Ht]. done.
Qed.

Lemma setMemTable_ok m d d' fx fds reply e :
  dev_ok d -> setMemTable mmap pagesize m d = Ret (d', fx, fds, reply, e) -> dev_ok d'.
Proof.
  intros Hok H. unfold setMemTable in H. inv_bind H. destruct x as [[g next] r].
  destruct (parseMemTable_ok _ _ _ _ _ _ _ (dk_fresh _ Hok) E) as (Hk & Hf & Hn & Hr).
  destruct r as [t|er].
  - pose proof (dev_ok_remap d g next t Hok Hf Hk (Hr t eq_refl)) as Hok'.
    destruct (mem d) as [old|]; cbn -[evalRings] in H, Hok'.
    all: match type of H with context [evalRings ?x] => pose proof (evalRings_ok x Hok') end.
    all: destruct (evalRings _) as [d1 fx1]; by simplify_eq.
  - simplify_eq. split; cbn.
    + apply Hok.
    + intros i v x Hv Hx. eapply view_in_ext; [|by eapply (dk_views _ Hok)]. apply Hk.
      apply (dk_fresh _ Hok). destruct (dk_views _ Hok _ _ _ Hv Hx) as (b & Hb & _). eauto.
    + intros t r Ht Hr'. destruct (dk_mem _ Hok t r Ht Hr') as (H1 & H2 & H3).
      split_and!; try done; try lia. eapply view_in_ext; [|exact H3]. apply Hk. rewrite H1. lia.
    + done.
    + apply Hok.
Qed.

Lemma uvaSlice_in d t uva size v :
  dev_ok d -> mem d = Some t -> uvaSlice t uva size = Ret (Ok v) -> view_in (gmem d) v.
Proof.
  intros Hok Hm. unfold uvaSlice. destruct (size =? 0); [done|].
  assert (Hin : forall r, r ∈ t -> view_in (gmem d) (mr_mapped r)).
  { intros r Hr. by destruct (dk_mem _ Hok _ _ Hm Hr) as (_ & _ & ?). }
  clear Hm. induction t as [|r t IH]; cbn [region_slice]; [done|].
  destruct (_ && _).
  - intros H. inv_bind H. simplify_eq. eapply view_in_slice; [done|]. apply Hin. by left.
  - apply IH. intros r' Hr'. apply Hin. by right.
Qed.

Lemma evalRing_set_ok d i v v' :
  dev_ok d -> rings d !! i = Some v ->
  (forall x, x ∈ ring_views v' -> x ∈ ring_views v \/ view_in (gmem d) x) ->
  (mem d = None -> ring_views v' = [] /\ started v' = false) ->
  dev_ok (evalRing (set_ring i v' d) i).1.
Proof. intros. apply evalRing_ok. by eapply dev_ok_set_ring. Qed.

Lemma ring_lookup d idx v : ring d idx = Some v -> rings d !! Z.to_nat idx = Some v.
Proof. unfold ring. by destruct (_ <=? _). Qed.

Lemma setVringAddr_ok m d d' fx fds reply e :
  dev_ok d -> setVringAddr m d = Ret (d', fx, fds, reply, e) -> dev_ok d'.
Proof.
  intros Hok H. unfold setVringAddr in H. inv_bind H. destruct x as [a|]; [|by simplify_eq].
  destruct (ring d (va_index a)) as [v|] eqn:Hv; [|by simplify_eq]. apply ring_lookup in Hv.
  destruct (mem d) as [t|] eqn:Hm; [|by simplify_eq]. destruct (num v =? 0); [by simplify_eq|].
  assert (Hset : forall v', (forall x, x ∈ ring_views v' -> x ∈ ring_views v \/ view_in (gmem d) x) ->
    dev_ok (set_ring (Z.to_nat (va_index a)) v' d)).
  { intros v' Hx. eapply dev_ok_set_ring; [done | done | done |]. by rewrite Hm. }
  assert (Hsl : forall uva size r, uvaSlice t uva size = Ret r -> forall x, x ∈ option_list (ok_view r) -> view_in (gmem d) x).
  { intros uva size [w|] Hr x Hx; cbn in Hx; [|by apply elem_of_nil in Hx].
    apply list_elem_of_singleton in Hx as ->. by eapply uvaSlice_in. }
  inv_bind H. pose proof (Hsl _ _ _ E0) as V0.
  assert (Hset0 := Hset (vset_desc (ok_view x) v)).
  destruct x as [w0|]; [|simplify_eq; apply Hset0; unfold ring_views; cbn; set_solver].
  inv_bind H. pose proof (Hsl _ _ _ E1) as V1. cbn [ok_view] in *.
  assert (Hset1 := Hset (vset_availRing (ok_view x) (vset_desc (Some w0) v))).
  destruct x as [w1|]; [|simplify_eq; apply Hset1; unfold ring_views; cbn in *; set_solver].
  inv_bind H. pose proof (Hsl _ _ _ E2) as V2. cbn [ok_view] in *.
  assert (Hset2 := Hset (vset_usedRing (ok_view x) (vset_availRing (Some w1) (vset_desc (Some w0) v)))).
  destruct x as [w2|]; [|simplify_eq; apply Hset2; unfold ring_views; cbn in *; set_solver].
  inv_bind H. destruct (evalRing _ _) as [d1 fx1] eqn:He. simplify_eq.
  replace d' with (d', fx).1 by done. rewrite <- He. apply evalRing_ok. apply Hset.
  unfold ring_views. cbn in *. set_solver.
Qed.

Lemma setVringFD_ok m isKick d d' fx fds reply e :
  dev_ok d -> setVringFD m isKick d = Ret (d', fx, fds, reply, e) -> dev_ok d'.
Proof.
  intros Hok H. unfold setVringFD in H. destruct (_ <? _); [by simplify_eq|]. inv_bind H.
  destruct (ring d _) as [v|] eqn:Hv; [|by simplify_eq]. apply ring_lookup in Hv.
  assert (Hgo : forall f, dev_ok (evalRing (set_ring (Z.to_nat (u32 (Z.land (le_get x) vringIdxMask)))
      (if isKick then vset_kick f (match kick v with Some _ => false | None => started v end) v
       else vset_call f v) d) (Z.to_nat (u32 (Z.land (le_get x) vringIdxMask)))).1).
  { intros f. apply evalRing_ok. eapply dev_ok_set_same; [done | done | by destruct isKick |].
    destruct isKick; cbn; [destruct (kick v); [done|]|]; by left. }
  destruct (_ =? 0).
  - destruct (m_fds m) as [|fd rest]; [by simplify_eq|]. specialize (Hgo (Some fd)).
    destruct isKick; destruct (evalRing _ _) as [d1 fx1]; by simplify_eq.
  - specialize (Hgo None). destruct isKick; destruct (evalRing _ _) as [d1 fx1]; by simplify_eq.
Qed.

Lemma with_state_ok m d k d' fx fds reply e :
  dev_ok d -> (forall idx n, dev_ok (k idx n).1.1.1) ->
  with_state m d k = Ret (d', fx, fds, reply, e) -> dev_ok d'.
Proof.
  intros Hok Hk H. unfold with_state in H. inv_bind H. destruct x as [[idx n]|]; [|by simplify_eq].
  specialize (Hk idx n). destruct (k idx n) as [[[d1 fx1] r1] e1]. by simplify_eq.
Qed.

Lemma dispatch_ok m d d' fx fds reply e :
  dev_ok d -> dispatch mmap pagesize m d = Ret (d', fx, fds, reply, e) -> dev_ok d'.
Proof.
  intros Hok H. unfold dispatch, pure_state in H.
  destruct (_ =? reqGetFeatures); [by simplify_eq|].
  destruct (_ =? reqSetFeatures).
  { destruct (_ <=? _); [|by simplify_eq]. inv_bind H. destruct (negb _); simplify_eq; [done|].
    split; apply Hok. }
  destruct (_ =? reqGetProtocolFeatures); [by simplify_eq|].
  destruct (_ =? reqSetProtocolFeatures).
  { destruct (_ <=? _); [|by simplify_eq]. inv_bind H. simplify_eq. split; apply Hok. }
  destruct (_ || _); [by simplify_eq|].
  destruct (_ =? reqResetOwner); [injection H as <- _ _ _ _; by apply (dev_ok_stopRings d)|].
  destruct (_ =? reqSetMemTable); [by eapply setMemTable_ok|].
  destruct (_ =? reqSetVringNum).
  { eapply with_state_ok; [done| |exact H]. intros idx n. cbv beta. destruct (ring d idx) as [v|] eqn:Hv; [|exact Hok].
    destruct (_ && _); [|done]. cbn. eapply dev_ok_set_same; [done | by apply ring_lookup | done | by left]. }
  destruct (_ =? reqSetVringBase).
  { eapply with_state_ok; [done| |exact H]. intros idx n. cbv beta. destruct (ring d idx) as [v|] eqn:Hv; [|exact Hok].
    cbn. eapply dev_ok_set_same; [done | by apply ring_lookup | done | by left]. }
  destruct (_ =? reqGetVringBase).
  { eapply with_state_ok; [done| |exact H]. intros idx n. cbv beta. destruct (ring d idx) as [v|] eqn:Hv; [|exact Hok].
    cbn. eapply dev_ok_set_ring; [done | by apply ring_lookup | by intros x ?%elem_of_nil | done]. }
  destruct (_ =? reqSetVringAddr); [by eapply setVringAddr_ok|].
  destruct (_ =? reqSetVringKick); [by eapply setVringFD_ok|].
  destruct (_ =? reqSetVringCall); [by eapply setVringFD_ok|].
  destruct (_ =? reqSetVringEnable); [|by simplify_eq].
  eapply with_state_ok; [done| |exact H]. intros idx n. cbv beta. destruct (ring d idx) as [v|] eqn:Hv; [|exact Hok].
  apply ring_lookup in Hv. destruct (n =? 0).
  - cbn. eapply dev_ok_set_same; [done | done | done | done].
  - pose proof (evalRing_ok (set_ring (Z.to_nat idx) (vset_enabled true (started v) v) d) (Z.to_nat idx)) as He.
    destruct (evalRing _ _) as [d1 fx1]. cbn in *. apply He.
    eapply dev_ok_set_same; [done | done | done | by left].
Qed.

Lemma handle_ok werr m d d' fx e :
  dev_ok d -> handle mmap pagesize werr m d = Ret (d', fx, e) -> dev_ok d'.
Proof.
  intros Hok H. unfold handle in H. inv_bind H. destruct x as [[[[d1 fx1] fds] reply] e1].
  apply dispatch_ok in E; [|done]. destruct reply; [by simplify_eq|].
  destruct (_ && _); by simplify_eq.
Qed.
End mapping.

(** * Dataplane and teardown *)

Lemma ring_base_views v v' : ring_base v' = ring_base v -> ring_views v' = ring_views v /\ started v' = started v.
Proof. destruct v, v'. unfold ring_base, ring_views. cbn. intros [= -> -> -> -> _ _ _ -> _]. done. Qed.

Lemma dev_ok_dataplane d i v v' st :
  dev_ok d -> rings d !! i = Some v -> same_shape (gmem d) st -> ring_base v' = ring_base v ->
  dev_ok (set_ring i v' (with_gmem st d)).
Proof.
  intros Hok Hv Hs [E1 E2]%ring_base_views.
  eapply dev_ok_set_same; [by apply dev_ok_shape | done | done |]. rewrite E2. by left.
Qed.

Lemma pumpRound_ok fuel d d' frames fx :
  dev_ok d -> pumpRound fuel d = Some (Ret (d', frames, fx)) -> dev_ok d'.
Proof.
  intros Hok. unfold pumpRound. destruct (rings d !! txQueue) as [v|] eqn:Hv; [|by intros; simplify_eq].
  destruct (mem d) as [t|]; [|by intros; simplify_eq]. destruct (started v); [|by intros; simplify_eq].
  destruct (drainTX _ _ _ _) as [[[[[st v'] fr] fx']|]|] eqn:E; try done. intros [= <- _ _].
  apply drainTX_spec in E as [Hs Hb]. by eapply dev_ok_dataplane.
Qed.

Lemma WriteFrame_ok fuel frame d d' fx ok :
  dev_ok d -> WriteFrame fuel frame d = Some (Ret (d', fx, ok)) -> dev_ok d'.
Proof.
  intros Hok. unfold WriteFrame. destruct (_ <? _); [by intros; simplify_eq|].
  destruct (rings d !! rxQueue) as [v|] eqn:Hv; [|by intros; simplify_eq].
  destruct (mem d) as [t|]; [|by intros; simplify_eq]. destruct (negb _); [by intros; simplify_eq|].
  destruct (writeLoop _ _ _ _ _ _) as [[e|]|] eqn:E; [|done|done]. rewrite bind_Ret. intros [= H].
  inv_bind H. destruct x as [[[st v'] fx'] ok']. injection H as <- _ _.
  apply writeLoop_spec in E as [Hs1 Hb1]. apply finishWrite_spec in E0 as [Hs2 Hb2]. cbn in Hs1.
  eapply dev_ok_dataplane; [done | done | by etransitivity | congruence].
Qed.

Lemma pumpExit_ok d : dev_ok d -> dev_ok (pumpExit d).1.
Proof.
  intros Hok. unfold pumpExit. destruct (rings d !! txQueue) as [v|] eqn:Hv; [|done].
  destruct (started v) eqn:Hs, (kick v); cbn;
    (eapply dev_ok_set_same; [done | done | done | cbn; intros Hx; by left]).
Qed.

Lemma dev_Close_ok d : dev_ok d -> dev_ok (dev_Close d).1.
Proof.
  intros Hok. unfold dev_Close. destruct (dclosed d); [done|]. cbn.
  assert (Hsub : (match mem d with Some t => memTable_close t (gmem d) | None => gmem d end) ⊆ gmem d).
  { destruct (mem d); [apply memTable_close_sub | done]. }
  split; cbn; try done.
  - rewrite length_fmap. apply Hok.
  - intros i v x (v0 & _ & ->)%(stopRings_lookup d) Hx. by apply elem_of_nil in Hx.
  - intros k [y Hy]. apply (dk_fresh _ Hok). eapply lookup_weaken in Hy; [|exact Hsub]. eauto.
  - by intros _ i v (v0 & _ & ->)%(stopRings_lookup d).
Qed.
