(* ===== verification/VhostProps.v ===== *)
(** Theorems about the vhost-user device: memory safety in every reachable
    state, and three ways to bring the process down or hang it. *)
From S2P Require Import Prelude VhostMem VhostDev VhostFacts.

(** * Runs of a device *)

Section runs.
Context (mmap : nat -> Z -> Z -> result (list Z)) (pagesize : Z).

(** What can happen to a device: a message of the front end, a round or the end
    of the transmit pump, a frame from the switch, teardown, and the guest
    writing to its memory. *)
Inductive dev_step (d : NetDevice) : list vfx -> NetDevice -> Prop :=
  | ds_handle werr m d' fx e :
      handle mmap pagesize werr m d = Ret (d', fx, e) -> dev_step d fx d'
  | ds_pump fuel d' frames fx :
      pumpRound fuel d = Some (Ret (d', frames, fx)) -> dev_step d fx d'
  | ds_exit : dev_step d (pumpExit d).2 (pumpExit d).1
  | ds_write fuel frame d' fx ok :
      WriteFrame fuel frame d = Some (Ret (d', fx, ok)) -> dev_step d fx d'
  | ds_close : dev_step d (dev_Close d).2 (dev_Close d).1
  | ds_guest st : same_shape (gmem d) st -> dev_step d [] (with_gmem st d).

Inductive dev_reachable : NetDevice -> Prop :=
  | dr_new ap : dev_reachable (NewNetDevice ap)
  | dr_step d fx d' : dev_reachable d -> dev_step d fx d' -> dev_reachable d'.

Lemma dev_reachable_ok d : dev_reachable d -> dev_ok d.
Proof.
  induction 1 as [ap|d fx d' _ Hok H]; [apply dev_ok_New|].
  destruct H; [by eapply handle_ok | by eapply pumpRound_ok | by apply pumpExit_ok
    | by eapply WriteFrame_ok | by apply dev_Close_ok | by apply dev_ok_shape].
Qed.

(** Every range the translation functions return is inside a mapped region. *)
Lemma region_slice_in d t base a size v :
  dev_ok d -> mem d = Some t -> region_slice base a size t = Some (Ret v) -> view_in (gmem d) v.
Proof.
  intros Hok Hm.
  assert (Hin : forall r, r ∈ t -> view_in (gmem d) (mr_mapped r)).
  { intros r Hr. by destruct (dk_mem _ Hok _ _ Hm Hr) as (_ & _ & ?). }
  clear Hm. induction t as [|r t IH]; cbn [region_slice]; [done|]. destruct (_ && _).
  - intros [= H]. eapply view_in_slice; [done|]. apply Hin. by left.
  - apply IH. intros r' Hr'. apply Hin. by right.
Qed.

Lemma gpaSlice_in d t gpa size v :
  dev_ok d -> mem d = Some t -> gpaSlice t gpa size = Ret (Ok v) -> view_in (gmem d) v.
Proof.
  intros Hok Hm. unfold gpaSlice. destruct (size =? 0); [done|].
  destruct (region_slice _ _ _ _) as [rv|] eqn:E; [|done]. intros H. inv_bind H. simplify_eq.
  by eapply region_slice_in.
Qed.

Lemma walkChain_in d t v n : forall c idx c',
  dev_ok d -> mem d = Some t ->
  (forall x, x ∈ readable c ++ writable c -> view_in (gmem d) x) ->
  walkChain n (gmem d) v t c idx = Ret (Ok c') ->
  (forall x, x ∈ readable c' ++ writable c' -> view_in (gmem d) x) /\
  (length (readable c' ++ writable c') <= length (readable c ++ writable c) + n)%nat.
Proof.
  induction n as [|n IH]; intros c idx c' Hok Hm Hc H; cbn [walkChain] in H; [done|].
  inv_bind H. destruct x as [de|]; [|done]. destruct (has _ descFlagIndirect); [done|].
  inv_bind H. destruct x as [seg|]; [|done].
  assert (Hseg : view_in (gmem d) seg) by by eapply gpaSlice_in.
  assert (Hnext : forall c1, (forall x, x ∈ readable c1 ++ writable c1 -> view_in (gmem d) x) ->
    (length (readable c1 ++ writable c1) = S (length (readable c ++ writable c)))%nat ->
    (if has (d_flags de) descFlagNext then walkChain n (gmem d) v t c1 (d_next de) else Ret (Ok c1)) = Ret (Ok c') ->
    (forall x, x ∈ readable c' ++ writable c' -> view_in (gmem d) x) /\
    (length (readable c' ++ writable c') <= length (readable c ++ writable c) + S n)%nat).
  { intros c1 Hc1 Hl H1. destruct (has (d_flags de) descFlagNext).
    - destruct (IH c1 _ c' Hok Hm Hc1 H1). split; [done | lia].
    - simplify_eq. split; [done | lia]. }
  destruct (has _ descFlagWrite).
  - eapply Hnext; [| |exact H]; cbn.
    + intros x. rewrite !elem_of_app, list_elem_of_singleton. intros [|[| ->]]; [| |done];
        apply Hc; rewrite elem_of_app; auto.
    + rewrite !length_app. cbn. lia.
  - destruct (_ <? _)%nat; [done|]. eapply Hnext; [| |exact H]; cbn.
    + intros x. rewrite !elem_of_app, list_elem_of_singleton. intros [[| ->]|]; [|done|];
        apply Hc; rewrite elem_of_app; auto.
    + rewrite !length_app. cbn. lia.
Qed.

Lemma resolveChain_walk st v t head :
  resolveChain st v t head = walkChain maxChainLen st v t (mkChain head [] []) head.
Proof. reflexivity. Qed.

(** C15: memory safety of the device.  Whatever sequence of front-end messages,
    guest writes, transmitted and received frames and remappings led here: every
    ring slice the device keeps lies inside memory that is mapped now, and so
    does every segment of every descriptor chain it resolves, of which there
    are at most 256 per chain. *)
Theorem device_memory_safe d :
  dev_reachable d ->
  (forall i v x, rings d !! i = Some v -> x ∈ ring_views v -> view_in (gmem d) x) /\
  (forall t v head c, mem d = Some t -> resolveChain (gmem d) v t head = Ret (Ok c) ->
     (forall x, x ∈ readable c ++ writable c -> view_in (gmem d) x) /\
     (length (readable c ++ writable c) <= maxChainLen)%nat).
Proof.
  intros Hok%dev_reachable_ok. split; [apply Hok|]. intros t v head c Hm H.
  rewrite resolveChain_walk in H.
  apply (walkChain_in d t v maxChainLen (mkChain head [] []) head c);
    [exact Hok | exact Hm | by intros x ?%elem_of_nil | exact H].
Qed.
End runs.

(** * A demonstration device *)

(** mmap of zeroed files of at most one page. *)
Definition demo_mmap (fd : nat) (off n : Z) : result (list Z) :=
  if (0 <? n) && (n <=? 4096) then Ok (make_bytes (Z.to_nat n)) else Err (Errorf "EINVAL" []).

Definition demo_reachable_dev : NetDevice -> Prop := dev_reachable demo_mmap 4096.

(** Messages processed one after the other. *)
Definition receive (d : NetDevice) (m : message) : NetDevice :=
  match handle demo_mmap 4096 None m d with Ret (d', _, _) => d' | Panic => d end.

Lemma receive_reachable d m : demo_reachable_dev d -> demo_reachable_dev (receive d m).
Proof.
  intros Hd. unfold receive. destruct (handle _ _ _ _ _) as [[[d' fx] e]|] eqn:E; [|done].
  eapply dr_step; [done | by eapply ds_handle].
Qed.

Lemma receive_all_reachable ms : forall d, demo_reachable_dev d -> demo_reachable_dev (foldl receive d ms).
Proof. induction ms as [|m ms IH]; intros d Hd; cbn [foldl]; [done|]. by apply IH, receive_reachable. Qed.

(** The guest replacing the contents of a mapping. *)
Definition poke (k : nat) (b : bytes) (d : NetDevice) : NetDevice :=
  with_gmem (<[k := b]> (gmem d)) d.

Lemma poke_reachable k b b0 d :
  demo_reachable_dev d -> gmem d !! k = Some b0 -> length b = length b0 -> demo_reachable_dev (poke k b d).
Proof.
  intros Hd Hk Hl. eapply dr_step; [done|]. apply ds_guest. intros j. rewrite lookup_insert.
  case_decide; [subst|done]. rewrite Hk. cbn. by rewrite Hl.
Qed.

(** 256 bytes of guest memory at guest-physical address 0. *)
Definition msg (req : Z) (payload : bytes) (fds : list nat) : message := mkMsg req 1 payload fds.
Definition setMem : message :=
  msg reqSetMemTable (le_put 4 1 ++ le_put 4 0 ++ le_put 8 0 ++ le_put 8 256 ++ le_put 8 65536 ++ le_put 8 0) [3%nat].
(** Transmit ring of [n] entries with its three parts at the given offsets. *)
Definition setNum (n : Z) : message := msg reqSetVringNum (le_put 4 1 ++ le_put 4 n) [].
Definition setAddr (de us av : Z) : message :=
  msg reqSetVringAddr (le_put 4 1 ++ le_put 4 0 ++ le_put 8 (65536 + de) ++ le_put 8 (65536 + us) ++
    le_put 8 (65536 + av) ++ le_put 8 0) [].
Definition setKick : message := msg reqSetVringKick (le_put 8 1) [4%nat].

(** A ring with one entry: descriptors at 0, avail at 16, used at 24. *)
Definition live : NetDevice :=
  foldl receive (NewNetDevice false) [setMem; setNum 1; setAddr 0 24 16; setKick].

Lemma live_reachable : demo_reachable_dev live.
Proof. apply receive_all_reachable. constructor. Qed.

Lemma device_memory_safe_witness :
  (forall i v x, rings live !! i = Some v -> x ∈ ring_views v -> view_in (gmem live) x) /\
  (forall t v head c, mem live = Some t -> resolveChain (gmem live) v t head = Ret (Ok c) ->
     (forall x, x ∈ readable c ++ writable c -> view_in (gmem live) x) /\
     (length (readable c ++ writable c) <= maxChainLen)%nat).
Proof. exact (device_memory_safe demo_mmap 4096 live live_reachable). Defined.

(** * Ways to bring the process down *)

(** The guest can crash the switch.  With guest memory mapped at
    guest-physical address 0, a single transmit descriptor with an address just
    below 2^64 passes the range check, whose sum wraps around, and the slice
    expression behind it panics: the process dies on the next kick. *)
Theorem guest_descriptor_crashes :
  exists d, demo_reachable_dev d /\ pumpRound 2 d = Some Panic.
Proof.
  exists (poke 0 (le_put 8 (2 ^ 64 - 1) ++ le_put 4 2 ++ le_put 4 0 ++
    [0; 0; 1; 0] ++ make_bytes 236) live).
  split; [|vm_compute; reflexivity].
  apply (poke_reachable 0 _ (make_bytes 256)); [apply live_reachable | vm_compute; reflexivity..].
Qed.

(** Growing a live ring crashes the switch.  SET_VRING_NUM is accepted for
    a ring whose slices were cut for fewer entries; the next transmit chain
    whose head is beyond them makes the descriptor read panic. *)
Theorem resized_ring_crashes :
  exists d, demo_reachable_dev d /\ pumpRound 2 (receive d (setNum 2)) = Some Panic /\
    pumpRound 2 d <> Some Panic.
Proof.
  exists (poke 0 (make_bytes 16 ++ [0; 0; 1; 0; 1; 0] ++ make_bytes 234) live).
  split_and!; [|vm_compute; reflexivity | vm_compute; discriminate].
  apply (poke_reachable 0 _ (make_bytes 256)); [apply live_reachable | vm_compute; reflexivity..].
Qed.

(** ** Overlapping rings *)

(** Guest memory with one descriptor (all zero) and, at offset 16, a word that
    serves as head of both rings. *)
Definition shared_word (x : Z) : bytes := make_bytes 16 ++ le_put 4 x ++ make_bytes 236.

(** The transmit ring laid over it: avail and used ring are the same bytes. *)
Definition overlapped (la us : Z) : vring :=
  mkVring 1 (Some (mkView 0 0 16)) (Some (mkView 0 16 8)) (Some (mkView 0 16 14)) la us
    (Some 4%nat) None false true true.

Definition one_region : memTable := [mkRegion 0 256 65536 (mkView 0 0 256) 0].

Lemma vread_one b off l : vread {[0%nat := b]} (mkView 0 off l) = slice b off (off + l).
Proof. unfold vread. cbn [vw_map vw_off vw_len]. by rewrite lookup_singleton_eq. Qed.

Lemma vwrite_one b off l d :
  0 <= off -> 0 <= l -> off + l <= len b ->
  vwrite {[0%nat := b]} (mkView 0 off l) d =
  Ret {[0%nat := copy_at b (Z.to_nat off) (take (Z.to_nat l) d)]}.
Proof.
  intros. unfold vwrite. cbn [vw_map vw_off vw_len]. rewrite lookup_singleton_eq.
  rewrite (proj2 (Z.leb_le 0 off)), (proj2 (Z.leb_le 0 l)), (proj2 (Z.leb_le (off + l) (len b))) by lia.
  cbn [andb]. by rewrite insert_singleton_eq.
Qed.

(** A chain whose descriptor has no valid segment. *)
Lemma walkChain_bad_segment n st v t c idx de e :
  descAt st v idx = Ret (Ok de) -> has (d_flags de) descFlagIndirect = false ->
  gpaSlice t (d_addr de) (d_len de) = Ret (Err e) ->
  walkChain (S n) st v t c idx = Ret (Err e).
Proof. intros Hd Hi Hg. cbn [walkChain]. by rewrite Hd, bind_Ret, Hi, Hg, bind_Ret. Qed.

(** The steps of one iteration on the overlapping rings. *)
Section overlapped.
Context (la us : Z) (Hus : 0 <= us < 65536).
Let st : store := {[0%nat := shared_word (Z.shiftl us 16)]}.

Lemma overlapped_availIdx la' : availIdx st (overlapped la' us) = Ret us.
Proof using Hus.
  unfold availIdx, atomicLoadU32. cbn [nonnil avail overlapped]. rewrite bind_Ret.
  change (vslice (mkView 0 16 8) 0 4) with (Ret (mkView 0 16 4)). rewrite bind_Ret. unfold st. rewrite vread_one.
  change (slice (shared_word (Z.shiftl us 16)) 16 (16 + 4)) with (Ret (le_put 4 (Z.shiftl us 16))).
  rewrite !bind_Ret, le_get_put, Z.shiftl_mul_pow2 by lia. change (256 ^ Z.of_nat 4) with (2 ^ 32).
  rewrite Z.mod_small, Z.shiftr_div_pow2 by lia. change (2 ^ 16) with 65536.
  rewrite Z.div_mul by lia. unfold u16. by rewrite Z.mod_small.
Qed.

Lemma overlapped_availEntry la' i : availEntry st (overlapped la' us) i = Ret 0.
Proof.
  unfold availEntry, umod. cbn [num overlapped Z.eqb]. rewrite bind_Ret, Z.mod_1_r.
  cbn [nonnil avail overlapped]. rewrite bind_Ret.
  change (vslice (mkView 0 16 8) (u32 (4 + 2 * 0)) (vw_len (mkView 0 16 8))) with (Ret (mkView 0 20 4)).
  rewrite bind_Ret. change (vslice (mkView 0 20 4) 0 2) with (Ret (mkView 0 20 2)).
  rewrite bind_Ret. unfold st. by rewrite vread_one.
Qed.

Lemma overlapped_chain la' :
  resolveChain st (overlapped la' us) one_region 0 = Ret (Err (Errorf "zero-length gpa range" [])).
Proof.
  rewrite resolveChain_walk. change maxChainLen with (S 255).
  apply (walkChain_bad_segment 255 st (overlapped la' us) one_region _ 0 (mkDesc 0 0 0 0)); [|done|done].
  unfold descAt. cbn [num desc overlapped nonnil Z.leb Z.compare]. rewrite bind_Ret.
  change (vslice (mkView 0 0 16) (u32 (0 * descSize)) (u32 (u32 (0 * descSize) + descSize)))
    with (Ret (mkView 0 0 16)).
  rewrite bind_Ret. unfold st. rewrite vread_one. reflexivity.
Qed.

Lemma overlapped_setUsedElem la' : setUsedElem st (overlapped la' us) 0 0 0 = Ret st.
Proof.
  unfold setUsedElem, umod. cbn [num overlapped Z.eqb]. rewrite bind_Ret, Z.mod_1_r.
  cbn [nonnil used overlapped]. rewrite bind_Ret.
  change (vslice (mkView 0 16 14) (u32 (4 + 8 * 0)) (vw_len (mkView 0 16 14))) with (Ret (mkView 0 20 10)).
  rewrite bind_Ret. change (vslice (mkView 0 20 10) 0 4) with (Ret (mkView 0 20 4)). rewrite bind_Ret.
  unfold st. rewrite vwrite_one, bind_Ret by (unfold shared_word; lens).
  change (vslice (mkView 0 16 14) (u32 (u32 (4 + 8 * 0) + 4)) (vw_len (mkView 0 16 14))) with (Ret (mkView 0 24 6)).
  rewrite bind_Ret. change (vslice (mkView 0 24 6) 0 4) with (Ret (mkView 0 24 4)). rewrite bind_Ret.
  set (b := copy_at _ _ _). change b with (shared_word (Z.shiftl us 16)).
  rewrite vwrite_one by (unfold shared_word; lens). reflexivity.
Qed.

Lemma overlapped_publish la' :
  publishUsed st (overlapped la' us) 1 =
  Ret ({[0%nat := shared_word (Z.shiftl (u16 (us + 1)) 16)]}, overlapped la' (u16 (us + 1))).
Proof.
  unfold publishUsed, atomicStoreU32. change (used (vset_used _ _)) with (Some (mkView 0 16 14)).
  cbn [nonnil]. rewrite bind_Ret. change (vslice (mkView 0 16 14) 0 4) with (Ret (mkView 0 16 4)).
  rewrite bind_Ret. unfold st. rewrite vwrite_one, bind_Ret by (unfold shared_word; lens).
  cbn [usedIdx vset_used overlapped].
  assert (E : u32 (Z.shiftl (u16 (us + 1)) 16) = Z.shiftl (u16 (us + 1)) 16).
  { unfold u32, u16. rewrite Z.shiftl_mul_pow2 by lia. apply Z.mod_small.
    pose proof (Z.mod_pos_bound (us + 1) (2 ^ 16)). lia. }
  rewrite E. reflexivity.
Qed.

Lemma overlapped_step fuel frames c :
  la <> us ->
  drainLoop (S fuel) one_region st (overlapped la us) frames c =
  drainLoop fuel one_region {[0%nat := shared_word (Z.shiftl (u16 (us + 1)) 16)]}
    (overlapped (u16 (la + 1)) (u16 (us + 1))) frames (c + 1).
Proof using Hus.
  intros Hne. cbn [drainLoop]. unfold popAvail. rewrite overlapped_availIdx, bind_Ret.
  cbn [lastAvail overlapped]. rewrite (proj2 (Z.eqb_neq la us) Hne), overlapped_availEntry, bind_Ret.
  change (vset_avail (u16 (la + 1)) (overlapped la us)) with (overlapped (u16 (la + 1)) us).
  by rewrite overlapped_chain, !bind_Ret, overlapped_setUsedElem, bind_Ret, overlapped_publish, bind_Ret.
Qed.
End overlapped.

(** The cursors never meet when they start apart. *)
Lemma overlapped_diverges fuel : forall la us frames c,
  0 <= la < 65536 -> 0 <= us < 65536 -> la <> us ->
  drainLoop fuel one_region {[0%nat := shared_word (Z.shiftl us 16)]} (overlapped la us) frames c = None.
Proof.
  induction fuel as [|fuel IH]; intros la us frames c Hla Hus Hne; [done|].
  rewrite overlapped_step by done. unfold u16. apply IH; [apply Z.mod_pos_bound; lia..|].
  change (2 ^ 16) with 65536. intros E.
  assert (H : (la - us) mod 65536 = 0).
  { replace (la - us) with ((la + 1) - (us + 1)) by lia. rewrite Zminus_mod, E, Z.sub_diag. done. }
  apply Z.mod_divide in H; [|lia]. destruct H as [k Hk]. nia.
Qed.

(** The front end lays the used ring over the avail ring, with a nonzero index
    there. *)
Definition overlapping : NetDevice :=
  foldl receive (poke 0 (shared_word (Z.shiftl 5 16)) (receive (NewNetDevice false) setMem))
    [setNum 1; setAddr 0 16 16; setKick].

Lemma overlapping_reachable : demo_reachable_dev overlapping.
Proof.
  apply receive_all_reachable.
  apply (poke_reachable 0 _ (make_bytes 256)); [|vm_compute; reflexivity..].
  apply receive_reachable. constructor.
Qed.

(** Overlapping rings hang the switch.  When the used ring lies on the
    avail ring, publishing a buffer makes another one available: the drain loop
    runs forever with the device lock held, for any amount of fuel. *)
Theorem overlapping_rings_hang :
  exists d, demo_reachable_dev d /\ forall fuel, pumpRound fuel d = None.
Proof.
  exists overlapping. split; [apply overlapping_reachable|]. intros fuel.
  unfold pumpRound.
  replace (rings overlapping !! txQueue) with (Some (overlapped 0 5)) by (vm_compute; reflexivity).
  replace (mem overlapping) with (Some one_region) by (vm_compute; reflexivity).
  replace (gmem overlapping) with ({[0%nat := shared_word (Z.shiftl 5 16)]} : store) by (vm_compute; reflexivity).
  cbn [started overlapped]. unfold drainTX. by rewrite overlapped_diverges by lia.
Qed.
