(* ===== verification/VhostDrain.v ===== *)
(** The transmit path of the vhost-user device on well-formed rings: draining
    ends, panics nowhere, and hands every buffer back. *)
From S2P Require Import Prelude VhostMem VhostDev VhostFacts VhostProps.

(** * Writes and disjoint reads *)

Definition disjoint_views (v w : view) : Prop :=
  vw_map v <> vw_map w \/ vw_off v + vw_len v <= vw_off w \/ vw_off w + vw_len w <= vw_off v.

Lemma copy_at_outside dst off src lo n :
  (off + length src <= length dst)%nat -> (lo + n <= off \/ off + length src <= lo)%nat ->
  take n (drop lo (copy_at dst off src)) = take n (drop lo dst).
Proof.
  intros Hfit Hd. rewrite copy_at_fits by done. destruct Hd as [Hd|Hd].
  - rewrite drop_app_le, take_app_le by (rewrite ?length_drop, length_take; lia).
    rewrite skipn_firstn_comm, take_take. f_equal. lia.
  - rewrite app_assoc, drop_app_ge by (rewrite length_app, length_take; lia).
    rewrite drop_drop. do 2 f_equal. rewrite length_app, length_take. lia.
Qed.

Lemma vread_disjoint (st st' : store) v w d :
  vwrite st v d = Ret st' -> disjoint_views v w -> 0 <= vw_off w -> 0 <= vw_len w ->
  vread st' w = vread st w.
Proof.
  unfold vwrite. destruct (st !! vw_map v) as [b|] eqn:Hb; [|done].
  destruct (_ && _) eqn:E; [|done]. intros [= <-] Hd Ho Hl. bool_prop. unfold vread.
  rewrite lookup_insert. case_decide as Hm; [|done]. rewrite <- Hm, Hb.
  unfold slice, len in *. rewrite length_copy_at by lia.
  destruct ((0 <=? vw_off w) && _ && _); [|done]. f_equal.
  apply copy_at_outside; rewrite length_take; [lia|].
  destruct Hd as [Hd|Hd]; [congruence | lia].
Qed.

(** Memory holds bytes. *)
Definition store_bytes (st : store) : Prop := forall k b, st !! k = Some b -> bytes_ok b.

Lemma store_bytes_write st v d st' :
  vwrite st v d = Ret st' -> bytes_ok d -> store_bytes st -> store_bytes st'.
Proof.
  unfold vwrite. destruct (st !! vw_map v) as [b|] eqn:Hb; [|done].
  destruct (_ && _); [|done]. intros [= <-] Hd Hst k x. rewrite lookup_insert. case_decide; [|apply Hst].
  intros [= <-]. unfold copy_at. rewrite !bytes_ok_app. pose proof (Hst _ _ Hb). auto with vsw.
Qed.

Lemma vread_ok st v : view_in st v -> exists d, vread st v = Ret d /\ len d = vw_len v.
Proof.
  intros (b & Hb & ? & ? & ?). unfold vread. rewrite Hb, slice_ret by lia.
  eexists. split; [done|]. unfold len in *. rewrite length_take, length_drop. lia.
Qed.

Lemma vread_bytes st v d : store_bytes st -> vread st v = Ret d -> bytes_ok d.
Proof.
  intros Hst. unfold vread. destruct (st !! vw_map v) as [b|] eqn:Hb; [|done].
  intros (_ & _ & _ & ->)%slice_inv. pose proof (Hst _ _ Hb). auto with vsw.
Qed.

Lemma vwrite_ok st v d : view_in st v -> exists st', vwrite st v d = Ret st'.
Proof.
  intros (b & Hb & ? & ? & ?). unfold vwrite. rewrite Hb.
  rewrite (proj2 (Z.leb_le 0 (vw_off v))), (proj2 (Z.leb_le 0 (vw_len v))),
    (proj2 (Z.leb_le (vw_off v + vw_len v) (len b))) by lia. by eexists.
Qed.

Lemma vslice_ret v lo hi :
  0 <= lo -> lo <= hi -> hi <= vw_len v ->
  vslice v lo hi = Ret (mkView (vw_map v) (vw_off v + lo) (hi - lo)).
Proof.
  intros. unfold vslice.
  by rewrite (proj2 (Z.leb_le 0 lo)), (proj2 (Z.leb_le lo hi)), (proj2 (Z.leb_le hi (vw_len v))) by lia.
Qed.

Lemma vread_written (st st' : store) v d :
  vwrite st v d = Ret st' -> len d = vw_len v -> vread st' v = Ret d.
Proof.
  unfold vwrite. destruct (st !! vw_map v) as [b|] eqn:Hb; [|done].
  destruct (_ && _) eqn:E; [|done]. intros [= <-] Hl. bool_prop. unfold vread, len in *.
  rewrite lookup_insert_eq, (take_ge d) by lia. rewrite copy_at_fits by lia.
  rewrite slice_ret by (unfold len; rewrite ?length_app, ?length_take, ?length_drop; lia).
  f_equal. rewrite drop_app_length' by (rewrite length_take; lia). apply take_app_length'. lia.
Qed.

(** * Well-formed rings and tables *)

Record ring_sized (st : store) (v : vring) (vd va vu : view) : Prop := {
  rz_desc : desc v = Some vd;
  rz_avail : avail v = Some va;
  rz_used : used v = Some vu;
  rz_in_desc : view_in st vd;
  rz_in_avail : view_in st va;
  rz_in_used : view_in st vu;
  rz_num : 0 < num v <= 32768;
  rz_len_desc : num v * 16 <= vw_len vd;
  rz_len_avail : 4 + 2 * num v <= vw_len va;
  rz_len_used : 4 + 8 * num v <= vw_len vu;
  rz_cursor : 0 <= lastAvail v < 65536 /\ 0 <= usedIdx v < 65536
}.

(** Every region of the table is mapped whole. *)
Definition whole_table (st : store) (t : memTable) : Prop :=
  forall r, r ∈ t -> 0 <= mr_gpa r /\ vw_len (mr_mapped r) = mr_size r /\ view_in st (mr_mapped r).

(** No descriptor's range passes the end of the 64-bit address space. *)
Definition no_wrap (st : store) (v : vring) : Prop :=
  forall i d, 0 <= i -> descAt st v i = Ret (Ok d) -> d_addr d + d_len d < 2 ^ 64.

Lemma u64_small z : 0 <= z < 2 ^ 64 -> u64 z = z.
Proof. apply Z.mod_small. Qed.
Lemma u32_small z : 0 <= z < 2 ^ 32 -> u32 z = z.
Proof. apply Z.mod_small. Qed.
Lemma u16_small z : 0 <= z < 65536 -> u16 z = z.
Proof. apply Z.mod_small. Qed.
Lemma u16_range z : 0 <= u16 z < 65536.
Proof. apply Z.mod_pos_bound. lia. Qed.

(** A segment that can be read or filled. *)
Definition usable (st : store) (s : view) : Prop := view_in st s /\ 0 < vw_len s.

Lemma gpaSlice_total st t gpa size :
  whole_table st t -> 0 <= gpa -> 0 <= size -> gpa + size < 2 ^ 64 ->
  exists r, gpaSlice t gpa size = Ret r /\
    forall v, r = Ok v -> usable st v.
Proof.
  intros Ht Hg Hs Hw. unfold gpaSlice. destruct (Z.eqb_spec size 0); [by eexists|].
  induction t as [|r t IH]; cbn [region_slice]; [by eexists|].
  destruct (Ht r) as (H1 & H2 & H4); [by left|].
  destruct (Z.leb_spec (mr_gpa r) gpa); cbn [andb];
    [|apply IH; intros r' Hr'; apply Ht; by right].
  rewrite (u64_small (gpa - mr_gpa r)), u64_small by lia.
  destruct (Z.leb_spec (gpa - mr_gpa r + size) (mr_size r));
    [|apply IH; intros r' Hr'; apply Ht; by right].
  rewrite vslice_ret, bind_Ret by lia. eexists. split; [done|].
  intros v [= <-]. split; [|cbn; lia]. eapply view_in_slice; [|exact H4]. apply vslice_ret; lia.
Qed.

Lemma le_get_range d n : bytes_ok d -> (length d <= n)%nat -> 0 <= le_get d < 256 ^ Z.of_nat n.
Proof.
  intros Hd Hn. pose proof (le_get_bound d Hd) as [H1 H2]. split; [done|].
  eapply Z.lt_le_trans; [done|]. apply Z.pow_le_mono_r; lia.
Qed.

Section ring.
Context (st : store) (v : vring) (vd va vu : view) (t : memTable).
Context (Hb : store_bytes st) (Hr : ring_sized st v vd va vu) (Ht : whole_table st t)
  (Hw : no_wrap st v).

Lemma descAt_total i :
  0 <= i ->
  exists r, descAt st v i = Ret r /\ forall d, r = Ok d ->
    0 <= d_addr d < 2 ^ 64 /\ 0 <= d_len d < 2 ^ 32 /\ 0 <= d_next d.
Proof using Hb Hr.
  intros Hi. destruct Hr. unfold descAt, descSize. destruct (Z.leb_spec (num v) i); [by eexists|].
  rewrite rz_desc0. cbn [nonnil]. rewrite bind_Ret, !u32_small by (rewrite ?u32_small; lia).
  rewrite (vslice_ret vd), bind_Ret by lia.
  destruct (vread_ok st (mkView (vw_map vd) (vw_off vd + i * 16) (i * 16 + 16 - i * 16))) as (d & Hd & Hl).
  { eapply view_in_slice; [|exact rz_in_desc0]. apply vslice_ret; lia. }
  rewrite Hd, bind_Ret. eexists. split; [done|]. intros x [= <-]. cbn [d_addr d_len d_next].
  pose proof (vread_bytes _ _ _ Hb Hd) as Hdb.
  split_and!; apply (le_get_range _ 8) || apply (le_get_range _ 4) || apply (le_get_range _ 2); auto with vsw;
    rewrite ?length_take, ?length_drop; lia.
Qed.

Lemma walkChain_total n : forall c idx,
  0 <= idx -> Forall (usable st) (readable c) -> Forall (usable st) (writable c) ->
  exists r, walkChain n st v t c idx = Ret r /\
    forall c', r = Ok c' -> Forall (usable st) (readable c') /\ Forall (usable st) (writable c').
Proof using Hb Hr Ht Hw.
  induction n as [|n IH]; intros c idx Hi Hc1 Hc2; cbn [walkChain]; [by eexists|].
  destruct (descAt_total idx Hi) as (r & Er & Hd). rewrite Er. rewrite bind_Ret.
  destruct r as [d|e]; [|by eexists]. pose proof (Hw idx d Hi Er) as Hwd. destruct (Hd d eq_refl) as (Ha & Hl & Hn).
  destruct (has _ descFlagIndirect); [by eexists|].
  destruct (gpaSlice_total st t (d_addr d) (d_len d) Ht) as (rs & -> & Hs); [lia | lia | exact Hwd|]. rewrite bind_Ret.
  destruct rs as [seg|e]; [|by eexists]. specialize (Hs seg eq_refl).
  assert (Happ : forall l, Forall (usable st) l -> Forall (usable st) (l ++ [seg]))
    by (intros l ?; apply Forall_app; split; [done | by apply Forall_singleton]).
  destruct (has _ descFlagWrite); [|destruct (_ <? _)%nat; [by eexists|]];
    (destruct (has _ descFlagNext); [apply IH; cbn; auto|eexists; split; [done|]; intros c' [= <-]; cbn; auto]).
Qed.

Lemma resolveChain_total head :
  0 <= head ->
  exists r, resolveChain st v t head = Ret r /\
    forall c, r = Ok c -> Forall (usable st) (readable c) /\ Forall (usable st) (writable c).
Proof using Hb Hr Ht Hw.
  intros Hh. rewrite resolveChain_walk. by apply walkChain_total.
Qed.

Lemma resolveChain_readable head c :
  0 <= head -> resolveChain st v t head = Ret (Ok c) -> forall x, x ∈ readable c -> view_in st x.
Proof using Hb Hr Ht Hw.
  intros Hh E x Hx. destruct (resolveChain_total head Hh) as (r & E' & Hc). rewrite E in E'. injection E' as <-.
  destruct (Hc c eq_refl) as [Hr' _]. rewrite Forall_forall in Hr'. by apply Hr'.
Qed.
End ring.

(** * One round of the loop *)

Lemma gatherCopy_total st segs : forall skip,
  (forall x, x ∈ segs -> view_in st x) -> exists f, gatherCopy st skip segs = Ret f.
Proof.
  induction segs as [|s segs IH]; intros skip Hs; cbn [gatherCopy]; [by eexists|].
  assert (Hs' : forall x, x ∈ segs -> view_in st x) by (intros; apply Hs; by right).
  destruct (_ <=? _); [by apply IH|].
  destruct (vread_ok st s) as (b & -> & _); [apply Hs; by left|]. rewrite bind_Ret.
  destruct (IH 0 Hs') as [f ->]. by eexists.
Qed.

Lemma gatherTX_total st c :
  (forall x, x ∈ readable c -> view_in st x) -> exists f, gatherTX st c = Ret f.
Proof.
  intros Hs. unfold gatherTX. destruct (_ || _); [by eexists|].
  destruct (gatherCopy_total st (readable c) virtioNetHdrSize Hs) as [f ->]. by eexists.
Qed.

(** The frame that entry [i] of the available ring describes, if it describes one. *)
Definition frameAt (st : store) (v : vring) (t : memTable) (i : Z) : option bytes :=
  match availEntry st v i with
  | Ret head =>
      match resolveChain st v t head with
      | Ret (Ok c) => match gatherTX st c with Ret f => f | Panic => None end
      | _ => None
      end
  | Panic => None
  end.

(** Element [k] of the used ring, and the index the driver polls. *)
Definition usedView (vu : view) (off : Z) : view := mkView (vw_map vu) (vw_off vu + off) 4.
Definition usedElem (st : store) (vu : view) (k : Z) : res (Z * Z) :=
  id ← vread st (usedView vu (4 + 8 * k));
  n ← vread st (usedView vu (4 + 8 * k + 4));
  Ret (le_get id, le_get n).

(** A view that touches none of [ws]. *)
Definition apart (ws : list view) (x : view) : Prop := Forall (fun w => disjoint_views w x) ws.

(** None of [ws] lies on a buffer to be read. *)
Definition bufs_clear (st : store) (v : vring) (ws : list view) (t : memTable) : Prop :=
  forall head c, 0 <= head -> resolveChain st v t head = Ret (Ok c) -> Forall (apart ws) (readable c).

Section round.
Context (st : store) (v : vring) (vd va vu : view).
Context (Hb : store_bytes st) (Hr : ring_sized st v vd va vu).

Lemma availIdx_total : exists i, availIdx st v = Ret i /\ 0 <= i < 65536.
Proof using Hr.
  destruct Hr. unfold availIdx, atomicLoadU32. rewrite rz_avail0. cbn [nonnil].
  rewrite ?bind_Ret, vslice_ret, ?bind_Ret by lia.
  destruct (vread_ok st (mkView (vw_map va) (vw_off va + 0) (4 - 0))) as (d & -> & _).
  { eapply view_in_slice; [|exact rz_in_avail0]. apply vslice_ret; lia. }
  rewrite !bind_Ret. eexists. split; [done | apply u16_range].
Qed.

Lemma availEntry_total i : exists h, availEntry st v i = Ret h /\ 0 <= h < 65536.
Proof using Hb Hr.
  destruct Hr. unfold availEntry, umod. rewrite (proj2 (Z.eqb_neq (num v) 0)), bind_Ret, rz_avail0 by lia.
  cbn [nonnil]. pose proof (Z.mod_pos_bound i (num v) ltac:(lia)). cbv zeta.
  rewrite bind_Ret, u32_small, vslice_ret, bind_Ret by lia.
  rewrite vslice_ret, bind_Ret by (cbn [vw_len]; lia). cbn [vw_map vw_off].
  match goal with |- context [vread st ?w] => destruct (vread_ok st w) as (d & Hd & Hl) end.
  { destruct rz_in_avail0 as (b & ? & ? & ? & ?). exists b. cbn. split_and!; try done; lia. }
  rewrite Hd, bind_Ret. eexists. split; [done|]. apply (le_get_range _ 2); [by eapply vread_bytes|].
  unfold len in Hl. cbn in Hl. lia.
Qed.

(** The two writes of [setUsedElem] and the one of [publishUsed]. *)
Lemma setUsedElem_eq st' slot head written :
  0 <= slot < 65536 ->
  let off := 4 + 8 * ((usedIdx v + slot) mod num v) in
  setUsedElem st' v slot head written =
    (st ← vwrite st' (usedView vu off) (le_put 4 head); vwrite st (usedView vu (off + 4)) (le_put 4 written)).
Proof using Hr.
  intros Hs. destruct Hr. pose proof (Z.mod_pos_bound (usedIdx v + slot) (num v) ltac:(lia)). cbv zeta.
  unfold setUsedElem, umod. rewrite (proj2 (Z.eqb_neq (num v) 0)), bind_Ret, rz_used0 by lia. cbn [nonnil].
  rewrite (u32_small (usedIdx v + slot)), bind_Ret by lia. cbv zeta.
  rewrite !(u32_small (_ + _)) by (rewrite ?u32_small; lia).
  set (off := 4 + 8 * ((usedIdx v + slot) mod num v)) in *.
  rewrite (vslice_ret vu off), (vslice_ret vu (off + 4)), bind_Ret by lia.
  rewrite vslice_ret, bind_Ret by (cbn [vw_len]; lia). cbn [vw_map vw_off]. rewrite Z.add_0_r.
  destruct (vwrite st' _ _); [|done]. cbn [mbind]. rewrite !bind_Ret, vslice_ret, bind_Ret by (cbn [vw_len]; lia).
  cbn [vw_map vw_off]. by rewrite Z.add_0_r.
Qed.

Lemma publishUsed_eq st' n :
  publishUsed st' v n =
    (st ← vwrite st' (usedView vu 0) (le_put 4 (u32 (Z.shiftl (u16 (usedIdx v + n)) 16)));
     Ret (st, vset_used (u16 (usedIdx v + n)) v)).
Proof using Hr.
  destruct Hr. unfold publishUsed, atomicStoreU32. cbn [used vset_used]. rewrite rz_used0.
  cbn [nonnil usedIdx vset_used]. by rewrite bind_Ret, vslice_ret, bind_Ret by lia.
Qed.

Lemma usedView_in st' off :
  same_shape st st' -> 0 <= off -> off + 4 <= vw_len vu -> view_in st' (usedView vu off).
Proof using Hr.
  intros Hs ? ?. eapply view_in_shape; [done|]. destruct Hr. destruct rz_in_used0 as (b & ? & ? & ? & ?).
  exists b. cbn. split_and!; try done; lia.
Qed.

Lemma usedView_apart a c : a + 4 <= c \/ c + 4 <= a -> disjoint_views (usedView vu a) (usedView vu c).
Proof using. intros ?. right. cbn. lia. Qed.

(** Handing the buffer [head] back: element and index are written, nothing else. *)
Lemma hand_back head :
  exists st1 st2,
    setUsedElem st v 0 head 0 = Ret st1 /\
    publishUsed st1 v 1 = Ret (st2, vset_used (u16 (usedIdx v + 1)) v) /\
    store_bytes st2 /\ same_shape st st2 /\
    usedElem st2 vu (usedIdx v mod num v) = Ret (head mod 2 ^ 32, 0) /\
    vread st2 (usedView vu 0) = Ret (le_put 4 (u32 (Z.shiftl (u16 (usedIdx v + 1)) 16))) /\
    (forall w, 0 <= vw_off w -> 0 <= vw_len w -> disjoint_views (usedView vu 0) w ->
       disjoint_views (usedView vu (4 + 8 * (usedIdx v mod num v))) w ->
       disjoint_views (usedView vu (4 + 8 * (usedIdx v mod num v) + 4)) w ->
       vread st2 w = vread st w).
Proof using Hb Hr.
  rewrite setUsedElem_eq, Z.add_0_r by lia. cbv zeta. setoid_rewrite publishUsed_eq.
  assert (Hk : 0 <= usedIdx v mod num v /\ 4 + 8 * (usedIdx v mod num v) + 8 <= vw_len vu /\ 0 <= vw_off vu).
  { destruct Hr. destruct rz_in_used0 as (b & _ & ? & _). pose proof (Z.mod_pos_bound (usedIdx v) (num v)). lia. }
  set (k := usedIdx v mod num v) in *. clearbody k.
  destruct (vwrite_ok st (usedView vu (4 + 8 * k)) (le_put 4 head)) as [sa Ha]; [apply usedView_in; lia || done|].
  pose proof (vwrite_shape _ _ _ _ Ha) as Sa.
  destruct (vwrite_ok sa (usedView vu (4 + 8 * k + 4)) (le_put 4 0)) as [sb Hb1]; [apply usedView_in; lia || done|].
  pose proof (vwrite_shape _ _ _ _ Hb1) as Sb.
  destruct (vwrite_ok sb (usedView vu 0) (le_put 4 (u32 (Z.shiftl (u16 (usedIdx v + 1)) 16)))) as [sc Hc].
  { apply usedView_in; [by etransitivity | lia | lia]. }
  pose proof (vwrite_shape _ _ _ _ Hc) as Sc. exists sb, sc. rewrite Ha, bind_Ret, Hc, bind_Ret.
  split_and!; try done.
  - eauto 10 using store_bytes_write, bytes_ok_le_put.
  - by etransitivity; [|etransitivity].
  - unfold usedElem.
    rewrite (vread_disjoint _ _ _ (usedView vu (4 + 8 * k)) _ Hc),
      (vread_disjoint _ _ _ (usedView vu (4 + 8 * k)) _ Hb1), (vread_written _ _ _ _ Ha), bind_Ret,
      (vread_disjoint _ _ _ _ _ Hc), (vread_written _ _ _ _ Hb1)
      by (done || (apply usedView_apart; lia) || (cbn [usedView vw_off vw_len]; lia)).
    by rewrite bind_Ret, !le_get_put.
  - by apply (vread_written _ _ _ _ Hc).
  - intros w ? ? D0 D1 D2.
    by rewrite (vread_disjoint _ _ _ _ _ Hc), (vread_disjoint _ _ _ _ _ Hb1), (vread_disjoint _ _ _ _ _ Ha).
Qed.
End round.

(** * Memory that differs only in some views *)

Record agree (ws : list view) (st st' : store) : Prop := {
  ag_bytes : store_bytes st';
  ag_shape : same_shape st st';
  ag_read : forall w, 0 <= vw_off w -> 0 <= vw_len w -> apart ws w -> vread st' w = vread st w
}.

Lemma agree_refl ws st : store_bytes st -> agree ws st st.
Proof. by split. Qed.

Lemma agree_trans ws st1 st2 st3 : agree ws st1 st2 -> agree ws st2 st3 -> agree ws st1 st3.
Proof.
  intros [? ? H12] [? ? H23]. split; [done | by etransitivity |].
  intros w ? ? ?. by rewrite H23, H12.
Qed.

Lemma base_fields v v' : ring_base v' = ring_base v ->
  num v' = num v /\ desc v' = desc v /\ avail v' = avail v /\ used v' = used v /\ call v' = call v.
Proof. destruct v, v'. unfold ring_base. cbn. intros ?. by simplify_eq. Qed.

Lemma disjoint_within vu w w' :
  disjoint_views vu w -> vw_map w' = vw_map w -> vw_off w <= vw_off w' ->
  vw_off w' + vw_len w' <= vw_off w + vw_len w -> disjoint_views vu w'.
Proof. unfold disjoint_views. intros [?|?] -> ??; [by left | right; lia]. Qed.

Lemma apart_within ws w w' :
  apart ws w -> vw_map w' = vw_map w -> vw_off w <= vw_off w' ->
  vw_off w' + vw_len w' <= vw_off w + vw_len w -> apart ws w'.
Proof. intros Hw ???. eapply Forall_impl; [exact Hw|]. intros x Hx. by apply (disjoint_within x w w'). Qed.

Section agreeing.
Context (st st' : store) (v v' : vring) (vd va vu : view) (t : memTable) (ws : list view).
Context (Hr : ring_sized st v vd va vu) (Hag : agree ws st st') (Hbase : ring_base v' = ring_base v).
Context (Hdesc : apart ws vd) (Havail : apart ws va).

Lemma ring_sized_agree :
  0 <= lastAvail v' < 65536 -> 0 <= usedIdx v' < 65536 -> ring_sized st' v' vd va vu.
Proof using Hr Hag Hbase.
  intros ??. destruct (base_fields _ _ Hbase) as (E1 & E2 & E3 & E4 & _). destruct Hr, Hag.
  split; rewrite ?E1, ?E2, ?E3, ?E4; try done; by eapply view_in_shape.
Qed.

Lemma whole_table_agree : whole_table st t -> whole_table st' t.
Proof using Hag.
  intros Ht r Hin. destruct (Ht r Hin) as (? & ? & ?). split_and!; try done.
  eapply view_in_shape; [apply Hag | done].
Qed.

Lemma availIdx_agree : availIdx st' v' = availIdx st v.
Proof using Hr Hag Hbase Havail.
  destruct (base_fields _ _ Hbase) as (_ & _ & E3 & _). destruct Hr. destruct rz_in_avail0 as (b & _ & ? & ? & _).
  unfold availIdx, atomicLoadU32. rewrite E3, rz_avail0. cbn [nonnil].
  rewrite !bind_Ret, vslice_ret, !bind_Ret by lia.
  rewrite (ag_read _ _ _ Hag); [done | cbn; lia | cbn; lia |]. eapply apart_within; [exact Havail | cbn; lia..].
Qed.

Lemma availEntry_agree i : availEntry st' v' i = availEntry st v i.
Proof using Hr Hag Hbase Havail.
  destruct (base_fields _ _ Hbase) as (E1 & _ & E3 & _). destruct Hr. destruct rz_in_avail0 as (b & _ & ? & ? & _).
  unfold availEntry, umod. rewrite E1, E3, rz_avail0, (proj2 (Z.eqb_neq (num v) 0)) by lia. cbn [nonnil].
  rewrite !bind_Ret. pose proof (Z.mod_pos_bound i (num v) ltac:(lia)).
  rewrite u32_small, vslice_ret, !bind_Ret by lia. rewrite vslice_ret, !bind_Ret by (cbn [vw_len]; lia).
  cbn [vw_map vw_off].
  rewrite (ag_read _ _ _ Hag); [done | cbn [vw_off vw_len]; lia.. |].
  eapply apart_within; [exact Havail | cbn [vw_map vw_off vw_len]; (done || lia)..].
Qed.

Lemma descAt_agree i : 0 <= i -> descAt st' v' i = descAt st v i.
Proof using Hr Hag Hbase Hdesc.
  intros Hi. destruct (base_fields _ _ Hbase) as (E1 & E2 & _). destruct Hr. destruct rz_in_desc0 as (b & _ & ? & ? & _).
  unfold descAt, descSize. rewrite E1, E2, rz_desc0. destruct (Z.leb_spec (num v) i); [done|]. cbn [nonnil].
  rewrite !bind_Ret, !(u32_small) by (rewrite ?u32_small; lia). rewrite vslice_ret, !bind_Ret by lia.
  rewrite (ag_read _ _ _ Hag); [done | cbn [vw_off vw_len]; lia.. |].
  eapply apart_within; [exact Hdesc | cbn [vw_map vw_off vw_len]; (done || lia)..].
Qed.

Lemma walkChain_agree (Hb : store_bytes st) n : forall c idx, 0 <= idx -> walkChain n st' v' t c idx = walkChain n st v t c idx.
Proof using Hr Hag Hbase Hdesc.
  induction n as [|n IH]; intros c idx Hi; cbn [walkChain]; [done|]. rewrite descAt_agree by done.
  destruct (descAt_total st v vd va vu Hb Hr idx Hi) as (r & -> & Hd). rewrite !bind_Ret.
  destruct r as [d|]; [|done]. destruct (Hd d eq_refl) as (_ & _ & Hn).
  destruct (has _ descFlagIndirect); [done|]. destruct (gpaSlice _ _ _) as [[seg|]|]; try done. rewrite !bind_Ret.
  destruct (has _ descFlagWrite), (has _ descFlagNext); by rewrite ?IH.
Qed.

Lemma resolveChain_agree head :
  store_bytes st -> 0 <= head -> resolveChain st' v' t head = resolveChain st v t head.
Proof using Hr Hag Hbase Hdesc. intros Hb Hh. rewrite !resolveChain_walk. by apply walkChain_agree. Qed.

Lemma gatherTX_agree c :
  (forall x, x ∈ readable c -> view_in st x /\ apart ws x) -> gatherTX st' c = gatherTX st c.
Proof using Hag.
  intros Hc. unfold gatherTX. destruct (_ || _); [done|].
  assert (Hg : forall segs skip, (forall x, x ∈ segs -> view_in st x /\ apart ws x) ->
    gatherCopy st' skip segs = gatherCopy st skip segs).
  { intros segs. induction segs as [|s segs IH]; intros skip Hs; cbn [gatherCopy]; [done|].
    assert (Hs' : forall x, x ∈ segs -> view_in st x /\ apart ws x) by (intros; apply Hs; by right).
    destruct (Hs s) as [(b & _ & ? & ? & _) Hd]; [by left|].
    by rewrite !IH, (ag_read _ _ _ Hag) by done. }
  by rewrite Hg.
Qed.

Lemma frameAt_agree i :
  store_bytes st -> whole_table st t -> no_wrap st v ->
  bufs_clear st v ws t ->
  frameAt st' v' t i = frameAt st v t i.
Proof using Hr Hag Hbase Hdesc Havail.
  intros Hb Ht Hw Hclear. unfold frameAt. rewrite availEntry_agree.
  destruct (availEntry_total st v vd va vu Hb Hr i) as (head & -> & Hh & _).
  rewrite resolveChain_agree by done.
  destruct (resolveChain_total st v vd va vu t Hb Hr Ht Hw head Hh) as (r & E & _). rewrite E.
  destruct r as [c|]; [|done]. rewrite gatherTX_agree; [done|]. intros x Hx. split; [by eapply resolveChain_readable|].
  apply (proj1 (Forall_forall _ _) (Hclear _ _ Hh E)). done.
Qed.
End agreeing.

(** * The loop *)

Record drainable (st : store) (v : vring) (t : memTable) (vd va vu : view) : Prop := {
  dr_sized : ring_sized st v vd va vu;
  dr_bytes : store_bytes st;
  dr_table : whole_table st t;
  dr_no_wrap : no_wrap st v;
  dr_desc : apart [vu] vd;
  dr_avail : apart [vu] va;
  dr_clear : bufs_clear st v [vu] t
}.

Lemma drainable_agree st st' v v' t vd va vu :
  drainable st v t vd va vu -> agree [vu] st st' -> ring_base v' = ring_base v ->
  0 <= lastAvail v' < 65536 -> 0 <= usedIdx v' < 65536 -> drainable st' v' t vd va vu.
Proof.
  intros [] Hag Hbase ??. split; try done.
  - by eapply ring_sized_agree.
  - apply Hag.
  - by eapply whole_table_agree.
  - intros i d Hi. erewrite descAt_agree by done. by apply dr_no_wrap0.
  - intros head c Hh Hc. apply (dr_clear0 head c Hh). rewrite <- Hc. symmetry.
    eapply resolveChain_agree; eauto.
Qed.

(** The [n] entries of the available ring from index [a] on. *)
Fixpoint entries (a : Z) (n : nat) : list Z :=
  match n with O => [] | S n' => a :: entries (u16 (a + 1)) n' end.

(** Everything [n] iterations of the loop from [st], [v] have done in [st'], [v']. *)
Record drained (vu : view) (n : nat) (st : store) (v : vring) (st' : store) (v' : vring) : Prop := {
  dn_ring : v' = vset_used (u16 (usedIdx v + Z.of_nat n)) (vset_avail (lastAvail v') v);
  dn_agree : agree [vu] st st';
  dn_index : vread st' (usedView vu 0) =
    match n with
    | O => vread st (usedView vu 0)
    | S _ => Ret (le_put 4 (u32 (Z.shiftl (usedIdx v') 16)))
    end;
  dn_other : forall j, 0 <= j < num v ->
    (forall k, 0 <= k < Z.of_nat n -> (usedIdx v + k) mod num v <> j) -> usedElem st' vu j = usedElem st vu j;
  dn_elem : Z.of_nat n <= num v -> forall k e, entries (lastAvail v) n !! k = Some e ->
    exists head, availEntry st v e = Ret head /\
      usedElem st' vu ((usedIdx v + Z.of_nat k) mod num v) = Ret (head, 0)
}.

Lemma u16_mod_div z n : (n | 65536) -> 0 < n -> u16 z mod n = z mod n.
Proof. intros [k Hk] ?. unfold u16. rewrite Z.mod_mod_divide; [done|]. exists k. lia. Qed.

Lemma u16_add a b : u16 (u16 a + b) = u16 (a + b).
Proof. unfold u16. by rewrite Zplus_mod_idemp_l. Qed.

Lemma mod_shift_ne a k n : 0 <= k < n - 1 -> (a + (k + 1)) mod n <> a mod n.
Proof.
  intros Hk E. assert (H : (k + 1) mod n = 0).
  { replace (k + 1) with ((a + (k + 1)) - a) by lia. rewrite Zminus_mod, E, Z.sub_diag. apply Z.mod_0_l. lia. }
  rewrite Z.mod_small in H by lia. lia.
Qed.

Section loop.
Context (t : memTable) (vd va vu : view).

(** One iteration with a buffer to take. *)
Lemma drain_round fuel st v frames count i :
  drainable st v t vd va vu -> availIdx st v = Ret i -> lastAvail v <> i ->
  exists st' head,
    let v' := vset_used (u16 (usedIdx v + 1)) (vset_avail (u16 (lastAvail v + 1)) v) in
    drainLoop (S fuel) t st v frames count =
      drainLoop fuel t st' v' (frames ++ option_list (frameAt st v t (lastAvail v))) (count + 1) /\
    availEntry st v (lastAvail v) = Ret head /\
    drainable st' v' t vd va vu /\ agree [vu] st st' /\
    usedElem st' vu (usedIdx v mod num v) = Ret (head, 0) /\
    vread st' (usedView vu 0) = Ret (le_put 4 (u32 (Z.shiftl (u16 (usedIdx v + 1)) 16))) /\
    (forall j, 0 <= j < num v -> usedIdx v mod num v <> j -> usedElem st' vu j = usedElem st vu j).
Proof.
  intros Hd Hi Hne. pose proof Hd as [Hr Hb Ht Hw Hdesc Havail Hclear].
  destruct (availEntry_total st v vd va vu Hb Hr (lastAvail v)) as (head & Eh & Hh).
  set (va' := vset_avail (u16 (lastAvail v + 1)) v).
  assert (Hr' : ring_sized st va' vd va vu).
  { destruct Hr. split; try done. split; [apply u16_range | by destruct rz_cursor0]. }
  destruct (hand_back st va' vd va vu Hb Hr' head) as (s1 & s2 & E1 & E2 & B2 & S2 & U2 & X2 & F2).
  assert (Hag : agree [vu] st s2).
  { destruct Hr'. destruct rz_in_used0 as (b & _ & ? & ? & _).
    pose proof (Z.mod_pos_bound (usedIdx va') (num va') ltac:(lia)).
    split; [done | done |]. intros w ?? Hdw. apply (proj1 (Forall_singleton _ _)) in Hdw. apply F2; try done;
      unfold usedView; (destruct Hdw as [?|?]; [by left | right; cbn [vw_off vw_len]; lia]). }
  exists s2, head. cbv zeta.
  assert (Hbase : ring_base (vset_used (u16 (usedIdx v + 1)) va') = ring_base v) by done.
  split; [|split; [exact Eh|split; [|split; [exact Hag|split; [|split; [exact X2|]]]]]].
  - destruct (resolveChain_total st v vd va vu t Hb Hr Ht Hw head) as (r & Er & _); [lia|].
    cbn [drainLoop]. unfold popAvail. rewrite Hi, bind_Ret, (proj2 (Z.eqb_neq _ _) Hne), Eh, bind_Ret.
    fold va'. unfold frameAt. rewrite Eh, Er.
    rewrite (resolveChain_agree st st v va' vd va vu t [vu] Hr (agree_refl _ _ Hb) eq_refl Hdesc head Hb) by lia.
    rewrite Er, bind_Ret. destruct r as [c|e].
    + destruct (gatherTX_total st c) as [f Ef]; [apply (resolveChain_readable st v vd va vu t Hb Hr Ht Hw head c); [lia | exact Er]|].
      rewrite Ef, bind_Ret, E1, bind_Ret, E2, bind_Ret. destruct f; cbn [option_list]; by rewrite ?app_nil_r.
    + rewrite bind_Ret, E1, bind_Ret, E2, bind_Ret. cbn [option_list]. by rewrite app_nil_r.
  - eapply drainable_agree; [done.. | apply u16_range | apply u16_range].
  - rewrite (Z.mod_small head) in U2 by lia. exact U2.
  - intros j Hj Hne'. unfold usedElem. destruct Hr'. destruct rz_in_used0 as (b & _ & ? & ? & _).
    rewrite !F2; [done | cbn [vw_off vw_len usedView]; try lia ..].
    all: apply usedView_apart; cbn [usedIdx num va' vset_avail]; lia.
Qed.

Lemma drained_O st v : drainable st v t vd va vu -> drained vu 0 st v st v.
Proof.
  intros []. destruct dr_sized0. split; try done; cbn; try lia.
  rewrite Z.add_0_r. unfold u16. rewrite Z.mod_small by lia. by destruct v.
Qed.

(** A round, then [n] more. *)
Lemma drained_S n st v st1 st' v' head :
  let v1 := vset_used (u16 (usedIdx v + 1)) (vset_avail (u16 (lastAvail v + 1)) v) in
  drainable st v t vd va vu -> (num v | 65536) -> availEntry st v (lastAvail v) = Ret head ->
  agree [vu] st st1 -> usedElem st1 vu (usedIdx v mod num v) = Ret (head, 0) ->
  vread st1 (usedView vu 0) = Ret (le_put 4 (u32 (Z.shiftl (u16 (usedIdx v + 1)) 16))) ->
  (forall j, 0 <= j < num v -> usedIdx v mod num v <> j -> usedElem st1 vu j = usedElem st vu j) ->
  drained vu n st1 v1 st' v' -> drained vu (S n) st v st' v'.
Proof.
  intros v1 [Hr Hb _ _ _ Hav _] Hdiv Eh Hag1 HU HX HO [Hring Hag Hidx Hother Helem].
  assert (Hn : 0 < num v) by (destruct Hr; lia).
  assert (Hm : forall k, (usedIdx v1 + k) mod num v1 = (usedIdx v + (k + 1)) mod num v).
  { intros k. cbn [v1 vset_used usedIdx vset_avail num]. rewrite <- (Zplus_mod_idemp_l (u16 _)), u16_mod_div by done.
    rewrite Zplus_mod_idemp_l. f_equal. lia. }
  split.
  - rewrite Hring. cbn [v1 vset_used vset_avail usedIdx lastAvail]. rewrite u16_add.
    unfold vset_used, vset_avail. cbn. do 2 f_equal. lia.
  - by eapply agree_trans.
  - rewrite Hidx. destruct n as [|n]; [|done]. rewrite HX, Hring. cbn [v1 vset_used vset_avail usedIdx].
    by rewrite u16_add, Z.add_0_r.
  - intros j Hj Hne. rewrite Hother; [apply HO; [done|] | done |].
    + specialize (Hne 0). rewrite Z.add_0_r in Hne. apply Hne. lia.
    + intros k Hk. rewrite Hm. apply Hne. lia.
  - intros Hle k e. destruct k as [|k]; cbn [entries lookup list_lookup].
    + intros [= <-]. exists head. split; [done|]. rewrite Z.add_0_r, Hother; [done | by apply Z.mod_pos_bound |].
      intros k Hk. rewrite Hm. apply mod_shift_ne; lia.
    + intros He. destruct (Helem ltac:(cbn; lia) k e He) as (h & Eh' & Hu). exists h. split.
      * rewrite <- Eh'. symmetry. by eapply availEntry_agree.
      * rewrite <- Hu, Hm. do 2 f_equal. lia.
Qed.

Lemma drainLoop_ok n : forall fuel st v frames count i,
  drainable st v t vd va vu -> (num v | 65536) -> availIdx st v = Ret i ->
  u16 (i - lastAvail v) = Z.of_nat n -> (n < fuel)%nat ->
  exists st' v',
    drainLoop fuel t st v frames count =
      Some (Ret (st', v', frames ++ omap (frameAt st v t) (entries (lastAvail v) n), count + Z.of_nat n)) /\
    lastAvail v' = i /\ drained vu n st v st' v'.
Proof.
  induction n as [|n IH]; intros [|fuel] st v frames count i Hd Hdiv Hi Hn Hf; try lia.
  - assert (i = lastAvail v) as ->.
    { pose proof (dr_sized _ _ _ _ _ _ Hd) as Hr. destruct (availIdx_total _ _ _ _ _ Hr) as (i' & Hi' & ?).
      destruct Hr. unfold u16 in Hn. rewrite Hi in Hi'. injection Hi' as <-. apply Z.mod_divide in Hn; [|lia].
      destruct Hn as [q Hq]. lia. }
    exists st, v. split_and!; [|done|by apply drained_O]. cbn [drainLoop entries omap list_omap].
    unfold popAvail. by rewrite Hi, bind_Ret, Z.eqb_refl, app_nil_r, Z.add_0_r.
  - assert (Hne : lastAvail v <> i).
    { intros <-. rewrite Z.sub_diag in Hn. change (u16 0) with 0 in Hn. lia. }
    destruct (drain_round fuel st v frames count i Hd Hi Hne) as (s1 & head & -> & Eh & Hd1 & Hag & HU & HX & HO).
    set (v1 := vset_used _ _) in *. pose proof Hd as [Hr Hb Ht Hw Hdesc Havail Hclear].
    assert (Hbase : ring_base v1 = ring_base v) by done.
    destruct (IH fuel s1 v1 (frames ++ option_list (frameAt st v t (lastAvail v))) (count + 1) i Hd1 Hdiv)
      as (st' & v' & -> & Hl & Hdr); [by rewrite <- Hi; eapply availIdx_agree | | lia |].
    { cbn [v1 vset_used vset_avail lastAvail]. unfold u16 in *. rewrite Zminus_mod_idemp_r.
      replace (i - (lastAvail v + 1)) with ((i - lastAvail v) - 1) by lia.
      rewrite <- Zminus_mod_idemp_l, Hn. pose proof (Z.mod_pos_bound (i - lastAvail v) (2 ^ 16)).
      rewrite Z.mod_small; lia. }
    exists st', v'. split_and!; [|done | by eapply drained_S].
    do 3 f_equal; [f_equal|lia]. rewrite <- app_assoc. f_equal. cbn [entries omap list_omap].
    rewrite (list_omap_ext (frameAt s1 v1 t) (frameAt st v t) _ (entries (u16 (lastAvail v + 1)) n)).
    + by destruct (frameAt st v t (lastAvail v)).
    + apply Forall_Forall2_diag, Forall_true. intros e. by eapply frameAt_agree.
Qed.

Lemma notify_total st v : ring_sized st v vd va vu -> exists o, notify st v = Ret o.
Proof.
  intros Hr. unfold notify. destruct (call v); [|by eexists].
  destruct Hr. unfold availNoInterrupt, atomicLoadU32. rewrite rz_avail0. cbn [nonnil].
  rewrite bind_Ret, vslice_ret, bind_Ret by lia.
  destruct (vread_ok st (mkView (vw_map va) (vw_off va + 0) (4 - 0))) as (d & -> & _).
  { eapply view_in_slice; [|exact rz_in_avail0]. apply vslice_ret; lia. }
  rewrite !bind_Ret. by eexists.
Qed.
End loop.

(** C16: the transmit path completes.  On a ring of a power-of-two size laid out
    as the driver must lay it out (rings in mapped memory, the used ring apart
    from the other two and from the buffers, no descriptor range wrapping the
    address space), with [n] buffers offered, [n + 1] iterations are enough:
    draining returns without panicking.  The frames handed on are exactly those
    the offered entries describe, in order; every entry is consumed; every
    buffer, well-formed or not, is back in the used ring, and the index the
    driver polls has moved by [n]; memory outside the used ring is untouched. *)
Theorem drain_complete t vd va vu st v i n fuel :
  drainable st v t vd va vu -> (num v | 65536) -> availIdx st v = Ret i ->
  u16 (i - lastAvail v) = Z.of_nat n -> (n < fuel)%nat ->
  exists st' v' fx,
    drainTX fuel t st v = Some (Ret (st', v', omap (frameAt st v t) (entries (lastAvail v) n), fx)) /\
    lastAvail v' = i /\ drained vu n st v st' v'.
Proof.
  intros Hd Hdiv Hi Hn Hf. destruct (drainLoop_ok t vd va vu n fuel st v [] 0 i Hd Hdiv Hi Hn Hf)
    as (st' & v' & E & Hl & Hdr).
  unfold drainTX. rewrite E. destruct (_ <? _).
  - destruct (notify_total vd va vu st' v') as [o ->]; [|rewrite bind_Ret; by eexists _, _, _].
    destruct Hdr as [-> Hag _ _ _]. cbn [lastAvail vset_used vset_avail] in *. 
    eapply ring_sized_agree; [apply Hd | done | done | |apply u16_range]. cbn.
    destruct (availIdx_total _ _ _ _ _ (dr_sized _ _ _ _ _ _ Hd)) as (i' & Hi' & ?). congruence.
  - rewrite bind_Ret. by eexists _, _, _.
Qed.

Lemma walkChain_beyond n st v t c idx :
  num v <= idx -> exists e, walkChain (S n) st v t c idx = Ret (Err e).
Proof. intros H. cbn [walkChain]. unfold descAt. rewrite (proj2 (Z.leb_le _ _) H), bind_Ret. by eexists. Qed.

Lemma resolveChain_beyond st v t head : num v <= head -> exists e, resolveChain st v t head = Ret (Err e).
Proof. rewrite resolveChain_walk. apply (walkChain_beyond 255). Qed.

(** A page with two descriptors, the three rings and a buffer of a virtio-net
    header and an eight-byte frame. *)
Definition drain_page : list Z :=
  le_put 8 128 ++ le_put 4 20 ++ le_put 2 0 ++ le_put 2 0 ++ make_bytes 16 ++
  le_put 2 0 ++ le_put 2 1 ++ le_put 2 0 ++ make_bytes 26 ++
  make_bytes 64 ++
  make_bytes 12 ++ [1; 2; 3; 4; 5; 6; 7; 8] ++ make_bytes 108.

Definition drain_store : store := {[ 0%nat := drain_page ]}.
Definition drain_table : memTable := [mkRegion 0 256 0 (mkView 0 0 256) 0].
Definition drain_ring : vring :=
  mkVring 2 (Some (mkView 0 0 32)) (Some (mkView 0 32 10)) (Some (mkView 0 64 22)) 0 0 None (Some 7%nat)
    true true true.

Lemma drain_view_in off n : 0 <= off -> 0 <= n -> off + n <= 256 -> view_in drain_store (mkView 0 off n).
Proof. intros ???. by exists drain_page. Qed.

Lemma drain_descAt i d : 0 <= i -> descAt drain_store drain_ring i = Ret (Ok d) ->
  (i = 0 /\ d = mkDesc 128 20 0 0) \/ (i = 1 /\ d = mkDesc 0 0 0 0).
Proof.
  intros Hi H. assert (Hc : i = 0 \/ i = 1 \/ 2 <= i) by lia. destruct Hc as [->|[->|Hc]].
  - left. vm_compute in H. by simplify_eq.
  - right. vm_compute in H. by simplify_eq.
  - unfold descAt in H. by rewrite (proj2 (Z.leb_le (num drain_ring) i) Hc) in H.
Qed.

Lemma drain_resolve head c : 0 <= head ->
  resolveChain drain_store drain_ring drain_table head = Ret (Ok c) -> readable c = [mkView 0 128 20].
Proof.
  intros Hh H. assert (Hc : head = 0 \/ head = 1 \/ 2 <= head) by lia. destruct Hc as [->|[->|Hc]].
  - vm_compute in H. by simplify_eq.
  - vm_compute in H. done.
  - by destruct (resolveChain_beyond drain_store drain_ring drain_table head Hc) as [e He]; rewrite He in H.
Qed.

Lemma drain_demo :
  drainable drain_store drain_ring drain_table (mkView 0 0 32) (mkView 0 32 10) (mkView 0 64 22).
Proof.
  split.
  - split; try done; try (apply drain_view_in; lia); cbn; lia.
  - intros k b. unfold drain_store. rewrite lookup_singleton_Some. intros [_ <-].
    by apply bytes_okb_spec.
  - intros r ->%list_elem_of_singleton. split_and!; [done..|]. apply drain_view_in; lia.
  - intros i d Hi [[_ ->]|[_ ->]]%drain_descAt; done.
  - apply Forall_singleton. right. cbn. lia.
  - apply Forall_singleton. right. cbn. lia.
  - intros head c Hh ->%drain_resolve; [|done]. do 2 apply Forall_singleton. right. cbn. lia.
Qed.

Lemma drain_complete_witness :
  exists st' v' fx,
    drainTX 2 drain_table drain_store drain_ring = Some (Ret (st', v', [[1; 2; 3; 4; 5; 6; 7; 8]], fx)) /\
    lastAvail v' = 1 /\ drained (mkView 0 64 22) 1 drain_store drain_ring st' v'.
Proof.
  apply (drain_complete drain_table (mkView 0 0 32) (mkView 0 32 10) (mkView 0 64 22) drain_store drain_ring 1 1 2).
  - exact drain_demo.
  - exists 32768. reflexivity.
  - vm_compute. reflexivity.
  - reflexivity.
  - lia.
Defined.
