(* ===== verification/VhostConn.v ===== *)
(** The vhost-user session: ownership of the file descriptors a front end
    passes, the framing of messages, and the frame a descriptor chain holds. *)
From S2P Require Import Prelude VhostMem VhostDev VhostFacts VhostProps VhostDrain.

(** * Descriptor ownership *)

(** The files the device holds, and those an effect closes. *)
Definition ring_files (v : vring) : list nat := option_list (kick v) ++ option_list (call v).
Definition held (d : NetDevice) : list nat := mjoin (ring_files <$> rings d).

Definition fx_closed (f : vfx) : option nat :=
  match f with VCloseFd x | VCloseFile x => Some x | _ => None end.
Definition closed (fx : list vfx) : list nat := omap fx_closed fx.

Lemma closed_app a b : closed (a ++ b) = closed a ++ closed b.
Proof. apply omap_app. Qed.

Lemma closed_closeFile f : closed (closeFile f) = option_list f.
Proof. by destruct f. Qed.

Lemma closed_fds fds : closed (VCloseFd <$> fds) = fds.
Proof. induction fds as [|x fds IH]; [done|]. cbn. by f_equal. Qed.

Lemma closed_reply b fx : closed (VReply b :: fx) = closed fx.
Proof. done. Qed.

Lemma held_set_ring d i v v' :
  rings d !! i = Some v -> held (set_ring i v' d) ++ ring_files v ≡ₚ held d ++ ring_files v'.
Proof.
  intros Hv. unfold held, set_ring. cbn [rings with_rings]. revert i Hv.
  induction (rings d) as [|x l IH]; intros [|i] Hv; cbn in *; try done.
  - injection Hv as ->. solve_Permutation.
  - specialize (IH i Hv). rewrite <- !app_assoc. by f_equiv.
Qed.

Lemma held_same_ring d i v v' :
  rings d !! i = Some v -> ring_files v' = ring_files v -> held (set_ring i v' d) ≡ₚ held d.
Proof. intros Hv E. pose proof (held_set_ring d i v v' Hv) as H. rewrite E in H. by apply Permutation_app_inv_r in H. Qed.

Lemma held_evalRing d i : held (evalRing d i).1 ≡ₚ held d /\ closed (evalRing d i).2 = [].
Proof.
  unfold evalRing. destruct (rings d !! i) as [v|] eqn:Hv; [|done].
  destruct (started v); [done|]. destruct (mem d), (desc v), (kick v); try done.
  destruct (num v =? 0); [done|]. destruct (_ && _); [done|].
  destruct (_ =? _)%nat; cbn [fst snd].
  - split; [by eapply held_same_ring|]. by destruct (pumpRunning v).
  - split; [by eapply held_same_ring | done].
Qed.

Lemma held_evalRings d : held (evalRings d).1 ≡ₚ held d /\ closed (evalRings d).2 = [].
Proof.
  unfold evalRings. destruct (held_evalRing d rxQueue) as [H1 C1].
  destruct (evalRing d rxQueue) as [d1 fx1]. cbn [fst snd] in *.
  destruct (held_evalRing d1 txQueue) as [H2 C2]. destruct (evalRing d1 txQueue) as [d2 fx2]. cbn [fst snd] in *.
  rewrite closed_app, C1, C2. split; [by rewrite H2 | done].
Qed.

Lemma held_stopRings d : held (stopRings d).1 = [] /\ closed (stopRings d).2 = held d.
Proof.
  unfold stopRings, held. cbn [fst snd rings with_rings].
  induction (rings d) as [|v l [IH1 IH2]]; [done|]. cbn. split; [exact IH1|].
  rewrite closed_app, IH2, closed_app, !closed_closeFile. done.
Qed.

Lemma stopRing_files v : ring_files (stopRing v).1 = [] /\ closed (stopRing v).2 = ring_files v.
Proof. unfold stopRing. cbn. by rewrite closed_app, !closed_closeFile. Qed.

(** What a request took in, it holds, has closed, or still has to close. *)
Definition conserves (d : NetDevice) (fds : list nat) (o : outcome) : Prop :=
  let '(d', fx, fds', _, _) := o in held d ++ fds ≡ₚ held d' ++ closed fx ++ fds'.

Lemma conserves_same d d' fds r e : held d' ≡ₚ held d -> conserves d fds (d', [], fds, r, e).
Proof. intros H. cbn. by rewrite H. Qed.

Lemma conserves_quiet d d' fx fds r e :
  held d' ≡ₚ held d -> closed fx = [] -> conserves d fds (d', fx, fds, r, e).
Proof. intros H C. cbn. by rewrite C, H. Qed.

(** A request that touches no file. *)
Ltac same_fds := match goal with H : Ret _ = Ret _ |- _ => injection H as <-; by apply conserves_same end.

Section fds.
Context (mmap : nat -> Z -> Z -> result (list Z)) (pagesize : Z).

Lemma setMemTable_fds m d o : setMemTable mmap pagesize m d = Ret o -> conserves d (m_fds m) o.
Proof.
  unfold setMemTable. intros H. inv_bind H. destruct x as [[g next] [t|e]]; [|same_fds].
  destruct (mem d) as [old|].
  - destruct (held_stopRings d) as [H1 C1]. destruct (stopRings d) as [d1 fx1]. cbn [fst snd] in *.
    destruct (held_evalRings (with_mem (Some t) (memTable_close old g) next d1)) as [H2 C2].
    destruct (evalRings _) as [d2 fx2]. cbn [fst snd] in *. injection H as <-. cbn.
    rewrite closed_app, C1, C2, H2, app_nil_r. change (held (with_mem _ _ _ d1)) with (held d1). by rewrite H1.
  - destruct (held_evalRings (with_mem (Some t) g next d)) as [H2 C2].
    destruct (evalRings _) as [d2 fx2]. cbn [fst snd] in *. injection H as <-. by apply conserves_quiet.
Qed.

Lemma setVringAddr_fds m d o : setVringAddr m d = Ret o -> conserves d (m_fds m) o.
Proof.
  unfold setVringAddr. intros H. inv_bind H. destruct x as [a|]; [|same_fds].
  destruct (ring d (va_index a)) as [v|] eqn:Hv; [|same_fds]. apply ring_lookup in Hv.
  destruct (mem d) as [t|]; [|same_fds]. destruct (num v =? 0); [same_fds|].
  inv_bind H. destruct x as [w1|];
    [|injection H as <-; apply conserves_same; by eapply held_same_ring].
  inv_bind H. destruct x as [w2|];
    [|injection H as <-; apply conserves_same; by eapply held_same_ring].
  inv_bind H. destruct x as [w3|];
    [|injection H as <-; apply conserves_same; by eapply held_same_ring].
  inv_bind H. match type of H with context [evalRing ?x ?i] => destruct (held_evalRing x i) as [H1 C1] end.
  destruct (evalRing _ _) as [d1 fx1]. cbn [fst snd] in *. injection H as <-.
  apply conserves_quiet; [|done]. rewrite H1. by eapply held_same_ring.
Qed.

Lemma install_fds m d i v v' old new rest o :
  rings d !! i = Some v -> m_fds m = option_list new ++ rest ->
  ring_files v' ++ option_list old ≡ₚ ring_files v ++ option_list new ->
  (let '(d1, fx1) := evalRing (set_ring i v' d) i in
   Ret (d1, closeFile old ++ fx1, rest, None, None)) = Ret o ->
  conserves d (m_fds m) o.
Proof.
  intros Hv -> Hf H. destruct (held_evalRing (set_ring i v' d) i) as [H1 C1].
  destruct (evalRing _ _) as [d1 fx1]. cbn [fst snd] in *. injection H as <-. cbn.
  rewrite closed_app, closed_closeFile, C1, app_nil_r, H1.
  pose proof (held_set_ring d i v v' Hv) as Hs.
  apply (Permutation_app_inv_r (ring_files v)).
  transitivity ((held (set_ring i v' d) ++ ring_files v) ++ option_list old ++ rest); [|solve_Permutation].
  rewrite Hs. transitivity ((held d ++ rest) ++ (ring_files v ++ option_list new)); [solve_Permutation|].
  rewrite <- Hf. solve_Permutation.
Qed.

Lemma setVringFD_fds m isKick d o : setVringFD m isKick d = Ret o -> conserves d (m_fds m) o.
Proof.
  unfold setVringFD. intros H. destruct (_ <? _); [same_fds|]. inv_bind H.
  destruct (ring d _) as [v|] eqn:Hv; [|same_fds]. apply ring_lookup in Hv.
  assert (Hk : forall new, ring_files (vset_kick new (match kick v with Some _ => false | None => started v end) v)
    ++ option_list (kick v) ≡ₚ ring_files v ++ option_list new) by (intros; cbn; solve_Permutation).
  assert (Hc : forall new, ring_files (vset_call new v) ++ option_list (call v) ≡ₚ ring_files v ++ option_list new)
    by (intros; cbn; solve_Permutation).
  destruct (_ =? 0).
  - destruct (m_fds m) as [|fd rest] eqn:Em; [same_fds|]. rewrite <- Em.
    destruct isKick; (eapply (install_fds m d _ v _ _ (Some fd) rest);
      [done | done | | exact H]); [apply Hk | apply Hc].
  - destruct isKick; (eapply (install_fds m d _ v _ _ None (m_fds m)); [done | done | | exact H]);
      [apply Hk | apply Hc].
Qed.

Lemma with_state_fds m d k o :
  (forall idx n, let '(d', fx, r, e) := k idx n in conserves d (m_fds m) (d', fx, m_fds m, r, e)) ->
  with_state m d k = Ret o -> conserves d (m_fds m) o.
Proof.
  intros Hk H. unfold with_state in H. inv_bind H. destruct x as [[idx n]|]; [|same_fds].
  specialize (Hk idx n). destruct (k idx n) as [[[d' fx] r] e]. by injection H as <-.
Qed.

Lemma dispatch_fds m d o : dispatch mmap pagesize m d = Ret o -> conserves d (m_fds m) o.
Proof.
  unfold dispatch, pure_state. intros H.
  destruct (_ =? reqGetFeatures); [same_fds|].
  destruct (_ =? reqSetFeatures).
  { destruct (_ <=? _); [|same_fds]. inv_bind H. destruct (negb _); same_fds. }
  destruct (_ =? reqGetProtocolFeatures); [same_fds|].
  destruct (_ =? reqSetProtocolFeatures).
  { destruct (_ <=? _); [|same_fds]. inv_bind H. same_fds. }
  destruct (_ || _); [same_fds|].
  destruct (_ =? reqResetOwner).
  { destruct (held_stopRings d) as [H1 C1]. destruct (stopRings d) as [d1 fx1]. cbn [fst snd] in *.
    injection H as <-. cbn. by rewrite H1, C1. }
  destruct (_ =? reqSetMemTable); [by eapply setMemTable_fds|].
  destruct (_ =? reqSetVringNum).
  { eapply with_state_fds; [|exact H]. intros idx n. cbv beta. destruct (ring d idx) as [v|] eqn:Hv; [|by apply conserves_same].
    apply ring_lookup in Hv. destruct (_ && _); [|by apply conserves_same]. apply conserves_same. by eapply held_same_ring. }
  destruct (_ =? reqSetVringBase).
  { eapply with_state_fds; [|exact H]. intros idx n. cbv beta. destruct (ring d idx) as [v|] eqn:Hv; [|by apply conserves_same].
    apply ring_lookup in Hv. apply conserves_same. by eapply held_same_ring. }
  destruct (_ =? reqGetVringBase).
  { eapply with_state_fds; [|exact H]. intros idx n. cbv beta. destruct (ring d idx) as [v|] eqn:Hv; [|by apply conserves_same].
    apply ring_lookup in Hv. destruct (stopRing_files v) as [F1 C1].
    destruct (stopRing v) as [v' fx]. cbn [fst snd] in *. cbn. rewrite C1.
    pose proof (held_set_ring d (Z.to_nat idx) v v' Hv) as Hs. rewrite F1, app_nil_r in Hs.
    by rewrite app_assoc, Hs. }
  destruct (_ =? reqSetVringAddr); [by eapply setVringAddr_fds|].
  destruct (_ =? reqSetVringKick); [by eapply setVringFD_fds|].
  destruct (_ =? reqSetVringCall); [by eapply setVringFD_fds|].
  destruct (_ =? reqSetVringEnable); [|same_fds].
  eapply with_state_fds; [|exact H]. intros idx n. cbv beta. destruct (ring d idx) as [v|] eqn:Hv; [|by apply conserves_same].
  apply ring_lookup in Hv. destruct (_ =? 0); [apply conserves_same; by eapply held_same_ring|].
  match goal with |- context [evalRing ?x ?i] => destruct (held_evalRing x i) as [H1 C1] end.
  destruct (evalRing _ _) as [d1 fx1]. cbn [fst snd] in *.
  apply conserves_quiet; [|done]. rewrite H1. by eapply held_same_ring.
Qed.

(** File descriptors are neither leaked nor closed twice.  Whatever a
    message asks for and whether or not it succeeds, the descriptors the device
    held before and those the message carried are, as a multiset, the ones it
    holds after and the ones it closed; and closing the session closes exactly
    what is held and leaves nothing. *)
Theorem descriptors_conserved werr m d d' fx e :
  handle mmap pagesize werr m d = Ret (d', fx, e) ->
  held d ++ m_fds m ≡ₚ held d' ++ closed fx /\
  (dclosed d' = false -> held (dev_Close d').1 = [] /\ closed (dev_Close d').2 = held d').
Proof.
  intros H. split.
  - unfold handle in H. inv_bind H. apply dispatch_fds in E. destruct x as [[[[d1 fx1] fds] r] e1]. cbn in E.
    rewrite E. destruct r; [|destruct (_ && _)]; injection H as <- <- <-;
      rewrite closed_app, ?closed_reply, closed_fds; done.
  - intros Hc. unfold dev_Close. rewrite Hc. destruct (held_stopRings d') as [H1 C1].
    destruct (stopRings d') as [d1 fx1]. done.
Qed.
End fds.

Lemma descriptors_conserved_witness :
  let d := live in
  exists d' fx e,
    handle demo_mmap 4096 None (mkMsg reqSetVringCall 1 (le_put 8 1) [21; 22]%nat) d = Ret (d', fx, e) /\
    held d ++ [21; 22]%nat ≡ₚ held d' ++ closed fx /\
    (dclosed d' = false -> held (dev_Close d').1 = [] /\ closed (dev_Close d').2 = held d').
Proof.
  intros d.
  destruct (handle demo_mmap 4096 None (mkMsg reqSetVringCall 1 (le_put 8 1) [21; 22]%nat) d)
    as [[[d' fx] e]|] eqn:E; [|vm_compute in E; discriminate E].
  exists d', fx, e. split; [reflexivity|].
  exact (descriptors_conserved demo_mmap 4096 None _ d d' fx e E).
Defined.

(** * Frames *)

(** The bytes of a list of segments, in order. *)
Fixpoint seg_bytes (st : store) (segs : list view) : bytes :=
  match segs with
  | [] => []
  | s :: segs' => (match vread st s with Ret b => b | Panic => [] end) ++ seg_bytes st segs'
  end.

Lemma total_len_acc segs n : foldl (fun n s => n + vw_len s) n segs = n + total_len segs.
Proof.
  unfold total_len. revert n. induction segs as [|s segs IH]; intros n; cbn [foldl]; [lia|].
  rewrite IH, (IH (0 + vw_len s)). lia.
Qed.

Lemma len_seg_bytes st segs :
  (forall x, x ∈ segs -> view_in st x) -> len (seg_bytes st segs) = total_len segs.
Proof.
  induction segs as [|s segs IH]; intros Hs; [done|]. unfold total_len. cbn [foldl seg_bytes].
  rewrite total_len_acc, <- IH by (intros; apply Hs; by right).
  destruct (vread_ok st s) as (b & -> & Hb); [apply Hs; by left|].
  unfold len in *. rewrite length_app. lia.
Qed.

Lemma gatherCopy_spec st segs : forall skip,
  0 <= skip -> (forall x, x ∈ segs -> view_in st x) ->
  gatherCopy st skip segs = Ret (drop (Z.to_nat skip) (seg_bytes st segs)).
Proof.
  induction segs as [|s segs IH]; intros skip Hk Hs; cbn [gatherCopy seg_bytes]; [by rewrite drop_nil|].
  assert (Hs' : forall x, x ∈ segs -> view_in st x) by (intros; apply Hs; by right).
  destruct (vread_ok st s) as (b & Eb & Hb); [apply Hs; by left|]. rewrite Eb. unfold len in Hb.
  assert (0 <= vw_len s) by lia. destruct (Z.leb_spec (vw_len s) skip).
  - rewrite IH, drop_app_ge by (done || lia). do 2 f_equal. lia.
  - rewrite bind_Ret, IH, bind_Ret, drop_app_le by (done || lia). done.
Qed.

(** The frame of a transmit chain.  For a chain of readable segments in
    mapped memory, however the bytes are split over the segments, the frame is
    the concatenation of the segments without its first twelve bytes, the
    virtio-net header; a chain that holds no more than a header, or a frame of
    more than 65535 bytes, yields none; nothing panics. *)
Theorem gather_strips_header st c :
  (forall x, x ∈ readable c -> view_in st x) ->
  let b := seg_bytes st (readable c) in
  gatherTX st c = Ret (if (12 <? len b) && (len b <=? 65547) then Some (drop 12 b) else None).
Proof.
  intros Hs b. unfold gatherTX, virtioNetHdrSize, maxFrameSize.
  rewrite <- (len_seg_bytes st) by done. fold b. rewrite gatherCopy_spec by done. fold b.
  destruct (Z.ltb_spec 12 (len b)), (Z.leb_spec (len b) 12); try lia; cbn [andb orb]; [|done].
  destruct (Z.leb_spec (len b) 65547), (Z.ltb_spec 65535 (len b - 12)); try lia; done.
Qed.

Lemma gather_strips_header_witness :
  gatherTX drain_store (mkChain 0 [mkView 0 128 5; mkView 0 133 15] []) = Ret (Some [1; 2; 3; 4; 5; 6; 7; 8]).
Proof.
  rewrite (gather_strips_header drain_store (mkChain 0 [mkView 0 128 5; mkView 0 133 15] [])).
  - vm_compute. reflexivity.
  - intros x Hx. cbn [readable] in Hx. apply list_elem_of_In in Hx.
    destruct Hx as [<-|[<-|[]]]; apply drain_view_in; lia.
Defined.

(** * Message framing *)

(** The framing round trip.  What [writeReply] puts on the stream is read
    back as one message with the request, the version and reply flags and the
    payload it was given, whatever follows it on the stream; and every proper
    prefix of it is still an incomplete message. *)
Theorem reply_roundtrip req payload rest fds :
  0 <= req < 2 ^ 32 -> len payload <= maxPayloadSize ->
  readMsg (writeReply req payload ++ rest) fds = Some (Ok (mkMsg req 5 payload fds)) /\
  forall n, (n < length (writeReply req payload))%nat -> readMsg (take n (writeReply req payload)) fds = None.
Proof.
  intros Hreq Hp. unfold maxPayloadSize in *.
  set (h := le_put 4 req ++ le_put 4 (Z.lor flagVersion1 flagReply) ++ le_put 4 (u32 (len payload))).
  assert (Hh : length h = 12%nat) by (unfold h; by rewrite !length_app, !length_le_put).
  assert (Hw : writeReply req payload = h ++ payload) by (unfold writeReply, h; by rewrite <- !app_assoc).
  assert (Hsz : forall tl, le_get (take 4 (drop 8 (h ++ tl))) = len payload).
  { intros tl. unfold h. rewrite <- !app_assoc. cbn [le_put app drop].
    change (take 4 _) with (le_put 4 (u32 (len payload))). rewrite le_get_put. unfold u32.
    unfold len in *. rewrite Z.mod_mod, Z.mod_small; lia. }
  split.
  - unfold readMsg, hdrSize, maxPayloadSize. rewrite Hw, <- app_assoc, Hsz.
    assert (Hl : len (h ++ payload ++ rest) = 12 + len payload + len rest)
      by (unfold len; rewrite !length_app; lia).
    rewrite Hl, !(proj2 (Z.ltb_ge _ _)) by (unfold len in *; lia).
    rewrite (drop_app_length' h _ 12) by lia. unfold len at 1. rewrite Nat2Z.id, take_app_length.
    unfold h. rewrite <- !app_assoc.
    change (drop 4 _) with (le_put 4 (Z.lor flagVersion1 flagReply) ++ le_put 4 (u32 (len payload)) ++ payload ++ rest).
    rewrite !take_app_length' by done. rewrite !le_get_put.
    do 3 f_equal. apply Z.mod_small. lia.
  - intros n Hn. rewrite Hw in *. rewrite length_app in Hn. unfold readMsg, hdrSize, maxPayloadSize.
    destruct (Z.ltb_spec (len (take n (h ++ payload))) 12) as [|Hge]; [done|].
    unfold len in Hge. rewrite length_take, length_app in Hge.
    rewrite take_app_ge by lia. rewrite Hsz. rewrite (proj2 (Z.ltb_ge 4096 _)) by done.
    rewrite (proj2 (Z.ltb_lt _ _)); [done|]. unfold len. rewrite length_app, length_take. lia.
Qed.

Lemma reply_roundtrip_witness :
  readMsg (writeReply 11 [1; 2; 3] ++ [9]) [] = Some (Ok (mkMsg 11 5 [1; 2; 3] [])) /\
  forall n, (n < length (writeReply 11 [1; 2; 3]%Z))%nat -> readMsg (take n (writeReply 11 [1; 2; 3])) [] = None.
Proof. apply (reply_roundtrip 11 [1; 2; 3] [9] []); unfold maxPayloadSize, len; cbn; lia. Defined.
