(* ===== verification/VhostRecv.v ===== *)
(** The receive path of the vhost-user device: a frame written by the switch is
    spread over the guest's buffers, and every buffer it used is reported. *)
From S2P Require Import Prelude VhostMem VhostDev VhostFacts VhostProps VhostDrain VhostConn.

(** * Reading what was written *)

(** The first [n] bytes of a view. *)
Definition prefix (v : view) (n : Z) : view := mkView (vw_map v) (vw_off v) n.

Lemma vread_app st m off a b d1 d2 :
  0 <= a -> 0 <= b ->
  vread st (mkView m off a) = Ret d1 -> vread st (mkView m (off + a) b) = Ret d2 ->
  vread st (mkView m off (a + b)) = Ret (d1 ++ d2).
Proof.
  intros Ha Hb. unfold vread. cbn [vw_map vw_off vw_len]. destruct (st !! m) as [x|]; [|done].
  intros (? & ? & ? & ->)%slice_inv (? & ? & ? & ->)%slice_inv. rewrite slice_ret by lia. f_equal.
  replace (Z.to_nat (off + (a + b) - off)) with (Z.to_nat (off + a - off) + Z.to_nat (off + a + b - (off + a)))%nat by lia.
  rewrite <- take_take_drop. f_equal. rewrite drop_drop. do 2 f_equal. lia.
Qed.

(** A write stores as much of the data as fits, at the start of the view. *)
Lemma vread_prefix_written st st' v d :
  vwrite st v d = Ret st' ->
  vread st' (prefix v (Z.min (vw_len v) (len d))) = Ret (take (Z.to_nat (vw_len v)) d).
Proof.
  unfold vwrite. destruct (st !! vw_map v) as [b|] eqn:Hb; [|done].
  destruct (_ && _) eqn:E; [|done]. intros [= <-]. bool_prop. unfold vread, prefix. cbn [vw_map vw_off vw_len].
  rewrite lookup_insert_eq. unfold len in *. rewrite copy_at_fits by (rewrite length_take; lia).
  rewrite slice_ret by (unfold len; rewrite ?length_app, ?length_take, ?length_drop; lia).
  f_equal. rewrite drop_app_length' by (rewrite length_take; lia).
  rewrite take_app_length' by (rewrite length_take; lia). done.
Qed.

Lemma vread_empty st v : view_in st v -> vread st (prefix v 0) = Ret [].
Proof.
  intros (b & Hb & ? & ? & ?). unfold vread, prefix. cbn [vw_map vw_off vw_len]. rewrite Hb, slice_ret by lia.
  by replace (Z.to_nat (vw_off v + 0 - vw_off v)) with 0%nat by lia.
Qed.

(** * One segment *)

(** The bytes still to be written: the rest of the header, then of the frame. *)
Definition pending (w : wstate) : bytes := make_bytes (Z.to_nat (w_hdrLeft w)) ++ w_src w.

Record w_ok (w : wstate) : Prop := {
  wk_hdr : 0 <= w_hdrLeft w;
  wk_rem : w_rem w = len (pending w);
  wk_frame : bytes_ok (w_src w);
  wk_bytes : store_bytes (w_st w)
}.

(** [w'] continues [w] after [n] bytes went into the memory of [ws]. *)
Record advanced (ws : list view) (n : Z) (w w' : wstate) : Prop := {
  av_ok : w_ok w';
  av_pending : pending w' = drop (Z.to_nat n) (pending w);
  av_agree : agree ws (w_st w) (w_st w')
}.

Lemma bytes_ok_zeros n : bytes_ok (make_bytes n).
Proof. unfold make_bytes. apply Forall_replicate. lia. Qed.

Lemma agree_write st st' v d :
  vwrite st v d = Ret st' -> store_bytes st -> bytes_ok d -> agree [v] st st'.
Proof.
  intros H Hb Hd. split; [by eapply store_bytes_write | by eapply vwrite_shape |].
  intros w ?? Hw. apply (proj1 (Forall_singleton _ _)) in Hw. by eapply vread_disjoint.
Qed.

(** Fewer views may have changed. *)
Lemma agree_weaken ws ws' st st' :
  agree ws st st' -> (forall x, apart ws' x -> apart ws x) -> agree ws' st st'.
Proof. intros H Hw. split; [apply H..|]. intros w ???. apply (ag_read _ _ _ H); [done.. | by apply Hw]. Qed.

Lemma agree_head s ws st st' : agree [s] st st' -> agree (s :: ws) st st'.
Proof. intros H. eapply agree_weaken; [exact H|]. intros x [? _]%Forall_cons. by apply Forall_singleton. Qed.

Lemma agree_tail s ws st st' : agree ws st st' -> agree (s :: ws) st st'.
Proof. intros H. eapply agree_weaken; [exact H|]. by intros x [_ ?]%Forall_cons. Qed.

Lemma apart_sub seg n x : 0 <= n <= vw_len seg -> apart [seg] x ->
  apart [mkView (vw_map seg) (vw_off seg + n) (vw_len seg - n)] x.
Proof.
  intros Hn Hx. apply (proj1 (Forall_singleton _ _)) in Hx. apply Forall_singleton. unfold disjoint_views in *. cbn. lia.
Qed.

(** What an iteration of the inner loop does, whichever source it copies from:
    [data] is what it offers to [copy], at least the next bytes pending. *)
Lemma fill_step (w w1 : wstate) seg data n1 :
  w_ok w -> view_in (w_st w) seg -> bytes_ok data -> len data <= w_rem w ->
  take (length data) (pending w) = data -> n1 = Z.min (vw_len seg) (len data) ->
  vwrite (w_st w) seg data = Ret (w_st w1) ->
  w_hdrLeft w1 + len (w_src w1) = w_rem w - n1 -> 0 <= w_hdrLeft w1 -> w_rem w1 = w_rem w - n1 ->
  pending w1 = drop (Z.to_nat n1) (pending w) -> bytes_ok (w_src w1) ->
  advanced [seg] n1 w w1 /\ vread (w_st w1) (prefix seg n1) = Ret (take (Z.to_nat n1) (pending w)).
Proof.
  intros Hw Hin Hd Hl Hp Hn1 Hwr Hsum H0 Hrem Hpend Hsrc. split.
  - split; [|done|].
    + split; [done | | done | by eapply store_bytes_write; [..|apply Hw]].
      rewrite Hrem, Hpend, wk_rem by done. unfold len in *. rewrite length_drop.
      pose proof (wk_rem w Hw). unfold len in *. destruct Hin as (b & _ & _ & ? & _). lia.
    + eapply agree_write; [done | apply Hw | done].
  - rewrite Hn1, (vread_prefix_written _ _ _ _ Hwr). f_equal. rewrite <- Hp at 1. rewrite take_take. f_equal.
    destruct Hin as (b & _ & _ & ? & _). unfold len. lia.
Qed.

Lemma advanced_trans ws n1 n2 w1 w2 w3 :
  0 <= n1 -> 0 <= n2 -> advanced ws n1 w1 w2 -> advanced ws n2 w2 w3 -> advanced ws (n1 + n2) w1 w3.
Proof.
  intros ?? [? P1 A1] [? P2 A2]. split; [done | | by eapply agree_trans].
  rewrite P2, P1, drop_drop. f_equal. lia.
Qed.

Lemma advanced_weaken ws ws' n w w' :
  advanced ws n w w' -> (forall x, apart ws' x -> apart ws x) -> advanced ws' n w w'.
Proof. intros [] Hw. split; [done..|]. by eapply agree_weaken. Qed.

(** The rest of the segment after the step. *)
Lemma fill_join seg n1 n2 w w1 w' :
  0 <= vw_off seg -> 0 <= n1 -> 0 <= n2 -> n1 + n2 <= vw_len seg ->
  let seg' := mkView (vw_map seg) (vw_off seg + n1) (vw_len seg - n1) in
  advanced [seg] n1 w w1 -> vread (w_st w1) (prefix seg n1) = Ret (take (Z.to_nat n1) (pending w)) ->
  advanced [seg'] n2 w1 w' -> vread (w_st w') (prefix seg' n2) = Ret (take (Z.to_nat n2) (pending w1)) ->
  advanced [seg] (n1 + n2) w w' /\
  vread (w_st w') (prefix seg (n1 + n2)) = Ret (take (Z.to_nat (n1 + n2)) (pending w)).
Proof.
  intros Ho H1 H2 Hl seg' A1 R1 A2 R2. split.
  - eapply advanced_trans; [done | done | done |]. eapply advanced_weaken; [done|].
    intros x Hx. apply (apart_sub seg n1); [lia | done].
  - replace (Z.to_nat (n1 + n2)) with (Z.to_nat n1 + Z.to_nat n2)%nat by lia.
    rewrite <- take_take_drop, <- (av_pending _ _ _ _ A1). apply vread_app; [lia | lia | | exact R2].
    rewrite <- R1. apply (ag_read _ _ _ (av_agree _ _ _ _ A2)); [done | done |].
    apply Forall_singleton. right. cbn. lia.
Qed.

(** The outcome of filling a segment. *)
Definition filled (seg : view) (w : wstate) (written : Z) (r : res (wstate * Z)) : Prop :=
  let n := Z.min (vw_len seg) (w_rem w) in
  exists w', r = Ret (w', written + n) /\ advanced [seg] n w w' /\
    vread (w_st w') (prefix seg n) = Ret (take (Z.to_nat n) (pending w)) /\
    w_hdrSeg w' = match w_hdrSeg w with
                  | Some s => Some s
                  | None => if (0 <? n) && (0 <? w_hdrLeft w) then Some seg else None
                  end.

Lemma filled_stop seg w written :
  w_ok w -> view_in (w_st w) seg -> Z.min (vw_len seg) (w_rem w) = 0 -> filled seg w written (Ret (w, written)).
Proof.
  intros Hw Hin E. unfold filled. rewrite E. exists w. rewrite Z.add_0_r.
  split_and!; [done | split; [done | done | apply agree_refl, Hw] | by rewrite vread_empty | by destruct (w_hdrSeg w)].
Qed.

Section continue.
Context (fuel : nat) (seg : view) (w : wstate) (written : Z).
Context (IH : forall seg w written, w_ok w -> view_in (w_st w) seg -> (Z.to_nat (vw_len seg) <= fuel)%nat ->
  0 <= written -> written + w_rem w < 2 ^ 32 -> filled seg w written (fillSeg fuel seg w written)).
Context (Hw : w_ok w) (Hin : view_in (w_st w) seg) (Hf : (Z.to_nat (vw_len seg) <= S fuel)%nat).
Context (Hw0 : 0 <= written) (Hw1 : written + w_rem w < 2 ^ 32) (Hl : 0 < vw_len seg).

Lemma filled_step data hl src hs n1 :
  bytes_ok data -> 0 < len data <= w_rem w -> take (length data) (pending w) = data ->
  n1 = Z.min (vw_len seg) (len data) -> 0 <= hl -> bytes_ok src ->
  make_bytes (Z.to_nat hl) ++ src = drop (Z.to_nat n1) (pending w) ->
  hs = (match w_hdrSeg w with Some s => Some s | None => if 0 <? w_hdrLeft w then Some seg else None end) ->
  (hs = None -> hl = 0) ->
  filled seg w written
    (st ← vwrite (w_st w) seg data;
     seg' ← vslice seg n1 (vw_len seg);
     fillSeg fuel seg' (mkW st src hl hs (w_rem w - n1)) (u32 (written + n1))).
Proof using IH Hw Hin Hf Hw0 Hw1 Hl.
  intros Hd Hlen Htake Hn1 Hhl Hsrc Hpend Hhs Hhs0. pose proof Hin as (b & Hb & Ho & Hsl & Hfit).
  destruct (vwrite_ok (w_st w) seg data Hin) as [st1 Hwr]. rewrite Hwr, bind_Ret, vslice_ret, bind_Ret by lia.
  set (w1 := mkW st1 src hl hs (w_rem w - n1)). set (seg' := mkView _ _ _).
  rewrite u32_small by lia. pose proof (wk_rem w Hw) as Hrem.
  assert (Hlp : len (pending w1) = w_rem w - n1).
  { unfold pending, w1. cbn [w_hdrLeft w_src]. rewrite Hpend. unfold len in *. rewrite length_drop. lia. }
  destruct (fill_step w w1 seg data n1) as [A1 R1]; try done; [lia | | ].
  { cbn [w1 w_hdrLeft w_src]. rewrite <- Hlp. unfold pending, w1, len, make_bytes. cbn [w_hdrLeft w_src].
    rewrite length_app, length_replicate. lia. }
  destruct (IH seg' w1 (written + n1)) as (w' & E & A2 & R2 & S2).
  - apply A1.
  - eapply view_in_shape; [apply (ag_shape _ _ _ (av_agree _ _ _ _ A1))|]. exists b. cbn. split_and!; try done; lia.
  - cbn. lia.
  - lia.
  - cbn. lia.
  - assert (Hn : n1 + Z.min (vw_len seg') (w_rem w1) = Z.min (vw_len seg) (w_rem w)) by (cbn; lia).
    destruct (fill_join seg n1 (Z.min (vw_len seg') (w_rem w1)) w w1 w' Ho) as [A R]; try done; [lia | cbn; lia | cbn; lia |].
    rewrite Hn in A, R. exists w'. split_and!; [by rewrite E, <- Hn, Z.add_assoc | done | done |].
    rewrite S2. cbn [w1 w_hdrSeg w_hdrLeft]. rewrite (proj2 (Z.ltb_lt 0 (Z.min (vw_len seg) (w_rem w)))) by lia.
    cbn [andb]. rewrite <- Hhs. destruct hs; [done|]. rewrite Hhs0 by done. by rewrite andb_false_r.
Qed.
End continue.

Lemma fillSeg_spec fuel : forall seg w written,
  w_ok w -> view_in (w_st w) seg -> (Z.to_nat (vw_len seg) <= fuel)%nat ->
  0 <= written -> written + w_rem w < 2 ^ 32 -> filled seg w written (fillSeg fuel seg w written).
Proof.
  induction fuel as [|fuel IH]; intros seg w written Hw Hin Hf Hw0 Hw1; pose proof Hin as (b & Hb & Ho & Hlen & Hfit);
    pose proof (wk_rem w Hw) as Hrem; assert (Hrem0 : 0 <= w_rem w) by (unfold len in Hrem; lia).
  { apply filled_stop; [done | done | lia]. }
  cbn [fillSeg]. destruct (Z.ltb_spec 0 (vw_len seg)) as [Hl|]; cbn [andb]; [|apply filled_stop; done || lia].
  destruct (Z.ltb_spec 0 (w_rem w)) as [Hr|]; [|apply filled_stop; done || lia].
  pose proof (wk_hdr w Hw) as Hh0.
  assert (Hlp : len (pending w) = w_hdrLeft w + len (w_src w)).
  { unfold pending, len, make_bytes. rewrite length_app, length_replicate. lia. }
  destruct (Z.ltb_spec 0 (w_hdrLeft w)) as [Hh|Hh].
  - assert (Hlz : len (make_bytes (Z.to_nat (w_hdrLeft w))) = w_hdrLeft w)
      by (unfold len, make_bytes; rewrite length_replicate; lia).
    apply filled_step; try done.
    + apply bytes_ok_zeros.
    + rewrite Hlz. unfold len in *. lia.
    + unfold pending. by rewrite take_app_length.
    + by rewrite Hlz.
    + lia.
    + apply Hw.
    + unfold pending, make_bytes. rewrite drop_app_le by (rewrite length_replicate; lia).
      rewrite drop_replicate. do 3 f_equal. lia.
    + by rewrite (proj2 (Z.ltb_lt _ _) Hh).
    + by destruct (w_hdrSeg w).
  - assert (Hz : w_hdrLeft w = 0) by lia.
    assert (Hps : pending w = w_src w) by (unfold pending; by rewrite Hz).
    rewrite Hps in *. rewrite slice_from_ret by lia.
    apply (filled_step fuel seg w written IH Hw Hin Hf Hw0 Hw1 Hl (w_src w) (w_hdrLeft w)
      (drop (Z.to_nat (Z.min (vw_len seg) (len (w_src w)))) (w_src w)) (w_hdrSeg w)); try done.
    + apply Hw.
    + lia.
    + rewrite Hps. by rewrite take_ge.
    + apply bytes_ok_drop, Hw.
    + by rewrite Hps, Hz.
    + rewrite Hz. by destruct (w_hdrSeg w).
Qed.

(** * The segments of a chain *)

(** The parts of the segments that [rem] bytes occupy. *)
Fixpoint pieces (segs : list view) (rem : Z) : list view :=
  match segs with
  | [] => []
  | s :: segs' =>
      let n := Z.min (vw_len s) rem in
      prefix s n :: (if rem - n =? 0 then [] else pieces segs' (rem - n))
  end.

Fixpoint pairwise (segs : list view) : Prop :=
  match segs with [] => True | s :: segs' => Forall (disjoint_views s) segs' /\ pairwise segs' end.

Lemma disjoint_sym v w : disjoint_views v w -> disjoint_views w v.
Proof. unfold disjoint_views. intros [?|?]; [left; congruence | right; lia]. Qed.

Lemma apart_prefix s n segs :
  Forall (disjoint_views s) segs -> 0 <= n <= vw_len s -> apart segs (prefix s n).
Proof.
  intros Hd Hn. eapply Forall_impl; [exact Hd|]. intros x Hx. cbv beta in *.
  apply (disjoint_within x s); [by apply disjoint_sym | done | cbn; lia..].
Qed.

Lemma seg_bytes_agree st st' ws segs :
  agree ws st st' -> (forall x, x ∈ segs -> apart ws x /\ 0 <= vw_off x /\ 0 <= vw_len x) ->
  seg_bytes st' segs = seg_bytes st segs.
Proof.
  intros Hag. induction segs as [|s segs IH]; intros Hs; cbn [seg_bytes]; [done|].
  rewrite IH by (intros; apply Hs; by right). destruct (Hs s) as (? & ? & ?); [by left|].
  by rewrite (ag_read _ _ _ Hag).
Qed.

Lemma seg_bytes_app st a b : seg_bytes st (a ++ b) = seg_bytes st a ++ seg_bytes st b.
Proof. induction a as [|s a IH]; cbn [app seg_bytes]; [done|]. by rewrite IH, app_assoc. Qed.

Lemma total_len_cons s segs : total_len (s :: segs) = vw_len s + total_len segs.
Proof. unfold total_len at 1. cbn [foldl]. rewrite total_len_acc. lia. Qed.

Lemma total_len_nonneg st segs : Forall (usable st) segs -> 0 <= total_len segs.
Proof.
  induction 1 as [|s segs [_ ?] _ IH]; [done|]. rewrite total_len_cons. lia.
Qed.

Lemma fillSegs_spec segs : forall w written,
  w_ok w -> 0 < w_rem w -> (w_hdrSeg w = None -> 0 < w_hdrLeft w) ->
  Forall (usable (w_st w)) segs -> pairwise segs -> 0 <= written -> written + w_rem w < 2 ^ 32 ->
  let m := Z.min (total_len segs) (w_rem w) in
  exists w', fillSegs segs w written = Ret (w', written + m) /\ advanced segs m w w' /\
    seg_bytes (w_st w') (pieces segs (w_rem w)) = take (Z.to_nat m) (pending w) /\
    w_hdrSeg w' = match w_hdrSeg w with Some s => Some s | None => head segs end.
Proof.
  induction segs as [|s segs IH]; intros w written Hw Hr Hhs Hu Hpw Hw0 Hw1 m.
  { exists w. replace m with 0 by (unfold m, total_len; cbn; lia). rewrite Z.add_0_r.
    split_and!; [done | split; [done | done | apply agree_refl, Hw] | done | by destruct (w_hdrSeg w)]. }
  apply Forall_cons in Hu as [[Hin Hpos] Hu]. destruct Hpw as [Hds Hpw]. cbn [fillSegs].
  destruct (fillSeg_spec (Z.to_nat (vw_len s)) s w written Hw Hin ltac:(lia) Hw0 Hw1) as (w1 & E1 & A1 & R1 & S1).
  set (n := Z.min (vw_len s) (w_rem w)) in *. assert (Hn : 0 < n) by lia.
  rewrite E1, bind_Ret. pose proof Hin as (b & _ & Ho & _).
  assert (Hr1 : w_rem w1 = w_rem w - n).
  { rewrite (wk_rem w1) by apply A1. rewrite (av_pending _ _ _ _ A1), (wk_rem w Hw). unfold len. rewrite length_drop.
    pose proof (wk_rem w Hw). unfold len in *. lia. }
  assert (Hs1 : w_hdrSeg w1 = match w_hdrSeg w with Some s => Some s | None => Some s end).
  { rewrite S1. destruct (w_hdrSeg w); [done|]. rewrite !(proj2 (Z.ltb_lt _ _)) by (done || by apply Hhs). done. }
  assert (Hws : forall x, apart (s :: segs) x -> apart [s] x) by (intros x [? _]%Forall_cons; by apply Forall_singleton).
  cbn [pieces]. fold n. cbn [seg_bytes]. rewrite Hr1. pose proof (total_len_nonneg _ segs Hu) as Hnn.
  destruct (Z.eqb_spec (w_rem w - n) 0) as [H0|H0].
  - assert (Hm : m = n) by (unfold m; rewrite total_len_cons; lia). rewrite Hm.
    exists w1. split_and!; [done | by eapply advanced_weaken | by rewrite R1, app_nil_r |].
    rewrite Hs1. by destruct (w_hdrSeg w).
  - destruct (IH w1 (written + n)) as (w' & E2 & A2 & R2 & S2); try done; try lia.
    + apply A1.
    + rewrite Hs1. by destruct (w_hdrSeg w).
    + eapply Forall_impl; [exact Hu|]. intros x [? ?]. split; [|done].
      eapply view_in_shape; [apply (ag_shape _ _ _ (av_agree _ _ _ _ A1)) | done].
    + rewrite Hr1 in *. set (m' := Z.min (total_len segs) (w_rem w - n)) in *.
      assert (Hm : m = n + m') by (unfold m, m'; rewrite total_len_cons; lia).
      assert (Hm0 : 0 <= m') by (unfold m'; lia).
      exists w'. rewrite E2, Hm, Z.add_assoc. split_and!; [done | | |].
      * eapply advanced_trans; [lia | done | by eapply advanced_weaken |].
        eapply advanced_weaken; [exact A2|]. by intros x [_ ?]%Forall_cons.
      * replace (Z.to_nat (n + m')) with (Z.to_nat n + Z.to_nat m')%nat by lia.
        rewrite R2, (av_pending _ _ _ _ A1), <- take_take_drop. f_equal.
        rewrite (ag_read _ _ _ (av_agree _ _ _ _ A2)); [by rewrite R1 | done | cbn; lia |].
        apply apart_prefix; [done | lia].
      * rewrite S2, Hs1. by destruct (w_hdrSeg w).
Qed.

Lemma length_seg_bytes st segs :
  Forall (usable st) segs -> Z.of_nat (length (seg_bytes st segs)) = total_len segs.
Proof. rewrite Forall_forall. intros Hu. apply (len_seg_bytes st segs). intros x Hx. by apply Hu. Qed.

Lemma vread_prefix st v n d : 0 <= n <= vw_len v -> vread st v = Ret d -> vread st (prefix v n) = Ret (take (Z.to_nat n) d).
Proof.
  unfold vread, prefix. cbn [vw_map vw_off vw_len]. destruct (st !! vw_map v); [|done].
  intros Hn (? & ? & ? & ->)%slice_inv. rewrite slice_ret by lia. rewrite take_take. do 2 f_equal. lia.
Qed.

(** The pieces hold the first bytes of the segments. *)
Lemma pieces_bytes st segs : forall rem,
  Forall (usable st) segs -> 0 < rem -> seg_bytes st (pieces segs rem) = take (Z.to_nat rem) (seg_bytes st segs).
Proof.
  induction segs as [|s segs IH]; intros rem Hu Hr; cbn [pieces seg_bytes]; [by rewrite take_nil|].
  apply Forall_cons in Hu as [[Hin Hpos] Hu]. destruct (vread_ok st s Hin) as (d & Hd & Hl).
  rewrite (vread_prefix st s _ d), Hd by (done || lia). unfold len in Hl.
  destruct (Z.eqb_spec (rem - Z.min (vw_len s) rem) 0); cbn [seg_bytes].
  - rewrite app_nil_r, take_app_le by lia. f_equal. lia.
  - rewrite IH by (done || lia). rewrite (take_ge d) by lia. rewrite take_app_ge by lia. do 2 f_equal. lia.
Qed.

(** * Handing chains back *)

(** The memory of element [k] of the used ring. *)
Definition elemViews (vu : view) (k : Z) : list view := [usedView vu (4 + 8 * k); usedView vu (4 + 8 * k + 4)].

Ltac each_view := repeat first [apply Forall_nil_2 | apply Forall_cons_2].

Lemma agree_used vu k st st' : 0 <= k -> 4 + 8 * k + 8 <= vw_len vu -> agree (elemViews vu k) st st' -> agree [vu] st st'.
Proof.
  intros Hk Hl Hag. eapply agree_weaken; [exact Hag|]. intros x Hx. apply (proj1 (Forall_singleton _ _)) in Hx.
  each_view; unfold disjoint_views, usedView in *; cbn [vw_map vw_off vw_len]; lia.
Qed.

Lemma usedElem_agree vu ws st st' k :
  agree ws st st' -> 0 <= vw_off vu -> 0 <= k -> (forall off, off = 4 + 8 * k \/ off = 4 + 8 * k + 4 -> apart ws (usedView vu off)) ->
  usedElem st' vu k = usedElem st vu k.
Proof.
  intros Hag Ho Hk Ha. unfold usedElem.
  rewrite !(ag_read _ _ _ Hag) by (try (apply Ha; lia); cbn [usedView vw_off vw_len]; lia). done.
Qed.

Lemma used_bounds st v vd va vu :
  ring_sized st v vd va vu -> 0 <= vw_off vu /\ 4 + 8 * num v <= vw_len vu /\ 0 < num v <= 32768.
Proof.
  intros Hr. pose proof (rz_in_used _ _ _ _ _ Hr) as (b & _ & ? & _). split_and!; [done | apply Hr..].
Qed.

Section publish.
Context (v : vring) (vd va vu : view).

Lemma setUsedElem_ok st slot head written :
  store_bytes st -> ring_sized st v vd va vu -> 0 <= slot < 65536 ->
  let k := (usedIdx v + slot) mod num v in
  exists st', setUsedElem st v slot head written = Ret st' /\ agree (elemViews vu k) st st' /\
    usedElem st' vu k = Ret (head mod 2 ^ 32, written mod 2 ^ 32).
Proof.
  intros Hb Hr Hs k. rewrite (setUsedElem_eq st v vd va vu Hr) by done. cbv zeta. fold k.
  assert (Hk : 0 <= k /\ 4 + 8 * k + 8 <= vw_len vu /\ 0 <= vw_off vu).
  { pose proof (used_bounds _ _ _ _ _ Hr). pose proof (Z.mod_pos_bound (usedIdx v + slot) (num v)). lia. }
  clearbody k.
  destruct (vwrite_ok st (usedView vu (4 + 8 * k)) (le_put 4 head)) as [s1 E1].
  { eapply usedView_in; [done..| |]; lia || done. }
  pose proof (agree_write _ _ _ _ E1 Hb (bytes_ok_le_put _ _)) as A1.
  destruct (vwrite_ok s1 (usedView vu (4 + 8 * k + 4)) (le_put 4 written)) as [s2 E2].
  { eapply usedView_in; [exact Hr | apply A1 | lia..]. }
  pose proof (agree_write _ _ _ _ E2 (ag_bytes _ _ _ A1) (bytes_ok_le_put _ _)) as A2.
  exists s2. rewrite E1, bind_Ret, E2. split_and!; [done | |].
  - eapply agree_trans; (eapply agree_weaken; [done|]); intros x Hx; unfold elemViews in Hx;
      repeat (apply Forall_cons in Hx as [? Hx]); by apply Forall_singleton.
  - unfold usedElem. rewrite (ag_read _ _ _ A2 (usedView vu (4 + 8 * k))), (vread_written _ _ _ _ E1), (vread_written _ _ _ _ E2), !bind_Ret, !le_get_put
      by (done || (cbn [usedView vw_off vw_len]; lia) || (apply Forall_singleton, usedView_apart; lia)).
    done.
Qed.

(** Distinct slots of a ring no longer than the ring. *)
Lemma slot_ne (a n i k : Z) : 0 < n -> 0 < k < n -> (a + i + k) mod n <> (a + i) mod n.
Proof.
  intros Hn Hk E. replace k with (k - 1 + 1) in E by lia. revert E. apply mod_shift_ne. lia.
Qed.

Lemma setUsedElems_ok us : forall st i,
  store_bytes st -> ring_sized st v vd va vu -> Z.of_nat i + Z.of_nat (length us) <= num v ->
  exists st', setUsedElems st v i us = Ret st' /\ agree [vu] st st' /\
    (forall j, 0 <= j < num v -> (forall k, (k < length us)%nat -> (usedIdx v + Z.of_nat (i + k)) mod num v <> j) ->
      usedElem st' vu j = usedElem st vu j) /\
    (forall k h n, us !! k = Some (h, n) ->
      usedElem st' vu ((usedIdx v + Z.of_nat (i + k)) mod num v) = Ret (h mod 2 ^ 32, n mod 2 ^ 32)).
Proof.
  induction us as [|[head written] us IH]; intros st i Hb Hr Hlen; cbn [setUsedElems length] in *.
  { exists st. split_and!; [done | by apply agree_refl | done | done]. }
  assert (Hn : 0 < num v <= 32768) by apply Hr.
  rewrite u16_small by lia.
  destruct (setUsedElem_ok st (Z.of_nat i) head written Hb Hr) as (s1 & E1 & A1 & U1); [lia|]. cbv zeta in A1, U1.
  pose proof (Z.mod_pos_bound (usedIdx v + Z.of_nat i) (num v) ltac:(lia)) as Hk.
  set (k0 := (usedIdx v + Z.of_nat i) mod num v) in *.
  pose proof (used_bounds _ _ _ _ _ Hr) as Ho.
  assert (A1' : agree [vu] st s1) by (eapply agree_used; [| |exact A1]; lia).
  assert (Hr1 : ring_sized s1 v vd va vu) by (eapply ring_sized_agree; [done | exact A1' | done | apply Hr..]).
  destruct (IH s1 (S i) (ag_bytes _ _ _ A1) Hr1) as (s2 & E2 & A2 & O2 & U2); [lia|].
  exists s2. rewrite E1, bind_Ret, E2. split_and!; [done | by eapply agree_trans | |].
  - intros j Hj Hne. rewrite O2; [|done|].
    + eapply usedElem_agree; [exact A1 | lia | lia |]. specialize (Hne 0%nat). rewrite Nat.add_0_r in Hne.
      fold k0 in Hne. intros off Hoff. each_view; apply usedView_apart; destruct Hoff; lia || (specialize (Hne ltac:(lia)); lia).
    + intros k Hk'. replace (S i + k)%nat with (i + S k)%nat by lia. apply Hne. lia.
  - intros k h n Hl. destruct k as [|k]; cbn [lookup list_lookup] in Hl.
    + injection Hl as <- <-. rewrite Nat.add_0_r. fold k0. rewrite O2; [exact U1 | lia |].
      intros k Hk'. unfold k0. replace (usedIdx v + Z.of_nat (S i + k)) with (usedIdx v + Z.of_nat i + (Z.of_nat k + 1)) by lia.
      apply slot_ne; lia.
    + rewrite <- (U2 k h n Hl). do 3 f_equal. lia.
Qed.

(** Chains [us] are in the used ring, and the index covers them. *)
Definition published (us : list (Z * Z)) (st' : store) (v' : vring) : Prop :=
  v' = vset_used (u16 (usedIdx v + Z.of_nat (length us))) v /\
  vread st' (usedView vu 0) = Ret (le_put 4 (u32 (Z.shiftl (usedIdx v') 16))) /\
  (forall k h n, us !! k = Some (h, n) ->
    usedElem st' vu ((usedIdx v + Z.of_nat k) mod num v) = Ret (h mod 2 ^ 32, n mod 2 ^ 32)).

Lemma publish_ok st us :
  store_bytes st -> ring_sized st v vd va vu -> Z.of_nat (length us) <= num v ->
  exists st' v' fx, publish st v us = Ret (st', v', fx) /\ agree [vu] st st' /\ published us st' v'.
Proof.
  intros Hb Hr Hlen. destruct (setUsedElems_ok us st 0 Hb Hr) as (s1 & E1 & A1 & _ & U1); [done|].
  pose proof (used_bounds _ _ _ _ _ Hr) as (? & ? & ?).
  unfold publish, usedCount. rewrite E1, bind_Ret, (publishUsed_eq st v vd va vu Hr).
  rewrite (u16_small (Z.of_nat _)) by lia. set (u' := u16 (usedIdx v + _)).
  destruct (vwrite_ok s1 (usedView vu 0) (le_put 4 (u32 (Z.shiftl u' 16)))) as [s2 E2].
  { eapply usedView_in; [exact Hr | apply A1 | lia..]. }
  pose proof (agree_write _ _ _ _ E2 (ag_bytes _ _ _ A1) (bytes_ok_le_put _ _)) as A2.
  assert (A : agree [vu] st s2).
  { eapply agree_trans; [done|]. eapply agree_weaken; [done|]. intros x Hx. apply (proj1 (Forall_singleton _ _)) in Hx.
    each_view. unfold disjoint_views, usedView in *; cbn [vw_map vw_off vw_len]; lia. }
  rewrite E2, !bind_Ret. cbn [fst snd].
  destruct (notify_total vd va vu s2 (vset_used u' v)) as [o ->].
  { eapply ring_sized_agree; [done | exact A | done | apply Hr | apply u16_range]. }
  rewrite bind_Ret. eexists _, _, _. split_and!; [done | done |]. split_and!; [done | by apply (vread_written _ _ _ _ E2) |].
  intros k h n Hk. rewrite <- (U1 k h n Hk). eapply usedElem_agree; [exact A2 | done | apply Z.mod_pos_bound; lia |].
  cbn [Nat.add] in *. pose proof (Z.mod_pos_bound (usedIdx v + Z.of_nat k) (num v) ltac:(lia)). intros off Hoff. each_view. apply usedView_apart. lia.
Qed.
End publish.

(** * The buffer loop *)

(** What the driver offers: for each entry, the head of a chain and the
    chain's writable segments. *)
Abbreviation offers := (list (Z * list view)) (only parsing).

Definition bufs (os : offers) : list view := concat os.*2.

(** The record of the used chains when [rem] bytes are written into [os]. *)
Fixpoint taken (os : offers) (rem : Z) : list (Z * Z) :=
  match os with
  | [] => []
  | (h, segs) :: os' =>
      if 0 <? rem then (h, Z.min (total_len segs) rem) :: taken os' (rem - Z.min (total_len segs) rem) else []
  end.

(** The chains one frame may use: all with mergeable buffers, else the first. *)
Definition allowed (mrg : bool) (used : nat) (os : offers) : offers := if mrg then os else take (1 - used) os.

Definition offer_at (st : store) (v : vring) (t : memTable) (e : Z) (o : Z * list view) : Prop :=
  availEntry st v e = Ret o.1 /\ exists c, resolveChain st v t o.1 = Ret (Ok c) /\ writable c = o.2.

Lemma total_len_app a b : total_len (a ++ b) = total_len a + total_len b.
Proof. unfold total_len at 1. rewrite foldl_app, total_len_acc. by rewrite Z.add_comm, Z.add_comm. Qed.

Lemma pairwise_app a b : pairwise (a ++ b) -> pairwise a /\ pairwise b /\ Forall (fun x => Forall (disjoint_views x) b) a.
Proof.
  induction a as [|x a IH]; cbn [app pairwise]; [done|]. intros [[? ?]%Forall_app (? & ? & ?)%IH].
  split_and!; [done..|]. by constructor.
Qed.

Lemma usable_agree ws st st' segs : agree ws st st' -> Forall (usable st) segs -> Forall (usable st') segs.
Proof.
  intros Hag Hu. eapply Forall_impl; [exact Hu|]. intros x [? ?]. split; [|done].
  eapply view_in_shape; [apply (ag_shape _ _ _ Hag) | done].
Qed.

Lemma advanced_refl ws w : w_ok w -> advanced ws 0 w w.
Proof. intros Hw. split; [done | done | apply agree_refl, Hw]. Qed.

Lemma advanced_rem ws n w w' : w_ok w -> 0 <= n <= w_rem w -> advanced ws n w w' -> w_rem w' = w_rem w - n.
Proof.
  intros Hw Hn A. rewrite (wk_rem w') by apply A. rewrite (av_pending _ _ _ _ A).
  pose proof (wk_rem w Hw). unfold len in *. rewrite length_drop. lia.
Qed.

Lemma rem_nonneg w : w_ok w -> 0 <= w_rem w.
Proof. intros Hw. rewrite (wk_rem w Hw). unfold len. lia. Qed.

(** Two stretches of buffers, the second untouched while the first is filled
    and the first apart from the second. *)
Lemma filled_app st1 st' A B m1 m2 pend :
  agree B st1 st' -> Forall (fun x => Forall (disjoint_views x) B) A -> Forall (usable st1) A -> Forall (usable st1) B ->
  0 <= m1 <= total_len A -> 0 <= m2 -> (0 < m2 -> m1 = total_len A) ->
  take (Z.to_nat m1) (seg_bytes st1 A) = take (Z.to_nat m1) pend ->
  take (Z.to_nat m2) (seg_bytes st' B) = take (Z.to_nat m2) (drop (Z.to_nat m1) pend) ->
  take (Z.to_nat (m1 + m2)) (seg_bytes st' (A ++ B)) = take (Z.to_nat (m1 + m2)) pend.
Proof.
  intros Hag HAB HA HB Hm1 Hm2 Hfull H1 H2. rewrite seg_bytes_app.
  assert (EA : seg_bytes st' A = seg_bytes st1 A).
  { eapply seg_bytes_agree; [exact Hag|]. intros x Hx. rewrite Forall_forall in HAB, HA.
    destruct (HA x Hx) as [(b & _ & ? & ? & _) _]. split_and!; [|done..].
    eapply Forall_impl; [by apply HAB|]. intros y. apply disjoint_sym. }
  rewrite EA. pose proof (length_seg_bytes st1 A HA) as HL.
  replace (Z.to_nat (m1 + m2)) with (Z.to_nat m1 + Z.to_nat m2)%nat by lia. rewrite <- (take_take_drop pend).
  destruct (decide (m2 = 0)) as [->|].
  - rewrite Nat.add_0_r, take_app_le, H1 by lia. by rewrite app_nil_r.
  - rewrite <- H1, <- H2. rewrite (take_ge (seg_bytes st1 A)) by (specialize (Hfull ltac:(lia)); lia).
    rewrite take_app_ge by (specialize (Hfull ltac:(lia)); lia). do 2 f_equal. specialize (Hfull ltac:(lia)). lia.
Qed.

Section loop.
Context (st0 : store) (v0 : vring) (vd va vu : view) (t : memTable) (mrg : bool) (ws : list view).
Context (Hb : store_bytes st0) (Hr : ring_sized st0 v0 vd va vu) (Ht : whole_table st0 t) (Hw : no_wrap st0 v0).
Context (Hdesc : apart ws vd) (Havail : apart ws va).

(** Taking the next chain. *)
Lemma next_chain v w e o :
  ring_base v = ring_base v0 -> agree ws st0 (w_st w) -> offer_at st0 v0 t (lastAvail v) o ->
  availIdx st0 v0 = Ret e -> lastAvail v <> e ->
  exists c, popAvail (w_st w) v = Ret (vset_avail (u16 (lastAvail v + 1)) v, Some o.1) /\
    resolveChain (w_st w) (vset_avail (u16 (lastAvail v + 1)) v) t o.1 = Ret (Ok c) /\ writable c = o.2.
Proof using Hb Hr Hdesc Havail.
  intros Hbase Hag [Ha (c & Hc & Hwr)] Hi Hne. exists c. split_and!; [| | done].
  - unfold popAvail. rewrite (availIdx_agree st0 _ v0 v vd va vu ws Hr Hag Hbase Havail), Hi, bind_Ret.
    by rewrite (proj2 (Z.eqb_neq _ _) Hne), (availEntry_agree st0 _ v0 v vd va vu ws Hr Hag Hbase Havail), Ha, bind_Ret.
  - rewrite <- Hc. eapply resolveChain_agree; [exact Hr | exact Hag | exact Hbase | done | done |].
    destruct (availEntry_total st0 v0 vd va vu Hb Hr (lastAvail v)) as (h & Eh & ?). rewrite Ha in Eh. injection Eh as ->. lia.
Qed.

Lemma no_chain v w :
  ring_base v = ring_base v0 -> agree ws st0 (w_st w) -> availIdx st0 v0 = Ret (lastAvail v) ->
  popAvail (w_st w) v = Ret (v, None).
Proof using Hr Havail.
  intros Hbase Hag Hi. unfold popAvail.
  by rewrite (availIdx_agree st0 _ v0 v vd va vu ws Hr Hag Hbase Havail), Hi, bind_Ret, Z.eqb_refl.
Qed.

Definition loop_done (os : offers) (v : vring) (w : wstate) (us : list (Z * Z)) (r : option (res wend)) : Prop :=
  let al := allowed mrg (length us) os in
  let m := Z.min (total_len (bufs al)) (w_rem w) in
  let us' := taken al (w_rem w) in
  exists w', r = Some (Ret (WStop (vset_avail (u16 (lastAvail v + Z.of_nat (length us'))) v) w' (us ++ us'))) /\
    advanced (bufs al) m w w' /\
    take (Z.to_nat m) (seg_bytes (w_st w') (bufs al)) = take (Z.to_nat m) (pending w) /\
    w_hdrSeg w' = match w_hdrSeg w with Some s => Some s | None => head (bufs al) end.

Lemma loop_stop os v w us :
  w_ok w -> 0 <= lastAvail v < 65536 -> (w_hdrSeg w = None -> 0 < w_hdrLeft w) ->
  w_rem w = 0 \/ allowed mrg (length us) os = [] ->
  Forall (usable (w_st w)) (bufs (allowed mrg (length us) os)) ->
  loop_done os v w us (Some (Ret (WStop v w us))).
Proof using.
  intros Hok Hl Hhs Hstop Hu. exists w.
  assert (Hm : Z.min (total_len (bufs (allowed mrg (length us) os))) (w_rem w) = 0).
  { pose proof (total_len_nonneg _ _ Hu). pose proof (rem_nonneg w Hok). destruct Hstop as [?| ->]; [lia|]. cbn. lia. }
  assert (Ht' : taken (allowed mrg (length us) os) (w_rem w) = []).
  { destruct Hstop as [->| ->]; [|done]. by destruct (allowed _ _ _) as [|[? ?] ?]. }
  rewrite Hm, Ht', app_nil_r. cbn [length Z.of_nat]. rewrite Z.add_0_r, u16_small by done.
  split_and!; [by destruct v | by apply advanced_refl | done |].
  destruct (w_hdrSeg w) eqn:E; [done|]. destruct Hstop as [H0| ->]; [|done].
  specialize (Hhs eq_refl). rewrite (wk_rem w Hok) in H0. unfold pending, len, make_bytes in H0.
  rewrite length_app, length_replicate in H0. lia.
Qed.

(** The standing conditions at the head of the loop, with [os] still on offer. *)
Record loop_inv (os : offers) (v : vring) (w : wstate) (us : list (Z * Z)) : Prop := {
  li_base : ring_base v = ring_base v0;
  li_cursor : 0 <= lastAvail v < 65536;
  li_agree : agree ws st0 (w_st w);
  li_offers : Forall2 (offer_at st0 v0 t) (entries (lastAvail v) (length os)) os;
  li_count : availIdx st0 v0 = Ret (u16 (lastAvail v + Z.of_nat (length os)));
  li_few : Z.of_nat (length os) < 65536;
  li_w : w_ok w;
  li_hdr : w_hdrSeg w = None -> 0 < w_hdrLeft w;
  li_rem : w_rem w < 2 ^ 32;
  li_single : mrg = false -> (length us <= 1)%nat;
  li_apart : forall x, apart ws x -> apart (bufs os) x;
  li_pairwise : pairwise (bufs os);
  li_usable : Forall (usable st0) (bufs os)
}.

Lemma bufs_cons h segs os : bufs ((h, segs) :: os) = segs ++ bufs os.
Proof. done. Qed.

Lemma allowed_cons n o os :
  mrg = true \/ n = 0%nat -> allowed mrg n (o :: os) = o :: allowed mrg (n + 1) os.
Proof. unfold allowed. destruct mrg; [done|]. intros [?| ->]; [done|]. cbn. by rewrite take_0. Qed.

Lemma allowed_prefix n os : exists rest, bufs os = bufs (allowed mrg n os) ++ rest.
Proof.
  unfold allowed, bufs. destruct mrg; [exists []; by rewrite app_nil_r|].
  exists (concat (drop (1 - n) os).*2). by rewrite <- concat_app, <- fmap_app, take_drop.
Qed.

Lemma allowed_usable os v w us :
  loop_inv os v w us -> Forall (usable (w_st w)) (bufs (allowed mrg (length us) os)).
Proof.
  intros Hi. eapply usable_agree; [apply Hi|]. pose proof (li_usable _ _ _ _ Hi) as Hu.
  destruct (allowed_prefix (length us) os) as [rest E]. rewrite E in Hu. by apply Forall_app in Hu as [? _].
Qed.

(** After the chain [segs] took its share. *)
Lemma loop_inv_next h segs os v w us w1 m1 :
  loop_inv ((h, segs) :: os) v w us -> 0 < w_rem w -> mrg = true \/ length us = 0%nat ->
  m1 = Z.min (total_len segs) (w_rem w) -> advanced segs m1 w w1 ->
  (w_hdrSeg w1 = None -> w1 = w) ->
  loop_inv os (vset_avail (u16 (lastAvail v + 1)) v) w1 (us ++ [(h, m1)]).
Proof.
  intros [] Hrem Hgo Hm1 A1 Hs1. rewrite bufs_cons in *. cbn [length] in *.
  apply Forall_app in li_usable0 as [Hus Huo]. apply pairwise_app in li_pairwise0 as (Hps & Hpo & _).
  pose proof (total_len_nonneg _ _ Hus). pose proof (advanced_rem _ m1 w w1 li_w0 ltac:(lia) A1) as Hr1.
  split; cbn [vset_avail lastAvail]; try done.
  - apply u16_range.
  - eapply agree_trans; [exact li_agree0|]. eapply agree_weaken; [apply A1|].
    intros x Hx%li_apart0. by apply Forall_app in Hx as [? _].
  - cbn [entries] in li_offers0. by apply Forall2_cons in li_offers0 as [_ ?].
  - rewrite li_count0, u16_add. do 2 f_equal. lia.
  - lia.
  - apply A1.
  - intros E. pose proof (Hs1 E) as ->. by apply li_hdr0.
  - lia.
  - intros E. rewrite length_app. cbn. destruct Hgo; [congruence | lia].
  - intros x Hx%li_apart0. by apply Forall_app in Hx as [_ ?].
Qed.

Lemma loop_done_cons h segs os v w us w1 r :
  let m1 := Z.min (total_len segs) (w_rem w) in
  mrg = true \/ length us = 0%nat -> 0 < w_rem w -> w_ok w -> pairwise (segs ++ bufs os) ->
  Forall (usable (w_st w)) segs -> Forall (usable (w_st w)) (bufs (allowed mrg (length us + 1) os)) ->
  advanced segs m1 w w1 -> take (Z.to_nat (w_rem w)) (seg_bytes (w_st w1) segs) = take (Z.to_nat m1) (pending w) ->
  w_hdrSeg w1 = match w_hdrSeg w with Some s => Some s | None => head segs end ->
  loop_done os (vset_avail (u16 (lastAvail v + 1)) v) w1 (us ++ [(h, m1)]) r ->
  loop_done ((h, segs) :: os) v w us r.
Proof using.
  intros m1 Hgo Hrem Hok Hpw Hus Huo A1 R1 S1 (w' & -> & A2 & R2 & S2).
  pose proof (total_len_nonneg _ _ Hus). pose proof (total_len_nonneg _ _ Huo).
  rewrite length_app in *. cbn [length] in *. pose proof (advanced_rem _ m1 w w1 Hok ltac:(lia) A1) as Hr1.
  unfold loop_done. rewrite (allowed_cons _ _ _ Hgo), bufs_cons. set (al := allowed mrg (length us + 1) os) in *.
  rewrite Hr1 in *. cbn [taken]. rewrite (proj2 (Z.ltb_lt _ _) Hrem). fold m1.
  set (us' := taken al (w_rem w - m1)) in *. set (m2 := Z.min (total_len (bufs al)) (w_rem w - m1)) in *.
  assert (Hm : Z.min (total_len (segs ++ bufs al)) (w_rem w) = m1 + m2) by (rewrite total_len_app; lia).
  rewrite Hm. exists w'. split_and!.
  - cbn [length vset_avail lastAvail]. rewrite u16_add, <- app_assoc.
    by replace (lastAvail v + Z.of_nat (S (length us'))) with (lastAvail v + 1 + Z.of_nat (length us')) by lia.
  - apply (advanced_trans _ m1 m2 w w1 w'); [lia | lia | ..]; (eapply advanced_weaken; [done|]);
      intros x Hx; by apply Forall_app in Hx as [? ?].
  - eapply (filled_app (w_st w1)); [apply A2 | | by eapply usable_agree; [apply A1|].. | lia | lia | lia | |].
    + destruct (allowed_prefix (length us + 1) os) as [rest E]. rewrite E in Hpw. apply pairwise_app in Hpw as (_ & _ & Hpd).
      eapply Forall_impl; [exact Hpd|]. intros x Hx. by apply Forall_app in Hx as [? _].
    + trans (take (Z.to_nat m1) (take (Z.to_nat (w_rem w)) (seg_bytes (w_st w1) segs))); [rewrite take_take; f_equal; lia|].
      by rewrite R1, take_take, Nat.min_id.
    + by rewrite R2, (av_pending _ _ _ _ A1).
  - rewrite S2, S1. destruct (w_hdrSeg w), segs; done.
Qed.

Lemma writeLoop_ok os : forall fuel v w us,
  (length os < fuel)%nat -> loop_inv os v w us -> loop_done os v w us (writeLoop fuel mrg t v w us).
Proof using Hb Hr Ht Hw Hdesc Havail.
  induction os as [|[h segs] os IH]; intros [|fuel] v w us Hf Hi; cbn [length] in Hf; try lia; cbn [writeLoop];
    pose proof (allowed_usable _ _ _ _ Hi) as Hau; pose proof (rem_nonneg w (li_w _ _ _ _ Hi)) as Hr0.
  - assert (Hal : allowed mrg (length us) [] = []) by (unfold allowed; destruct mrg; by rewrite ?take_nil).
    assert (Hstop : loop_done [] v w us (Some (Ret (WStop v w us)))) by (apply loop_stop; try apply Hi; auto).
    destruct (negb _); [done|]. destruct (_ && _); [done|].
    rewrite no_chain; [done | apply Hi..|]. rewrite (li_count _ _ _ _ Hi). cbn. rewrite Z.add_0_r, u16_small; [done | apply Hi].
  - destruct (Z.ltb_spec 0 (w_rem w)) as [Hrem|]; cbn [negb]; [|apply loop_stop; try apply Hi; [left; lia | done]].
    destruct (negb mrg && (length us =? 1)%nat) eqn:Hlim.
    { apply loop_stop; try apply Hi; [right | done]. bool_prop. unfold allowed. rewrite H.
      apply Nat.eqb_eq in H0. by rewrite H0. }
    assert (Hgo : mrg = true \/ length us = 0%nat).
    { apply andb_false_iff in Hlim as [?%negb_false_iff|?%Nat.eqb_neq]; [by left|].
      destruct mrg eqn:Em; [by left|]. right. pose proof (li_single _ _ _ _ Hi Em). lia. }
    pose proof (li_offers _ _ _ _ Hi) as Ho. cbn [entries length] in Ho. apply Forall2_cons in Ho as [Ho _].
    destruct (next_chain v w _ _ (li_base _ _ _ _ Hi) (li_agree _ _ _ _ Hi) Ho (li_count _ _ _ _ Hi)) as (c & -> & -> & Hwr).
    { cbn [length]. intros E. pose proof (li_few _ _ _ _ Hi) as Hfew. cbn [length] in Hfew. pose proof (li_cursor _ _ _ _ Hi).
      revert E. unfold u16. intros E. pose proof (Z.div_mod (lastAvail v + Z.of_nat (S (length os))) (2 ^ 16) ltac:(lia)). lia. }
    cbn [fst snd] in *. rewrite Hwr. rewrite (allowed_cons _ _ _ Hgo), bufs_cons in Hau. apply Forall_app in Hau as [Hus Huo].
    pose proof (li_pairwise _ _ _ _ Hi) as Hpw. rewrite bufs_cons in Hpw. pose proof (pairwise_app _ _ Hpw) as (Hps & _ & Hpd).
    destruct (fillSegs_spec segs w 0) as (w1 & E1 & A1 & R1 & S1); try apply Hi; try done.
    set (m1 := Z.min (total_len segs) (w_rem w)) in *. rewrite E1, Z.add_0_l.
    pose proof (total_len_nonneg _ _ Hus) as Ht0.
    assert (Hi1 : loop_inv os (vset_avail (u16 (lastAvail v + 1)) v) w1 (us ++ [(h, m1)])).
    { eapply loop_inv_next; [done.. |]. intros E. rewrite S1 in E. destruct (w_hdrSeg w); [done|].
      destruct segs as [|? ?]; [|done]. cbn in E1. congruence. }
    rewrite pieces_bytes in R1 by (first [done | by eapply usable_agree; [apply A1|]]).
    eapply loop_done_cons; try done; [apply Hi|]. by apply IH; [lia|].
Qed.
End loop.

(** * Completing the frame *)

Lemma vread_sub st v a n d :
  0 <= a -> 0 <= n -> a + n <= vw_len v -> vread st v = Ret d ->
  vread st (mkView (vw_map v) (vw_off v + a) n) = Ret (take (Z.to_nat n) (drop (Z.to_nat a) d)).
Proof.
  unfold vread. cbn [vw_map vw_off vw_len]. destruct (st !! vw_map v); [|done].
  intros Ha Hn Hl (? & ? & ? & ->)%slice_inv. rewrite slice_ret by lia. f_equal.
  rewrite skipn_firstn_comm, drop_drop, take_take. f_equal; [lia | f_equal; lia].
Qed.

(** A write inside a view. *)
Lemma vread_patch st st' v a n d old :
  view_in st v -> 0 <= a -> 0 <= n -> a + n <= vw_len v -> len d = n ->
  vwrite st (mkView (vw_map v) (vw_off v + a) n) d = Ret st' -> vread st v = Ret old ->
  vread st' v = Ret (take (Z.to_nat a) old ++ d ++ drop (Z.to_nat (a + n)) old).
Proof.
  intros (b & _ & Ho & Hv & _) Ha Hn Hl Hd Hw Hold.
  assert (Hlo : vw_len v = len old).
  { revert Hold. unfold vread. destruct (st !! vw_map v); [|done]. intros E%slice_length. lia. }
  assert (H1 : vread st' (mkView (vw_map v) (vw_off v + 0) a) = Ret (take (Z.to_nat a) old)).
  { rewrite (vread_disjoint _ _ _ _ _ Hw) by (try (right; cbn); cbn; lia).
    by rewrite (vread_sub st v 0 a old) by (done || lia). }
  assert (H2 : vread st' (mkView (vw_map v) (vw_off v + a) n) = Ret d) by (by apply (vread_written _ _ _ _ Hw)).
  assert (H3 : vread st' (mkView (vw_map v) (vw_off v + a + n) (vw_len v - a - n)) = Ret (drop (Z.to_nat (a + n)) old)).
  { rewrite (vread_disjoint _ _ _ _ _ Hw) by (try (right; cbn); cbn; lia).
    replace (vw_off v + a + n) with (vw_off v + (a + n)) by lia.
    rewrite (vread_sub st v (a + n) _ old) by (done || lia). f_equal. apply take_ge. rewrite length_drop.
    unfold len in *. lia. }
  rewrite Z.add_0_r in H1.
  replace v with (mkView (vw_map v) (vw_off v) (a + (n + (vw_len v - a - n)))) at 1
    by (destruct v; cbn in *; f_equal; lia).
  apply vread_app; [lia.. | done |]. apply vread_app; [lia.. | done | done].
Qed.

(** The header as the driver finds it: zeros, with the number of buffers used
    when the first segment has room for it. *)
Definition header (first : option view) (k : nat) : bytes :=
  match first with
  | Some s => if virtioNetHdrSize <=? vw_len s then make_bytes 10 ++ le_put 2 (Z.of_nat k) else make_bytes 12
  | None => make_bytes 12
  end.

Lemma patch_bytes n (X A B C d : bytes) :
  take n X = A ++ B ++ C -> length A = 10%nat -> length B = 2%nat -> length d = 2%nat ->
  take n (take 10 X ++ d ++ drop 12 X) = A ++ d ++ C.
Proof.
  intros E HA HB Hd.
  assert (HX : X = (A ++ B) ++ (C ++ drop n X)) by (rewrite app_assoc, <- (app_assoc A), <- E; by rewrite take_drop).
  set (R := C ++ drop n X) in *. clearbody R.
  assert (Hn : (12 <= n)%nat /\ (12 <= length X)%nat).
  { apply (f_equal length) in E. rewrite length_take, !length_app in E. lia. }
  assert (H1 : take 10 X = A) by (rewrite HX, <- app_assoc, take_app_length'; [done | lia]).
  assert (H2 : drop 12 X = R) by (rewrite HX, drop_app_length'; [done | rewrite length_app; lia]).
  rewrite H1, H2, app_assoc. rewrite take_app_ge by (rewrite length_app; lia). rewrite <- app_assoc. do 2 f_equal.
  rewrite length_app, HA, Hd. change (10 + 2)%nat with 12%nat.
  rewrite HX, take_app_ge in E by (rewrite length_app; lia).
  rewrite length_app, HA, HB, <- app_assoc in E. by apply app_inv_head, app_inv_head in E.
Qed.

Lemma patch_header st s rest k n frame :
  store_bytes st -> Forall (usable st) (s :: rest) -> pairwise (s :: rest) ->
  take n (seg_bytes st (s :: rest)) = make_bytes 12 ++ frame ->
  exists st',
    (if virtioNetHdrSize <=? vw_len s then nb ← vslice s 10 12; vwrite st nb (le_put 2 (Z.of_nat k)) else Ret st) = Ret st' /\
    agree [s] st st' /\ take n (seg_bytes st' (s :: rest)) = header (Some s) k ++ frame.
Proof.
  intros Hb [[Hin Hpos] Hu]%Forall_cons [Hds Hpw] E. unfold header.
  destruct (Z.leb_spec virtioNetHdrSize (vw_len s)) as [H12|]; [|exists st; split_and!; [done | by apply agree_refl | done]].
  unfold virtioNetHdrSize in H12. rewrite vslice_ret, bind_Ret by lia. change (12 - 10) with 2.
  destruct (vwrite_ok st (mkView (vw_map s) (vw_off s + 10) 2) (le_put 2 (Z.of_nat k))) as [st' Hwr].
  { destruct Hin as (b & ? & ? & ? & ?). exists b. cbn. split_and!; try done; lia. }
  pose proof (agree_write _ _ _ _ Hwr Hb (bytes_ok_le_put _ _)) as A0.
  assert (A : agree [s] st st').
  { eapply agree_weaken; [exact A0|]. intros x Hx. apply (proj1 (Forall_singleton _ _)) in Hx.
    each_view. unfold disjoint_views in *. cbn. lia. }
  exists st'. split_and!; [done | done |].
  destruct (vread_ok st s Hin) as (old & Hold & Hl). unfold len in Hl.
  cbn [seg_bytes] in *. rewrite Hold in E.
  rewrite (vread_patch st st' s 10 2 (le_put 2 (Z.of_nat k)) old Hin) by (done || lia).
  rewrite (seg_bytes_agree st st' [s]).
  - change (make_bytes 12) with (make_bytes 10 ++ make_bytes 2) in E. rewrite <- app_assoc in E. rewrite <- !app_assoc.
    rewrite <- (patch_bytes n _ _ _ _ (le_put 2 (Z.of_nat k)) E) by done. f_equal.
    rewrite (take_app_le old), (drop_app_le old) by lia. done.
  - exact A.
  - intros x Hx. rewrite Forall_forall in Hds, Hu. destruct (Hu x Hx) as [(b & _ & ? & ? & _) _].
    split_and!; [|done..]. apply Forall_singleton. by apply Hds.
Qed.

(** The receive ring as the driver must lay it out, with the chains [os] on
    offer: rings and buffers are mapped and overlap nowhere, every chain is
    well formed. *)
Record receivable (st : store) (v : vring) (t : memTable) (vd va vu : view) (os : offers) : Prop := {
  rc_sized : ring_sized st v vd va vu;
  rc_bytes : store_bytes st;
  rc_table : whole_table st t;
  rc_no_wrap : no_wrap st v;
  rc_offers : Forall2 (offer_at st v t) (entries (lastAvail v) (length os)) os;
  rc_count : availIdx st v = Ret (u16 (lastAvail v + Z.of_nat (length os)));
  rc_fit : Z.of_nat (length os) <= num v;
  rc_apart : pairwise (vd :: va :: vu :: bufs os)
}.

Lemma receivable_usable st v t vd va vu os :
  receivable st v t vd va vu os -> Forall (usable st) (bufs os).
Proof.
  intros Hr. apply Forall_concat. apply Forall_forall. intros segs Hs.
  apply list_elem_of_fmap in Hs as (o & -> & Ho). apply list_elem_of_lookup in Ho as [j Hj].
  destruct (Forall2_lookup_r _ _ _ _ _ (rc_offers _ _ _ _ _ _ _ Hr) Hj) as (e & _ & He & c & Hc & <-).
  destruct (availEntry_total st v vd va vu (rc_bytes _ _ _ _ _ _ _ Hr) (rc_sized _ _ _ _ _ _ _ Hr) e) as (h & Eh & ?).
  rewrite He in Eh. injection Eh as Eh.
  edestruct (resolveChain_total st v vd va vu t) as (r & Er & Hu); [apply Hr.. | | ].
  2: { rewrite Hc in Er. injection Er as <-. by destruct (Hu c eq_refl). }
  rewrite Eh. lia.
Qed.

Lemma length_taken os : forall rem, (length (taken os rem) <= length os)%nat.
Proof. induction os as [|[h segs] os IH]; intros rem; cbn; [done|]. destruct (_ <? _); cbn; [|lia]. specialize (IH (rem - Z.min (total_len segs) rem)). lia. Qed.

(** What the records add up to. *)
Lemma taken_sum os : forall rem, Forall (fun s => 0 <= vw_len s) (bufs os) -> 0 <= rem ->
  foldr (fun u n => u.2 + n) 0 (taken os rem) = Z.min (total_len (bufs os)) rem.
Proof.
  induction os as [|[h segs] os IH]; intros rem Hp Hr; [cbn; lia|].
  change (bufs ((h, segs) :: os)) with (segs ++ bufs os) in *. apply Forall_app in Hp as [Hs Ho].
  assert (H0 : forall l, Forall (fun s => 0 <= vw_len s) l -> 0 <= total_len l).
  { induction 1; [done|]. rewrite total_len_cons. lia. }
  pose proof (H0 _ Hs). pose proof (H0 _ Ho). rewrite total_len_app. cbn [taken].
  destruct (Z.ltb_spec 0 rem); cbn [foldr snd]; [rewrite IH by (done || lia); lia | lia].
Qed.

(** The outcome of writing [frame] into the chains [al]. *)
Definition received (vu : view) (frame : bytes) (al : offers) (st : store) (v : vring) (st' : store) (v' : vring) : Prop :=
  let need := virtioNetHdrSize + len frame in
  let us := taken al need in
  v' = vset_used (u16 (usedIdx v + Z.of_nat (length us))) (vset_avail (u16 (lastAvail v + Z.of_nat (length us))) v) /\
  take (Z.to_nat need) (seg_bytes st' (bufs al)) = header (head (bufs al)) (length us) ++ frame /\
  foldr (fun u n => u.2 + n) 0 us = need /\
  (forall k h n, us !! k = Some (h, n) ->
    usedElem st' vu ((usedIdx v + Z.of_nat k) mod num v) = Ret (h mod 2 ^ 32, n mod 2 ^ 32)) /\
  vread st' (usedView vu 0) = Ret (le_put 4 (u32 (Z.shiftl (usedIdx v') 16))).

Section receive.
Context (st : store) (v : vring) (t : memTable) (vd va vu : view) (os : offers) (mrg : bool) (frame : bytes).
Context (Hrc : receivable st v t vd va vu os) (Hf : bytes_ok frame) (Hl : len frame <= maxFrameSize).

Let w0 : wstate := mkW st frame virtioNetHdrSize None (virtioNetHdrSize + len frame).
Let al : offers := allowed mrg 0 os.

Lemma receive_inv : loop_inv st v t mrg (bufs os) os v w0 [].
Proof using Hrc Hf Hl.
  pose proof (rc_sized _ _ _ _ _ _ _ Hrc) as Hr. unfold maxFrameSize in Hl.
  split; cbn [w0 w_st w_src w_hdrLeft w_hdrSeg w_rem length]; try done.
  - apply Hr.
  - apply agree_refl, Hrc.
  - apply Hrc.
  - apply Hrc.
  - pose proof (rc_fit _ _ _ _ _ _ _ Hrc). pose proof (rz_num _ _ _ _ _ Hr). lia.
  - split; cbn; [done | | done | apply Hrc]. unfold pending, make_bytes, len.
    rewrite length_app, length_replicate. cbn [w0 w_hdrLeft w_src]. unfold virtioNetHdrSize. lia.
  - unfold virtioNetHdrSize. lia.
  - lia.
  - apply Hrc.
  - by eapply receivable_usable.
Qed.

Lemma rings_apart : apart (bufs os) vd /\ apart (bufs os) va /\ Forall (disjoint_views vu) (bufs os) /\ apart [vu] va.
Proof using Hrc.
  destruct (rc_apart _ _ _ _ _ _ _ Hrc) as ([_ [_ Hd]%Forall_cons]%Forall_cons & [Ha1 Ha]%Forall_cons & Hu & _).
  assert (Hsym : forall x l, Forall (disjoint_views x) l -> apart l x)
    by (intros x l H; eapply Forall_impl; [exact H|]; intros y; apply disjoint_sym).
  split_and!; [by apply Hsym | by apply Hsym | done | apply Forall_singleton; by apply disjoint_sym].
Qed.

Lemma finish_ok w' us :
  let need := virtioNetHdrSize + len frame in
  let v1 := vset_avail (u16 (lastAvail v + Z.of_nat (length us))) v in
  us = taken al need -> advanced (bufs al) (Z.min (total_len (bufs al)) need) w0 w' ->
  take (Z.to_nat (Z.min (total_len (bufs al)) need)) (seg_bytes (w_st w') (bufs al)) =
    take (Z.to_nat (Z.min (total_len (bufs al)) need)) (pending w0) ->
  w_hdrSeg w' = head (bufs al) -> need <= total_len (bufs al) ->
  exists st' v' fx, finishWrite (lastAvail v) (WStop v1 w' us) = Ret (st', v', fx, true) /\
    agree (vu :: bufs al) st st' /\ received vu frame al st v st' v'.
Proof using Hrc Hf Hl.
  intros need v1 Hus A R S Hcap. rewrite Z.min_r in A, R by done.
  assert (Hneed : need = 12 + len frame) by done. assert (Hlf : 0 <= len frame) by (unfold len; lia).
  pose proof receive_inv as Hi. pose proof rings_apart as (Hvd & Hva & Hvu & _).
  pose proof (allowed_usable st v t mrg (bufs os) os v w0 [] Hi) as Hu. cbn [w0 w_st length] in Hu. fold al in Hu.
  destruct (allowed_prefix mrg 0 os) as [rest Erest]. fold al in Erest.
  pose proof (li_pairwise _ _ _ _ _ _ _ _ _ Hi) as Hpw. rewrite Erest in Hpw. apply pairwise_app in Hpw as (Hpw & _ & _).
  rewrite Erest in Hvu, Hvd, Hva. apply Forall_app in Hvu as [Hvu _], Hvd as [Hvd _], Hva as [Hva _].
  assert (Hrem : w_rem w' = 0).
  { rewrite (advanced_rem (bufs al) need w0 w'); [cbn [w0 w_rem]; lia | apply Hi | cbn [w0 w_rem]; lia | done]. }
  destruct (bufs al) as [|s segs] eqn:Eb; [cbn in Hcap; lia|]. cbn [head] in S.
  unfold finishWrite. rewrite Hrem, S. cbn [Z.ltb Z.compare].
  assert (Hpend : take (Z.to_nat need) (seg_bytes (w_st w') (s :: segs)) = make_bytes 12 ++ frame).
  { rewrite R. unfold pending, w0. cbn [w_hdrLeft w_src]. apply take_ge. rewrite length_app. unfold len in *. cbn. lia. }
  assert (Hk : Z.of_nat (length us) <= num v).
  { rewrite Hus. pose proof (length_taken al need). pose proof (rc_fit _ _ _ _ _ _ _ Hrc).
    unfold al, allowed in *. destruct mrg; [lia|]. rewrite length_take in *. lia. }
  pose proof (rz_num _ _ _ _ _ (rc_sized _ _ _ _ _ _ _ Hrc)) as Hnum.
  unfold usedCount. rewrite u16_small by lia.
  destruct (patch_header (w_st w') s segs (length us) (Z.to_nat need) frame) as (s1 & -> & A1 & R1);
    [apply (av_ok _ _ _ _ A) | by eapply usable_agree; [apply A|] | done | done |].
  rewrite bind_Ret. pose proof (agree_trans _ _ _ _ (av_agree _ _ _ _ A) (agree_head _ segs _ _ A1)) as A01.
  cbn [w0 w_st] in A01.
  destruct (publish_ok v1 vd va vu s1 us) as (s2 & v2 & fx & -> & A2 & P1 & P2 & P3); [apply A1 | | done |].
  { eapply ring_sized_agree; [apply Hrc | exact A01 | done | apply u16_range | apply Hrc]. }
  rewrite bind_Ret. exists s2, v2, fx. split_and!; [done | |].
  - eapply agree_trans; [apply agree_tail, A01 | apply agree_head, A2].
  - unfold received. fold need. rewrite <- Hus, Eb. split_and!; [done | | | done | done].
    + change (head (s :: segs)) with (Some s). rewrite <- R1. f_equal. eapply seg_bytes_agree; [exact A2|]. intros x Hx.
      rewrite Forall_forall in Hu, Hvu. destruct (Hu x Hx) as [(b & _ & ? & ? & _) _].
      split_and!; [apply Forall_singleton; by apply Hvu | done..].
    + rewrite Hus, taken_sum, Eb; [lia | | lia]. rewrite Eb. eapply Forall_impl; [exact Hu|]. intros x [_ ?]. lia.
Qed.
End receive.

(** C24: a frame reaches the guest whole or not at all.  On a receive ring laid
    out as the driver must lay it out, [WriteFrame] returns without panicking.
    It succeeds exactly when the chains the frame may use (all that are offered
    with mergeable buffers, the first otherwise) have room for the virtio-net
    header and the frame.  Then their writable segments begin with the header,
    which counts the chains used when the first segment holds it whole, followed
    by the frame; the used ring lists those chains with their byte counts, which
    add up; both indices advance by that number, and no other memory changes.
    Otherwise the ring is as it was, and only offered buffers were written. *)
Theorem frame_received fuel frame d v t vd va vu os :
  rings d !! rxQueue = Some v -> mem d = Some t -> started v = true ->
  receivable (gmem d) v t vd va vu os -> bytes_ok frame -> len frame <= maxFrameSize -> (length os < fuel)%nat ->
  let al := allowed (mrgRxbuf d) 0 os in
  let fits := virtioNetHdrSize + len frame <=? total_len (bufs al) in
  exists st' v' fx,
    WriteFrame fuel frame d = Some (Ret (set_ring rxQueue v' (with_gmem st' d), fx, fits)) /\
    (if fits then agree (vu :: bufs al) (gmem d) st' /\ received vu frame al (gmem d) v st' v'
     else agree (bufs al) (gmem d) st' /\ v' = v /\ fx = []).
Proof.
  intros Hv Hm Hs Hrc Hf Hl Hfuel al fits. unfold WriteFrame.
  rewrite (proj2 (Z.ltb_ge _ _) Hl), Hv, Hm, Hs. cbn [negb].
  pose proof (receive_inv (gmem d) v t vd va vu os (mrgRxbuf d) frame Hrc Hf Hl) as Hi.
  pose proof (rings_apart (gmem d) v t vd va vu os Hrc) as (Hvd & Hva & _).
  destruct (writeLoop_ok (gmem d) v vd va vu t (mrgRxbuf d) (bufs os)
    (rc_bytes _ _ _ _ _ _ _ Hrc) (rc_sized _ _ _ _ _ _ _ Hrc) (rc_table _ _ _ _ _ _ _ Hrc) (rc_no_wrap _ _ _ _ _ _ _ Hrc)
    Hvd Hva os fuel v _ [] Hfuel Hi) as (w' & -> & A & R & S).
  cbn [w_rem w_hdrSeg app length] in *. fold al in A, R, S |- *. rewrite bind_Ret.
  destruct (Z.leb_spec (virtioNetHdrSize + len frame) (total_len (bufs al))) as [Hcap|Hcap]; subst fits.
  - destruct (finish_ok (gmem d) v t vd va vu os (mrgRxbuf d) frame Hrc Hf Hl w' _ eq_refl A R S Hcap)
      as (st' & v' & fx & E & ? & ?).
    fold al in E. exists st', v', fx. rewrite E. split; [by rewrite bind_Ret | done].
  - pose proof (total_len_nonneg _ _ (allowed_usable _ _ _ _ _ _ _ _ _ Hi) : 0 <= total_len (bufs al)).
    apply advanced_rem in A as Hrem; [|apply Hi | cbn [w_rem]; lia].
    cbn [w_rem] in Hrem. unfold finishWrite. rewrite (proj2 (Z.ltb_lt 0 (w_rem w'))), !bind_Ret by lia.
    exists (w_st w'), v, []. split_and!; [by destruct v | apply A | done | done].
Qed.

(** A page with two writable buffers of sixteen bytes on offer; an eight-byte
    frame takes both. *)
Definition recv_page : list Z :=
  le_put 8 128 ++ le_put 4 16 ++ le_put 2 2 ++ le_put 2 0 ++
  le_put 8 160 ++ le_put 4 16 ++ le_put 2 2 ++ le_put 2 0 ++
  le_put 2 0 ++ le_put 2 2 ++ le_put 2 0 ++ le_put 2 1 ++ make_bytes 216.

Definition recv_store : store := {[ 0%nat := recv_page ]}.
Definition recv_ring : vring :=
  mkVring 2 (Some (mkView 0 0 32)) (Some (mkView 0 32 10)) (Some (mkView 0 64 22)) 0 0 None (Some 7%nat)
    true true false.
Definition recv_device : NetDevice :=
  set_ring rxQueue recv_ring
    (with_feats featNetMrgRxbuf true (with_mem (Some drain_table) recv_store 1 (NewNetDevice false))).
Definition recv_offers : list (Z * list view) := [(0, [mkView 0 128 16]); (1, [mkView 0 160 16])].

Lemma recv_view_in off n : 0 <= off -> 0 <= n -> off + n <= 256 -> view_in recv_store (mkView 0 off n).
Proof. intros ???. by exists recv_page. Qed.

Lemma recv_demo : receivable recv_store recv_ring drain_table (mkView 0 0 32) (mkView 0 32 10) (mkView 0 64 22) recv_offers.
Proof.
  split.
  - split; try done; try (apply recv_view_in; lia); cbn; lia.
  - intros k b. unfold recv_store. rewrite lookup_singleton_Some. intros [_ <-]. by apply bytes_okb_spec.
  - intros r ->%list_elem_of_singleton. split_and!; [done..|]. apply recv_view_in; lia.
  - intros i d Hi H. assert (Hc : i = 0 \/ i = 1 \/ 2 <= i) by lia. destruct Hc as [->|[->|Hc]].
    + vm_compute in H. by simplify_eq.
    + vm_compute in H. by simplify_eq.
    + unfold descAt in H. by rewrite (proj2 (Z.leb_le (num recv_ring) i) Hc) in H.
  - repeat constructor; try (eexists; split; [vm_compute; reflexivity | reflexivity]).
  - reflexivity.
  - done.
  - cbn. repeat split; each_view; right; cbn; lia.
Qed.

Lemma frame_received_witness :
  exists st' v' fx,
    WriteFrame 3 [1; 2; 3; 4; 5; 6; 7; 8] recv_device =
      Some (Ret (set_ring rxQueue v' (with_gmem st' recv_device), fx, true)) /\
    received (mkView 0 64 22) [1; 2; 3; 4; 5; 6; 7; 8] recv_offers recv_store recv_ring st' v'.
Proof.
  destruct (frame_received 3 [1; 2; 3; 4; 5; 6; 7; 8] recv_device recv_ring drain_table
    (mkView 0 0 32) (mkView 0 32 10) (mkView 0 64 22) recv_offers) as (st' & v' & fx & E & _ & H).
  - reflexivity.
  - reflexivity.
  - reflexivity.
  - exact recv_demo.
  - by apply bytes_okb_spec.
  - vm_compute. discriminate.
  - cbn. lia.
  - exists st', v', fx. split; [exact E | exact H].
Defined.
