(* ===== verification/VhostSession.v ===== *)
(** A vhost-user session from its first message to its end: the loop [serve] of
    src/internal/vhostuser/device.go, interleaved with the transmit pump, frames
    from the switch, the guest, and a [Close] from outside.

    Reading a message and handling it are two steps, since [Close] may come
    between them: it closes the connection, so that nothing more is read, but a
    message that was read is still handled. *)
From S2P Require Import Prelude VhostMem VhostDev VhostFacts VhostProps VhostDrain VhostConn.

#[local] Open Scope Z_scope.

Record session := mkSession {
  se_dev : NetDevice;
  (** what the front end has still to say *)
  se_stream : bytes;
  (** the message that was read and not handled yet *)
  se_cur : option message;
  (** [serve] has not returned *)
  se_serving : bool;
  (** everything done so far, and the descriptors and messages received *)
  se_fx : list vfx;
  se_received : list nat;
  se_msgs : nat;
  (** a message was handled after [Close] *)
  se_late : bool
}.

Definition newSession (ap : bool) (stream : bytes) : session := mkSession (NewNetDevice ap) stream None true [] [] 0 false.

Definition messageLen (m : message) : nat := (12 + length (m_payload m))%nat.

Section session.
Context (mmap : nat -> Z -> Z -> result (list Z)) (pagesize : Z).

(** What the other goroutines and the guest do to the device. *)
Inductive data_step (d : NetDevice) : list vfx -> NetDevice -> Prop :=
  | da_pump fuel d' frames fx : pumpRound fuel d = Some (Ret (d', frames, fx)) -> data_step d fx d'
  | da_exit : data_step d (pumpExit d).2 (pumpExit d).1
  | da_write fuel frame d' fx ok : WriteFrame fuel frame d = Some (Ret (d', fx, ok)) -> data_step d fx d'
  | da_guest st : same_shape (gmem d) st -> data_step d [] (with_gmem st d).

(** [readMsg], unless the connection is closed. *)
Definition serve_read (fds : list nat) (s : session) : option message :=
  if dclosed (se_dev s) then None
  else match readMsg (se_stream s) fds with Some (Ok m) => Some m | _ => None end.

(** [serve] returns: the deferred [Close]. *)
Definition serve_end (d : NetDevice) (fx : list vfx) (late : bool) (s : session) : session :=
  mkSession (dev_Close d).1 (se_stream s) None false (se_fx s ++ fx ++ (dev_Close d).2) (se_received s) (se_msgs s) late.

Definition serve_handled (d : NetDevice) (fx : list vfx) (late : bool) (s : session) : session :=
  mkSession d (se_stream s) None true (se_fx s ++ fx) (se_received s) (se_msgs s) late.

Inductive session_step (s : session) : session -> Prop :=
  | se_read fds m : se_serving s = true -> se_cur s = None -> serve_read fds s = Some m ->
      session_step s (mkSession (se_dev s) (drop (messageLen m) (se_stream s)) (Some m) true (se_fx s)
                        (se_received s ++ m_fds m) (S (se_msgs s)) (se_late s))
  | se_eof fds : se_serving s = true -> se_cur s = None -> serve_read fds s = None ->
      session_step s (serve_end (se_dev s) [] (se_late s) s)
  | se_handle m werr d fx e : se_serving s = true -> se_cur s = Some m ->
      handle mmap pagesize werr m (se_dev s) = Ret (d, fx, e) ->
      let late := se_late s || dclosed (se_dev s) in
      session_step s (match e with None => serve_handled d fx late s | Some _ => serve_end d fx late s end)
  | se_data d fx : data_step (se_dev s) fx d ->
      session_step s (mkSession d (se_stream s) (se_cur s) (se_serving s) (se_fx s ++ fx) (se_received s) (se_msgs s) (se_late s))
  | se_close :
      session_step s (mkSession (dev_Close (se_dev s)).1 (se_stream s) (se_cur s) (se_serving s)
                        (se_fx s ++ (dev_Close (se_dev s)).2) (se_received s) (se_msgs s) (se_late s)).

Inductive session_run (ap : bool) (stream : bytes) : session -> Prop :=
  | sr_new : session_run ap stream (newSession ap stream)
  | sr_step s s' : session_run ap stream s -> session_step s s' -> session_run ap stream s'.

(** * What the steps keep *)

Lemma ring_base_files v v' : ring_base v' = ring_base v -> ring_files v' = ring_files v.
Proof. intros E. change (ring_files (ring_base v') = ring_files (ring_base v)). by rewrite E. Qed.

Lemma finishWrite_closed a e st v fx ok : finishWrite a e = Ret (st, v, fx, ok) -> closed fx = [].
Proof.
  assert (Hp : forall st v us x, publish st v us = Ret x -> closed x.2 = []).
  { intros st' v' us x E. unfold publish in E. inv_bind E. inv_bind E. inv_bind E. injection E as <-. by destruct x2. }
  destruct e as [v' w us|v' w us]; cbn [finishWrite]; intros E.
  - destruct (0 <? w_rem w); [by simplify_eq|]. inv_bind E. inv_bind E. injection E as -> <-. by apply Hp in E1.
  - inv_bind E. injection E as -> <-. by apply Hp in E0.
Qed.

Lemma data_step_keeps d fx d' : data_step d fx d' ->
  held d' ≡ₚ held d /\ closed fx = [] /\ dclosed d' = dclosed d /\ mem d' = mem d.
Proof.
  destruct 1 as [fuel d' frames fx E| |fuel frame d' fx ok E|st Hs].
  - unfold pumpRound in E. destruct (rings d !! txQueue) as [v|] eqn:Hv; [|by simplify_eq].
    destruct (mem d) as [t|] eqn:Hm; [|by simplify_eq]. destruct (started v); [|by simplify_eq].
    destruct (drainTX fuel t (gmem d) v) as [[[[[st v'] fr] fx']|]|] eqn:Ed; try done. injection E as <- <- <-.
    pose proof (drainTX_spec _ _ _ _ _ _ _ _ Ed) as [_ Hb]. apply ring_base_files in Hb. split; [|split; [|by split]].
    + exact (held_same_ring (with_gmem st d) txQueue v v' Hv Hb).
    + unfold drainTX in Ed. destruct (drainLoop _ _ _ _ _ _) as [[[[[? ?] ?] ?]|]|]; try done. injection Ed as Ed. inv_bind Ed.
      simplify_eq. by destruct x.
  - unfold pumpExit. destruct (rings d !! txQueue) as [v|] eqn:Hv; [|done].
    destruct (started v), (kick v) eqn:Hk; cbn [fst snd]; (split; [|done]); eapply held_same_ring; try done; unfold ring_files; cbn; by rewrite Hk.
  - unfold WriteFrame in E. destruct (_ <? _); [by simplify_eq|].
    destruct (rings d !! rxQueue) as [v|] eqn:Hv; [|by simplify_eq]. destruct (mem d) as [t|] eqn:Hm; [|by simplify_eq].
    destruct (negb _); [by simplify_eq|]. destruct (writeLoop _ _ _ _ _ _) as [[e|]|] eqn:Ew; [|done|done].
    rewrite bind_Ret in E. injection E as E. inv_bind E. destruct x as [[[st v'] fx'] ok']. injection E as <- <- <-.
    apply writeLoop_spec in Ew as [_ Hb1]. pose proof (finishWrite_spec _ _ _ _ _ _ E0) as [_ Hb2].
    assert (Hb : ring_base v' = ring_base v) by congruence. apply ring_base_files in Hb.
    split; [|split; [|by split]].
    + exact (held_same_ring (with_gmem st d) rxQueue v v' Hv Hb).
    + by eapply finishWrite_closed.
  - done.
Qed.

(** Messages do not change whether the device is closed. *)
Lemma dclosed_evalRing d i : dclosed (evalRing d i).1 = dclosed d.
Proof. unfold evalRing. by repeat case_match. Qed.

Lemma dclosed_evalRings d : dclosed (evalRings d).1 = dclosed d.
Proof.
  unfold evalRings. pose proof (dclosed_evalRing d rxQueue) as H1. destruct (evalRing d rxQueue) as [d1 fx1].
  pose proof (dclosed_evalRing d1 txQueue) as H2. destruct (evalRing d1 txQueue). cbn in *. congruence.
Qed.

Lemma dclosed_setMemTable m d o : setMemTable mmap pagesize m d = Ret o -> dclosed o.1.1.1.1 = dclosed d.
Proof.
  unfold setMemTable. intros E. inv_bind E. destruct x as [[g next] [t|e]]; [|by injection E as <-].
  destruct (mem d) as [old|]; cbn [stopRings] in E;
    match type of E with context [evalRings ?x] => pose proof (dclosed_evalRings x) as H; destruct (evalRings x) end;
    by injection E as <-.
Qed.

Lemma dclosed_setVringAddr m d o : setVringAddr m d = Ret o -> dclosed o.1.1.1.1 = dclosed d.
Proof.
  unfold setVringAddr. intros E. inv_bind E. destruct x as [a|e]; [|by injection E as <-].
  destruct (ring d (va_index a)) as [v|]; [|by injection E as <-]. destruct (mem d) as [t|]; [|by injection E as <-].
  destruct (num v =? 0); [by injection E as <-|]. inv_bind E. destruct x; [|by injection E as <-].
  inv_bind E. destruct x; [|by injection E as <-]. inv_bind E. destruct x; [|by injection E as <-]. inv_bind E.
  match type of E with context [evalRing ?x ?i] => pose proof (dclosed_evalRing x i) as H; destruct (evalRing x i) end.
  by injection E as <-.
Qed.

Lemma dclosed_setVringFD m isKick d o : setVringFD m isKick d = Ret o -> dclosed o.1.1.1.1 = dclosed d.
Proof.
  unfold setVringFD. destruct (_ <? _); [by intros [= <-]|]. intros E. inv_bind E.
  destruct (ring d _) as [v|]; [|by injection E as <-]. destruct (_ =? 0); [destruct (m_fds m) as [|fd rest]; [by injection E as <-|]|];
    destruct isKick; match type of E with context [evalRing ?x ?i] => pose proof (dclosed_evalRing x i) as H; destruct (evalRing x i) end;
    by injection E as <-.
Qed.

Lemma dclosed_with_state m d k o : with_state m d k = Ret o -> (forall i n, dclosed (k i n).1.1.1 = dclosed d) ->
  dclosed o.1.1.1.1 = dclosed d.
Proof.
  unfold with_state. intros E Hk. inv_bind E. destruct x as [[i n]|e]; [|by injection E as <-]. specialize (Hk i n).
  destruct (k i n) as [[[d' fx] r] e]. by injection E as <-.
Qed.

Lemma dclosed_dispatch m d o : dispatch mmap pagesize m d = Ret o -> dclosed o.1.1.1.1 = dclosed d.
Proof.
  unfold dispatch, pure_state. intros H.
  destruct (_ =? reqGetFeatures); [by injection H as <-|].
  destruct (_ =? reqSetFeatures).
  { destruct (_ <=? _); [|by injection H as <-]. inv_bind H. by destruct (negb _); injection H as <-. }
  destruct (_ =? reqGetProtocolFeatures); [by injection H as <-|].
  destruct (_ =? reqSetProtocolFeatures).
  { destruct (_ <=? _); [|by injection H as <-]. inv_bind H. by injection H as <-. }
  destruct (_ || _); [by injection H as <-|].
  destruct (_ =? reqResetOwner); [by injection H as <-|].
  destruct (_ =? reqSetMemTable); [by eapply dclosed_setMemTable|].
  destruct (_ =? reqSetVringNum).
  { apply (dclosed_with_state _ _ _ _ H). intros i n. destruct (ring d i); [|done]. by destruct (_ && _). }
  destruct (_ =? reqSetVringBase); [apply (dclosed_with_state _ _ _ _ H); intros i n; by destruct (ring d i)|].
  destruct (_ =? reqGetVringBase); [apply (dclosed_with_state _ _ _ _ H); intros i n; by destruct (ring d i)|].
  destruct (_ =? reqSetVringAddr); [by eapply dclosed_setVringAddr|].
  destruct (_ =? reqSetVringKick); [by eapply dclosed_setVringFD|].
  destruct (_ =? reqSetVringCall); [by eapply dclosed_setVringFD|].
  destruct (_ =? reqSetVringEnable); [|by injection H as <-].
  apply (dclosed_with_state _ _ _ _ H). intros i n. destruct (ring d i); [|done]. destruct (n =? 0); [done|].
  match goal with |- context [evalRing ?x ?i] => pose proof (dclosed_evalRing x i) as Hd; by destruct (evalRing x i) end.
Qed.

Lemma dclosed_handle werr m d d' fx e : handle mmap pagesize werr m d = Ret (d', fx, e) -> dclosed d' = dclosed d.
Proof.
  unfold handle. intros E. inv_bind E. apply dclosed_dispatch in E0. destruct x as [[[[d1 fx1] fds] r] e1]. cbn in E0.
  destruct r; [|destruct (_ && _)]; by injection E as <- <- <-.
Qed.

(** Closing. *)
Lemma dev_Close_spec d : dclosed (dev_Close d).1 = true /\ held d ≡ₚ held (dev_Close d).1 ++ closed (dev_Close d).2 /\
  (dclosed d = false -> held (dev_Close d).1 = [] /\ mem (dev_Close d).1 = None) /\
  (dclosed d = true -> (dev_Close d).1 = d).
Proof.
  unfold dev_Close. destruct (dclosed d) eqn:E; [cbn; by rewrite app_nil_r|]. destruct (held_stopRings d) as [H C].
  destruct (stopRings d) as [d1 fx]. cbn [fst snd] in *. split; [done|]. split; [|done].
  change (held d ≡ₚ held d1 ++ closed fx). by rewrite H, C.
Qed.

Lemma readMsg_len stream fds m : readMsg stream fds = Some (Ok m) -> (messageLen m <= length stream)%nat.
Proof.
  unfold readMsg. destruct (Z.ltb_spec (len stream) hdrSize) as [|Hl]; [done|]. destruct (maxPayloadSize <? _); [done|].
  destruct (_ <? _); [done|]. intros [= <-].
  unfold messageLen. cbn [m_payload]. rewrite length_take, length_drop. unfold len, hdrSize in Hl. lia.
Qed.

(** * The invariant *)

Definition cur_fds (s : session) : list nat := match se_cur s with Some m => m_fds m | None => [] end.

Record session_ok (stream : bytes) (s : session) : Prop := {
  so_fds : se_received s ≡ₚ held (se_dev s) ++ cur_fds s ++ closed (se_fx s);
  so_end : se_serving s = false -> dclosed (se_dev s) = true /\ se_cur s = None;
  so_gone : dclosed (se_dev s) = true -> se_late s = false -> held (se_dev s) = [] /\ mem (se_dev s) = None;
  so_len : (length (se_stream s) + 12 * se_msgs s <= length stream)%nat
}.

Lemma session_ok_new ap stream : session_ok stream (newSession ap stream).
Proof. split; cbn; try done. lia. Qed.

Lemma session_ok_step stream s s' : session_ok stream s -> session_step s s' -> session_ok stream s'.
Proof.
  intros [Hf He Hg Hl] Hs. destruct Hs as [fds m Hsv Hc Hr|fds Hsv Hc Hr|m werr d fx e Hsv Hc Hh late|d fx Hd|].
  - unfold serve_read in Hr. destruct (dclosed (se_dev s)) eqn:Ed; [done|]. destruct (readMsg (se_stream s) fds) as [[m'|]|] eqn:Em; try done.
    injection Hr as ->. apply readMsg_len in Em. unfold cur_fds in Hf. rewrite Hc in Hf. split; cbn; try done.
    + rewrite Hf. unfold cur_fds. cbn. rewrite <- app_assoc. f_equiv. apply Permutation_app_comm.
    + by rewrite Ed.
    + rewrite length_drop. unfold messageLen in *. lia.
  - destruct (dev_Close_spec (se_dev s)) as (C1 & C2 & C3 & C4). unfold cur_fds in Hf. rewrite Hc in Hf. split; cbn; try done.
    + unfold cur_fds. cbn. rewrite closed_app. rewrite Hf, C2. cbn. rewrite <- !app_assoc. f_equiv. apply Permutation_app_comm.
    + intros _ Hlate. destruct (dclosed (se_dev s)) eqn:Ed; [rewrite C4 by done; by apply Hg | by apply C3].
  - pose proof (dclosed_handle _ _ _ _ _ _ Hh) as Hd. destruct (descriptors_conserved _ _ _ _ _ _ _ _ Hh) as [Hm _].
    unfold cur_fds in Hf. rewrite Hc in Hf.
    assert (Hgone : dclosed d = true -> late = false -> held d = [] /\ mem d = None)
      by (subst late; intros H1 H2; rewrite <- Hd, H1, orb_true_r in H2; done).
    destruct e as [e|].
    + destruct (dev_Close_spec d) as (C1 & C2 & C3 & C4). split; cbn; try done.
      * unfold cur_fds. cbn. rewrite !closed_app, Hf, app_assoc, Hm, C2. solve_Permutation.
      * intros _ Hlate. destruct (dclosed d) eqn:Ed; [rewrite C4 by done; by apply Hgone | by apply C3].
    + split; cbn; try done. unfold cur_fds. cbn. rewrite closed_app, Hf, app_assoc, Hm. rewrite <- !app_assoc. f_equiv.
      apply Permutation_app_comm.
  - destruct (data_step_keeps _ _ _ Hd) as (Kh & Kc & Kd & Km). split; cbn; rewrite ?Kd; try done.
    + unfold cur_fds in *. cbn. by rewrite closed_app, Kc, app_nil_r, Kh.
    + intros H1 H2. destruct (Hg H1 H2) as [E1 E2]. rewrite E1 in Kh. apply Permutation_nil_r in Kh. by rewrite Km.
  - destruct (dev_Close_spec (se_dev s)) as (C1 & C2 & C3 & C4). split; cbn; try done.
    + unfold cur_fds in *. cbn. rewrite closed_app, Hf, C2. solve_Permutation.
    + intros H. by destruct (He H).
    + intros _ Hlate. destruct (dclosed (se_dev s)) eqn:Ed; [rewrite C4 by done; by apply Hg | by apply C3].
Qed.

Lemma session_run_ok ap stream s : session_run ap stream s -> session_ok stream s.
Proof. induction 1; [apply session_ok_new | by eapply session_ok_step]. Qed.
End session.


(** * Two sessions *)

Definition wire (m : message) : bytes := le_put 4 (m_req m) ++ le_put 4 (m_flags m) ++ le_put 4 (len (m_payload m)) ++ m_payload m.

Definition demo_stream : bytes := wire setMem ++ wire setKick.

(** [serve] reads and handles the next message, and then ends. *)
Definition demo_read (fds : list nat) (s : session) : session :=
  match serve_read fds s with
  | Some m => mkSession (se_dev s) (drop (messageLen m) (se_stream s)) (Some m) true (se_fx s)
                (se_received s ++ m_fds m) (S (se_msgs s)) (se_late s)
  | None => s
  end.
Definition demo_handle (s : session) : session :=
  match se_cur s with
  | Some m =>
      match handle demo_mmap 4096 None m (se_dev s) with
      | Ret (d, fx, None) => serve_handled d fx (se_late s || dclosed (se_dev s)) s
      | _ => s
      end
  | None => s
  end.

Lemma demo_read_run ap stream fds s : session_run demo_mmap 4096 ap stream s -> se_serving s = true -> se_cur s = None ->
  session_run demo_mmap 4096 ap stream (demo_read fds s).
Proof.
  intros Hr Hs Hc. unfold demo_read. destruct (serve_read fds s) as [m|] eqn:E; [|done].
  eapply sr_step; [exact Hr | by eapply se_read].
Qed.

Lemma demo_handle_run ap stream s : session_run demo_mmap 4096 ap stream s -> se_serving s = true ->
  session_run demo_mmap 4096 ap stream (demo_handle s).
Proof.
  intros Hr Hs. unfold demo_handle. destruct (se_cur s) as [m|] eqn:Hc; [|done].
  destruct (handle demo_mmap 4096 None m (se_dev s)) as [[[d fx] [e|]]|] eqn:E; [done| |done].
  eapply sr_step; [exact Hr|]. exact (se_handle _ _ s m None d fx None Hs Hc E).
Qed.

(** Memory, a kick descriptor, the end of the stream. *)
Definition demo_mid : session := demo_handle (demo_read [4%nat] (demo_handle (demo_read [3%nat] (newSession false demo_stream)))).
Definition demo_done : session := serve_end (se_dev demo_mid) [] false demo_mid.

Lemma demo_done_run : session_run demo_mmap 4096 false demo_stream demo_done.
Proof.
  eapply sr_step; [|eapply (se_eof _ _ demo_mid []); vm_compute; reflexivity].
  apply demo_handle_run; [|vm_compute; reflexivity]. apply demo_read_run; [|vm_compute; reflexivity..].
  apply demo_handle_run; [|vm_compute; reflexivity]. apply demo_read_run; [|done..]. apply sr_new.
Qed.


(** A memory table that was read before [Close] and handled after it stays
    mapped for good: [serve] has returned, and closing again does nothing. *)
Theorem late_message_leaks : exists s,
  session_run demo_mmap 4096 false demo_stream s /\ se_serving s = false /\ dclosed (se_dev s) = true /\
  mem (se_dev s) <> None /\ (dev_Close (se_dev s)).1 = se_dev s.
Proof.
  set (s1 := demo_read [3%nat] (newSession false demo_stream)).
  set (s2 := mkSession (dev_Close (se_dev s1)).1 (se_stream s1) (se_cur s1) (se_serving s1)
               (se_fx s1 ++ (dev_Close (se_dev s1)).2) (se_received s1) (se_msgs s1) (se_late s1)).
  set (s3 := demo_handle s2). exists (serve_end (se_dev s3) [] (se_late s3) s3). split.
  - eapply sr_step; [|eapply (se_eof _ _ s3 []); vm_compute; reflexivity].
    apply demo_handle_run; [|vm_compute; reflexivity]. eapply sr_step; [|exact (se_close _ _ s1)].
    apply demo_read_run; [apply sr_new | done..].
  - split; [reflexivity|]. split; [vm_compute; reflexivity|]. split; [vm_compute; discriminate | vm_compute; reflexivity].
Qed.
