(* ===== verification/Lease.v ===== *)
(** Addresses, static bindings and leases of the gateway's DHCP servers:
    src/internal/gateway/binding.go, and the operations of net/netip it uses.

    Client identities are the strings the servers build: MAC addresses and hex
    encodings, so the case folding of [strings.EqualFold] and [strings.ToLower]
    is the ASCII one. *)
From S2P Require Import Prelude.
From stdpp Require Import sorting.

#[local] Open Scope Z_scope.

(** * net/netip *)

Inductive Addr : Type :=
  | AInvalid
  | A4 (v : Z)
  | A6 (v : Z) (zone : string).

#[export] Instance Addr_eq_dec : EqDecision Addr.
Proof. solve_decision. Defined.

#[export] Instance Addr_countable : Countable Addr.
Proof.
  refine (inj_countable'
    (fun a => match a with AInvalid => None | A4 v => Some (inl v) | A6 v z => Some (inr (v, z)) end)
    (fun o => match o with None => AInvalid | Some (inl v) => A4 v | Some (inr (v, z)) => A6 v z end) _).
  by intros [].
Defined.

Definition IsValid (a : Addr) : bool := match a with AInvalid => false | _ => true end.
Definition Is4 (a : Addr) : bool := match a with A4 _ => true | _ => false end.
Definition Is6 (a : Addr) : bool := match a with A6 _ _ => true | _ => false end.
Definition Is4In6 (a : Addr) : bool := match a with A6 v _ => Z.shiftr v 32 =? 0xffff | _ => false end.
Definition IsUnspecified (a : Addr) : bool :=
  bool_decide (a = A4 0) || bool_decide (a = A6 0 EmptyString).
Definition BitLen (a : Addr) : Z := match a with AInvalid => 0 | A4 _ => 32 | A6 _ _ => 128 end.

Definition addr_value (a : Addr) : Z := match a with AInvalid => 0 | A4 v | A6 v _ => v end.
Definition Zone (a : Addr) : string := match a with A6 _ z => z | _ => EmptyString end.

Definition Less (a b : Addr) : bool :=
  if BitLen a <? BitLen b then true
  else if BitLen b <? BitLen a then false
  else if addr_value a <? addr_value b then true
  else if addr_value b <? addr_value a then false
  else Is6 a && String.ltb (Zone a) (Zone b).

(** The following address, the invalid one after the last. *)
Definition Next (a : Addr) : Addr :=
  match a with
  | AInvalid => AInvalid
  | A4 v => if u32 (v + 1) =? 0 then AInvalid else A4 (u32 (v + 1))
  | A6 v z => if (v + 1) mod 2 ^ 128 =? 0 then AInvalid else A6 ((v + 1) mod 2 ^ 128) z
  end.

(** [netip.AddrFromSlice]; [None] is [ok = false]. *)
Definition AddrFromSlice (b : bytes) : option Addr :=
  if len b =? 4 then Some (A4 (be_get b))
  else if len b =? 16 then Some (A6 (be_get b) EmptyString)
  else None.

(** [net.IP.To4] and [net.IP.To16]; nil is the empty slice. *)
Definition v4InV6Prefix : bytes := [0; 0; 0; 0; 0; 0; 0; 0; 0; 0; 0xff; 0xff].
Definition To4 (ip : bytes) : bytes :=
  if len ip =? 4 then ip
  else if (len ip =? 16) && bool_decide (take 12 ip = v4InV6Prefix) then drop 12 ip
  else [].
Definition To16 (ip : bytes) : bytes :=
  if len ip =? 4 then v4InV6Prefix ++ ip
  else if len ip =? 16 then ip
  else [].

Definition AsSlice (a : Addr) : bytes :=
  match a with AInvalid => [] | A4 v => be_put 4 v | A6 v _ => be_put 16 v end.

(** [netip.PrefixFrom(a, bits).Masked().Contains(ip)] *)
Definition prefix_contains (a : Addr) (bits : Z) (ip : Addr) : bool :=
  if negb (IsValid a) || (bits <? 0) || (BitLen a <? bits) then false
  else match a, ip with
  | A4 p, A4 v => Z.shiftr p (32 - bits) =? Z.shiftr v (32 - bits)
  | A6 p _, A6 v z => bool_decide (z = EmptyString) && (Z.shiftr p (128 - bits) =? Z.shiftr v (128 - bits))
  | _, _ => false
  end.

(** * Strings *)

Definition lower (c : Ascii.ascii) : Ascii.ascii :=
  let n := Ascii.N_of_ascii c in
  if (65 <=? Z.of_N n) && (Z.of_N n <=? 90) then Ascii.ascii_of_N (n + 32) else c.
Fixpoint ToLower (s : string) : string :=
  match s with
  | EmptyString => EmptyString
  | String c s' => String (lower c) (ToLower s')
  end.
Definition EqualFold (a b : string) : bool := bool_decide (ToLower a = ToLower b).

Definition hexDigit (n : Z) : Ascii.ascii :=
  match String.get (Z.to_nat n) "0123456789abcdef" with Some c => c | None => Ascii.zero end.
Definition hex_byte (b : Z) (rest : string) : string :=
  String (hexDigit (Z.shiftr b 4)) (String (hexDigit (Z.land b 15)) rest).

(** [hex.EncodeToString] and [net.HardwareAddr.String]. *)
Fixpoint EncodeToString (b : bytes) : string :=
  match b with [] => EmptyString | x :: b' => hex_byte x (EncodeToString b') end.
Fixpoint hwString (b : bytes) : string :=
  match b with
  | [] => EmptyString
  | [x] => hex_byte x EmptyString
  | x :: b' => hex_byte x (String.append ":" (hwString b'))
  end.

(** * Static bindings *)

Record StaticBinding := mkBinding {
  sb_ID : string;
  sb_Order : Z;
  sb_PortID : option string;
  sb_MAC : option string;
  sb_ClientID : option string;
  sb_IP : Addr
}.

Definition binding_validate (b : StaticBinding) : option goerr :=
  match sb_PortID b, sb_MAC b, sb_ClientID b with
  | None, None, None => Some (Errorf "static binding needs at least one condition" [])
  | _, _, _ => if negb (IsValid (sb_IP b)) then Some (Errorf "static binding needs a valid ip" []) else None
  end.

(** The score of a binding for a client, [None] when a condition fails. *)
Definition binding_score (portID mac clientID : string) (b : StaticBinding) : option Z :=
  let cond (o : option string) (test : string -> bool) (score : Z) : option Z :=
    match o with
    | None => Some score
    | Some x => if test x then Some (score + 1) else None
    end in
  s ← cond (sb_PortID b) (fun x => bool_decide (x = portID)) 0;
  s ← cond (sb_MAC b) (fun x => EqualFold x mac) s;
  cond (sb_ClientID b) (fun x => EqualFold x clientID) s.

Definition binding_step (portID mac clientID : string) (best : option (StaticBinding * Z)) (b : StaticBinding)
    : option (StaticBinding * Z) :=
  match binding_score portID mac clientID b with
  | None => best
  | Some score =>
      if score =? 0 then best
      else match best with
      | None => Some (b, score)
      | Some (bb, bestScore) =>
          if (bestScore <? score) || ((score =? bestScore) && (sb_Order bb <? sb_Order b))
          then Some (b, score) else best
      end
  end.

Definition matchBinding (bindings : list StaticBinding) (portID mac clientID : string) : option StaticBinding :=
  fst <$> foldl (binding_step portID mac clientID) None bindings.

Definition buildStep (v6 : bool) (acc : result (gmap string StaticBinding)) (b : StaticBinding)
    : result (gmap string StaticBinding) :=
  match acc with
  | Err e => Err e
  | Ok m =>
      if bool_decide (sb_ID b = EmptyString) then Err (Errorf "static binding needs an id" [])
      else match binding_validate b with
      | Some e => Err (Errorf "binding %q: %w" [AStr (sb_ID b); AErr e])
      | None =>
          if v6 && (negb (Is6 (sb_IP b)) || Is4In6 (sb_IP b)) then
            Err (Errorf "binding %q: ip must be IPv6" [AStr (sb_ID b)])
          else if negb v6 && negb (Is4 (sb_IP b)) then
            Err (Errorf "binding %q: ip must be IPv4" [AStr (sb_ID b)])
          else match m !! sb_ID b with
          | Some _ => Err (Errorf "duplicate binding id %q" [AStr (sb_ID b)])
          | None => Ok (<[sb_ID b := b]> m)
          end
      end
  end.

Definition buildStaticSet (bs : list StaticBinding) (v6 : bool) : result (gmap string StaticBinding) :=
  foldl (buildStep v6) (Ok ∅) bs.

(** * Leases *)

Record Lease := mkLease {
  l_IP : Addr;
  l_MAC : string;
  l_ClientID : string;
  l_PortID : string;
  l_Expiry : Z;
  l_Static : bool
}.

Definition with_ip (ip : Addr) (static : bool) (l : Lease) : Lease :=
  mkLease ip (l_MAC l) (l_ClientID l) (l_PortID l) (l_Expiry l) static.

Abbreviation leaseTable := (gmap Addr Lease) (only parsing).

Definition newLeaseTable : leaseTable := ∅.

Definition clientKey (mac clientID : string) : string :=
  String.append (ToLower mac) (String.append "/" (ToLower clientID)).
Definition lease_key (l : Lease) : string := clientKey (l_MAC l) (l_ClientID l).

Definition lease_get (t : leaseTable) (now : Z) (ip : Addr) : option Lease :=
  match t !! ip with
  | None => None
  | Some l => if time_after now (l_Expiry l) then None else Some l
  end.

(** The clock is read for every lease of the client, hence [now] by address. *)
Definition byClient (range : leaseTable -> list (Addr * Lease)) (now : Addr -> Z) (t : leaseTable)
    (mac clientID : string) : option Lease :=
  (fun p => p.2.2) <$> list_find (fun kv : Addr * Lease =>
    bool_decide (lease_key kv.2 = clientKey mac clientID) && negb (time_after (now kv.1) (l_Expiry kv.2)))
    (range t).

Definition lease_set (l : Lease) (t : leaseTable) : leaseTable := <[l_IP l := l]> t.

Definition release (ip : Addr) (t : leaseTable) : leaseTable * bool :=
  match t !! ip with
  | None => (t, false)
  | Some _ => (delete ip t, true)
  end.

Definition releaseByPort (portID : string) (t : leaseTable) : leaseTable :=
  filter (fun kv => l_PortID kv.2 <> portID) t.

Definition inUse (t : leaseTable) (now : Z) (ip : Addr) (mac clientID : string) : bool :=
  match t !! ip with
  | None => false
  | Some l =>
      if time_after now (l_Expiry l) then false
      else negb (bool_decide (lease_key l = clientKey mac clientID))
  end.

Definition expireSweep (now : Z) (t : leaseTable) : leaseTable :=
  filter (fun kv => time_after now (l_Expiry kv.2) = false) t.

Definition lease_le (a b : Lease) : Prop := Less (l_IP b) (l_IP a) = false.
#[export] Instance lease_le_dec : RelDecision lease_le.
Proof. intros a b. unfold lease_le. apply _. Defined.

Definition lease_snapshot (range : leaseTable -> list (Addr * Lease)) (now : Z) (t : leaseTable) : list Lease :=
  merge_sort lease_le (filter (fun l => time_after now (l_Expiry l) = false) (range t).*2).

(** The loop of [allocate]: [None] when the fuel runs out. *)
Fixpoint allocLoop (fuel : nat) (now : Z) (end_ : Addr) (skip : Addr -> bool) (t : leaseTable) (ip : Addr)
    : option Addr :=
  match fuel with
  | O => None
  | S fuel' =>
      if negb (IsValid ip) || Less end_ ip then Some AInvalid
      else if skip ip then allocLoop fuel' now end_ skip t (Next ip)
      else match t !! ip with
      | Some cur =>
          if negb (time_after now (l_Expiry cur)) then allocLoop fuel' now end_ skip t (Next ip)
          else Some ip
      | None => Some ip
      end
  end.

(** Books the address found; the invalid address leaves the table as it is. *)
Definition allocate (fuel : nat) (now : Z) (start end_ : Addr) (skip : Addr -> bool) (l : Lease) (t : leaseTable)
    : option (leaseTable * Addr) :=
  match allocLoop fuel now end_ skip t start with
  | None => None
  | Some ip =>
      if IsValid ip then Some (<[ip := with_ip ip (l_Static l) l]> t, ip) else Some (t, AInvalid)
  end.

(** * Lemmas *)

(** ** The best binding *)

(** [b] beats or equals [b'] for the client. *)
Definition binding_le (s' : Z) (b' : StaticBinding) (s : Z) (b : StaticBinding) : Prop :=
  s' < s \/ s' = s /\ sb_Order b' <= sb_Order b.

Definition best_binding (portID mac clientID : string) (bs : list StaticBinding)
    (best : option (StaticBinding * Z)) : Prop :=
  match best with
  | None => forall b s, b ∈ bs -> binding_score portID mac clientID b = Some s -> s = 0
  | Some (b, s) =>
      b ∈ bs /\ binding_score portID mac clientID b = Some s /\ s <> 0 /\
      forall b' s', b' ∈ bs -> binding_score portID mac clientID b' = Some s' -> s' <> 0 -> binding_le s' b' s b
  end.

Section best.
Context (portID mac clientID : string).
Abbreviation score := (binding_score portID mac clientID).
Abbreviation best_of := (best_binding portID mac clientID).

(** A binding that does not match changes nothing. *)
Lemma best_skip bs best b :
  (forall s, score b = Some s -> s = 0) -> best_of bs best -> best_of (bs ++ [b]) best.
Proof.
  intros Hskip Hb. destruct best as [[bb ss]|].
  - destruct Hb as (H1 & H2 & H3 & H4). split_and!; try done; [apply elem_of_app; by left|].
    intros b' s' [Hin| ->%list_elem_of_singleton]%elem_of_app E N; [by apply H4 | by apply Hskip in E].
  - intros b' s' [Hin| ->%list_elem_of_singleton]%elem_of_app E; [by eapply Hb | by apply Hskip].
Qed.

(** A matching binding joins: the better of the two remains. *)
Lemma best_join bs bb ss b s b1 s1 :
  best_of bs (Some (bb, ss)) -> score b = Some s -> s <> 0 ->
  (b1, s1) = (bb, ss) /\ binding_le s b ss bb \/ (b1, s1) = (b, s) /\ binding_le ss bb s b ->
  best_of (bs ++ [b]) (Some (b1, s1)).
Proof.
  intros (H1 & H2 & H3 & H4) Es Hs [[[= -> ->] Hle]|[[= -> ->] Hle]].
  - split_and!; try done; [apply elem_of_app; by left|].
    intros b' s' [Hin| ->%list_elem_of_singleton]%elem_of_app E N; [by apply H4 | congruence].
  - split_and!; try done; [apply elem_of_app; right; by apply list_elem_of_singleton|].
    intros b' s' [Hin| ->%list_elem_of_singleton]%elem_of_app E N.
    + specialize (H4 b' s' Hin E N). unfold binding_le in *. lia.
    + replace s' with s by congruence. right. lia.
Qed.

Lemma binding_step_best bs best b :
  best_of bs best -> best_of (bs ++ [b]) (binding_step portID mac clientID best b).
Proof.
  intros Hb. unfold binding_step. destruct (score b) as [s|] eqn:Es; [|by apply best_skip; [congruence|]].
  destruct (Z.eqb_spec s 0) as [->|Hs]; [by apply best_skip; [congruence|]|].
  destruct best as [[bb ss]|].
  - destruct ((ss <? s) || _) eqn:Ec; (eapply best_join; [done | done | done |]); unfold binding_le.
    + right. split; [done|]. apply orb_true_iff in Ec as [Ec|Ec]; bool_prop; lia.
    + left. split; [done|]. apply orb_false_iff in Ec as [Ec1 Ec2]. apply andb_false_iff in Ec2 as [Ec2|Ec2];
        bool_prop; lia.
  - split_and!; try done; [apply elem_of_app; right; by apply list_elem_of_singleton|].
    intros b' s' [Hin| ->%list_elem_of_singleton]%elem_of_app E N; [by specialize (Hb b' s' Hin E) |].
    replace s' with s by congruence. right. lia.
Qed.

Lemma fold_best todo : forall done_ best,
  best_of done_ best -> best_of (done_ ++ todo) (foldl (binding_step portID mac clientID) best todo).
Proof.
  induction todo as [|b todo IH]; intros done_ best Hb; cbn [foldl]; [by rewrite app_nil_r|].
  rewrite cons_middle, app_assoc. by apply IH, binding_step_best.
Qed.

Lemma fold_best_all bs : best_of bs (foldl (binding_step portID mac clientID) None bs).
Proof. apply (fold_best bs [] None). by intros b' s' ?%elem_of_nil. Qed.

Lemma matchBinding_best bs b :
  matchBinding bs portID mac clientID = Some b -> exists s, best_of bs (Some (b, s)).
Proof.
  unfold matchBinding. intros H. pose proof (fold_best_all bs) as Hb.
  destruct (foldl _ _ _) as [[b' s]|]; [|done]. injection H as ->. by exists s.
Qed.

Lemma matchBinding_none bs : matchBinding bs portID mac clientID = None -> best_of bs None.
Proof.
  unfold matchBinding. intros H. pose proof (fold_best_all bs) as Hb.
  by destruct (foldl _ _ _) as [[b' s]|].
Qed.
End best.

(** ** The allocation loop, over one address family *)

(** The addresses [mk 0 .. mk (M - 1)] in order. *)
Class Family (mk : Z -> Addr) (M : Z) : Prop := {
  fam_valid : forall v, IsValid (mk v) = true;
  fam_next : forall v, 0 <= v < M -> Next (mk v) = if v + 1 =? M then AInvalid else mk (v + 1);
  fam_less : forall a b, 0 <= a < M -> 0 <= b < M -> Less (mk a) (mk b) = (a <? b);
  fam_value : forall v, addr_value (mk v) = v
}.

#[export] Instance family4 : Family A4 (2 ^ 32).
Proof.
  split; try done.
  - intros v Hv. cbn [Next]. unfold u32. destruct (Z.eqb_spec (v + 1) (2 ^ 32)) as [->|]; [done|].
    rewrite Z.mod_small, (proj2 (Z.eqb_neq (v + 1) 0)) by lia. done.
  - intros a b Ha Hb. unfold Less. cbn [BitLen addr_value Is6]. rewrite Z.ltb_irrefl.
    destruct (a <? b); [done|]. by destruct (b <? a).
Qed.

#[export] Instance family6 z : Family (fun v => A6 v z) (2 ^ 128).
Proof.
  split; try done.
  - intros v Hv. cbn [Next]. destruct (Z.eqb_spec (v + 1) (2 ^ 128)) as [->|]; [done|].
    rewrite Z.mod_small, (proj2 (Z.eqb_neq (v + 1) 0)) by lia. done.
  - intros a b Ha Hb. unfold Less. cbn [BitLen addr_value Is6 Zone]. rewrite Z.ltb_irrefl.
    destruct (a <? b); [done|]. destruct (b <? a); [done|]. cbn [andb].
    unfold String.ltb. pose proof (String.compare_antisym z z) as E. by destruct (String.compare z z).
Qed.

Lemma size_list_to_set_le (l : list Addr) : (size (list_to_set l : gset Addr) <= length l)%nat.
Proof.
  induction l as [|x l IH]; [done|]. cbn [list_to_set length]. rewrite size_union_alt, size_singleton.
  assert (size ((list_to_set l : gset Addr) ∖ {[x]}) <= size (list_to_set l : gset Addr))%nat; [|lia].
  apply subseteq_size. intros y Hy. by apply elem_of_difference in Hy as [? _].
Qed.

Section alloc.
Context (mk : Z -> Addr) (M : Z) `{!Family mk M}.
Context (now : Z) (e : Z) (skip : Addr -> bool) (t : leaseTable) (He : 0 <= e < M).

(** The server may hand out [ip]. *)
Definition free_addr (ip : Addr) : bool :=
  negb (skip ip) && match t !! ip with Some cur => time_after now (l_Expiry cur) | None => true end.

(** The loop started at [mk v] stops at the first free address. *)
Definition first_free (v : Z) (r : Addr) : Prop :=
  (exists u, v <= u <= e /\ r = mk u /\ free_addr (mk u) = true /\
     forall w, v <= w < u -> free_addr (mk w) = false) \/
  (r = AInvalid /\ forall w, v <= w <= e -> free_addr (mk w) = false).

Lemma allocLoop_step fuel ip :
  IsValid ip = true -> Less (mk e) ip = false ->
  allocLoop (S fuel) now (mk e) skip t ip =
    if free_addr ip then Some ip else allocLoop fuel now (mk e) skip t (Next ip).
Proof using.
  intros Hv Hl. cbn [allocLoop]. unfold free_addr. rewrite Hv, Hl. cbn [negb orb].
  destruct (skip ip); [done|]. destruct (t !! ip) as [cur|]; [|done]. by destruct (time_after _ _).
Qed.

Lemma first_free_cons v r : v <= e -> free_addr (mk v) = false -> first_free (v + 1) r -> first_free v r.
Proof using.
  intros Hv Hf [(u & Hu & Hr & Hfu & Hw)|[Hr Hw]]; [left|right].
  - exists u. split_and!; try done; try lia. intros w Hw'. destruct (decide (w = v)) as [->|]; [done|]. apply Hw. lia.
  - split; [done|]. intros w Hw'. destruct (decide (w = v)) as [->|]; [done|]. apply Hw. lia.
Qed.

(** The addresses that can be passed over from [mk v] on. *)
Definition ahead (rej : gset Addr) (v : Z) : gset Addr := filter (fun a => v <= addr_value a) rej.

Lemma allocLoop_first_free rej fuel : forall v,
  0 <= v <= e -> (forall w, free_addr (mk w) = false -> mk w ∈ rej) -> (size (ahead rej v) < fuel)%nat ->
  exists r, allocLoop fuel now (mk e) skip t (mk v) = Some r /\ first_free v r.
Proof using Family0 He.
  induction fuel as [|fuel IH]; intros v Hv Hrej Hf; [lia|].
  rewrite allocLoop_step; [|apply fam_valid | rewrite (fam_less (mk := mk) (M := M)) by lia; apply Z.ltb_ge; lia].
  destruct (free_addr (mk v)) eqn:Ef.
  { exists (mk v). split; [done|]. left. exists v. split_and!; try done; lia. }
  assert (Hlt : (size (ahead rej (v + 1)) < size (ahead rej v))%nat).
  { apply subset_size. unfold ahead. split; [set_unfold; intros x [? ?]; split; [lia | done]|].
    intros Hsub. specialize (Hsub (mk v)). rewrite !elem_of_filter, fam_value in Hsub.
    specialize (Hsub (conj (Z.le_refl v) (Hrej v Ef))). lia. }
  rewrite (fam_next (mk := mk) (M := M)) by lia. destruct (Z.eqb_spec (v + 1) M).
  - destruct fuel as [|fuel]; [lia|]. exists AInvalid. split; [done|]. apply first_free_cons; [lia | done |].
    right. split; [done|]. intros w Hw. lia.
  - destruct (decide (v + 1 <= e)) as [Hle|Hgt].
    + destruct (IH (v + 1)) as (r & Hr & Hff); [lia | done | lia |]. exists r. split; [done|].
      by apply first_free_cons; [lia|..].
    + destruct fuel as [|fuel]; [lia|]. exists AInvalid. split.
      * cbn [allocLoop]. rewrite fam_valid, (fam_less (mk := mk) (M := M)) by lia. cbn [negb orb].
        by rewrite (proj2 (Z.ltb_lt e (v + 1))) by lia.
      * apply first_free_cons; [lia | done |]. right. split; [done|]. intros w Hw. lia.
Qed.
End alloc.
