(* ===== verification/GoText.v ===== *)
(** Text of the Go standard library that the manager, the gateway and the API
    use: decimal numbers (strconv), searching (strings), error messages (fmt),
    host:port pairs and hardware addresses (net), IP addresses and prefixes
    (net/netip).

    A Go string is a sequence of bytes, as is a Rocq one.  Quoting ([%q]) is the
    ASCII part of [strconv.Quote]. *)
From S2P Require Import Prelude Lease.
From Stdlib Require Import Ascii.
From stdpp Require Import pretty.

#[local] Open Scope Z_scope.

Definition code (c : Ascii.ascii) : Z := Z.of_N (Ascii.N_of_ascii c).

(** * strings *)

Definition Contains (s sub : string) : bool :=
  match String.index 0 sub s with Some _ => true | None => false end.

Fixpoint IndexByte (s : string) (c : Ascii.ascii) : option nat :=
  match s with
  | EmptyString => None
  | String x s' => if Ascii.eqb x c then Some 0%nat else S <$> IndexByte s' c
  end.

Fixpoint LastIndexByte (s : string) (c : Ascii.ascii) : option nat :=
  match s with
  | EmptyString => None
  | String x s' =>
      match LastIndexByte s' c with
      | Some n => Some (S n)
      | None => if Ascii.eqb x c then Some 0%nat else None
      end
  end.

(** [s[:n]] and [s[n:]], for [n] within the string. *)
Fixpoint str_take (n : nat) (s : string) : string :=
  match n, s with
  | S n', String c s' => String c (str_take n' s')
  | _, _ => EmptyString
  end.
Fixpoint str_drop (n : nat) (s : string) : string :=
  match n, s with
  | S n', String _ s' => str_drop n' s'
  | _, _ => s
  end.

Definition has_byte (s : string) (c : Ascii.ascii) : bool :=
  match IndexByte s c with Some _ => true | None => false end.

(** [strings.Cut] at a byte. *)
Definition Cut (s : string) (c : Ascii.ascii) : option (string * string) :=
  (fun i => (str_take i s, str_drop (S i) s)) <$> IndexByte s c.

Definition is_empty (s : string) : bool := match s with EmptyString => true | _ => false end.

Definition is_space (c : Ascii.ascii) : bool :=
  ((9 <=? code c) && (code c <=? 13)) || (code c =? 32).

(** [strings.TrimSpace], for the ASCII white space. *)
Fixpoint trim_left (s : string) : string :=
  match s with
  | String c s' => if is_space c then trim_left s' else s
  | EmptyString => EmptyString
  end.
Fixpoint trim_right (s : string) : string :=
  match s with
  | EmptyString => EmptyString
  | String c s' =>
      match trim_right s' with
      | EmptyString => if is_space c then EmptyString else String c EmptyString
      | r => String c r
      end
  end.
Definition TrimSpace (s : string) : string := trim_left (trim_right s).

(** * strconv *)

Definition Itoa (z : Z) : string := pretty z.

Definition digit (c : Ascii.ascii) : option Z :=
  if (48 <=? code c) && (code c <=? 57) then Some (code c - 48) else None.

Fixpoint digits_value (s : string) (acc : Z) : option Z :=
  match s with
  | EmptyString => Some acc
  | String c s' => match digit c with Some d => digits_value s' (acc * 10 + d) | None => None end
  end.

Definition parse_dec (s : string) : option Z :=
  match s with EmptyString => None | _ => digits_value s 0 end.

(** [strconv.Atoi]; the callers only look at whether there was an error. *)
Definition Atoi (s : string) : option Z :=
  let signed (neg : bool) (s : string) : option Z :=
    n ← parse_dec s;
    let v := if neg then - n else n in
    if (minInt64 <=? v) && (v <=? maxInt64) then Some v else None in
  match s with
  | String "-"%char s' => signed true s'
  | String "+"%char s' => signed false s'
  | _ => signed false s
  end.

(** [strconv.ParseUint(s, 10, bits)] *)
Definition ParseUint (s : string) (bits : Z) : result Z :=
  match parse_dec s with
  | None => Err (Errorf "strconv.ParseUint: parsing %q: invalid syntax" [AStr s])
  | Some n =>
      if n <? 2 ^ bits then Ok n
      else Err (Errorf "strconv.ParseUint: parsing %q: value out of range" [AStr s])
  end.

Definition quoteChar (c : Ascii.ascii) (rest : string) : string :=
  let esc (x : Ascii.ascii) := String "\"%char (String x rest) in
  if Ascii.eqb c (Ascii.ascii_of_nat 34) || Ascii.eqb c "\"%char then esc c
  else if code c =? 7 then esc "a"%char
  else if code c =? 8 then esc "b"%char
  else if code c =? 12 then esc "f"%char
  else if code c =? 10 then esc "n"%char
  else if code c =? 13 then esc "r"%char
  else if code c =? 9 then esc "t"%char
  else if code c =? 11 then esc "v"%char
  else if (code c <? 32) || (code c =? 127) then String "\"%char (String "x"%char (hex_byte (code c) rest))
  else String c rest.

Fixpoint quoteFrom (s : string) : string :=
  match s with
  | EmptyString => String (Ascii.ascii_of_nat 34) EmptyString
  | String c s' => quoteChar c (quoteFrom s')
  end.

Definition Quote (s : string) : string := String (Ascii.ascii_of_nat 34) (quoteFrom s).

(** * fmt *)

(** Substitute the operands for the verbs, in order. *)
Fixpoint Sprintf (f : string) (args : list string) : string :=
  match f with
  | EmptyString => EmptyString
  | String "%"%char (String v f') =>
      match args with
      | a :: args' => (if Ascii.eqb v "q"%char then Quote a else a) +:+ Sprintf f' args'
      | [] => String "%"%char (String v (Sprintf f' []))
      end
  | String c f' => String c (Sprintf f' args)
  end.

(** [err.Error()] *)
Fixpoint Error (e : goerr) : string :=
  match e with Errorf f args => Sprintf f (List.map arg_text args) end
with arg_text (a : earg) : string :=
  match a with
  | AStr s => s
  | AInt z => Itoa z
  | AErr e => Error e
  end.

(** * net: host:port pairs *)

(** [(&AddrError{Err: why, Addr: addr}).Error()] *)
Definition AddrError (why addr : string) : goerr :=
  if is_empty addr then Errorf why [] else Errorf ("address %s: " +:+ why) [AStr addr].

Definition SplitHostPort (hostport : string) : result (string * string) :=
  let fail (why : string) := Err (AddrError why hostport) in
  match LastIndexByte hostport ":"%char with
  | None => fail "missing port in address"
  | Some i =>
      let finish (host : string) (j k : nat) :=
        if has_byte (str_drop j hostport) "["%char then fail "unexpected '[' in address"
        else if has_byte (str_drop k hostport) "]"%char then fail "unexpected ']' in address"
        else Ok (host, str_drop (S i) hostport) in
      match hostport with
      | String "["%char _ =>
          match IndexByte hostport "]"%char with
          | None => fail "missing ']' in address"
          | Some end_ =>
              if (S end_ =? String.length hostport)%nat then fail "missing port in address"
              else if (S end_ =? i)%nat then finish (str_drop 1 (str_take end_ hostport)) 1%nat (S end_)
              else match String.get (S end_) hostport with
              | Some ":"%char => fail "too many colons in address"
              | _ => fail "missing port in address"
              end
          end
      | _ =>
          let host := str_take i hostport in
          if has_byte host ":"%char then fail "too many colons in address" else finish host 0%nat 0%nat
      end
  end.

(** * net: hardware addresses *)

Definition hexValue (c : Ascii.ascii) : option Z :=
  let n := code c in
  if (48 <=? n) && (n <=? 57) then Some (n - 48)
  else if (97 <=? n) && (n <=? 102) then Some (n - 87)
  else if (65 <=? n) && (n <=? 70) then Some (n - 55)
  else None.

(** [xtoi2(s, e)]: two hex digits, followed by [e] unless they end the string. *)
Definition xtoi2 (s : string) (e : Ascii.ascii) : option Z :=
  match s with
  | String a (String b rest) =>
      let ends := match rest with EmptyString => true | String c _ => Ascii.eqb c e end in
      if ends then
        x ← hexValue a;
        y ← hexValue b;
        Some (16 * x + y)
      else None
  | _ => None
  end.

(** [n] pairs of digits, three characters apart. *)
Fixpoint mac_pairs (n : nat) (s : string) (sep : Ascii.ascii) : option bytes :=
  match n with
  | O => Some []
  | S n' =>
      x ← xtoi2 s sep;
      rest ← mac_pairs n' (str_drop 3 s) sep;
      Some (x :: rest)
  end.

(** [n] groups of four digits, five characters apart. *)
Fixpoint mac_quads (n : nat) (s : string) : option bytes :=
  match n with
  | O => Some []
  | S n' =>
      x ← xtoi2 (str_take 2 s) Ascii.zero;
      y ← xtoi2 (str_drop 2 s) "."%char;
      rest ← mac_quads n' (str_drop 5 s);
      Some (x :: y :: rest)
  end.

Definition mac_size (n : nat) : bool := ((n =? 6) || (n =? 8) || (n =? 20))%nat.

Definition parseMAC (s : string) : option bytes :=
  let l := String.length s in
  if (l <? 14)%nat then None
  else match String.get 2 s, String.get 4 s with
  | Some c2, Some c4 =>
      if Ascii.eqb c2 ":"%char || Ascii.eqb c2 "-"%char then
        if negb (S l mod 3 =? 0)%nat || negb (mac_size (S l / 3)) then None
        else mac_pairs (S l / 3) s c2
      else if Ascii.eqb c4 "."%char then
        if negb (S l mod 5 =? 0)%nat || negb (mac_size (2 * S l / 5)) then None
        else mac_quads (S l / 5) s
      else None
  | _, _ => None
  end.

Definition ParseMAC (s : string) : result bytes :=
  match parseMAC s with
  | Some hw => Ok hw
  | None => Err (AddrError "invalid MAC address" s)
  end.

(** * net/netip: parsing *)

(** [parseAddrError{in, msg, at}] *)
Definition addrErr {A} (inp msg at_ : string) : result A :=
  if is_empty at_ then Err (Errorf ("ParseAddr(%q): " +:+ msg) [AStr inp])
  else Err (Errorf ("ParseAddr(%q): " +:+ msg +:+ " (at %q)") [AStr inp; AStr at_]).

(** The loop of [parseIPv4Fields]: [val] and [digLen] are the current octet,
    [fields] the finished ones, [start] whether nothing was read yet, [dot]
    whether the last character was a dot. *)
Fixpoint v4_fields (inp s : string) (start dot : bool) (val digLen : Z) (fields : list Z) : result (list Z) :=
  match s with
  | EmptyString =>
      if (length fields <? 3)%nat then addrErr inp "IPv4 address too short" EmptyString
      else Ok (fields ++ [val])
  | String c s' =>
      match digit c with
      | Some d =>
          if (digLen =? 1) && (val =? 0) then
            addrErr inp "IPv4 field has octet with leading zero" EmptyString
          else if 255 <? val * 10 + d then addrErr inp "IPv4 field has value >255" EmptyString
          else v4_fields inp s' false false (val * 10 + d) (digLen + 1) fields
      | None =>
          if Ascii.eqb c "."%char then
            if start || is_empty s' || dot then addrErr inp "IPv4 field must have at least one digit" s
            else if (length fields =? 3)%nat then addrErr inp "IPv4 address too long" EmptyString
            else v4_fields inp s' false true 0 0 (fields ++ [val])
          else addrErr inp "unexpected character" s
      end
  end.

Definition parseIPv4Addr (s : string) : result Addr :=
  match v4_fields s s true false 0 0 [] with
  | Ok f => Ok (A4 (be_get f))
  | Err e => Err e
  end.

(** The hex digits at the start of [s]: how many, and their value. *)
Fixpoint hex_group (inp at_ s : string) (off : nat) (acc : Z) : result (nat * Z) :=
  match s with
  | EmptyString => Ok (off, acc)
  | String c s' =>
      match hexValue c with
      | None => Ok (off, acc)
      | Some d =>
          if (3 <? off)%nat then addrErr inp "each group must have 4 or less digits" at_
          else if 65535 <? acc * 16 + d then addrErr inp "IPv6 field has value >=2^16" at_
          else hex_group inp at_ s' (S off) (acc * 16 + d)
      end
  end.

(** The loop over the groups: the bytes parsed, the position of the ellipsis,
    and what is left of the string. *)
Fixpoint v6_groups (n : nat) (inp s : string) (ip : list Z) (ell : option nat)
    : result (list Z * option nat * string) :=
  match n with
  | O => Ok (ip, ell, s)
  | S n' =>
      match hex_group inp s s 0 0 with
      | Err e => Err e
      | Ok (O, _) => addrErr inp "each colon-separated field must have at least one digit" s
      | Ok (off, acc) =>
          let ip' := ip ++ [Z.shiftr acc 8; Z.land acc 255] in
          match str_drop off s with
          | String "."%char _ =>
              if bool_decide (ell = None) && negb (length ip =? 12)%nat then
                addrErr inp "embedded IPv4 address must replace the final 2 fields of the address" s
              else if (16 <? length ip + 4)%nat then
                addrErr inp "too many hex fields to fit an embedded IPv4 at the end of the address" s
              else match v4_fields inp s true false 0 0 [] with
              | Err e => Err e
              | Ok f => Ok (ip ++ f, ell, EmptyString)
              end
          | EmptyString => Ok (ip', ell, EmptyString)
          | String ":"%char EmptyString as r => addrErr inp "colon must be followed by more characters" r
          | String ":"%char (String ":"%char s'' as r) =>
              match ell with
              | Some _ => addrErr inp "multiple :: in address" r
              | None =>
                  if is_empty s'' then Ok (ip', Some (length ip'), EmptyString)
                  else v6_groups n' inp s'' ip' (Some (length ip'))
              end
          | String ":"%char s' => v6_groups n' inp s' ip' ell
          | r => addrErr inp "unexpected character, want colon" r
          end
      end
  end.

(** Expand the ellipsis. *)
Definition v6_finish (inp zone : string) (x : list Z * option nat * string) : result Addr :=
  let '(ip, ell, s) := x in
  if negb (is_empty s) then addrErr inp "trailing garbage after address" s
  else if (length ip <? 16)%nat then
    match ell with
    | None => addrErr inp "address string too short" EmptyString
    | Some e => Ok (A6 (be_get (take e ip ++ make_bytes (16 - length ip) ++ drop e ip)) zone)
    end
  else match ell with
  | Some _ => addrErr inp "the :: must expand to at least one field of zeros" EmptyString
  | None => Ok (A6 (be_get ip) zone)
  end.

Definition parseIPv6Addr (inp : string) : result Addr :=
  let parse (s zone : string) : result Addr :=
    let groups (s : string) (ell : option nat) :=
      match v6_groups 8 inp s [] ell with
      | Err e => Err e
      | Ok x => v6_finish inp zone x
      end in
    match s with
    | String ":"%char (String ":"%char EmptyString) => Ok (A6 0 zone)
    | String ":"%char (String ":"%char s') => groups s' (Some 0%nat)
    | _ => groups s None
    end in
  match Cut inp "%"%char with
  | Some (s, zone) =>
      if is_empty zone then addrErr inp "zone must be a non-empty string" EmptyString else parse s zone
  | None => parse inp EmptyString
  end.

(** Which of the three bytes comes first decides. *)
Fixpoint addr_kind (s : string) : option Ascii.ascii :=
  match s with
  | EmptyString => None
  | String c s' =>
      if Ascii.eqb c "."%char || Ascii.eqb c ":"%char || Ascii.eqb c "%"%char then Some c else addr_kind s'
  end.

Definition ParseAddr (s : string) : result Addr :=
  match addr_kind s with
  | Some "."%char => parseIPv4Addr s
  | Some ":"%char => parseIPv6Addr s
  | Some _ => addrErr s "missing IPv6 address" EmptyString
  | None => addrErr s "unable to parse IP" EmptyString
  end.

Definition As16 (a : Addr) : bytes :=
  match a with AInvalid => make_bytes 16 | A4 v => v4InV6Prefix ++ be_put 4 v | A6 v _ => be_put 16 v end.

(** [net.ParseIP]; nil is the empty slice. *)
Definition ParseIP (s : string) : bytes :=
  match ParseAddr s with
  | Ok a => if is_empty (Zone a) then As16 a else []
  | Err _ => []
  end.

Record Prefix := mkPrefix { pfx_Addr : Addr; pfx_Bits : Z }.
#[export] Instance Prefix_eq_dec : EqDecision Prefix.
Proof. solve_decision. Defined.

(** [netip.PrefixFrom(a, bits).Masked()] *)
Definition prefix_Masked (a : Addr) (bits : Z) : Prefix :=
  let mask (n v : Z) := Z.shiftl (Z.shiftr v (n - bits)) (n - bits) in
  if negb (IsValid a) || (bits <? 0) || (BitLen a <? bits) then mkPrefix AInvalid (-1)
  else mkPrefix (match a with AInvalid => AInvalid | A4 v => A4 (mask 32 v) | A6 v _ => A6 (mask 128 v) EmptyString end) bits.

Definition ParsePrefix (s : string) : result Prefix :=
  let fail {A} (msg : string) (args : list earg) : result A :=
    Err (Errorf ("netip.ParsePrefix(%q): " +:+ msg) (AStr s :: args)) in
  match LastIndexByte s "/"%char with
  | None => fail "no '/'" []
  | Some i =>
      match ParseAddr (str_take i s) with
      | Err e => fail "%s" [AErr e]
      | Ok ip =>
          if negb (is_empty (Zone ip)) then fail "IPv6 zones cannot be present in a prefix" []
          else
            let bitsStr := str_drop (S i) s in
            let bad := fail "bad bits after slash: %q" [AStr bitsStr] in
            let lead := match bitsStr with
                        | String c (String _ _) => (code c <? 49) || (57 <? code c)
                        | _ => false
                        end in
            if lead then bad
            else match Atoi bitsStr with
            | None => bad
            | Some bits =>
                if (bits <? 0) || ((if Is6 ip then 128 else 32) <? bits) then fail "prefix length out of range" []
                else Ok (mkPrefix ip bits)
            end
      end
  end.

(** * net/netip: printing *)

Definition string4 (v : Z) : string :=
  Itoa (Z.land (Z.shiftr v 24) 255) +:+ "." +:+ Itoa (Z.land (Z.shiftr v 16) 255) +:+ "." +:+
  Itoa (Z.land (Z.shiftr v 8) 255) +:+ "." +:+ Itoa (Z.land v 255).

(** [appendHex]: up to four digits, without leading zeros. *)
Definition hex16 (x : Z) : string :=
  let d n := String (hexDigit (Z.land (Z.shiftr x n) 15)) in
  (if 0x1000 <=? x then d 12 else id)
    ((if 0x100 <=? x then d 8 else id)
       ((if 0x10 <=? x then d 4 else id) (d 0 EmptyString))).

Definition v6u16 (v : Z) (i : nat) : Z := Z.land (Z.shiftr v (112 - 16 * Z.of_nat i)) 0xffff.

Fixpoint zero_run (gs : list Z) : nat :=
  match gs with g :: gs' => if g =? 0 then S (zero_run gs') else O | [] => O end.

(** The longest run of at least two zero groups, the first of the longest. *)
Fixpoint longest_run (i : nat) (gs : list Z) (best : nat * nat) : nat * nat :=
  match gs with
  | [] => best
  | _ :: gs' =>
      let l := zero_run gs in
      longest_run (S i) gs' (if ((2 <=? l) && (best.2 - best.1 <? l))%nat then (i, (i + l)%nat) else best)
  end.

Fixpoint groups_from (fuel i : nat) (v : Z) (zeros : nat * nat) : string :=
  match fuel with
  | O => EmptyString
  | S fuel' =>
      if (8 <=? i)%nat then EmptyString
      else if (i =? zeros.1)%nat then
        "::" +:+ (if (8 <=? zeros.2)%nat then EmptyString
                  else hex16 (v6u16 v zeros.2) +:+ groups_from fuel' (S zeros.2) v zeros)
      else (if (0 <? i)%nat then ":" else EmptyString) +:+ hex16 (v6u16 v i) +:+ groups_from fuel' (S i) v zeros
  end.

Definition zone_suffix (zone : string) : string := if is_empty zone then EmptyString else "%" +:+ zone.

Definition addr_String (a : Addr) : string :=
  match a with
  | AInvalid => "invalid IP"
  | A4 v => string4 v
  | A6 v zone =>
      if Is4In6 a then "::ffff:" +:+ string4 (Z.land v 0xffffffff) +:+ zone_suffix zone
      else groups_from 8 0 v (longest_run 0 (v6u16 v <$> seq 0 8) (255, 255)%nat) +:+ zone_suffix zone
  end.

Definition prefix_String (p : Prefix) : string :=
  if IsValid (pfx_Addr p) then addr_String (pfx_Addr p) +:+ "/" +:+ Itoa (pfx_Bits p) else "invalid Prefix".

(** [net.IP.String]: the four-byte form of an IPv4-mapped address. *)
Definition ip_String (ip : bytes) : string :=
  if len ip =? 0 then "<nil>"
  else if negb (len (To4 ip) =? 0) then string4 (be_get (To4 ip))
  else if len ip =? 16 then addr_String (A6 (be_get ip) EmptyString)
  else "?" +:+ EncodeToString ip.
