(* ===== verification/NetText.v ===== *)
(** The text of addresses: printing and parsing of net/netip and net agree.

    The theorems about settings that are read back through the REST interface
    rest on these lemmas. *)
From Stdlib Require Import Ascii.
From S2P Require Import Prelude Lease GoText.

#[local] Open Scope Z_scope.

(** Addresses whose value fits their width. *)
Definition addr_ok (a : Addr) : Prop :=
  match a with AInvalid => False | A4 v => 0 <= v < 2 ^ 32 | A6 v _ => 0 <= v < 2 ^ 128 end.

(** * Digits *)

(** Text of digits below 16, in front of [rest]. *)
Definition hexs (ds : list Z) (rest : string) : string := foldr (fun d => String (hexDigit d)) rest ds.
Definition nibbles (ds : list Z) : Prop := Forall (fun d => 0 <= d < 16) ds.

(** Case analysis on a bounded integer. *)
Ltac cases_upto d n :=
  let rec go k := lazymatch k with
    | O => exfalso; lia
    | S ?k' => destruct (decide (d = Z.of_nat k')) as [->|?]; [|go k']
    end in
  let m := eval compute in n in go m.

Lemma hexValue_hexDigit d : 0 <= d < 16 -> hexValue (hexDigit d) = Some d.
Proof. intros H. cases_upto d 16%nat; reflexivity. Qed.

Lemma digit_hexDigit d : 0 <= d < 10 -> digit (hexDigit d) = Some d.
Proof. intros H. cases_upto d 10%nat; reflexivity. Qed.

(** What a digit is not. *)
Lemma hexDigit_plain d c : 0 <= d < 16 -> hexValue c = None -> Ascii.eqb (hexDigit d) c = false.
Proof.
  intros H Hc. destruct (Ascii.eqb_spec (hexDigit d) c) as [<-|]; [|done].
  by rewrite hexValue_hexDigit in Hc.
Qed.

Definition ends_group (s : string) : Prop := match s with EmptyString => True | String c _ => hexValue c = None end.

Definition hex_value (acc : Z) (ds : list Z) : Z := foldl (fun acc d => acc * 16 + d) acc ds.

Lemma hex_value_le ds : forall acc, nibbles ds -> 0 <= acc -> acc <= hex_value acc ds.
Proof.
  induction ds as [|d ds IH]; intros acc H Ha; [done|]. apply Forall_cons in H as [Hd H]. cbn.
  specialize (IH (acc * 16 + d) H ltac:(lia)). unfold hex_value in *. lia.
Qed.

Lemma hex_group_hexs inp at_ ds rest : forall off acc,
  nibbles ds -> (off + length ds <= 4)%nat -> 0 <= acc -> hex_value acc ds < 65536 -> ends_group rest ->
  hex_group inp at_ (hexs ds rest) off acc = Ok ((off + length ds)%nat, hex_value acc ds).
Proof.
  induction ds as [|d ds IH]; intros off acc H Hl Ha Hv Hr; cbn [hexs foldr length hex_group] in *.
  - rewrite Nat.add_0_r. unfold hexs. cbn. destruct rest as [|c rest]; [done|]. cbn in *. by rewrite Hr.
  - apply Forall_cons in H as [Hd H]. rewrite hexValue_hexDigit by done.
    replace (3 <? off)%nat with false by (symmetry; apply Nat.ltb_ge; lia).
    pose proof (hex_value_le ds (acc * 16 + d) H ltac:(lia)) as Hle. cbn in Hv. unfold hex_value in Hle.
    replace (65535 <? acc * 16 + d) with false by (symmetry; apply Z.ltb_ge; lia).
    fold (hexs ds rest). rewrite IH; [|done|lia..|done|done]. do 2 f_equal. lia.
Qed.

Lemma str_drop_hexs ds rest : str_drop (length ds) (hexs ds rest) = rest.
Proof. induction ds as [|d ds IH]; [by destruct rest | done]. Qed.

Lemma hex16_digits x : 0 <= x < 65536 -> exists ds,
  (forall rest, hex16 x +:+ rest = hexs ds rest) /\ nibbles ds /\ (1 <= length ds <= 4)%nat /\ hex_value 0 ds = x.
Proof.
  intros H. pose (dg n := Z.land (Z.shiftr x n) 15).
  assert (Hd : forall n, 0 <= n -> dg n = x / 2 ^ n mod 16).
  { intros n Hn. unfold dg. rewrite Z.shiftr_div_pow2 by done. change 15 with (Z.ones 4). by rewrite Z.land_ones by lia. }
  assert (Hn : forall n, 0 <= n -> 0 <= dg n < 16) by (intros; rewrite Hd by done; apply Z.mod_pos_bound; lia).
  pose proof (Hd 12 ltac:(lia)) as E12. pose proof (Hd 8 ltac:(lia)) as E8.
  pose proof (Hd 4 ltac:(lia)) as E4. pose proof (Hd 0 ltac:(lia)) as E0.
  change (2 ^ 12) with 4096 in E12. change (2 ^ 8) with 256 in E8. change (2 ^ 4) with 16 in E4. change (2 ^ 0) with 1 in E0.
  exists ((if 0x1000 <=? x then [dg 12] else []) ++ (if 0x100 <=? x then [dg 8] else []) ++
          (if 0x10 <=? x then [dg 4] else []) ++ [dg 0]).
  unfold hex16. fold (dg 12) (dg 8) (dg 4) (dg 0).
  destruct (Z.leb_spec 0x1000 x), (Z.leb_spec 0x100 x), (Z.leb_spec 0x10 x); try lia;
    (split; [reflexivity|]); (split; [repeat (apply Forall_cons; split; [apply Hn; lia|]); apply Forall_nil_2|]);
    (split; [cbn; lia|]); unfold hex_value; cbn [app foldl]; rewrite ?E12, ?E8, ?E4, ?E0; clear -H H0 H1 H2;
    Z.to_euclidean_division_equations; lia.
Qed.

(** * IPv6 groups *)

(** Groups separated by colons, in front of [tail]. *)
Fixpoint joint (gs : list Z) (tail : string) : string :=
  match gs with
  | [] => tail
  | [g] => hex16 g +:+ tail
  | g :: gs' => hex16 g +:+ String ":"%char (joint gs' tail)
  end.

Definition gbytes (gs : list Z) : bytes := g ← gs; [Z.shiftr g 8; Z.land g 255].
Definition groups_ok (gs : list Z) : Prop := Forall (fun g => 0 <= g < 65536) gs.

Lemma joint_cons g g' gs tail : joint (g :: g' :: gs) tail = hex16 g +:+ String ":"%char (joint (g' :: gs) tail).
Proof. done. Qed.

Lemma joint_digit g gs tail : groups_ok (g :: gs) -> exists d s, joint (g :: gs) tail = String (hexDigit d) s /\ 0 <= d < 16.
Proof.
  intros [Hg _]%Forall_cons. destruct (hex16_digits g Hg) as ([|d ds] & Hs & Hd & Hl & _); [cbn in Hl; lia|].
  apply Forall_cons in Hd as [Hd _]. exists d. destruct gs; cbn [joint]; rewrite Hs; by eexists.
Qed.

Section groups.
Context (inp : string).

(** The start of one round of the loop, on a printed group. *)
Lemma v6_group_read g rest : 0 <= g < 65536 -> ends_group rest -> exists off,
  hex_group inp (hex16 g +:+ rest) (hex16 g +:+ rest) 0 0 = Ok (S off, g) /\ str_drop (S off) (hex16 g +:+ rest) = rest.
Proof.
  intros Hg Hr. destruct (hex16_digits g Hg) as (ds & Hs & Hd & Hl & Hv). rewrite Hs.
  exists (pred (length ds)). replace (S (pred (length ds))) with (length ds) by lia.
  split; [|apply str_drop_hexs]. rewrite hex_group_hexs; [by rewrite Hv | done | lia | lia | lia | done].
Qed.

(** One round: a group and a single colon. *)
Lemma v6_groups_colon n g d s ip ell : 0 <= g < 65536 -> 0 <= d < 16 ->
  v6_groups (S n) inp (hex16 g +:+ String ":"%char (String (hexDigit d) s)) ip ell =
  v6_groups n inp (String (hexDigit d) s) (ip ++ gbytes [g]) ell.
Proof.
  intros Hg Hd. destruct (v6_group_read g (String ":"%char (String (hexDigit d) s)) Hg eq_refl) as (off & E & Ed).
  cbn [v6_groups]. rewrite E, Ed. cases_upto d 16%nat; reflexivity.
Qed.

(** The last group. *)
Lemma v6_groups_last n g ip ell : 0 <= g < 65536 ->
  v6_groups (S n) inp (hex16 g +:+ EmptyString) ip ell = Ok (ip ++ gbytes [g], ell, EmptyString).
Proof.
  intros Hg. destruct (v6_group_read g EmptyString Hg I) as (off & E & Ed). cbn [v6_groups]. by rewrite E, Ed.
Qed.

(** A group and the ellipsis. *)
Lemma v6_groups_ellipsis n g s ip : 0 <= g < 65536 ->
  v6_groups (S n) inp (hex16 g +:+ String ":"%char (String ":"%char s)) ip None =
  let ip' := ip ++ gbytes [g] in
  if is_empty s then Ok (ip', Some (length ip'), EmptyString) else v6_groups n inp s ip' (Some (length ip')).
Proof.
  intros Hg. destruct (v6_group_read g (String ":"%char (String ":"%char s)) Hg eq_refl) as (off & E & Ed).
  cbn [v6_groups]. by rewrite E, Ed.
Qed.

Lemma gbytes_app gs hs : gbytes (gs ++ hs) = gbytes gs ++ gbytes hs.
Proof. apply bind_app. Qed.

Lemma v6_groups_joint gs : forall n ip ell,
  gs <> [] -> (length gs <= n)%nat -> groups_ok gs ->
  v6_groups n inp (joint gs EmptyString) ip ell = Ok (ip ++ gbytes gs, ell, EmptyString).
Proof.
  induction gs as [|g gs IH]; intros [|n] ip ell Hne Hl Hg; try done; [cbn in Hl; lia|].
  pose proof Hg as [Hg0 Hgs]%Forall_cons. destruct gs as [|g' gs]; [by apply v6_groups_last|].
  rewrite joint_cons. destruct (joint_digit g' gs EmptyString Hgs) as (d & s & E & Hd). rewrite E, v6_groups_colon by done.
  rewrite <- E, IH; [|done|cbn in *; lia|done]. by rewrite <- app_assoc, <- gbytes_app.
Qed.

Lemma joint_nonempty gs : gs <> [] -> groups_ok gs -> is_empty (joint gs EmptyString) = false.
Proof. destruct gs as [|g gs]; [done|]. intros _ H. by destruct (joint_digit g gs EmptyString H) as (d & s & -> & _). Qed.

Lemma v6_groups_shortened pre : forall n ip post,
  pre <> [] -> (length pre + length post <= n)%nat -> groups_ok pre -> groups_ok post ->
  v6_groups n inp (joint pre (String ":"%char (String ":"%char (joint post EmptyString)))) ip None =
  Ok (ip ++ gbytes (pre ++ post), Some (length (ip ++ gbytes pre)), EmptyString).
Proof.
  induction pre as [|g pre IH]; intros [|n] ip post Hne Hl Hg Hp; try done; [cbn in Hl; lia|].
  pose proof Hg as [Hg0 Hgs]%Forall_cons. destruct pre as [|g' pre].
  - cbn [joint]. rewrite v6_groups_ellipsis by done. cbv zeta. destruct post as [|p post]; [by rewrite app_nil_r|].
    rewrite joint_nonempty, v6_groups_joint; [|done|cbn in *; lia|done|done|done].
    by rewrite <- app_assoc, <- gbytes_app.
  - rewrite joint_cons. destruct (joint_digit g' pre (String ":"%char (String ":"%char (joint post EmptyString))) Hgs) as (d & s & E & Hd).
    rewrite E, v6_groups_colon by done. rewrite <- E, IH; [|done|cbn in *; lia|done|done].
    by rewrite <- !app_assoc, <- !gbytes_app.
Qed.
End groups.

(** * The zeros that are left out *)

Lemma zero_run_spec gs j : (j < zero_run gs)%nat -> gs !! j = Some 0.
Proof.
  revert j. induction gs as [|g gs IH]; intros j; cbn; [lia|]. destruct (Z.eqb_spec g 0) as [->|]; [|lia].
  destruct j as [|j]; intros H; [done|]. apply IH. lia.
Qed.

Lemma zero_run_le gs : (zero_run gs <= length gs)%nat.
Proof. induction gs as [|g gs IH]; cbn; [done|]. destruct (_ =? _); lia. Qed.

Lemma longest_run_spec gs : forall i best, let r := longest_run i gs best in
  r = best \/
  ((i <= r.1)%nat /\ (r.1 + 2 <= r.2)%nat /\ (r.2 <= i + length gs)%nat /\
   forall j, (r.1 <= j < r.2)%nat -> gs !! (j - i)%nat = Some 0).
Proof.
  induction gs as [|g gs IH]; intros i best r; [by left|]. subst r. cbn [longest_run]. set (l := zero_run (g :: gs)).
  set (best' := if ((2 <=? l) && (best.2 - best.1 <? l))%nat then (i, (i + l)%nat) else best).
  destruct (IH (S i) best') as [E|(H1 & H2 & H3 & H4)].
  - rewrite E. unfold best'. destruct (_ && _)%nat eqn:El; [|by left]. right. apply andb_true_iff in El as [El _].
    apply Nat.leb_le in El. cbn [fst snd]. pose proof (zero_run_le (g :: gs)). fold l in H. split; [done|]. split; [lia|].
    split; [lia|]. intros j Hj. apply zero_run_spec. fold l. lia.
  - right. cbn [length]. split; [lia|]. split; [done|]. split; [lia|]. intros j Hj.
    specialize (H4 j Hj). replace (j - i)%nat with (S (j - S i)) by lia. done.
Qed.

Lemma v6u16_bound v i : 0 <= v6u16 v i < 65536.
Proof. unfold v6u16. change 0xffff with (Z.ones 16). rewrite Z.land_ones by lia. apply Z.mod_pos_bound. lia. Qed.

Lemma be_get_gbytes gs g : 0 <= g < 65536 -> be_get (gs ++ gbytes [g]) = be_get gs * 65536 + g.
Proof.
  intros H. unfold be_get. rewrite foldl_app. cbn [gbytes mbind list_bind app foldl]. rewrite Z.shiftr_div_pow2 by lia.
  change 255 with (Z.ones 8). rewrite Z.land_ones by lia. change (2 ^ 8) with 256. pose proof (Z.div_mod g 256). lia.
Qed.

(** The eight groups of an address are its bytes. *)
Lemma groups_value v k : 0 <= v < 2 ^ 128 -> (k <= 8)%nat ->
  be_get (gbytes (v6u16 v <$> seq 0 k)) = v / 2 ^ (128 - 16 * Z.of_nat k).
Proof.
  intros Hv. induction k as [|k IH]; intros Hk.
  - symmetry. by apply Z.div_small.
  - rewrite seq_S, fmap_app, gbytes_app. cbn [fmap list_fmap plus]. rewrite be_get_gbytes, IH by (apply v6u16_bound || lia).
    unfold v6u16. change 0xffff with (Z.ones 16). rewrite Z.land_ones, Z.shiftr_div_pow2 by lia.
    replace (128 - 16 * Z.of_nat (S k)) with (112 - 16 * Z.of_nat k) by lia.
    replace (128 - 16 * Z.of_nat k) with (112 - 16 * Z.of_nat k + 16) by lia. rewrite Z.pow_add_r, <- Z.div_div by lia.
    change (2 ^ 16) with 65536. pose proof (Z.div_mod (v / 2 ^ (112 - 16 * Z.of_nat k)) 65536). lia.
Qed.

(** * Decimal octets *)

Definition dec_value (acc : Z) (ds : list Z) : Z := foldl (fun acc d => acc * 10 + d) acc ds.

Definition octet_digits (o : Z) : list Z :=
  (if 100 <=? o then [o / 100] else []) ++ (if 10 <=? o then [o / 10 mod 10] else []) ++ [o mod 10].

Lemma Itoa_octet o : 0 <= o < 256 -> Itoa o = hexs (octet_digits o) EmptyString.
Proof.
  intros H. assert (E : forallb (fun n => bool_decide (Itoa (Z.of_nat n) = hexs (octet_digits (Z.of_nat n)) EmptyString))
                      (seq 0 256) = true) by (vm_compute; reflexivity).
  rewrite forallb_forall in E. specialize (E (Z.to_nat o)). rewrite Z2Nat.id in E by lia.
  apply bool_decide_eq_true in E; [done|]. apply in_seq. lia.
Qed.

Lemma hexs_app ds rest s : hexs ds rest +:+ s = hexs ds (rest +:+ s).
Proof. induction ds as [|d ds IH]; [done|]. unfold String.append in *. cbn. f_equal. apply IH. Qed.

Lemma Itoa_octet_app o rest : 0 <= o < 256 -> Itoa o +:+ rest = hexs (octet_digits o) rest.
Proof. intros H. by rewrite Itoa_octet, hexs_app. Qed.

Lemma octet_digits_ok o : 0 <= o < 256 ->
  Forall (fun d => 0 <= d < 10) (octet_digits o) /\ (1 <= length (octet_digits o) <= 3)%nat /\ dec_value 0 (octet_digits o) = o /\
  (octet_digits o = [o] \/ exists d ds, octet_digits o = d :: ds /\ d <> 0).
Proof.
  intros H. unfold octet_digits, dec_value.
  destruct (Z.leb_spec 100 o), (Z.leb_spec 10 o); try lia; cbn [app foldl length];
    (split; [repeat (apply Forall_cons; split); try apply Forall_nil_2; Z.to_euclidean_division_equations; lia|]);
    (split; [lia|]); (split; [Z.to_euclidean_division_equations; lia|]).
  - right. do 2 eexists. split; [reflexivity|]. Z.to_euclidean_division_equations; lia.
  - right. do 2 eexists. split; [reflexivity|]. Z.to_euclidean_division_equations; lia.
  - left. f_equal. Z.to_euclidean_division_equations; lia.
Qed.

Section v4.
Context (inp : string).

(** The digits of an octet after the first one. *)
Lemma v4_fields_digits ds rest : forall start dot val n fs,
  Forall (fun d => 0 <= d < 10) ds -> 0 <= val -> dec_value val ds < 256 -> (n = 0 -> val = 0) -> 0 <= n ->
  (n = 0 -> (length ds <= 1)%nat \/ hd 0 ds <> 0) -> (n = 1 -> val <> 0 \/ ds = []) -> ds <> [] ->
  exists n', 1 <= n' /\
  v4_fields inp (hexs ds rest) start dot val n fs = v4_fields inp rest false false (dec_value val ds) n' fs.
Proof.
  induction ds as [|d ds IH]; intros start dot val n fs Hd Hv Hb H0 Hn Hz H1 Hne; [done|]. apply Forall_cons in Hd as [Hd Hds].
  cbn [hexs foldr v4_fields]. rewrite digit_hexDigit by done.
  replace ((n =? 1) && (val =? 0)) with false
    by (symmetry; apply andb_false_iff; rewrite !Z.eqb_neq; destruct (decide (n = 1)) as [E|]; [destruct (H1 E); [by right | done] | by left]).
  assert (Hle : val * 10 + d <= dec_value val (d :: ds)).
  { change (dec_value val (d :: ds)) with (dec_value (val * 10 + d) ds). assert (Ha : 0 <= val * 10 + d) by lia. revert Ha.
    generalize (val * 10 + d). clear -Hds. induction ds as [|e ds IH]; intros a Ha; [done|]. apply Forall_cons in Hds as [He Hds].
    cbn. specialize (IH Hds (a * 10 + e) ltac:(lia)). unfold dec_value in IH. lia. }
  replace (255 <? val * 10 + d) with false by (symmetry; apply Z.ltb_ge; lia). fold (hexs ds rest).
  destruct ds as [|e ds]; [by exists (n + 1); split; [lia|]|].
  apply IH; try done; try lia. intros En. left. assert (n = 0) as Hn0 by lia. specialize (H0 Hn0). destruct (Hz Hn0) as [Hl|Hh]; cbn in *; lia.
Qed.

Lemma v4_fields_octet o rest start dot fs : 0 <= o < 256 -> exists n', 1 <= n' /\
  v4_fields inp (Itoa o +:+ rest) start dot 0 0 fs = v4_fields inp rest false false o n' fs.
Proof.
  intros H. rewrite Itoa_octet_app by done. destruct (octet_digits_ok o H) as (Hd & Hl & Hv & Hz).
  destruct (v4_fields_digits (octet_digits o) rest start dot 0 0 fs) as (n' & Hn & E); try done; try lia.
  - intros _. destruct Hz as [->|(d & ds & -> & Hd0)]; [by left | by right].
  - intros E. rewrite E in Hl. cbn in Hl. lia.
  - exists n'. by rewrite E, Hv.
Qed.

Lemma v4_fields_dot rest n fs o : 1 <= n -> (length fs < 3)%nat -> is_empty rest = false ->
  v4_fields inp ("." +:+ rest) false false o n fs = v4_fields inp rest false true 0 0 (fs ++ [o]).
Proof.
  intros Hn Hl Hr. change ("." +:+ rest) with (String "."%char rest). cbn [v4_fields]. change (digit "."%char) with (@None Z).
  cbn match. change (Ascii.eqb "." "."%char) with true. rewrite Hr. cbn [orb]. by replace (length fs =? 3)%nat with false by (symmetry; apply Nat.eqb_neq; lia).
Qed.

Lemma Itoa_nonempty o rest : 0 <= o < 256 -> is_empty (Itoa o +:+ rest) = false.
Proof.
  intros H. rewrite Itoa_octet_app by done. destruct (octet_digits_ok o H) as (_ & Hl & _).
  destruct (octet_digits o); [cbn in Hl; lia | done].
Qed.

Definition v4_octets (v : Z) : list Z := [Z.land (Z.shiftr v 24) 255; Z.land (Z.shiftr v 16) 255; Z.land (Z.shiftr v 8) 255; Z.land v 255].

Lemma octet_bound x : 0 <= Z.land x 255 < 256.
Proof. change 255 with (Z.ones 8). rewrite Z.land_ones by lia. apply Z.mod_pos_bound. lia. Qed.

Lemma v4_octets_value v : 0 <= v < 2 ^ 32 -> be_get (v4_octets v) = v.
Proof.
  intros H. unfold be_get, v4_octets. cbn [foldl]. change 255 with (Z.ones 8). rewrite !Z.land_ones, !Z.shiftr_div_pow2 by lia.
  change (2 ^ 8) with 256. change (2 ^ 16) with 65536. change (2 ^ 24) with 16777216. change (2 ^ 32) with 4294967296 in H.
  Z.to_euclidean_division_equations; lia.
Qed.

Lemma v4_fields_string4 v : v4_fields inp (string4 v) true false 0 0 [] = Ok (v4_octets v).
Proof.
  unfold string4. set (a := Z.land (Z.shiftr v 24) 255). set (b := Z.land (Z.shiftr v 16) 255).
  set (c := Z.land (Z.shiftr v 8) 255). set (d := Z.land v 255).
  assert (0 <= a < 256 /\ 0 <= b < 256 /\ 0 <= c < 256 /\ 0 <= d < 256) as (Ha & Hb & Hc & Hd) by (repeat split; apply octet_bound).
  destruct (v4_fields_octet a ("." +:+ Itoa b +:+ "." +:+ Itoa c +:+ "." +:+ Itoa d) true false [] Ha) as (n1 & ? & ->).
  rewrite v4_fields_dot by (done || (cbn; lia) || by apply Itoa_nonempty). cbn [app].
  destruct (v4_fields_octet b ("." +:+ Itoa c +:+ "." +:+ Itoa d) false true [a] Hb) as (n2 & ? & ->).
  rewrite v4_fields_dot by (done || (cbn; lia) || by apply Itoa_nonempty). cbn [app].
  destruct (v4_fields_octet c ("." +:+ Itoa d) false true [a; b] Hc) as (n3 & ? & ->).
  pose proof (Itoa_nonempty d EmptyString Hd) as Hne. pose proof (v4_fields_octet d EmptyString false true [a; b; c] Hd) as (n4 & ? & E).
  rewrite Itoa_octet_app in Hne, E by done. rewrite <- Itoa_octet in Hne, E by done.
  rewrite v4_fields_dot by (done || (cbn; lia)). cbn [app]. by rewrite E.
Qed.
End v4.

(** * Searching in printed text *)

Lemma str_app_cons c s t : String c s +:+ t = String c (s +:+ t).
Proof. done. Qed.

Lemma Cut_app body c rest : IndexByte body c = None -> Cut (body +:+ String c rest) c = Some (body, rest).
Proof.
  intros H. unfold Cut. assert (E : IndexByte (body +:+ String c rest) c = Some (String.length body) /\
    str_take (String.length body) (body +:+ String c rest) = body /\ str_drop (S (String.length body)) (body +:+ String c rest) = rest).
  { induction body as [|x body IH]; cbn in H.
    - change (EmptyString +:+ String c rest) with (String c rest). cbn. rewrite Ascii.eqb_refl. repeat split.
    - rewrite str_app_cons. cbn. destruct (Ascii.eqb x c); [done|]. destruct (IndexByte body c); [done|].
      destruct IH as (-> & E2 & E3); [done|]. cbn in *. by rewrite E2, E3. }
  destruct E as (-> & E2 & E3). cbn. cbn in E3. by rewrite E2, E3.
Qed.

Lemma str_app_empty s : s +:+ EmptyString = s.
Proof. induction s as [|c s IH]; [done|]. by rewrite str_app_cons, IH. Qed.

Lemma str_app_assoc r s t : (r +:+ s) +:+ t = r +:+ (s +:+ t).
Proof. induction r as [|c r IH]; [done|]. by rewrite !str_app_cons, IH. Qed.

Lemma IndexByte_hexs ds rest c : nibbles ds -> hexValue c = None -> IndexByte rest c = None -> IndexByte (hexs ds rest) c = None.
Proof.
  intros Hd Hc Hr. induction Hd as [|d ds Hd _ IH]; [done|]. cbn. rewrite hexDigit_plain by done. fold (hexs ds rest). by rewrite IH.
Qed.

Lemma IndexByte_hex16 g rest c : 0 <= g < 65536 -> hexValue c = None -> IndexByte rest c = None -> IndexByte (hex16 g +:+ rest) c = None.
Proof. intros Hg. destruct (hex16_digits g Hg) as (ds & -> & Hd & _). by apply IndexByte_hexs. Qed.

Lemma IndexByte_joint gs tail c : groups_ok gs -> hexValue c = None -> Ascii.eqb ":" c = false -> IndexByte tail c = None ->
  IndexByte (joint gs tail) c = None.
Proof.
  intros Hg Hc Hcc Ht. induction Hg as [|g gs Hg Hgs IH]; [done|]. destruct gs as [|g' gs]; [by apply IndexByte_hex16|].
  rewrite joint_cons. apply IndexByte_hex16; [done..|]. cbn [IndexByte]. by rewrite Hcc, IH.
Qed.

Lemma IndexByte_octet o rest c : 0 <= o < 256 -> hexValue c = None -> IndexByte rest c = None -> IndexByte (Itoa o +:+ rest) c = None.
Proof.
  intros Ho Hc Hr. rewrite Itoa_octet_app by done. destruct (octet_digits_ok o Ho) as (Hd & _).
  apply IndexByte_hexs; [|done..]. eapply Forall_impl; [done|]. cbn. lia.
Qed.

Lemma addr_kind_hexs ds rest : nibbles ds -> addr_kind (hexs ds rest) = addr_kind rest.
Proof.
  intros Hd. induction Hd as [|d ds Hd _ IH]; [done|]. cbn. rewrite !hexDigit_plain by done. cbn. apply IH.
Qed.

Lemma addr_kind_hex16 g rest : 0 <= g < 65536 -> addr_kind (hex16 g +:+ rest) = addr_kind rest.
Proof. intros Hg. destruct (hex16_digits g Hg) as (ds & -> & Hd & _). by apply addr_kind_hexs. Qed.

Lemma addr_kind_octet o rest : 0 <= o < 256 -> addr_kind (Itoa o +:+ rest) = addr_kind rest.
Proof.
  intros Ho. rewrite Itoa_octet_app by done. destruct (octet_digits_ok o Ho) as (Hd & _).
  apply addr_kind_hexs. eapply Forall_impl; [done|]. cbn. lia.
Qed.

(** * IPv4 *)

Lemma ParseAddr_string4 v : 0 <= v < 2 ^ 32 -> ParseAddr (string4 v) = Ok (A4 v).
Proof.
  intros Hv. unfold ParseAddr. replace (addr_kind (string4 v)) with (Some "."%char)
    by (unfold string4; by rewrite addr_kind_octet by apply octet_bound).
  cbn match. unfold parseIPv4Addr. by rewrite v4_fields_string4, v4_octets_value.
Qed.

(** * IPv6 *)

(** [parseIPv6Addr] behind the zone. *)
Definition v6_parse (inp s zone : string) : result Addr :=
  let groups (s : string) (ell : option nat) :=
    match v6_groups 8 inp s [] ell with
    | Err e => Err e
    | Ok x => v6_finish inp zone x
    end in
  match s with
  | String ":"%char (String ":"%char EmptyString) => Ok (A6 0 zone)
  | String ":"%char (String ":"%char s') => groups s' (Some 0%nat)
  | _ => groups s None
  end.

Lemma parseIPv6Addr_zone body zone : IndexByte body "%"%char = None -> is_empty body = false ->
  parseIPv6Addr (body +:+ zone_suffix zone) = v6_parse (body +:+ zone_suffix zone) body zone.
Proof.
  intros Hb He. unfold parseIPv6Addr, zone_suffix. destruct zone as [|c zone]; cbn [is_empty].
  - rewrite str_app_empty. unfold Cut. by rewrite Hb.
  - change ("%" +:+ String c zone) with (String "%"%char (String c zone)). by rewrite Cut_app.
Qed.

Lemma groups_from_all v : groups_from 8 0 v (255, 255)%nat = joint (v6u16 v <$> seq 0 8) EmptyString.
Proof. reflexivity. Qed.

Lemma groups_from_short v a b : (a + 2 <= b <= 8)%nat ->
  groups_from 8 0 v (a, b) =
  joint (v6u16 v <$> seq 0 a) (String ":"%char (String ":"%char (joint (v6u16 v <$> seq b (8 - b)) EmptyString))).
Proof.
  intros H. do 7 (destruct a as [|a]; [do 9 (destruct b as [|b]; [first [lia | reflexivity]|]); lia|]). lia.
Qed.

Lemma groups_ok_v6 v l : groups_ok (v6u16 v <$> l).
Proof. apply Forall_fmap, Forall_true. intros. apply v6u16_bound. Qed.

Lemma groups_bytes v : 0 <= v < 2 ^ 128 -> be_get (gbytes (v6u16 v <$> seq 0 8)) = v.
Proof. intros H. rewrite groups_value by (done || lia). apply Z.div_1_r. Qed.

(** Putting back the zeros. *)
Lemma zeros_restored v a b : (a + 2 <= b <= 8)%nat -> (forall j, (a <= j < b)%nat -> v6u16 v j = 0) ->
  let pre := gbytes (v6u16 v <$> seq 0 a) in
  let ip := gbytes ((v6u16 v <$> seq 0 a) ++ (v6u16 v <$> seq b (8 - b))) in
  (length ip < 16)%nat /\
  take (length pre) ip ++ make_bytes (16 - length ip) ++ drop (length pre) ip = gbytes (v6u16 v <$> seq 0 8).
Proof.
  intros H Hz.
  do 7 (destruct a as [|a]; [do 9 (destruct b as [|b]; [first [lia | (split; [cbn; lia|]);
    cbn [seq fmap list_fmap app Nat.sub]; rewrite ?(Hz 0%nat), ?(Hz 1%nat), ?(Hz 2%nat), ?(Hz 3%nat), ?(Hz 4%nat),
      ?(Hz 5%nat), ?(Hz 6%nat), ?(Hz 7%nat) by lia; reflexivity]|]); lia|]). lia.
Qed.

(** Text that starts with a digit has no leading ellipsis. *)
Lemma v6_parse_digit inp zone d s : 0 <= d < 16 ->
  v6_parse inp (String (hexDigit d) s) zone =
  match v6_groups 8 inp (String (hexDigit d) s) [] None with Err e => Err e | Ok x => v6_finish inp zone x end.
Proof. intros H. cases_upto d 16%nat; reflexivity. Qed.

Lemma v6_parse_joint inp zone gs tail : gs <> [] -> groups_ok gs ->
  v6_parse inp (joint gs tail) zone =
  match v6_groups 8 inp (joint gs tail) [] None with Err e => Err e | Ok x => v6_finish inp zone x end.
Proof.
  intros Hne Hg. destruct gs as [|g gs]; [done|]. destruct (joint_digit g gs tail Hg) as (d & s & -> & Hd). by apply v6_parse_digit.
Qed.

Lemma v6_parse_all inp v zone : 0 <= v < 2 ^ 128 ->
  v6_parse inp (joint (v6u16 v <$> seq 0 8) EmptyString) zone = Ok (A6 v zone).
Proof.
  intros Hv. rewrite v6_parse_joint, v6_groups_joint by (done || apply groups_ok_v6). cbn [app].
  unfold v6_finish. cbn [is_empty negb]. change (length (gbytes (v6u16 v <$> seq 0 8))) with 16%nat. cbn match.
  by rewrite groups_bytes.
Qed.

Lemma v6_parse_short inp v zone a b : 0 <= v < 2 ^ 128 -> (a + 2 <= b <= 8)%nat -> (forall j, (a <= j < b)%nat -> v6u16 v j = 0) ->
  v6_parse inp (joint (v6u16 v <$> seq 0 a) (String ":"%char (String ":"%char (joint (v6u16 v <$> seq b (8 - b)) EmptyString)))) zone =
  Ok (A6 v zone).
Proof.
  intros Hv Hab Hz. destruct (zeros_restored v a b Hab Hz) as [Hl Hr].
  assert (Hfin : forall e, e = length (gbytes (v6u16 v <$> seq 0 a)) ->
    v6_finish inp zone (gbytes ((v6u16 v <$> seq 0 a) ++ (v6u16 v <$> seq b (8 - b))), Some e, EmptyString) = Ok (A6 v zone)).
  { intros e ->. unfold v6_finish. cbn [is_empty negb]. apply Nat.ltb_lt in Hl. by rewrite Hl, Hr, groups_bytes. }
  destruct a as [|a].
  - cbn [seq fmap list_fmap joint app] in *. destruct (8 - b)%nat as [|k] eqn:Eb.
    + cbn [seq fmap list_fmap joint]. specialize (Hfin 0%nat eq_refl). unfold v6_finish in Hfin. exact Hfin.
    + pose proof (groups_ok_v6 v (seq b (S k))) as Hg. cbn [seq fmap list_fmap] in *.
      destruct (joint_digit _ _ EmptyString Hg) as (d & s & E & _). unfold v6_parse. rewrite E. cbn match. rewrite <- E.
      rewrite v6_groups_joint; [by apply Hfin | done | cbn; rewrite length_fmap, length_seq; lia | done].
  - rewrite v6_parse_joint, v6_groups_shortened; [by apply Hfin | done | | apply groups_ok_v6.. | done | apply groups_ok_v6].
    rewrite !length_fmap, !length_seq. lia.
Qed.

(** The zeros that [longest_run] leaves out. *)
Lemma longest_run_zeros v : let r := longest_run 0 (v6u16 v <$> seq 0 8) (255, 255)%nat in
  r = (255, 255)%nat \/ ((r.1 + 2 <= r.2 <= 8)%nat /\ forall j, (r.1 <= j < r.2)%nat -> v6u16 v j = 0).
Proof.
  intros r. destruct (longest_run_spec (v6u16 v <$> seq 0 8) 0 (255, 255)%nat) as [E|(_ & H2 & H3 & H4)]; [by left|].
  right. fold r in H2, H3, H4. change (r.2 <= 8)%nat in H3. split; [lia|]. intros j Hj. specialize (H4 j Hj).
  rewrite Nat.sub_0_r, list_lookup_fmap, lookup_seq_lt in H4 by lia. by injection H4.
Qed.

(** The text of an IPv6 address that is not an IPv4-mapped one. *)
Lemma v6_text v : 0 <= v < 2 ^ 128 -> let body := groups_from 8 0 v (longest_run 0 (v6u16 v <$> seq 0 8) (255, 255)%nat) in
  (forall inp zone, v6_parse inp body zone = Ok (A6 v zone)) /\ IndexByte body "%"%char = None /\ IndexByte body "/"%char = None /\
  is_empty body = false /\ forall rest, addr_kind (body +:+ rest) = Some ":"%char.
Proof.
  intros Hv body. subst body. destruct (longest_run_zeros v) as [E|[Hab Hz]].
  - rewrite E, groups_from_all. split; [intros; by apply v6_parse_all|].
    do 2 (split; [apply IndexByte_joint; try done; apply groups_ok_v6|]). split; [apply joint_nonempty; [done | apply groups_ok_v6]|].
    intros rest. cbn [seq fmap list_fmap]. rewrite joint_cons, str_app_assoc. by rewrite addr_kind_hex16 by apply v6u16_bound.
  - destruct (longest_run _ _ _) as [a b]. cbn [fst snd] in *. rewrite groups_from_short by done.
    split; [intros; by apply v6_parse_short|].
    do 2 (split; [repeat (apply IndexByte_joint; [apply groups_ok_v6 | done..|]); cbn [IndexByte];
                  rewrite IndexByte_joint by (done || apply groups_ok_v6); done|]).
    destruct a as [|a]; [by split|]. pose proof (groups_ok_v6 v (seq 0 (S a))) as Hg. cbn [seq fmap list_fmap] in *. split.
    + by edestruct joint_digit as (d & s & -> & _).
    + intros rest. destruct a as [|a]; cbn [seq fmap list_fmap joint]; rewrite str_app_assoc;
        by rewrite addr_kind_hex16 by apply v6u16_bound.
Qed.

(** * IPv4-mapped addresses *)

Lemma string4_hexs v : exists ds rest, string4 v = hexs ds (String "."%char rest) /\ nibbles ds /\ (1 <= length ds <= 3)%nat.
Proof.
  pose proof (octet_bound (Z.shiftr v 24)) as H. destruct (octet_digits_ok _ H) as (Hd & Hl & _).
  unfold string4. rewrite Itoa_octet_app by done. do 2 eexists. split; [reflexivity|]. split; [|done].
  eapply Forall_impl; [done|]. cbn. lia.
Qed.

Lemma hex_value_bound ds : forall acc, nibbles ds -> 0 <= acc -> hex_value acc ds < (acc + 1) * 16 ^ Z.of_nat (length ds).
Proof.
  induction ds as [|d ds IH]; intros acc Hd Ha; [cbn; lia|]. apply Forall_cons in Hd as [Hd Hds].
  change (hex_value acc (d :: ds)) with (hex_value (acc * 16 + d) ds). specialize (IH (acc * 16 + d) Hds ltac:(lia)).
  cbn [length]. rewrite Nat2Z.inj_succ, Z.pow_succ_r by lia. nia.
Qed.

Lemma v6_groups_embedded inp n v ip e : (length ip <= 12)%nat ->
  v6_groups (S n) inp (string4 v) ip (Some e) = Ok (ip ++ v4_octets v, Some e, EmptyString).
Proof.
  intros Hip. pose proof (v4_fields_string4 inp v) as E4. destruct (string4_hexs v) as (ds & rest & E & Hd & Hl).
  rewrite E in *. cbn [v6_groups].
  rewrite hex_group_hexs; [|done|lia|lia| |done].
  2:{ pose proof (hex_value_bound ds 0 Hd ltac:(lia)) as Hb.
      assert (16 ^ Z.of_nat (length ds) <= 16 ^ 3) by (apply Z.pow_le_mono_r; lia). change (16 ^ 3) with 4096 in *. lia. }
  cbn [plus]. destruct (length ds) as [|k] eqn:El; [lia|]. rewrite <- El, str_drop_hexs. cbn [andb bool_decide].
  replace (16 <? length ip + 4)%nat with false by (symmetry; apply Nat.ltb_ge; lia). by rewrite E4.
Qed.

Lemma be_get_mapped a b c d : be_get (v4InV6Prefix ++ [a; b; c; d]) = 0xffff * 2 ^ 32 + be_get [a; b; c; d].
Proof. unfold be_get. cbn [v4InV6Prefix app foldl]. lia. Qed.

Lemma IndexByte_string4 v c : hexValue c = None -> Ascii.eqb "." c = false -> IndexByte (string4 v) c = None.
Proof.
  intros Hc Hd. assert (Hdot : forall s, IndexByte s c = None -> IndexByte ("." +:+ s) c = None).
  { intros s Hs. change ("." +:+ s) with (String "."%char s). cbn [IndexByte]. by rewrite Hd, Hs. }
  unfold string4. do 3 (apply IndexByte_octet; [apply octet_bound | done | apply Hdot]).
  rewrite <- (str_app_empty (Itoa _)). by apply IndexByte_octet; [apply octet_bound|..].
Qed.

Lemma IndexByte_colons s c : IndexByte "::ffff:" c = None -> IndexByte s c = None -> IndexByte ("::ffff:" +:+ s) c = None.
Proof.
  intros Hp Hs. revert Hp. rewrite !str_app_cons. cbn [IndexByte]. repeat (destruct (Ascii.eqb _ c); [done|]).
  change (EmptyString +:+ s) with s. by rewrite Hs.
Qed.

Lemma mapped_text v zone inp : 0 <= v < 2 ^ 128 -> Z.shiftr v 32 = 0xffff -> let body := "::ffff:" +:+ string4 (Z.land v 0xffffffff) in
  v6_parse inp body zone = Ok (A6 v zone) /\ IndexByte body "%"%char = None /\ IndexByte body "/"%char = None.
Proof.
  intros Hv Hm body. subst body. set (w := Z.land v 0xffffffff).
  change ("::ffff:" +:+ string4 w) with (String ":"%char (String ":"%char (hex16 0xffff +:+ String ":"%char (string4 w)))).
  destruct (string4_hexs w) as (ds & rest & E & Hd & Hl). destruct ds as [|d ds]; [cbn in Hl; lia|].
  assert (Hd0 : 0 <= d < 16) by by apply Forall_cons in Hd as [??]. cbn [hexs foldr] in E. split; [|split].
  - unfold v6_parse. cbn match.
    change (hex16 0xffff +:+ String ":"%char (string4 w)) with (String "f"%char (String "f"%char (String "f"%char (String "f"%char (String ":"%char (string4 w)))))).
    cbn match. change (String "f"%char _) with (hex16 0xffff +:+ String ":"%char (string4 w)).
    rewrite E. rewrite v6_groups_colon by (done || lia). rewrite <- E, v6_groups_embedded by (cbn; lia).
    unfold v6_finish. cbn -[be_get Z.land Z.shiftr]. do 2 f_equal. change (be_get (v4InV6Prefix ++ v4_octets w) = v).
    assert (Hw : w = v mod 2 ^ 32) by (unfold w; change 0xffffffff with (Z.ones 32); by rewrite Z.land_ones by lia).
    rewrite (be_get_mapped _ _ _ _ : be_get (v4InV6Prefix ++ v4_octets w) = _). fold (v4_octets w).
    rewrite v4_octets_value by (rewrite Hw; apply Z.mod_pos_bound; lia).
    rewrite Z.shiftr_div_pow2 in Hm by lia. pose proof (Z.div_mod v (2 ^ 32)). lia.
  - exact (IndexByte_colons _ "%"%char eq_refl (IndexByte_string4 w "%"%char eq_refl eq_refl)).
  - exact (IndexByte_colons _ "/"%char eq_refl (IndexByte_string4 w "/"%char eq_refl eq_refl)).
Qed.

(** * Addresses *)

(** Every address is parsed back from its text. *)
Lemma ParseAddr_String a : addr_ok a -> ParseAddr (addr_String a) = Ok a.
Proof.
  destruct a as [|v|v zone]; [done | apply ParseAddr_string4 |]. intros Hv. cbn in Hv. unfold addr_String. cbn [Is4In6].
  destruct (Z.eqb_spec (Z.shiftr v 32) 0xffff) as [Hm|_].
  - destruct (mapped_text v zone (("::ffff:" +:+ string4 (Z.land v 0xffffffff)) +:+ zone_suffix zone) Hv Hm) as (E & Hp & _).
    rewrite <- str_app_assoc. transitivity (parseIPv6Addr (("::ffff:" +:+ string4 (Z.land v 0xffffffff)) +:+ zone_suffix zone)); [done|].
    by rewrite parseIPv6Addr_zone.
  - destruct (v6_text v Hv) as (Hps & Hp & _ & He & Hk). unfold ParseAddr. rewrite Hk. cbn match.
    by rewrite parseIPv6Addr_zone.
Qed.

(** The slash of a prefix is not part of its address. *)
Lemma addr_String_slash a : addr_ok a -> Zone a = EmptyString -> IndexByte (addr_String a) "/"%char = None.
Proof.
  destruct a as [|v|v zone]; [done | intros; by apply IndexByte_string4 |]. cbn [addr_ok Zone]. intros Hv ->. unfold addr_String.
  cbn [Is4In6]. change (zone_suffix EmptyString) with EmptyString. destruct (Z.eqb_spec (Z.shiftr v 32) 0xffff) as [Hm|_].
  - rewrite <- str_app_assoc, str_app_empty. by destruct (mapped_text v EmptyString EmptyString Hv Hm) as (_ & _ & ?).
  - rewrite str_app_empty. by destruct (v6_text v Hv) as (_ & _ & ? & _).
Qed.

Lemma LastIndexByte_app body c rest : LastIndexByte rest c = None -> LastIndexByte (body +:+ String c rest) c = Some (String.length body).
Proof.
  intros Hr. induction body as [|x body IH].
  - change (EmptyString +:+ String c rest) with (String c rest). cbn [LastIndexByte]. by rewrite Hr, Ascii.eqb_refl.
  - rewrite str_app_cons. cbn [LastIndexByte]. by rewrite IH.
Qed.

Lemma str_split body c rest : str_take (String.length body) (body +:+ String c rest) = body /\
  str_drop (S (String.length body)) (body +:+ String c rest) = rest.
Proof.
  induction body as [|x body [IH1 IH2]]; [done|]. rewrite str_app_cons. cbn [String.length str_take str_drop] in *.
  by rewrite IH1.
Qed.

Definition prefix_ok (p : Prefix) : Prop :=
  addr_ok (pfx_Addr p) /\ Zone (pfx_Addr p) = EmptyString /\ 0 <= pfx_Bits p <= BitLen (pfx_Addr p).

Lemma bits_text n : 0 <= n < 256 ->
  LastIndexByte (Itoa n) "/"%char = None /\ Atoi (Itoa n) = Some n /\
  match Itoa n with String c (String _ _) => (code c <? 49) || (57 <? code c) | _ => false end = false.
Proof.
  intros H. assert (E : forallb (fun k => bool_decide (LastIndexByte (Itoa (Z.of_nat k)) "/"%char = None) &&
      bool_decide (Atoi (Itoa (Z.of_nat k)) = Some (Z.of_nat k)) &&
      negb match Itoa (Z.of_nat k) with String c (String _ _) => (code c <? 49) || (57 <? code c) | _ => false end)
    (seq 0 256) = true) by (vm_compute; reflexivity).
  rewrite forallb_forall in E. specialize (E (Z.to_nat n) ltac:(apply in_seq; lia)). rewrite Z2Nat.id in E by lia.
  apply andb_true_iff in E as [[E1 E2]%andb_true_iff E3%negb_true_iff].
  by apply bool_decide_eq_true in E1, E2.
Qed.

Lemma ParsePrefix_String p : prefix_ok p -> ParsePrefix (prefix_String p) = Ok p.
Proof.
  destruct p as [a n]. intros (Ha & Hz & Hn). cbn in *. unfold prefix_String. cbn [pfx_Addr pfx_Bits].
  assert (Hn' : 0 <= n < 256) by (destruct a; cbn in Hn; try lia). destruct (bits_text n Hn') as (Hs & Hi & Hl).
  assert (IsValid a = true) as -> by by destruct a. change ("/" +:+ Itoa n) with (String "/"%char (Itoa n)).
  unfold ParsePrefix. rewrite LastIndexByte_app by done. destruct (str_split (addr_String a) "/"%char (Itoa n)) as [-> ->].
  rewrite ParseAddr_String, Hz by done. cbn [is_empty negb]. rewrite Hl, Hi.
  replace ((n <? 0) || ((if Is6 a then 128 else 32) <? n)) with false; [done|].
  symmetry. apply orb_false_iff. rewrite !Z.ltb_ge. destruct a; cbn in *; lia.
Qed.

(** * What the parsers return *)

Lemma digit_range c d : digit c = Some d -> 0 <= d < 10.
Proof. unfold digit. destruct (_ && _) eqn:E; [|done]. apply andb_true_iff in E as [?%Z.leb_le ?%Z.leb_le]. intros [= <-]. lia. Qed.

Lemma hexValue_range c d : hexValue c = Some d -> 0 <= d < 16.
Proof.
  unfold hexValue.
  repeat (destruct (_ && _) eqn:E; [apply andb_true_iff in E as [?%Z.leb_le ?%Z.leb_le]; intros [= <-]; lia | clear E]). done.
Qed.

Lemma addrErr_err {A} inp msg at_ (a : A) : addrErr inp msg at_ <> Ok a.
Proof. unfold addrErr. by destruct (is_empty at_). Qed.

Ltac no_addrErr := match goal with H : addrErr _ _ _ = Ok _ |- _ => by apply addrErr_err in H end.

Lemma v4_fields_range inp s : forall start dot val n fs r,
  v4_fields inp s start dot val n fs = Ok r -> 0 <= val < 256 -> bytes_ok fs -> (length fs <= 3)%nat -> bytes_ok r /\ length r = 4%nat.
Proof.
  induction s as [|c s IH]; intros start dot val n fs r E Hv Hf Hl; cbn [v4_fields] in E.
  - destruct (Nat.ltb_spec (length fs) 3); [no_addrErr|]. injection E as <-. rewrite length_app. cbn [length]. split; [|lia].
    apply Forall_app. split; [done|]. by apply Forall_singleton.
  - destruct (digit c) as [d|] eqn:Ed.
    + destruct (_ && _); [no_addrErr|]. destruct (Z.ltb_spec 255 (val * 10 + d)); [no_addrErr|]. apply digit_range in Ed.
      eapply IH; [done | lia | done..].
    + destruct (Ascii.eqb _ _); [|no_addrErr]. destruct (_ || _); [no_addrErr|].
      destruct (Nat.eqb_spec (length fs) 3); [no_addrErr|]. eapply IH; [done | lia | | rewrite length_app; cbn; lia].
      apply Forall_app. split; [done|]. by apply Forall_singleton.
Qed.

Lemma hex_group_range inp at_ s : forall off acc r, hex_group inp at_ s off acc = Ok r -> 0 <= acc < 65536 -> 0 <= r.2 < 65536.
Proof.
  induction s as [|c s IH]; intros off acc r E Ha; cbn [hex_group] in E; [by injection E as <-|].
  destruct (hexValue c) as [d|] eqn:Ed; [|by injection E as <-]. destruct (_ <? _)%nat; [no_addrErr|].
  destruct (Z.ltb_spec 65535 (acc * 16 + d)); [no_addrErr|]. apply hexValue_range in Ed. eapply IH; [done | lia].
Qed.

Lemma gbytes_ok g : 0 <= g < 65536 -> bytes_ok [Z.shiftr g 8; Z.land g 255].
Proof.
  intros H. repeat (apply Forall_cons; split); try apply Forall_nil_2; [|apply octet_bound].
  rewrite Z.shiftr_div_pow2 by lia. change (2 ^ 8) with 256. Z.to_euclidean_division_equations; lia.
Qed.

Lemma v6_groups_range inp n : forall s ip ell r,
  v6_groups n inp s ip ell = Ok r -> bytes_ok ip -> (length ip + 2 * n <= 16)%nat -> from_option (fun e => (e <= length ip)%nat) True ell ->
  bytes_ok r.1.1 /\ (length r.1.1 <= 16)%nat /\ from_option (fun e => (e <= length r.1.1)%nat) True r.1.2.
Proof.
  induction n as [|n IH]; intros s ip ell r E Hip Hl He; cbn [v6_groups] in E; [injection E as <-; cbn; auto with lia|].
  destruct (hex_group inp s s 0 0) as [[off acc]|] eqn:Eg; [|done]. apply hex_group_range in Eg; [|lia]. cbn in Eg.
  destruct off as [|off]; [no_addrErr|]. pose proof (gbytes_ok acc Eg) as Hb. set (ip' := ip ++ [Z.shiftr acc 8; Z.land acc 255]) in *.
  assert (Hip' : bytes_ok ip') by by apply Forall_app.
  assert (Hl' : length ip' = (length ip + 2)%nat) by (unfold ip'; by rewrite length_app).
  assert (Hdone : forall ell', from_option (fun e => (e <= length ip')%nat) True ell' -> r = (ip', ell', EmptyString) ->
    bytes_ok r.1.1 /\ (length r.1.1 <= 16)%nat /\ from_option (fun e => (e <= length r.1.1)%nat) True r.1.2)
    by (intros ell' He' ->; cbn; split; [done|]; split; [lia | done]).
  assert (Hrec : forall s' ell', from_option (fun e => (e <= length ip')%nat) True ell' -> v6_groups n inp s' ip' ell' = Ok r ->
    bytes_ok r.1.1 /\ (length r.1.1 <= 16)%nat /\ from_option (fun e => (e <= length r.1.1)%nat) True r.1.2)
    by (intros; eapply IH; [done..| lia | done]).
  assert (He' : from_option (fun e => (e <= length ip')%nat) True ell) by (destruct ell; cbn in *; lia).
  assert (Hdot : (if bool_decide (ell = None) && negb (length ip =? 12)%nat then
                addrErr inp "embedded IPv4 address must replace the final 2 fields of the address" s
              else if (16 <? length ip + 4)%nat then
                addrErr inp "too many hex fields to fit an embedded IPv4 at the end of the address" s
              else match v4_fields inp s true false 0 0 [] with
              | Err e => Err e
              | Ok f => Ok (ip ++ f, ell, EmptyString)
              end) = Ok r -> bytes_ok r.1.1 /\ (length r.1.1 <= 16)%nat /\ from_option (fun e => (e <= length r.1.1)%nat) True r.1.2).
  { intros E'. destruct (_ && _); [no_addrErr|]. destruct (Nat.ltb_spec 16 (length ip + 4)); [no_addrErr|].
    destruct (v4_fields inp s true false 0 0 []) as [f|] eqn:Ef; [|done]. injection E' as <-. cbn.
    apply v4_fields_range in Ef as [Hf Hfl]; [|lia|apply Forall_nil_2|cbn; lia]. rewrite length_app, Hfl.
    split; [by apply Forall_app|]. split; [lia|]. destruct ell; cbn in *; lia. }
  destruct (str_drop (S off) s) as [|c s']; [by injection E as <-; eapply Hdone|].
  destruct (Ascii.ascii_dec c "."%char) as [->|Hc1]; [by apply Hdot|].
  destruct (Ascii.ascii_dec c ":"%char) as [->|Hc2].
  - destruct s' as [|c' s'']; [no_addrErr|]. destruct (Ascii.ascii_dec c' ":"%char) as [->|Hc3].
    + destruct ell; [no_addrErr|]. destruct (is_empty s''); [injection E as <-; apply (Hdone (Some (length ip'))); cbn; [lia | done]|].
      apply (Hrec s'' (Some (length ip'))); [cbn; lia | done].
    + apply (Hrec (String c' s'') ell He'). destruct c' as [[] [] [] [] [] [] [] []]; first [exact E | congruence].
  - exfalso. clear -E Hc1 Hc2. destruct c as [[] [] [] [] [] [] [] []]; first [congruence | by apply addrErr_err in E].
Qed.

Lemma length_make_bytes n : length (make_bytes n) = n.
Proof. apply length_replicate. Qed.

Lemma v6_finish_ok inp zone x a : v6_finish inp zone x = Ok a -> bytes_ok x.1.1 -> (length x.1.1 <= 16)%nat ->
  from_option (fun e => (e <= length x.1.1)%nat) True x.1.2 -> addr_ok a.
Proof.
  destruct x as [[ip ell] s]. cbn [fst snd]. unfold v6_finish. intros E Hb Hl He. destruct (negb _); [no_addrErr|].
  assert (H16 : forall l, bytes_ok l -> length l = 16%nat -> addr_ok (A6 (be_get l) zone)).
  { intros l Hl' Hn. cbn. pose proof (be_get_bound l Hl') as Hbd. by rewrite Hn in Hbd. }
  destruct (Nat.ltb_spec (length ip) 16); destruct ell as [e|]; try no_addrErr; injection E as <-; apply H16; [|cbn in He| |lia]; try done.
  - repeat (apply Forall_app; split); [by apply bytes_ok_take | | by apply bytes_ok_drop].
    apply Forall_replicate. lia.
  - rewrite !length_app, length_make_bytes, length_take, length_drop. lia.
Qed.

(** A leading ellipsis, whatever the loop over the groups does. *)
Lemma leading_ellipsis {A} (groups : string -> option nat -> A) (all : A) s :
  match s with
  | String ":"%char (String ":"%char EmptyString) => all
  | String ":"%char (String ":"%char s') => groups s' (Some 0%nat)
  | _ => groups s None
  end = all \/
  exists s' ell, (ell = None \/ ell = Some 0%nat) /\
  match s with
  | String ":"%char (String ":"%char EmptyString) => all
  | String ":"%char (String ":"%char s') => groups s' (Some 0%nat)
  | _ => groups s None
  end = groups s' ell.
Proof.
  destruct s as [|c s]; [right; by exists EmptyString, None; split; [left|]|].
  destruct c as [[] [] [] [] [] [] [] []]; try (right; eexists _, None; by split; [left|]).
  destruct s as [|c s]; [right; by exists ":", None; split; [left|]|].
  destruct c as [[] [] [] [] [] [] [] []]; try (right; eexists _, None; by split; [left|]).
  destruct s as [|c s]; [by left|]. right. exists (String c s), (Some 0%nat). by split; [right|].
Qed.

Lemma v6_parse_ok inp s zone a : v6_parse inp s zone = Ok a -> addr_ok a.
Proof.
  unfold v6_parse. intros E.
  destruct (leading_ellipsis (fun s ell => match v6_groups 8 inp s [] ell with Err e => Err e | Ok x => v6_finish inp zone x end)
              (Ok (A6 0 zone)) s) as [E'|(s' & ell & He & E')]; rewrite E' in E; clear E'; [injection E as <-; cbn; lia|].
  destruct (v6_groups 8 inp s' [] ell) as [x|] eqn:Eg; [|done].
  apply v6_groups_range in Eg as (Hb & Hl & Hx); [by eapply v6_finish_ok|apply Forall_nil_2|cbn; lia|].
  destruct He as [-> | ->]; cbn; lia || done.
Qed.

Lemma ParseAddr_ok s a : ParseAddr s = Ok a -> addr_ok a.
Proof.
  unfold ParseAddr. destruct (addr_kind s) as [c|]; [|intros; no_addrErr].
  assert (H4 : parseIPv4Addr s = Ok a -> addr_ok a).
  { unfold parseIPv4Addr. destruct (v4_fields _ _ _ _ _ _ _) as [f|] eqn:E; [|done]. intros [= <-].
    apply v4_fields_range in E as [Hf Hl]; [|lia|apply Forall_nil_2|cbn; lia]. pose proof (be_get_bound f Hf) as Hb. by rewrite Hl in Hb. }
  assert (H6 : parseIPv6Addr s = Ok a -> addr_ok a).
  { unfold parseIPv6Addr. destruct (Cut s _) as [[b z]|]; [destruct (is_empty z); [intros; no_addrErr|]|]; apply v6_parse_ok. }
  destruct (Ascii.ascii_dec c "."%char) as [->|Hc]; [exact H4|]. destruct (Ascii.ascii_dec c ":"%char) as [->|Hc']; [exact H6|].
  clear H4 H6. intros E. exfalso. destruct c as [[] [] [] [] [] [] [] []];
    first [by contradict Hc | by contradict Hc' | exact (addrErr_err _ _ _ _ E)].
Qed.

Lemma ParsePrefix_ok s p : ParsePrefix s = Ok p -> prefix_ok p.
Proof.
  unfold ParsePrefix. destruct (LastIndexByte _ _) as [i|]; [|done]. destruct (ParseAddr _) as [a|] eqn:Ea; [|done].
  apply ParseAddr_ok in Ea. destruct (is_empty (Zone a)) eqn:Ez; [|done]. cbn [negb].
  destruct (match str_drop (S i) s with EmptyString => _ | _ => _ end); [done|].
  destruct (Atoi _) as [n|]; [|done]. destruct (_ || _) eqn:En; [done|]. intros [= <-].
  apply orb_false_iff in En as [?%Z.ltb_ge ?%Z.ltb_ge]. split; [done|]. cbn [pfx_Addr pfx_Bits]. split; [by destruct (Zone a)|].
  destruct a; cbn in *; [done | lia | lia].
Qed.

(** * net.IP *)

Definition ip_ok (ip : bytes) : Prop := bytes_ok ip /\ (length ip = 4 \/ length ip = 16)%nat.

Lemma ParseIP_ok s : ParseIP s <> [] -> bytes_ok (ParseIP s) /\ length (ParseIP s) = 16%nat.
Proof.
  unfold ParseIP. destruct (ParseAddr s) as [a|] eqn:E; [|done]. destruct (is_empty (Zone a)); [|done]. intros _.
  apply ParseAddr_ok in E. destruct a as [|v|v z]; cbn [As16]; [done| |split; [auto with vsw | apply length_be_put]].
  split; [apply bytes_ok_app; split; [by apply Forall_forall; intros; set_solver by lia | auto with vsw]|].
  by rewrite length_app, length_be_put.
Qed.

Lemma ip_ok_ParseIP s : ParseIP s <> [] -> ip_ok (ParseIP s).
Proof. intros H. destruct (ParseIP_ok s H) as [Hb Hl]. split; [done | by right]. Qed.

(** The text of an address is read as its sixteen-byte form. *)
Lemma ParseIP_String ip : ip_ok ip -> ParseIP (ip_String ip) = To16 ip.
Proof.
  intros [Hb Hl]. assert (Hl' : len ip = 4 \/ len ip = 16) by (unfold len; lia).
  assert (H4 : forall b, bytes_ok b -> length b = 4%nat -> ParseIP (string4 (be_get b)) = v4InV6Prefix ++ b).
  { intros b Hbb Hn. pose proof (be_get_bound b Hbb) as Hbd. rewrite Hn in Hbd. unfold ParseIP.
    rewrite ParseAddr_string4 by done. cbn [Zone is_empty As16]. f_equal. rewrite <- Hn. by apply be_put_get. }
  unfold ip_String, To4, To16. destruct Hl' as [E|E]; rewrite !E; cbn [Z.eqb Pos.eqb negb andb].
  - rewrite E. cbn [Z.eqb negb]. apply H4; [done | unfold len in E; lia].
  - assert (Hn : length ip = 16%nat) by (unfold len in E; lia). case_bool_decide as Ht.
    + assert (Hd : length (drop 12 ip) = 4%nat) by (rewrite length_drop; lia).
      replace (len (drop 12 ip) =? 0) with false by (unfold len; by rewrite Hd). cbn [negb].
      rewrite H4 by (done || by apply bytes_ok_drop). rewrite <- Ht. apply take_drop.
    + change (len (@nil Z) =? 0) with true. cbn [negb]. pose proof (be_get_bound ip Hb) as Hbd. rewrite Hn in Hbd.
      unfold ParseIP. rewrite ParseAddr_String by done. cbn [Zone is_empty As16]. rewrite <- Hn. by apply be_put_get.
Qed.

(** * Hardware addresses *)

Lemma xtoi2_hex_byte b rest e : 0 <= b < 256 -> match rest with EmptyString => True | String c _ => c = e end ->
  xtoi2 (hex_byte b rest) e = Some b.
Proof.
  intros Hb Hr. unfold hex_byte, xtoi2.
  assert (0 <= Z.shiftr b 4 < 16) by (rewrite Z.shiftr_div_pow2 by lia; change (2 ^ 4) with 16; Z.to_euclidean_division_equations; lia).
  assert (E : Z.land b 15 = b mod 16) by (change 15 with (Z.ones 4); by rewrite Z.land_ones by lia).
  rewrite !hexValue_hexDigit by (done || rewrite E; apply Z.mod_pos_bound; lia).
  replace (match rest with EmptyString => true | String c _ => Ascii.eqb c e end) with true
    by (destruct rest; [done|]; subst; by rewrite Ascii.eqb_refl).
  cbn. f_equal. rewrite E, Z.shiftr_div_pow2 by lia. change (2 ^ 4) with 16. pose proof (Z.div_mod b 16). lia.
Qed.

Lemma hwString_cons x y b : hwString (x :: y :: b) = hex_byte x (String ":"%char (hwString (y :: b))).
Proof. done. Qed.

Lemma length_hwString b : b <> [] -> S (String.length (hwString b)) = (3 * length b)%nat.
Proof.
  induction b as [|x b IH]; [done|]. intros _. destruct b as [|y b]; [done|]. rewrite hwString_cons.
  change (String.length (hex_byte x (String ":"%char (hwString (y :: b))))) with (S (S (S (String.length (hwString (y :: b)))))).
  specialize (IH ltac:(done)). cbn [length] in *. lia.
Qed.

Lemma mac_pairs_hwString b : bytes_ok b -> mac_pairs (length b) (hwString b) ":"%char = Some b.
Proof.
  intros Hb. induction Hb as [|x b Hx Hb IH]; [done|]. cbn [length mac_pairs]. destruct b as [|y b].
  - change (hwString [x]) with (hex_byte x EmptyString). by rewrite xtoi2_hex_byte.
  - rewrite hwString_cons, xtoi2_hex_byte by done.
    change (str_drop 3 (hex_byte x (String ":"%char (hwString (y :: b))))) with (hwString (y :: b)). by rewrite IH.
Qed.

Lemma ParseMAC_hwString b : bytes_ok b -> mac_size (length b) = true -> ParseMAC (hwString b) = Ok b.
Proof.
  intros Hb Hs. assert (Hl : (6 <= length b)%nat).
  { unfold mac_size in Hs. destruct (length b) as [|[|[|[|[|[|n]]]]]]; try done. lia. }
  pose proof (length_hwString b) as Hn. destruct b as [|x [|y b]]; try (cbn in Hl; lia). specialize (Hn ltac:(done)).
  unfold ParseMAC, parseMAC. replace (String.length (hwString (x :: y :: b)) <? 14)%nat with false by (symmetry; apply Nat.ltb_ge; lia).
  replace (String.get 2 (hwString (x :: y :: b))) with (Some ":"%char) by done.
  assert (exists c, String.get 4 (hwString (x :: y :: b)) = Some c) as [c ->] by (destruct b; by eexists).
  rewrite Hn, Nat.mul_comm, Nat.Div0.mod_mul, Nat.div_mul, Hs by lia. cbn [Ascii.eqb Bool.eqb orb Nat.eqb negb].
  change (Ascii.eqb ":" ":") with true. cbn match. by rewrite mac_pairs_hwString.
Qed.

Lemma xtoi2_range s e x : xtoi2 s e = Some x -> 0 <= x < 256.
Proof.
  unfold xtoi2. destruct s as [|a [|b rest]]; try done. destruct (match rest with EmptyString => _ | _ => _ end); [|done].
  destruct (hexValue a) as [p|] eqn:Ea; [|done]. destruct (hexValue b) as [q|] eqn:Eb; [|done].
  apply hexValue_range in Ea, Eb. cbn. intros [= <-]. lia.
Qed.

Lemma mac_pairs_ok n : forall s sep b, mac_pairs n s sep = Some b -> bytes_ok b /\ length b = n.
Proof.
  induction n as [|n IH]; intros s sep b E; cbn [mac_pairs] in E; [injection E as <-; split; [apply Forall_nil_2 | done]|].
  apply bind_Some in E as (x & Ex & E). apply bind_Some in E as (r & Er & [= <-]).
  apply xtoi2_range in Ex. apply IH in Er as [Hr <-]. split; [by apply Forall_cons | done].
Qed.

Lemma mac_quads_ok n : forall s b, mac_quads n s = Some b -> bytes_ok b /\ length b = (2 * n)%nat.
Proof.
  induction n as [|n IH]; intros s b E; cbn [mac_quads] in E; [injection E as <-; split; [apply Forall_nil_2 | done]|].
  apply bind_Some in E as (x & Ex & E). apply bind_Some in E as (y & Ey & E). apply bind_Some in E as (r & Er & [= <-]).
  apply xtoi2_range in Ex, Ey. apply IH in Er as [Hr Hl]. split; [repeat (apply Forall_cons; split); done|]. cbn [length]. lia.
Qed.

Lemma ParseMAC_ok s b : ParseMAC s = Ok b -> bytes_ok b /\ mac_size (length b) = true.
Proof.
  unfold ParseMAC. destruct (parseMAC s) as [b'|] eqn:E; [|done]. intros [= ->]. unfold parseMAC in E.
  destruct (_ <? _)%nat; [done|]. destruct (String.get 2 s) as [c2|]; [|done]. destruct (String.get 4 s) as [c4|]; [|done].
  destruct (_ || _).
  - destruct (_ || _) eqn:Eo; [done|]. apply orb_false_iff in Eo as [_ Hs%negb_false_iff].
    apply mac_pairs_ok in E as [Hb ->]. done.
  - destruct (Ascii.eqb c4 _); [|done]. destruct (negb _) eqn:Em; [done|]. destruct (mac_size _) eqn:Hs; [|done].
    apply negb_false_iff, Nat.eqb_eq in Em. apply mac_quads_ok in E as [Hb ->]. split; [done|]. cbn [negb orb] in *.
    rewrite <- Hs. f_equal. apply Nat.Div0.mod_divides in Em as [k Ek]. rewrite Ek, (Nat.mul_comm 5), Nat.div_mul by lia.
    rewrite Nat.mul_assoc, Nat.div_mul by lia. done.
Qed.
