(* ===== verification/Forwards.v ===== *)
(** Port forwards of a gateway: src/internal/gateway/forwards.go.

    The forwarding engine belongs to slirpnetstack: whether an address pair is
    acceptable, whether the host grants a listener, and which key the table of
    remote forwards assigns are parameters.  The latter two may answer
    differently at each attempt, so they take the attempt's number, which also
    names the listener object it yields.  What happens to listeners, table and
    ARP cache is a list of effects. *)
From S2P Require Import Prelude Lease GoText.
From stdpp Require Import sorting pretty.

#[local] Open Scope Z_scope.

(** * Data *)

Record ForwardSpec := mkSpec {
  f_Type : string;
  f_Network : string;
  f_Bind : string;
  f_Host : string
}.
#[export] Instance ForwardSpec_eq_dec : EqDecision ForwardSpec.
Proof. solve_decision. Defined.

(** [ForwardRec]: the identity of an installed rule and the rule. *)
Record ForwardRec := mkForward { fr_ID : string; fr_spec : ForwardSpec }.

(** [forwardRec]: with the listener of a local forward, or the table key of a
    remote one. *)
Record forwardRec := mkRec { rec_fwd : ForwardRec; rec_listener : option nat; rec_key : string }.

Definition rec_spec (r : forwardRec) : ForwardSpec := fr_spec (rec_fwd r).

(** The forwarding fields of [Gateway]; [opened] are the host listeners that
    are open, [attempts] counts the calls into slirpnetstack. *)
Record forwardsT := mkForwards {
  fwdSeq : Z;
  forwards : gmap string forwardRec;
  opened : gset nat;
  attempts : nat
}.

Definition newForwards : forwardsT := mkForwards 0 ∅ ∅ 0.

Inductive ffx : Type :=
  | FPrimeArp (ip : bytes)
  | FListen (n : nat)
  | FClose (n : nat)
  | FTableAdd (network key : string)
  | FTableRemove (network key : string).

Definition spec_key (s : ForwardSpec) : string :=
  f_Type s +:+ "|" +:+ f_Network s +:+ "|" +:+ f_Bind s +:+ "|" +:+ f_Host s.

Definition fwdID (seq : Z) : string := "fwd-" +:+ Itoa seq.

Definition set_opened (o : gset nat) (f : forwardsT) : forwardsT :=
  mkForwards (fwdSeq f) (forwards f) o (attempts f).
Definition set_attempts (n : nat) (f : forwardsT) : forwardsT :=
  mkForwards (fwdSeq f) (forwards f) (opened f) n.
Definition set_forwards (m : gmap string forwardRec) (f : forwardsT) : forwardsT :=
  mkForwards (fwdSeq f) m (opened f) (attempts f).

Section forwards.
Context {FwdAddr : Type}.
Context (NewFwdAddr : string -> string -> string -> string -> string -> result FwdAddr).
Context (DynLocalForwardTCP DynLocalForwardUDP : nat -> FwdAddr -> option goerr).
Context (fwdTable_Add : nat -> FwdAddr -> result string).

(** * Installing and removing a rule *)

(** Book the rule under the next identifier. *)
Definition register (spec : ForwardSpec) (listener : option nat) (key : string) (f : forwardsT)
    : forwardsT * ForwardRec :=
  let seq := s64 (fwdSeq f + 1) in
  let fr := mkForward (fwdID seq) spec in
  (mkForwards seq (<[fr_ID fr := mkRec fr listener key]> (forwards f)) (opened f) (attempts f), fr).

(** The two kinds of forward, with the addresses already parsed. *)
Definition installForward (s : ForwardSpec) (hostH : string) (rf : FwdAddr) (f : forwardsT)
    : forwardsT * result ForwardRec * list ffx :=
  let n := attempts f in
  let f := set_attempts (S n) f in
  if bool_decide (f_Type s = "local") then
    let ip := ParseIP hostH in
    let arp := if negb (len (To4 ip) =? 0) then [FPrimeArp ip] else [] in
    let failed :=
      if bool_decide (f_Network s = "tcp") then DynLocalForwardTCP n rf
      else if bool_decide (f_Network s = "udp") then DynLocalForwardUDP n rf
      else Some (Errorf "network must be tcp or udp, got %q" [AStr (f_Network s)]) in
    match failed with
    | Some e => (f, Err e, arp)
    | None =>
        let '(f, fr) := register s (Some n) EmptyString (set_opened ({[n]} ∪ opened f) f) in
        (f, Ok fr, arp ++ [FListen n])
    end
  else if bool_decide (f_Type s = "remote") then
    match fwdTable_Add n rf with
    | Err e => (f, Err e, [])
    | Ok key =>
        let '(f, fr) := register s None key f in (f, Ok fr, [FTableAdd (f_Network s) key])
    end
  else (f, Err (Errorf "type must be local or remote, got %q" [AStr (f_Type s)]), []).

Definition AddForward (s : ForwardSpec) (f : forwardsT) : forwardsT * result ForwardRec * list ffx :=
  match SplitHostPort (f_Bind s) with
  | Err e => (f, Err (Errorf "bad bind %q: %w" [AStr (f_Bind s); AErr e]), [])
  | Ok (bindH, bindP) =>
      match SplitHostPort (f_Host s) with
      | Err e => (f, Err (Errorf "bad host %q: %w" [AStr (f_Host s); AErr e]), [])
      | Ok (hostH, hostP) =>
          match NewFwdAddr (f_Network s) bindH bindP hostH hostP with
          | Err e => (f, Err e, [])
          | Ok rf => installForward s hostH rf f
          end
      end
  end.

(** Release what a removed rule holds. *)
Definition closeRec (r : forwardRec) (f : forwardsT) : forwardsT * list ffx :=
  if bool_decide (f_Type (rec_spec r) = "local") then
    match rec_listener r with
    | Some n => (set_opened (opened f ∖ {[n]}) f, [FClose n])
    | None => (f, [])
    end
  else if bool_decide (f_Type (rec_spec r) = "remote") then
    (f, [FTableRemove (f_Network (rec_spec r)) (rec_key r)])
  else (f, []).

Definition DeleteForward (id : string) (f : forwardsT) : forwardsT * option goerr * list ffx :=
  match forwards f !! id with
  | None => (f, Some (Errorf "forward %q not found" [AStr id]), [])
  | Some r =>
      let '(f, fx) := closeRec r (set_forwards (delete id (forwards f)) f) in
      (f, None, fx)
  end.

(** * Listing *)

Definition fwd_le (a b : ForwardRec) : Prop := String.leb (fr_ID a) (fr_ID b) = true.
#[export] Instance fwd_le_dec : RelDecision fwd_le.
Proof. intros a b. unfold fwd_le. apply _. Defined.

(** The iteration order of a map is an argument of the operations that range
    over it. *)
Record FwdOrders := mkFwdOrders {
  of_forwards : gmap string forwardRec -> list (string * forwardRec);
  of_want : gmap string ForwardSpec -> list (string * ForwardSpec)
}.

Definition ListForwards (od : FwdOrders) (f : forwardsT) : list ForwardRec :=
  merge_sort fwd_le ((fun kv : string * forwardRec => rec_fwd kv.2) <$> of_forwards od (forwards f)).

(** * Declarative update *)

Fixpoint buildWant (desired : list ForwardSpec) (want : gmap string ForwardSpec) : result (gmap string ForwardSpec) :=
  match desired with
  | [] => Ok want
  | d :: desired' =>
      match want !! spec_key d with
      | Some _ => Err (Errorf "duplicate forward %s %s %s -> %s"
                         [AStr (f_Type d); AStr (f_Network d); AStr (f_Bind d); AStr (f_Host d)])
      | None => buildWant desired' (<[spec_key d := d]> want)
      end
  end.

(** Pass 1: the rules to drop, and the keys that are kept. *)
Fixpoint splitRules (want : gmap string ForwardSpec) (recs : list (string * forwardRec)) (have : gset string)
    : list string * gset string :=
  match recs with
  | [] => ([], have)
  | (id, r) :: recs' =>
      let k := spec_key (rec_spec r) in
      if bool_decide (is_Some (want !! k)) && negb (bool_decide (k ∈ have)) then
        splitRules want recs' ({[k]} ∪ have)
      else
        let '(del, have) := splitRules want recs' have in (id :: del, have)
  end.

Fixpoint deleteAll (ids : list string) (f : forwardsT) : forwardsT * list ffx :=
  match ids with
  | [] => (f, [])
  | id :: ids' =>
      let '(f, _, fx) := DeleteForward id f in
      let '(f, fx') := deleteAll ids' f in
      (f, fx ++ fx')
  end.

(** Pass 2: add what is missing, up to the first failure. *)
Fixpoint addMissing (want : list (string * ForwardSpec)) (have : gset string) (f : forwardsT)
    : forwardsT * option goerr * list ffx :=
  match want with
  | [] => (f, None, [])
  | (k, d) :: want' =>
      if bool_decide (k ∈ have) then addMissing want' have f
      else match AddForward d f with
      | (f, Err e, fx) =>
          (f, Some (Errorf "add %s %s %s -> %s: %w"
                      [AStr (f_Type d); AStr (f_Network d); AStr (f_Bind d); AStr (f_Host d); AErr e]), fx)
      | (f, Ok _, fx) =>
          let '(f, e, fx') := addMissing want' have f in (f, e, fx ++ fx')
      end
  end.

Definition ReplaceForwards (od : FwdOrders) (desired : list ForwardSpec) (f : forwardsT)
    : forwardsT * (list ForwardRec * option goerr) * list ffx :=
  match buildWant desired ∅ with
  | Err e => (f, ([], Some e), [])
  | Ok want =>
      let '(del, have) := splitRules want (of_forwards od (forwards f)) ∅ in
      let '(f, fx) := deleteAll del f in
      let '(f, e, fx') := addMissing (of_want od want) have f in
      (f, (ListForwards od f, e), fx ++ fx')
  end.

(** The listeners of the rules, as [closeForwards] closes them. *)
Definition closeForwards (od : FwdOrders) (f : forwardsT) : forwardsT * list ffx :=
  let ls := omap (fun kv : string * forwardRec => rec_listener kv.2) (of_forwards od (forwards f)) in
  (set_opened (opened f ∖ list_to_set ls) (set_forwards ∅ f), FClose <$> ls).
End forwards.
