(* ===== verification/ForwardsProps.v ===== *)
(** Theorems on port forwards: listeners are neither leaked nor shared, and a
    declarative update converges to the desired rules. *)
From S2P Require Import Prelude Lease GoText Forwards.
From stdpp Require Import sorting pretty.

#[local] Open Scope Z_scope.

Lemma fwdID_inj a b : fwdID a = fwdID b -> a = b.
Proof. unfold fwdID, Itoa. cbn [String.append]. intros [= H]. by apply pretty_Z_inj. Qed.

(** The registry and the open listeners agree: every rule is stored under its
    own identifier, drawn from the sequence; exactly the local rules have a
    listener, each its own, and no other listener is open. *)
Record fwd_ok (f : forwardsT) : Prop := {
  fo_id : forall id r, forwards f !! id = Some r ->
    fr_ID (rec_fwd r) = id /\ exists k, 1 <= k <= fwdSeq f /\ id = fwdID k;
  fo_listener : forall id r, forwards f !! id = Some r ->
    (f_Type (rec_spec r) = "local" /\ exists n, rec_listener r = Some n /\ n ∈ opened f) \/
    (f_Type (rec_spec r) = "remote" /\ rec_listener r = None);
  fo_own : forall id id' r r' n, forwards f !! id = Some r -> forwards f !! id' = Some r' ->
    rec_listener r = Some n -> rec_listener r' = Some n -> id = id';
  fo_open : forall n, n ∈ opened f -> exists id r, forwards f !! id = Some r /\ rec_listener r = Some n;
  fo_fresh : forall n, n ∈ opened f -> (n < attempts f)%nat;
  fo_seq : 0 <= fwdSeq f
}.

Lemma fwd_ok_new : fwd_ok newForwards.
Proof. split; try done; intros ??? || intros ??; by rewrite ?lookup_empty || set_solver. Qed.

Lemma fwd_ok_attempt f n : (attempts f <= n)%nat -> fwd_ok f -> fwd_ok (set_attempts n f).
Proof. intros Hn []. split; try done. intros k Hk. specialize (fo_fresh0 k Hk). cbn. lia. Qed.

(** Booking a rule whose listener, if any, was just opened. *)
Lemma register_ok s ln key f f1 fr :
  fwd_ok f -> fwdSeq f < maxInt64 ->
  match ln with
  | Some n => f_Type s = "local" /\ (n < attempts f)%nat /\ n ∉ opened f
  | None => f_Type s = "remote"
  end ->
  register s ln key (match ln with Some n => set_opened ({[n]} ∪ opened f) f | None => f end) = (f1, fr) ->
  fwd_ok f1 /\ fwdSeq f1 = fwdSeq f + 1 /\ fr = mkForward (fwdID (fwdSeq f + 1)) s /\
  forwards f !! fr_ID fr = None /\ forwards f1 = <[fr_ID fr := mkRec fr ln key]> (forwards f).
Proof.
  intros [] Hmax Hln.
  assert (Hs : s64 (fwdSeq f + 1) = fwdSeq f + 1).
  { unfold s64, maxInt64 in *. rewrite Z.mod_small; lia. }
  assert (Hfr : forwards f !! fwdID (fwdSeq f + 1) = None).
  { destruct (_ !! _) as [r|] eqn:E; [|done]. destruct (fo_id0 _ _ E) as (_ & k & Hk & Hid).
    apply fwdID_inj in Hid. lia. }
  set (o := match ln with Some n => {[n]} ∪ opened f | None => opened f end).
  assert (Ho : forall n, n ∈ o <-> ln = Some n \/ n ∈ opened f) by (intros n; unfold o; destruct ln; [rewrite elem_of_union, elem_of_singleton|]; naive_solver).
  intros E. assert (E' : f1 = mkForwards (fwdSeq f + 1) (<[fwdID (fwdSeq f + 1) := mkRec fr ln key]> (forwards f)) o (attempts f) /\
    fr = mkForward (fwdID (fwdSeq f + 1)) s).
  { unfold register in E. destruct ln; cbn [fwdSeq set_opened forwards opened attempts] in E; rewrite Hs in E; by simplify_eq. }
  destruct E' as [-> ->]. split_and!; try done. split; cbn [forwards fwdSeq opened attempts]; try lia.
  - intros id r [[<- <-]|[_ H]]%lookup_insert_Some; [split; [done|]; exists (fwdSeq f + 1); split; [lia | done]|].
    destruct (fo_id0 _ _ H) as (? & k & ? & ?). split; [done|]. exists k. split; [lia | done].
  - intros id r [[<- <-]|[_ H]]%lookup_insert_Some.
    + cbn [rec_spec rec_fwd fr_spec rec_listener]. destruct ln as [n|]; [left | right; done].
      destruct Hln as (? & ? & ?). split; [done|]. exists n. split; [done|]. apply Ho. by left.
    + destruct (fo_listener0 _ _ H) as [(? & n & ? & ?)|?]; [left | by right]. split; [done|]. exists n. rewrite Ho. auto.
  - assert (Hno : forall id r n, forwards f !! id = Some r -> rec_listener r = Some n -> ln = Some n -> False).
    { intros id r n H Hr ->. destruct (fo_listener0 _ _ H) as [(_ & m & E1 & Hm)|[_ E1]]; rewrite E1 in Hr; simplify_eq.
      by destruct Hln as (_ & _ & ?). }
    intros id id' r r' n [[<- <-]|[? H]]%lookup_insert_Some [[<- <-]|[? H']]%lookup_insert_Some Hr Hr'; try done;
      [by destruct (Hno _ _ _ H' Hr' Hr) | by destruct (Hno _ _ _ H Hr Hr') | by eapply fo_own0].
  - intros n [Hn|Hn]%Ho; [eexists _, _; by rewrite lookup_insert_eq|].
    destruct (fo_open0 n Hn) as (id & r & ? & ?). exists id, r. split; [|done].
    rewrite lookup_insert_ne; [done|]. by intros <-; congruence.
  - intros n [->|Hn]%Ho; [apply Hln | by apply fo_fresh0].
Qed.

Section ops.
Context {FwdAddr : Type}.
Context (NewFwdAddr : string -> string -> string -> string -> string -> result FwdAddr).
Context (DynLocalForwardTCP DynLocalForwardUDP : nat -> FwdAddr -> option goerr).
Context (fwdTable_Add : nat -> FwdAddr -> result string).
Abbreviation AddForward := (AddForward NewFwdAddr DynLocalForwardTCP DynLocalForwardUDP fwdTable_Add).
Abbreviation addMissing := (addMissing NewFwdAddr DynLocalForwardTCP DynLocalForwardUDP fwdTable_Add).
Abbreviation ReplaceForwards := (ReplaceForwards NewFwdAddr DynLocalForwardTCP DynLocalForwardUDP fwdTable_Add).

(** What adding a rule does. *)
Lemma AddForward_ok s f f' r fx :
  fwd_ok f -> fwdSeq f < maxInt64 -> AddForward s f = (f', r, fx) ->
  fwd_ok f' /\
  match r with
  | Err _ => forwards f' = forwards f /\ opened f' = opened f /\ fwdSeq f' = fwdSeq f
  | Ok fr => fwdSeq f' = fwdSeq f + 1 /\ fr = mkForward (fwdID (fwdSeq f + 1)) s /\ forwards f !! fr_ID fr = None /\
      exists rc, rec_fwd rc = fr /\ forwards f' = <[fr_ID fr := rc]> (forwards f)
  end.
Proof.
  intros Hok Hmax. unfold AddForward. destruct (SplitHostPort (f_Bind s)) as [[bh bp]|e]; [|by intros [= <- <- <-]].
  destruct (SplitHostPort (f_Host s)) as [[hh hp]|e]; [|by intros [= <- <- <-]].
  destruct (NewFwdAddr _ _ _ _ _) as [rf|e]; [|by intros [= <- <- <-]].
  unfold installForward. set (f0 := set_attempts (S (attempts f)) f).
  assert (Hok0 : fwd_ok f0) by (apply fwd_ok_attempt; [lia | done]).
  assert (Hnew : attempts f ∉ opened f) by (intros Hin; apply (fo_fresh f Hok) in Hin; lia).
  destruct (bool_decide (f_Type s = "local")) eqn:El; bool_prop.
  - destruct (if bool_decide (f_Network s = "tcp") then _ else _) as [e|]; [by intros [= <- <- <-]|].
    destruct (register _ _ _ _) as [f1 fr] eqn:Er. intros [= <- <- <-].
    destruct (register_ok s (Some (attempts f)) EmptyString f0 f1 fr) as (? & ? & ? & ? & ?); try done.
    + split_and!; [done | cbn; lia | done].
    + split; [done|]. split_and!; try done. eexists. split; [|eassumption]. done.
  - destruct (bool_decide (f_Type s = "remote")) eqn:Em; bool_prop; [|by intros [= <- <- <-]].
    destruct (fwdTable_Add _ _) as [key|e]; [|by intros [= <- <- <-]].
    destruct (register _ _ _ _) as [f1 fr] eqn:Er. intros [= <- <- <-].
    destruct (register_ok s None key f0 f1 fr) as (? & ? & ? & ? & ?); try done.
    split; [done|]. split_and!; try done. eexists. split; [|eassumption]. done.
Qed.

Lemma DeleteForward_ok id f f' e fx :
  fwd_ok f -> DeleteForward id f = (f', e, fx) ->
  fwd_ok f' /\ forwards f' = delete id (forwards f) /\ fwdSeq f' = fwdSeq f /\
  e = (match forwards f !! id with Some _ => None | None => Some (Errorf "forward %q not found" [AStr id]) end).
Proof.
  intros Hok. unfold DeleteForward. destruct (forwards f !! id) as [r|] eqn:E.
  2: { intros [= <- <- <-]. by rewrite delete_id. }
  destruct (closeRec _ _) as [f1 fx1] eqn:Ec. intros [= <- <- <-]. revert Ec. unfold closeRec. destruct Hok.
  assert (Hd : forall f1, forwards f1 = delete id (forwards f) -> fwdSeq f1 = fwdSeq f -> attempts f1 = attempts f ->
    opened f1 = (match rec_listener r with Some n => opened f ∖ {[n]} | None => opened f end) -> fwd_ok f1).
  { intros f2 E1 E2 E3 E4. split; rewrite ?E1, ?E2, ?E3; try done.
    - intros i x [_ H]%lookup_delete_Some. by apply fo_id0.
    - intros i x [Hne H]%lookup_delete_Some. destruct (fo_listener0 _ _ H) as [(? & n & Hn & Ho)|?]; [left | by right].
      split; [done|]. exists n. split; [done|]. rewrite E4. destruct (rec_listener r) as [m|] eqn:Er; [|done].
      apply elem_of_difference. split; [done|]. intros ->%elem_of_singleton. by destruct (fo_own0 _ _ _ _ m E H).
    - intros i j x y n [_ Hx]%lookup_delete_Some [_ Hy]%lookup_delete_Some. by eapply fo_own0.
    - intros n Hn. rewrite E4 in Hn. assert (Ho : n ∈ opened f) by (destruct (rec_listener r); set_solver).
      destruct (fo_open0 n Ho) as (i & x & Hx & Hl). exists i, x. split; [|done]. apply lookup_delete_Some. split; [|done].
      intros ->. rewrite E in Hx. injection Hx as ->. rewrite Hl in Hn. set_solver.
    - intros n Hn. rewrite E4 in Hn. apply fo_fresh0. destruct (rec_listener r); set_solver. }
  destruct (fo_listener0 _ _ E) as [(-> & n & Hn & _)|(-> & Hn)]; cbn; rewrite Hn in *.
  - intros [= <- <-]. split_and!; try done. by apply Hd.
  - intros [= <- <-]. split_and!; try done. by apply Hd.
Qed.

Lemma deleteAll_ok ids : forall f f' fx,
  fwd_ok f -> deleteAll ids f = (f', fx) ->
  fwd_ok f' /\ fwdSeq f' = fwdSeq f /\
  forall id, forwards f' !! id = if decide (id ∈ ids) then None else forwards f !! id.
Proof.
  induction ids as [|i ids IH]; intros f f' fx Hok; cbn [deleteAll].
  { intros [= <- <-]. split_and!; try done. }
  destruct (DeleteForward i f) as [[f1 e] fx1] eqn:Ed. destruct (deleteAll ids f1) as [f2 fx2] eqn:Ea. intros [= <- <-].
  destruct (DeleteForward_ok _ _ _ _ _ Hok Ed) as (Hok1 & E1 & E2 & _). destruct (IH _ _ _ Hok1 Ea) as (Hok2 & E3 & E4).
  split_and!; [done | by rewrite E3 |]. intros id. rewrite E4, E1. destruct (decide (id = i)) as [->|Hne].
  - rewrite lookup_delete_eq. rewrite (decide_True _ _ (list_elem_of_here i ids)). by destruct (decide _).
  - rewrite lookup_delete_ne by done. destruct (decide (id ∈ ids)) as [Hin|Hin].
    + rewrite decide_True; [done|]. by right.
    + rewrite decide_False; [done|]. rewrite elem_of_cons. naive_solver.
Qed.

(** Pass 1 keeps, for every wanted key that is served, one rule. *)
Lemma splitRules_ok want recs : forall have del have',
  NoDup recs.*1 -> splitRules want recs have = (del, have') ->
  (forall k, k ∈ have' <-> (k ∈ have) \/ exists id r, (id, r) ∈ recs /\ id ∉ del /\ spec_key (rec_spec r) = k) /\
  (forall id r, (id, r) ∈ recs -> id ∉ del -> is_Some (want !! spec_key (rec_spec r)) /\ spec_key (rec_spec r) ∉ have) /\
  (forall id r id' r', (id, r) ∈ recs -> (id', r') ∈ recs -> id ∉ del -> id' ∉ del ->
     spec_key (rec_spec r) = spec_key (rec_spec r') -> id = id') /\
  (forall id r, (id, r) ∈ recs -> is_Some (want !! spec_key (rec_spec r)) -> spec_key (rec_spec r) ∈ have') /\
  (forall id, id ∈ del -> id ∈ recs.*1).
Proof.
  induction recs as [|[i r] recs IH]; intros have del have' Hnd; cbn [splitRules].
  { intros [= <- <-]. split_and!; try setoid_rewrite elem_of_nil; naive_solver. }
  cbn [fmap list_fmap fst] in Hnd. apply NoDup_cons in Hnd as [Hni Hnd].
  assert (Hi : forall x, (i, x) ∉ recs) by (intros x Hx; apply Hni; apply (list_elem_of_fmap_2' fst _ _ _ Hx eq_refl)).
  set (k := spec_key (rec_spec r)).
  destruct (bool_decide (is_Some (want !! k)) && negb (bool_decide (k ∈ have))) eqn:Ek.
  - bool_prop. intros E. destruct (IH _ _ _ Hnd E) as (P1 & P2 & P3 & P4 & P5).
    assert (Hid : i ∉ del) by (intros ?%P5; done).
    split_and!.
    + intros k'. rewrite P1. split.
      * intros [[->%elem_of_singleton|?]%elem_of_union|(id & x & ? & ? & ?)]; [right; exists i, r; split_and!; try done; by left | by left |].
        right. exists id, x. split_and!; try done. by right.
      * intros [?|(id & x & [[= -> ->]|Hx]%elem_of_cons & ? & <-)]; [left; set_solver | left; set_solver |].
        right. by exists id, x.
    + intros id x [[= -> ->]|Hx]%elem_of_cons Hd; [done|]. destruct (P2 _ _ Hx Hd). split; [done|]. set_solver.
    + intros id x id' x' [[= -> ->]|Hx]%elem_of_cons [[= -> ->]|Hx']%elem_of_cons Hd Hd' Ex; try done.
      * destruct (P2 _ _ Hx' Hd') as [_ []]. set_solver.
      * destruct (P2 _ _ Hx Hd) as [_ []]. set_solver.
      * by eapply P3.
    + intros id x [[= -> ->]|Hx]%elem_of_cons Hw; [apply P1; left; set_solver | by eapply P4].
    + intros id ?%P5. by right.
  - destruct (splitRules want recs have) as [del0 have0] eqn:E. intros [= <- <-].
    destruct (IH _ _ _ Hnd E) as (P1 & P2 & P3 & P4 & P5).
    assert (Hdel : forall id x, (id, x) ∈ recs -> id ∉ i :: del0 <-> id ∉ del0).
    { intros id x Hx. rewrite elem_of_cons. split; [naive_solver|]. intros ? [->|?]; [by destruct (Hi x) | done]. }
    split_and!.
    + intros k'. rewrite P1. split.
      * intros [?|(id & x & Hx & ? & ?)]; [by left|]. right. exists id, x. split_and!; [by right | by eapply Hdel | done].
      * intros [?|(id & x & [[= -> ->]|Hx]%elem_of_cons & Hd & ?)]; [by left | by destruct Hd; left |].
        right. exists id, x. split_and!; [done | by eapply Hdel in Hd | done].
    + intros id x [[= -> ->]|Hx]%elem_of_cons Hd; [by destruct Hd; left|]. apply P2 with id; [done | by eapply Hdel in Hd].
    + intros id x id' x' [[= -> ->]|Hx]%elem_of_cons [[= -> ->]|Hx']%elem_of_cons Hd Hd' Ex;
        try done; [by destruct Hd; left | by destruct Hd'; left |].
      eapply P3; [done | done | by eapply Hdel in Hd | by eapply Hdel in Hd' | done].
    + intros id x [[= -> ->]|Hx]%elem_of_cons Hw; [|by eapply P4]. fold k in Hw |- *.
      rewrite bool_decide_true in Ek by done. cbn in Ek. bool_prop. apply P1. by left.
    + intros id [->|?%P5]%elem_of_cons; [by left | by right].
Qed.

(** [f'] is [f] with the rules [ds] added under new identifiers. *)
Definition extended (ds : list ForwardSpec) (f f' : forwardsT) : Prop :=
  (forall id r, forwards f !! id = Some r -> forwards f' !! id = Some r) /\
  exists ids, length ids = length ds /\ NoDup ids /\ (forall id, id ∈ ids -> forwards f !! id = None) /\
    (forall j id d, ids !! j = Some id -> ds !! j = Some d -> exists r, forwards f' !! id = Some r /\ rec_spec r = d) /\
    (forall id r, forwards f' !! id = Some r -> forwards f !! id = Some r \/ id ∈ ids).

Lemma extended_nil f f' : forwards f' = forwards f -> extended [] f f'.
Proof. intros E. unfold extended. rewrite E. split; [done|]. exists []. split_and!; try done; [constructor | by intros ? ?%elem_of_nil | by left]. Qed.

Lemma extended_cons d ds f f1 f' id r :
  forwards f !! id = None -> rec_spec r = d -> forwards f1 = <[id := r]> (forwards f) ->
  extended ds f1 f' -> extended (d :: ds) f f'.
Proof.
  intros Hid Hr E (K & ids & Hl & Hnd & Hnew & Hin & Hall). rewrite E in *. split.
  - intros i x Hx. apply K. rewrite lookup_insert_ne; [done|]. intros <-. congruence.
  - exists (id :: ids). split_and!; [cbn; lia | | | |].
    + apply NoDup_cons. split; [|done]. intros Hi%Hnew. by rewrite lookup_insert_eq in Hi.
    + intros i [->|Hi]%elem_of_cons; [done|]. apply Hnew in Hi. by apply lookup_insert_None in Hi as [? _].
    + intros [|j] i d'; cbn [lookup list_lookup]; [|by apply Hin]. intros [= <-] [= <-]. exists r. split; [|done].
      apply K. by rewrite lookup_insert_eq.
    + intros i x Hx. destruct (Hall i x Hx) as [[[<- <-]|[? ?]]%lookup_insert_Some|?]; [right; by left | by left | right; by right].
Qed.

Lemma addMissing_ok want have : forall f f' e fx,
  fwd_ok f -> fwdSeq f + Z.of_nat (length want) <= maxInt64 -> addMissing want have f = (f', e, fx) ->
  exists done_ rest, filter (fun kd => kd.1 ∉ have) want = done_ ++ rest /\ fwd_ok f' /\ extended done_.*2 f f' /\
    match e with
    | None => rest = []
    | Some e => exists k d rest' e0, rest = (k, d) :: rest' /\
        e = Errorf "add %s %s %s -> %s: %w" [AStr (f_Type d); AStr (f_Network d); AStr (f_Bind d); AStr (f_Host d); AErr e0]
    end.
Proof.
  induction want as [|[k d] want IH]; intros f f' e fx Hok Hmax; cbn [addMissing length] in *.
  { intros [= <- <- <-]. exists [], []. split_and!; try done. by apply extended_nil. }
  rewrite filter_cons. cbn [fst]. destruct (bool_decide (k ∈ have)) eqn:Ek; bool_prop.
  { rewrite decide_False by (by intros ?). apply IH; [done | lia]. }
  rewrite decide_True by done. destruct (AddForward d f) as [[f1 r] fx1] eqn:Ea.
  destruct (AddForward_ok _ _ _ _ _ Hok ltac:(lia) Ea) as [Hok1 Hr]. destruct r as [fr|e1].
  - destruct Hr as (Hs1 & -> & Hn & rc & Hrc & E1). destruct (addMissing want have f1) as [[f2 e2] fx2] eqn:Em.
    intros [= <- <- <-]. destruct (IH _ _ _ _ Hok1 ltac:(lia) Em) as (dn & rest & Ed & Hok2 & Hx & He).
    exists ((k, d) :: dn), rest. split_and!; [by rewrite Ed | done | | done]. cbn [fmap list_fmap snd].
    eapply extended_cons; [exact Hn | | exact E1 | done]. unfold rec_spec. by rewrite Hrc.
  - intros [= <- <- <-]. destruct Hr as (E1 & _ & _). eexists [], _. split_and!; [done | done | by apply extended_nil |].
    by eexists _, _, _, _.
Qed.

Lemma buildWant_ok ds : forall want,
  (forall k d, want !! k = Some d -> spec_key d = k) ->
  match buildWant ds want with
  | Ok want' => NoDup (spec_key <$> ds) /\ (forall k, k ∈ spec_key <$> ds -> want !! k = None) /\
      (forall k d, want' !! k = Some d <-> want !! k = Some d \/ (d ∈ ds /\ spec_key d = k))
  | Err _ => ~ (NoDup (spec_key <$> ds) /\ forall k, k ∈ spec_key <$> ds -> want !! k = None)
  end.
Proof.
  induction ds as [|d ds IH]; intros want Hw; cbn [buildWant].
  { split_and!; [constructor | by intros ? ?%elem_of_nil|]. intros k d. split; [by left|]. intros [?|[?%elem_of_nil _]]; done. }
  destruct (want !! spec_key d) as [d0|] eqn:E.
  { intros [_ H]. rewrite (H (spec_key d)) in E; [done|]. by left. }
  specialize (IH (<[spec_key d := d]> want)). destruct (buildWant ds _) as [want'|e].
  - destruct IH as (Hnd & Hnew & Hall); [intros k x [[<- <-]|[_ ?]]%lookup_insert_Some; [done | by apply Hw]|].
    assert (Hd : spec_key d ∉ spec_key <$> ds) by (intros H%Hnew; by rewrite lookup_insert_eq in H).
    split_and!.
    + by constructor.
    + intros k [->|Hk]%elem_of_cons; [done|]. apply Hnew in Hk. by apply lookup_insert_None in Hk as [? _].
    + intros k x. rewrite Hall, lookup_insert_Some. split.
      * intros [[[<- <-]|[_ ?]]|[? ?]]; [right; split; [by left | done] | by left | right; split; [by right | done]].
      * intros [Hx|[[->|Hx]%elem_of_cons <-]]; [|left; by left | right; by split].
        left. right. split; [|done]. intros <-. congruence.
  - intros [[Hd Hnd]%NoDup_cons Hk]. apply IH; [intros k x [[<- <-]|[_ ?]]%lookup_insert_Some; [done | by apply Hw]|].
    split; [done|]. intros k Hin. rewrite lookup_insert_ne; [apply Hk; by right|]. intros <-. done.
Qed.

Definition fwd_orders_ok (od : FwdOrders) : Prop := range_order (of_forwards od) /\ range_order (of_want od).

(** Rule [id] carries out the specification with key [k]. *)
Definition serves (f : forwardsT) (k id : string) : Prop :=
  exists r, forwards f !! id = Some r /\ spec_key (rec_spec r) = k.

(** [f'] has only rules of [desired], one for each, and of a rule [f] already
    had it has a copy that was not touched. *)
Record reconciled (desired : list ForwardSpec) (f f' : forwardsT) : Prop := {
  rc_ok : fwd_ok f';
  rc_wanted : forall k id, serves f' k id -> k ∈ spec_key <$> desired;
  rc_once : forall k id id', serves f' k id -> serves f' k id' -> id = id';
  rc_kept : forall k id, serves f k id -> k ∈ spec_key <$> desired ->
    exists id' r, forwards f !! id' = Some r /\ forwards f' !! id' = Some r /\ spec_key (rec_spec r) = k
}.

Definition complete (desired : list ForwardSpec) (f : forwardsT) : Prop :=
  forall d, d ∈ desired -> exists id, serves f (spec_key d) id.

(** ** The rules after both passes *)

Section passes.
Context (desired : list ForwardSpec) (want : gmap string ForwardSpec) (f f1 f' : forwardsT) (od : FwdOrders).
Context (del : list string) (have : gset string) (done_ rest : list (string * ForwardSpec)) (ids : list string).
Hypothesis Hwant : forall k d, want !! k = Some d <-> d ∈ desired /\ spec_key d = k.
Hypothesis Hod : fwd_orders_ok od.
Hypothesis Hsp : splitRules want (of_forwards od (forwards f)) ∅ = (del, have).
Hypothesis Hf1 : forall id, forwards f1 !! id = if decide (id ∈ del) then None else forwards f !! id.
Hypothesis Hfil : filter (fun kd => kd.1 ∉ have) (of_want od want) = done_ ++ rest.
Hypothesis Hkept : forall id r, forwards f1 !! id = Some r -> forwards f' !! id = Some r.
Hypothesis Hids : length ids = length done_.*2.
Hypothesis Hin : forall j id d, ids !! j = Some id -> done_.*2 !! j = Some d -> exists r, forwards f' !! id = Some r /\ rec_spec r = d.
Hypothesis Hall : forall id r, forwards f' !! id = Some r -> forwards f1 !! id = Some r \/ id ∈ ids.

Lemma pass_split :
  (forall k, k ∈ have <-> exists id r, forwards f !! id = Some r /\ id ∉ del /\ spec_key (rec_spec r) = k) /\
  (forall id r, forwards f !! id = Some r -> id ∉ del -> is_Some (want !! spec_key (rec_spec r))) /\
  (forall id r id' r', forwards f !! id = Some r -> forwards f !! id' = Some r' -> id ∉ del -> id' ∉ del ->
     spec_key (rec_spec r) = spec_key (rec_spec r') -> id = id') /\
  (forall id r, forwards f !! id = Some r -> is_Some (want !! spec_key (rec_spec r)) -> spec_key (rec_spec r) ∈ have).
Proof.
  destruct Hod as [Ho _]. destruct (splitRules_ok want _ _ _ _ (NoDup_range _ (forwards f) Ho) Hsp) as (P1 & P2 & P3 & P4 & _).
  assert (Hrec : forall id r, forwards f !! id = Some r <-> (id, r) ∈ of_forwards od (forwards f)) by (intros; by rewrite elem_of_range).
  setoid_rewrite Hrec. split_and!; [|by intros; eapply P2 | done | done]. intros k. rewrite P1. set_solver.
Qed.

Lemma pass_missing k d : (k, d) ∈ done_ ++ rest <-> k ∉ have /\ d ∈ desired /\ spec_key d = k.
Proof. rewrite <- Hfil, list_elem_of_filter, (elem_of_range _ _ _ _ (proj2 Hod)), Hwant. done. Qed.

Lemma pass_added j k d : done_ !! j = Some (k, d) -> k ∉ have /\ d ∈ desired /\ spec_key d = k.
Proof. intros H. apply pass_missing, elem_of_app. left. by eapply list_elem_of_lookup_2. Qed.

Lemma pass_nodup : NoDup (done_ ++ rest).*1.
Proof.
  rewrite <- Hfil. eapply sublist_NoDup; [apply (NoDup_range _ want (proj2 Hod))|]. apply fmap_sublist, sublist_filter.
Qed.

(** A rule was there before and not deleted, or was added in the second pass. *)
Lemma pass_origin id r : forwards f' !! id = Some r ->
  (forwards f !! id = Some r /\ id ∉ del) \/ exists j, ids !! j = Some id /\ done_ !! j = Some (spec_key (rec_spec r), rec_spec r).
Proof.
  intros H. destruct (Hall id r H) as [Ho|[j Hj]%list_elem_of_lookup].
  { left. rewrite Hf1 in Ho. by destruct (decide (id ∈ del)). }
  right. destruct (lookup_lt_is_Some_2 done_.*2 j) as [d Hd]; [rewrite <- Hids; by eapply lookup_lt_Some|].
  destruct (Hin j id d Hj Hd) as (r' & Hr' & <-). rewrite H in Hr'. injection Hr' as <-.
  rewrite list_lookup_fmap in Hd. destruct (done_ !! j) as [[k d]|] eqn:Ej; [|done]. cbn in Hd. injection Hd as ->. exists j.
  split; [done|]. destruct (pass_added j _ _ Ej) as (_ & _ & ->). done.
Qed.

Lemma pass_serves k d : (k, d) ∈ done_ -> exists id, serves f' k id.
Proof.
  intros [j Hj]%list_elem_of_lookup.
  destruct (lookup_lt_is_Some_2 ids j) as [id Hid]; [rewrite Hids, length_fmap; by eapply lookup_lt_Some|].
  assert (Hd : done_.*2 !! j = Some d) by by rewrite list_lookup_fmap, Hj.
  destruct (Hin j id d Hid Hd) as (r & Hr & <-). exists id, r. split; [done|]. by apply (pass_added j).
Qed.

Lemma pass_keeps k : k ∈ have -> exists id r, forwards f !! id = Some r /\ forwards f' !! id = Some r /\ spec_key (rec_spec r) = k.
Proof.
  intros (id & r & Hr & Hd & E)%(proj1 pass_split). exists id, r. split_and!; [done | | done]. apply Hkept. by rewrite Hf1, decide_False.
Qed.

(** Two rules for one endpoint are the same rule. *)
Lemma pass_once k id id' : serves f' k id -> serves f' k id' -> id = id'.
Proof.
  destruct pass_split as (P1 & _ & P3 & _). intros (r & Hr & E) (r' & Hr' & E').
  destruct (pass_origin id r Hr) as [[H Hd]|(j & Hi & Hj)]; destruct (pass_origin id' r' Hr') as [[H' Hd']|(j' & Hi' & Hj')].
  - eapply P3; eauto; congruence.
  - destruct (pass_added _ _ _ Hj') as [Hh _]. destruct Hh. apply P1. exists id, r. split_and!; done || congruence.
  - destruct (pass_added _ _ _ Hj) as [Hh _]. destruct Hh. apply P1. exists id', r'. split_and!; done || congruence.
  - assert (j = j') as ->; [|congruence]. apply (NoDup_lookup (done_ ++ rest).*1 j j' k pass_nodup);
      rewrite list_lookup_fmap, lookup_app_l, ?Hj, ?Hj' by (by eapply lookup_lt_Some); cbn; congruence.
Qed.

Lemma pass_reconciled : fwd_ok f' -> reconciled desired f f'.
Proof.
  destruct pass_split as (P1 & P2 & P3 & P4). intros Hok. split; [done | | apply pass_once |].
  - intros k id (r & Hr & <-). apply list_elem_of_fmap. destruct (pass_origin id r Hr) as [[H Hd]|(j & _ & Hj)].
    + destruct (P2 _ _ H Hd) as [d Hw]. apply Hwant in Hw as [? ?]. by exists d.
    + destruct (pass_added _ _ _ Hj) as (_ & ? & _). by exists (rec_spec r).
  - intros k id (r & Hr & <-) Hk. apply list_elem_of_fmap in Hk as (d & E & Hd). apply pass_keeps. eapply P4; [done|].
    exists d. by apply Hwant.
Qed.

Lemma pass_complete : rest = [] -> complete desired f'.
Proof.
  intros Hr d Hd. destruct (decide (spec_key d ∈ have)) as [Hh|Hh].
  - destruct (pass_keeps _ Hh) as (id & r & _ & ? & ?). by exists id, r.
  - apply (pass_serves _ d). pose proof (proj2 (pass_missing (spec_key d) d)) as H. rewrite Hr, app_nil_r in H. auto.
Qed.

Lemma pass_rest k d : (k, d) ∈ rest -> d ∈ desired /\ ~ exists id, serves f' k id.
Proof.
  intros Hk. destruct (proj1 (pass_missing k d)) as (Hh & Hd & Ek); [apply elem_of_app; by right|]. split; [done|].
  intros (id & r & Hr & E). destruct (pass_origin id r Hr) as [[H Hd']|(j & Hi & Hj)].
  - destruct Hh. apply (proj1 pass_split). exists id, r. split_and!; done || congruence.
  - pose proof pass_nodup as Hnd. rewrite fmap_app in Hnd. apply NoDup_app in Hnd as (_ & Hdis & _). apply (Hdis k).
    + apply (list_elem_of_fmap_2' fst _ (spec_key (rec_spec r), rec_spec r)); [by eapply list_elem_of_lookup_2 | done].
    + by apply (list_elem_of_fmap_2' fst _ (k, d)).
Qed.
End passes.

Lemma reconciled_passes desired want f f1 f' del have done_ rest :
  (forall k d, want !! k = Some d <-> d ∈ desired /\ spec_key d = k) ->
  forall od, fwd_orders_ok od -> fwd_ok f' ->
  splitRules want (of_forwards od (forwards f)) ∅ = (del, have) ->
  (forall id, forwards f1 !! id = if decide (id ∈ del) then None else forwards f !! id) ->
  filter (fun kd => kd.1 ∉ have) (of_want od want) = done_ ++ rest -> extended done_.*2 f1 f' ->
  reconciled desired f f' /\ (rest = [] -> complete desired f') /\
  (forall k d, (k, d) ∈ rest -> d ∈ desired /\ ~ exists id, serves f' k id).
Proof.
  intros Hwant od Hod Hok' Hsp Hf1 Hfil (K & ids & Hl & _ & _ & Hin & Hall).
  split_and!; eauto using pass_reconciled, pass_complete, pass_rest.
Qed.

Lemma ReplaceForwards_ok od desired f f' l e fx :
  fwd_orders_ok od -> fwd_ok f -> fwdSeq f + Z.of_nat (length desired) <= maxInt64 ->
  ReplaceForwards od desired f = (f', (l, e), fx) ->
  (f' = f /\ l = [] /\ fx = [] /\ e <> None /\ ~ NoDup (spec_key <$> desired)) \/
  (reconciled desired f f' /\ l = ListForwards od f' /\
   match e with
   | None => complete desired f'
   | Some e => exists d e0, d ∈ desired /\ (~ exists id, serves f' (spec_key d) id) /\
       e = Errorf "add %s %s %s -> %s: %w"
             [AStr (f_Type d); AStr (f_Network d); AStr (f_Bind d); AStr (f_Host d); AErr e0]
   end).
Proof.
  intros Hod Hok Hmax. unfold ReplaceForwards. pose proof (buildWant_ok desired ∅) as Hw.
  destruct (buildWant desired ∅) as [want|eb].
  2: { intros [= <- <- <- <-]. left. split_and!; try done. intros Hnd. apply Hw; [done|]. split; [done|].
       intros k _. apply lookup_empty. }
  destruct Hw as (Hnd & _ & Hw); [done|].
  assert (Hwant : forall k d, want !! k = Some d <-> d ∈ desired /\ spec_key d = k).
  { intros k d. rewrite Hw, lookup_empty. naive_solver. }
  destruct (splitRules _ _ _) as [del have] eqn:Es. destruct (deleteAll del f) as [f1 fx1] eqn:Ed.
  destruct (addMissing _ _ f1) as [[f2 e2] fx2] eqn:Ea. intros [= <- <- <- <-]. right.
  destruct (deleteAll_ok _ _ _ _ Hok Ed) as (Hok1 & E1 & Hf1).
  assert (Hlen : (length (of_want od want) <= length desired)%nat).
  { rewrite (Permutation_length (proj2 Hod want)), length_map_to_list, <- size_dom.
    rewrite <- (length_fmap spec_key desired), <- (size_list_to_set (C := gset string)) by done. apply subseteq_size.
    intros k [d Hd]%elem_of_dom. apply Hwant in Hd as [Hd <-]. apply elem_of_list_to_set. by apply list_elem_of_fmap_2. }
  apply addMissing_ok in Ea as (dn & rest & Hfil & Hok2 & Hx & He); [|done | lia].
  destruct (reconciled_passes desired want f f1 f2 del have dn rest Hwant od Hod Hok2 Es Hf1 Hfil Hx) as (Hrec & Hcomp & Hrest).
  split_and!; [done | done |]. destruct e2 as [e2|]; [|by apply Hcomp].
  destruct He as (k & d & rest' & e0 & -> & ->). destruct (Hrest k d) as [Hd Hno]; [by left|]. exists d, e0. split_and!; [done | | done].
  assert (Hin : (k, d) ∈ filter (fun kd => kd.1 ∉ have) (of_want od want)) by (rewrite Hfil; apply elem_of_app; right; by left).
  apply list_elem_of_filter in Hin as [_ Hin]. apply (elem_of_range _ _ _ _ (proj2 Hod)), Hwant in Hin as [_ ->]. done.
Qed.

Lemma closeForwards_ok od f f' fx :
  fwd_orders_ok od -> fwd_ok f -> closeForwards od f = (f', fx) ->
  fwd_ok f' /\ forwards f' = ∅ /\ opened f' = ∅ /\ fwdSeq f' = fwdSeq f.
Proof.
  intros [Ho _] Hok. unfold closeForwards. set (ls := omap _ _). intros [= <- <-].
  assert (E : opened f ∖ list_to_set ls = ∅).
  { apply set_eq. intros n. rewrite elem_of_difference, elem_of_list_to_set, elem_of_empty. split; [|done]. intros [Hn []].
    destruct (fo_open f Hok n Hn) as (id & r & Hr & Hl). apply list_elem_of_omap. exists (id, r). split; [|done].
    by apply (elem_of_range _ _ _ _ Ho). }
  cbn [forwards opened fwdSeq set_opened set_forwards]. rewrite E. split_and!; try done.
  split; cbn; try (intros *; rewrite ?lookup_empty; set_solver). apply Hok.
Qed.

(** The operations of a gateway on its forwards; identifiers run out after 2^63
    rules. *)
Inductive fwd_step (f f' : forwardsT) : Prop :=
  | StepAdd s r fx : fwdSeq f < maxInt64 -> AddForward s f = (f', r, fx) -> fwd_step f f'
  | StepDelete id e fx : DeleteForward id f = (f', e, fx) -> fwd_step f f'
  | StepReplace od desired l e fx : fwd_orders_ok od -> fwdSeq f + Z.of_nat (length desired) <= maxInt64 ->
      ReplaceForwards od desired f = (f', (l, e), fx) -> fwd_step f f'
  | StepClose od fx : fwd_orders_ok od -> closeForwards od f = (f', fx) -> fwd_step f f'.

Lemma fwd_step_ok f f' : fwd_ok f -> fwd_step f f' -> fwd_ok f'.
Proof.
  intros Hok [s r fx Hm E|id e fx E|od ds l e fx Ho Hm E|od fx Ho E].
  - by apply AddForward_ok in E as [? _].
  - by apply DeleteForward_ok in E as [? _].
  - apply ReplaceForwards_ok in E as [(-> & _)|(H & _)]; [done | apply H | done..].
  - by apply closeForwards_ok in E as [? _].
Qed.

(** C25: listeners follow the rules.  Whatever rules were added, deleted or
    replaced, successfully or not, exactly the listeners of the installed local
    rules are open, no two rules share one, and every rule is registered under
    its own identifier; closing the gateway leaves no listener open. *)
Theorem listeners_follow_rules f :
  rtc fwd_step newForwards f ->
  fwd_ok f /\ forall od f' fx, fwd_orders_ok od -> closeForwards od f = (f', fx) -> opened f' = ∅.
Proof.
  intros Hr. assert (Hok : fwd_ok f).
  { remember newForwards as f0 eqn:E0. assert (H0 : fwd_ok f0) by (subst; apply fwd_ok_new). clear E0.
    induction Hr as [|f0 f1 f2 Hs _ IH]; [done|]. by eapply IH, fwd_step_ok. }
  split; [done|]. intros od f' fx Ho E. by apply closeForwards_ok in E as (_ & _ & ? & _).
Qed.

(** C26: a declarative update converges.  After [ReplaceForwards], unless the
    desired list repeats a rule (then nothing changes), every installed rule is a
    desired one, none is installed twice, and a rule that was installed before
    keeps its identifier and its listener.  Without an error every desired rule
    is installed; with one, the error names a desired rule that is missing, and
    what was done stays, so a second call resumes from there. *)
Theorem replace_converges od desired f f' l e fx :
  fwd_orders_ok od -> fwd_ok f -> fwdSeq f + Z.of_nat (length desired) <= maxInt64 ->
  ReplaceForwards od desired f = (f', (l, e), fx) ->
  (f' = f /\ l = [] /\ fx = [] /\ e <> None /\ ~ NoDup (spec_key <$> desired)) \/
  (reconciled desired f f' /\ l = ListForwards od f' /\
   match e with
   | None => complete desired f'
   | Some e => exists d e0, d ∈ desired /\ (~ exists id, serves f' (spec_key d) id) /\
       e = Errorf "add %s %s %s -> %s: %w"
             [AStr (f_Type d); AStr (f_Network d); AStr (f_Bind d); AStr (f_Host d); AErr e0]
   end).
Proof. apply ReplaceForwards_ok. Qed.
End ops.

(** * A concrete engine *)

(** Every address pair is accepted; the host refuses TCP ports it has given. *)
Definition demo_new (network bindH bindP hostH hostP : string) : result string := Ok (bindH +:+ ":" +:+ bindP).
Definition demo_bind (n : nat) (rf : string) : option goerr := None.
Definition demo_table (n : nat) (rf : string) : result string := Ok rf.
Definition demo_orders : FwdOrders := mkFwdOrders map_to_list map_to_list.

Definition demo_rule (n : string) : ForwardSpec := mkSpec "local" "tcp" ("127.0.0.1:" +:+ n) ("10.0.0.2:" +:+ n).
Definition demo_one : forwardsT :=
  (AddForward demo_new demo_bind demo_bind demo_table (demo_rule "80") newForwards).1.1.

Lemma demo_step : fwd_step demo_new demo_bind demo_bind demo_table newForwards demo_one.
Proof. eapply (StepAdd _ _ _ _ _ _ (demo_rule "80")); [reflexivity | vm_compute; reflexivity]. Qed.

Lemma listeners_follow_rules_witness : fwd_ok demo_one /\ opened demo_one = {[0%nat]}.
Proof.
  split; [|reflexivity].
  apply (listeners_follow_rules demo_new demo_bind demo_bind demo_table demo_one).
  eapply rtc_l; [exact demo_step | apply rtc_refl].
Defined.

Lemma demo_orders_ok : fwd_orders_ok demo_orders.
Proof. split; intros m; reflexivity. Qed.

Lemma replace_converges_witness :
  exists f' l fx,
    ReplaceForwards demo_new demo_bind demo_bind demo_table demo_orders [demo_rule "81"; demo_rule "80"] demo_one = (f', (l, None), fx) /\
    reconciled [demo_rule "81"; demo_rule "80"] demo_one f' /\ complete [demo_rule "81"; demo_rule "80"] f'.
Proof.
  eexists _, _, _. split; [vm_compute; reflexivity|].
  destruct (replace_converges demo_new demo_bind demo_bind demo_table demo_orders [demo_rule "81"; demo_rule "80"] demo_one
    (ReplaceForwards demo_new demo_bind demo_bind demo_table demo_orders [demo_rule "81"; demo_rule "80"] demo_one).1.1
    (ReplaceForwards demo_new demo_bind demo_bind demo_table demo_orders [demo_rule "81"; demo_rule "80"] demo_one).1.2.1 None
    (ReplaceForwards demo_new demo_bind demo_bind demo_table demo_orders [demo_rule "81"; demo_rule "80"] demo_one).2)
    as [(_ & _ & _ & [] & _)|(H & _ & C)].
  - apply demo_orders_ok.
  - exact (fwd_step_ok _ _ _ _ _ _ fwd_ok_new demo_step).
  - vm_compute. discriminate.
  - vm_compute. reflexivity.
  - reflexivity.
  - split; [exact H | exact C].
Defined.
