(* ===== verification/Framing.v ===== *)
(** Frames over a transport: src/internal/ports/framing.go and
    src/internal/ports/pump.go.

    A stream carries each frame behind its four-byte length.  The stream of a
    connection is the bytes its peer has sent before closing it.  The pump
    moves frames between a transport and the switch with two goroutines; every
    send, receive and write is a step, and any interleaving of them is a run. *)
From S2P Require Import Prelude.

Definition maxFrameSize : Z := 65535.

(** * Streams *)

(** [io.ReadFull] of [n] bytes. *)
Definition ReadFull (n : Z) (stream : bytes) : result (bytes * bytes) :=
  if len stream <? n then
    Err (if len stream =? 0 then Errorf "EOF" [] else Errorf "unexpected EOF" [])
  else Ok (take (Z.to_nat n) stream, drop (Z.to_nat n) stream).

(** [streamIO.ReadFrame]: the frame and the rest of the stream. *)
Definition ReadFrame (stream : bytes) : result (bytes * bytes) :=
  match ReadFull 4 stream with
  | Err e => Err e
  | Ok (hdr, stream) =>
      let n := be_get hdr in
      if (n =? 0) || (maxFrameSize <? n) then Err (Errorf "bad frame length %d" [AInt n])
      else ReadFull n stream
  end.

(** [streamIO.WriteFrame]: the bytes of the one write. *)
Definition WriteFrame (frame : bytes) : bytes := be_put 4 (u32 (len frame)) ++ frame.

(** [rxLoop] on a stream: the frames delivered, and the error that ends it.
    Every frame takes bytes off the stream, so its length is enough fuel. *)
Fixpoint rxStream (fuel : nat) (stream : bytes) : option (list bytes * goerr) :=
  match fuel with
  | O => None
  | S fuel' =>
      match ReadFrame stream with
      | Err e => Some ([], e)
      | Ok (frame, rest) => (fun x => (frame :: x.1, x.2)) <$> rxStream fuel' rest
      end
  end.

Definition rxLoop (stream : bytes) : option (list bytes * goerr) := rxStream (S (length stream)) stream.

(** [dgramIO] and [tapIO] carry one frame per read and write of the connection or
    device.  [read] is given the size of the scratch buffer. *)
Definition dgramIO_ReadFrame (read : Z -> result bytes) : result bytes := read (maxFrameSize + 1).
Definition dgramIO_WriteFrame (write : bytes -> result Z) (frame : bytes) : option goerr :=
  match write frame with Ok _ => None | Err e => Some e end.

Definition tapIO_ReadFrame (read : Z -> result bytes) : result bytes := read (maxFrameSize + 1).
Definition tapIO_WriteFrame (write : bytes -> result Z) (frame : bytes) : option goerr :=
  match write frame with Ok _ => None | Err e => Some e end.

(** What a read of a datagram yields: the part that fits the buffer. *)
Definition ReadDatagram (datagram : bytes) : bytes := take (Z.to_nat (maxFrameSize + 1)) datagram.

(** * The pump *)

Definition txQueueLen : nat := 512.

(** [done] is closed; the writer and the reader goroutine are running. *)
Record pump := mkPump {
  txq : list bytes;
  p_done : bool;
  p_writer : bool;
  p_reader : bool
}.

(** What the pump does, in program order. *)
Inductive pev : Type :=
  | PSend (frame : bytes) (queued : bool)
  | PWrite (frame : bytes) (ok : bool)
  | PDeliver (frame : bytes)
  | PCloseIO
  | POnExit.

#[export] Instance pev_eq_dec : EqDecision pev.
Proof. solve_decision. Defined.

Definition newPump : pump := mkPump [] false false false.
Definition start (p : pump) : pump := mkPump (txq p) (p_done p) true true.

Definition send (frame : bytes) (p : pump) : pump * bool :=
  if p_done p then (p, false)
  else if (length (txq p) <? txQueueLen)%nat then
    (mkPump (txq p ++ [frame]) (p_done p) (p_writer p) (p_reader p), true)
  else (p, false).

Definition stop (p : pump) : pump * list pev :=
  if p_done p then (p, [])
  else (mkPump (txq p) true (p_writer p) (p_reader p), [PCloseIO; POnExit]).

Definition stopped (p : pump) : bool := p_done p.

(** The writer takes a frame off the queue, and the transport accepts it or not. *)
Definition txFrame (ok : bool) (p : pump) : option (pump * list pev) :=
  match txq p with
  | frame :: q =>
      if p_writer p then
        if ok then Some (mkPump q (p_done p) true (p_reader p), [PWrite frame true])
        else
          let '(p, ev) := stop (mkPump q (p_done p) false (p_reader p)) in
          Some (p, PWrite frame false :: ev)
      else None
  | [] => None
  end.

(** The writer sees [done] closed. *)
Definition txDone (p : pump) : option pump :=
  if p_writer p && p_done p then Some (mkPump (txq p) true false (p_reader p)) else None.

(** The reader got a frame, or an error. *)
Definition rxFrame (r : result bytes) (p : pump) : option (pump * list pev) :=
  if p_reader p then
    match r with
    | Ok frame => Some (p, [PDeliver frame])
    | Err _ => Some (stop (mkPump (txq p) (p_done p) (p_writer p) false))
    end
  else None.

(** One step of the switch, the owner or a goroutine. *)
Inductive pump_step (p : pump) : list pev -> pump -> Prop :=
  | PStepSend frame p' ok : send frame p = (p', ok) -> pump_step p [PSend frame ok] p'
  | PStepTx ok p' ev : txFrame ok p = Some (p', ev) -> pump_step p ev p'
  | PStepTxDone p' : txDone p = Some p' -> pump_step p [] p'
  | PStepRx r p' ev : rxFrame r p = Some (p', ev) -> pump_step p ev p'
  | PStepStop p' ev : stop p = (p', ev) -> pump_step p ev p'.

Inductive pump_run : list pev -> pump -> Prop :=
  | PRunStart : pump_run [] (start newPump)
  | PRunStep tr p ev p' : pump_run tr p -> pump_step p ev p' -> pump_run (tr ++ ev) p'.

(** What a run sent: the frames the queue took, those the writer passed to the
    transport, and those the transport accepted. *)
Definition queued (tr : list pev) : list bytes :=
  omap (fun e => match e with PSend f true => Some f | _ => None end) tr.
Definition attempted (tr : list pev) : list bytes :=
  omap (fun e => match e with PWrite f _ => Some f | _ => None end) tr.
Definition written (tr : list pev) : list bytes :=
  omap (fun e => match e with PWrite f true => Some f | _ => None end) tr.
Definition exits (tr : list pev) : nat :=
  length (filter (fun e => e = POnExit) tr).

(** * Lemmas on streams *)

Definition frame_size_ok (frame : bytes) : Prop := 1 <= len frame <= maxFrameSize.

Lemma ReadFull_app n a b : len a = n -> ReadFull n (a ++ b) = Ok (a, b).
Proof.
  intros <-. unfold ReadFull. rewrite (proj2 (Z.ltb_ge _ _)) by lens. unfold len. rewrite Nat2Z.id.
  by rewrite take_app_length, drop_app_length.
Qed.

Lemma ReadFull_Ok n s a b : 0 <= n -> ReadFull n s = Ok (a, b) -> s = a ++ b /\ len a = n.
Proof.
  intros Hn. unfold ReadFull. destruct (Z.ltb_spec (len s) n); [done|]. intros [= <- <-].
  split; [by rewrite take_drop|]. unfold len in *. rewrite length_take. lia.
Qed.

Lemma ReadFrame_WriteFrame frame rest :
  frame_size_ok frame -> ReadFrame (WriteFrame frame ++ rest) = Ok (frame, rest).
Proof.
  intros [H1 H2]. unfold ReadFrame, WriteFrame. rewrite <- app_assoc, ReadFull_app by done.
  unfold maxFrameSize in *. rewrite be_get_put. unfold u32. rewrite Zmod_mod, Z.mod_small by (cbn; lia).
  rewrite (proj2 (Z.eqb_neq _ _)), (proj2 (Z.ltb_ge _ _)) by lia. by apply ReadFull_app.
Qed.

(** A frame that is not complete is not delivered. *)
Lemma ReadFrame_partial frame stream rest :
  frame_size_ok frame -> WriteFrame frame = stream ++ rest -> rest <> [] ->
  exists e, ReadFrame stream = Err e.
Proof.
  intros [H1 H2] E Hne. unfold ReadFrame. destruct (ReadFull 4 stream) as [[hdr s]|] eqn:E4; [|by eexists].
  apply ReadFull_Ok in E4 as [-> Hl]; [|lia]. unfold WriteFrame in E. rewrite <- app_assoc in E.
  apply app_inj_1 in E as [<- ->]; [|unfold len in Hl; rewrite length_be_put; lia].
  unfold maxFrameSize in *. rewrite be_get_put. unfold u32. rewrite Zmod_mod, Z.mod_small by (cbn; lia).
  rewrite (proj2 (Z.eqb_neq _ _)), (proj2 (Z.ltb_ge _ _)) by lia. unfold ReadFull.
  rewrite (proj2 (Z.ltb_lt _ _)); [by eexists|]. destruct rest; [done|]. lens.
Qed.

Lemma length_WriteFrame frame : length (WriteFrame frame) = (4 + length frame)%nat.
Proof. unfold WriteFrame. rewrite length_app. done. Qed.

(** Reading any initial part of what was written. *)
Lemma rxStream_prefix frames : forall fuel stream,
  Forall frame_size_ok frames -> stream `prefix_of` concat (WriteFrame <$> frames) -> (length stream < fuel)%nat ->
  exists fs e rest, rxStream fuel stream = Some (fs, e) /\ fs `prefix_of` frames /\
    stream = concat (WriteFrame <$> fs) ++ rest /\
    (forall f, fs ++ [f] `prefix_of` frames -> (length rest < length (WriteFrame f))%nat).
Proof.
  induction frames as [|f frames IH]; intros [|fuel] stream Hok [suf E] Hf; try lia; cbn [fmap list_fmap concat] in E.
  - destruct stream; [|done]. exists [], (Errorf "EOF" []), []. split_and!; try done. intros f Hp%prefix_nil_inv. done.
  - apply Forall_cons in Hok as [Hf1 Hok]. cbn [rxStream].
    destruct (decide (length (WriteFrame f) <= length stream)%nat) as [Hle|Hgt].
    + assert (Hs : exists s, stream = WriteFrame f ++ s /\ concat (WriteFrame <$> frames) = s ++ suf).
      { exists (drop (length (WriteFrame f)) stream). apply (f_equal (take (length (WriteFrame f)))) in E as Et.
        apply (f_equal (drop (length (WriteFrame f)))) in E as Ed.
        rewrite take_app_length, take_app_le in Et by done. rewrite drop_app_length, drop_app_le in Ed by done.
        split; [by rewrite Et at 1; rewrite take_drop | done]. }
      destruct Hs as (s & -> & Es). rewrite ReadFrame_WriteFrame by done. rewrite length_app, length_WriteFrame in Hf.
      destruct (IH fuel s Hok) as (fs & e & rest & -> & Hp & -> & Hr); [by exists suf | lia |].
      exists (f :: fs), e, rest. split_and!; [done | by apply prefix_cons | cbn; by rewrite app_assoc |].
      intros f' Hp'. apply Hr. by apply prefix_cons_inv_2 in Hp'.
    + destruct (ReadFrame_partial f stream (drop (length stream) (WriteFrame f))) as [e He]; [done | | |].
      * apply (f_equal (take (length stream))) in E. rewrite take_app_length, take_app_le in E by (apply Nat.lt_le_incl, Nat.nle_gt, Hgt).
        rewrite <- E at 1. by rewrite take_drop.
      * intros Hd. apply (f_equal length) in Hd. rewrite length_drop, length_nil in Hd. lia.
      * rewrite He. exists [], e, stream. split_and!; [done | apply prefix_nil | done |].
        intros f' Hp. apply prefix_cons_inv_1 in Hp as ->. lia.
Qed.

Lemma rxLoop_WriteFrames frames :
  Forall frame_size_ok frames -> rxLoop (concat (WriteFrame <$> frames)) = Some (frames, Errorf "EOF" []).
Proof.
  intros Hok. unfold rxLoop. generalize (Nat.lt_succ_diag_r (length (concat (WriteFrame <$> frames)))).
  generalize (S (length (concat (WriteFrame <$> frames)))).
  induction frames as [|f frames IH]; intros [|n] Hn; try lia; [done|].
  apply Forall_cons in Hok as [Hf Hok]. cbn [fmap list_fmap concat rxStream] in *.
  rewrite ReadFrame_WriteFrame by done. rewrite length_app, length_WriteFrame in Hn.
  change (list_fmap _ _ WriteFrame frames) with (WriteFrame <$> frames) in Hn. by rewrite IH by (done || lia).
Qed.

(** C27: stream framing round-trips.  Frames written to a stream, each of 1 to
    65535 bytes, are read back as the same frames, and then the end of the
    stream.  If the stream breaks off anywhere, the frames read are exactly those
    it carries completely; the reader always stops. *)
Theorem stream_roundtrip frames :
  Forall frame_size_ok frames ->
  rxLoop (concat (WriteFrame <$> frames)) = Some (frames, Errorf "EOF" []) /\
  forall stream, stream `prefix_of` concat (WriteFrame <$> frames) ->
    exists fs e rest, rxLoop stream = Some (fs, e) /\ fs `prefix_of` frames /\
      stream = concat (WriteFrame <$> fs) ++ rest /\
      (forall f, fs ++ [f] `prefix_of` frames -> (length rest < length (WriteFrame f))%nat).
Proof.
  intros Hok. split.
  - by apply rxLoop_WriteFrames.
  - intros stream Hp. apply rxStream_prefix; [done | done | lia].
Qed.

Lemma stream_roundtrip_witness :
  Forall frame_size_ok [[1; 2; 3]; [4]] /\
  rxLoop [0; 0; 0; 3; 1; 2; 3; 0; 0; 0; 1; 4] = Some ([[1; 2; 3]; [4]], Errorf "EOF" []).
Proof.
  assert (H : Forall frame_size_ok [[1; 2; 3]; [4]]) by (repeat constructor; vm_compute; discriminate).
  split; [exact H|]. exact (proj1 (stream_roundtrip [[1; 2; 3]; [4]] H)).
Defined.

(** * Lemmas on the pump *)

Lemma stop_events p p' ev :
  stop p = (p', ev) ->
  txq p' = txq p /\ p_writer p' = p_writer p /\ p_done p' = true /\
  queued ev = [] /\ attempted ev = [] /\ written ev = [] /\ exits ev = (if p_done p then 0 else 1)%nat.
Proof. unfold stop. destruct (p_done p) eqn:E; intros [= <- <-]; by rewrite ?E. Qed.

(** The pump, and what has been queued, attempted, written and reported. *)
Record pump_ok (q a w : list bytes) (x : nat) (p : pump) : Prop := {
  po_order : q = a ++ txq p;
  po_written : exists lost, a = w ++ lost /\ (length lost <= 1)%nat /\ (p_writer p = true -> lost = []);
  po_bound : (length (txq p) <= txQueueLen)%nat;
  po_exit : x = if p_done p then 1%nat else 0%nat
}.

Lemma exits_app a b : exits (a ++ b) = (exits a + exits b)%nat.
Proof. unfold exits. by rewrite filter_app, length_app. Qed.

(** Stopping, whatever the goroutines are doing. *)
Lemma stop_ok q a w x p p' ev :
  pump_ok q a w x p -> stop p = (p', ev) ->
  pump_ok (q ++ queued ev) (a ++ attempted ev) (w ++ written ev) (x + exits ev) p'.
Proof.
  intros [Ho (lost & Hw & Hl & Ha) Hb He] E. destruct (stop_events _ _ _ E) as (E1 & E2 & E3 & E4 & E5 & E6 & E7).
  split; rewrite ?E4, ?E5, ?E6, ?E1, ?E3, ?app_nil_r; [done | | done |].
  - exists lost. by rewrite E2.
  - rewrite E7, He. by destruct (p_done p).
Qed.

Lemma pump_ok_step q a w x p ev p' :
  pump_ok q a w x p -> pump_step p ev p' ->
  pump_ok (q ++ queued ev) (a ++ attempted ev) (w ++ written ev) (x + exits ev) p'.
Proof.
  intros Hok Hs. assert (Hok' := Hok). destruct Hok' as [Ho (lost & Hw & Hl & Ha) Hb He].
  inversion Hs as [frame p1 ok E|ok p1 ev' E|p1 E|r p1 ev' E|p1 ev' E]; subst ev p'; try subst ev'; try subst p1.
  - unfold send in E. destruct (p_done p) eqn:Ed; [|destruct (Nat.ltb_spec (length (txq p)) txQueueLen)];
      injection E as <- <-; cbn; rewrite ?app_nil_r, Nat.add_0_r; try done.
    split; cbn; [by rewrite Ho, app_assoc | by exists lost | rewrite length_app; cbn; lia | by rewrite ?Ed in *].
  - unfold txFrame in E. destruct (txq p) as [|frame q'] eqn:Eq; [done|]. destruct (p_writer p) eqn:Ew; [|done].
    rewrite (Ha eq_refl), app_nil_r in Hw. cbn in Hb. destruct ok.
    + injection E as <- <-. split; cbn; rewrite ?app_nil_r, ?Nat.add_0_r; [by rewrite Ho, <- app_assoc | | lia | done].
      exists []. rewrite app_nil_r, Hw. split_and!; [done | cbn; lia | done].
    + destruct (stop _) as [q1 ev1] eqn:Es. injection E as <- <-.
      assert (H1 : pump_ok q (a ++ [frame]) w x (mkPump q' (p_done p) false (p_reader p))).
      { split; cbn; [by rewrite Ho, <- app_assoc | exists [frame]; rewrite Hw; split_and!; [done | cbn; lia | done] | lia | done]. }
      apply (stop_ok _ _ _ _ _ _ _ H1) in Es. by rewrite <- app_assoc in Es.
  - unfold txDone in E. destruct (p_writer p && p_done p) eqn:Eb; [|done]. injection E as <-.
    apply andb_true_iff in Eb as [_ Ed]. cbn. rewrite !app_nil_r, Nat.add_0_r.
    split; cbn; [done | by exists lost | done | by rewrite He, Ed].
  - unfold rxFrame in E. destruct (p_reader p); [|done]. destruct r as [frame|e]; injection E as E.
    + subst. cbn. by rewrite !app_nil_r, Nat.add_0_r.
    + refine (stop_ok _ _ _ _ _ _ _ _ E). split; [done | by exists lost | done | done].
  - by apply (stop_ok _ _ _ _ _ _ _ Hok).
Qed.

Lemma pump_run_ok tr p :
  pump_run tr p -> pump_ok (queued tr) (attempted tr) (written tr) (exits tr) p.
Proof.
  induction 1 as [|tr p ev p' _ IH Hs]; [split; try done; [exists []; split_and!; [done | cbn; lia | done] | cbn; lia]|].
  apply (pump_ok_step _ _ _ _ _ _ _ IH) in Hs. rewrite exits_app. unfold queued, attempted, written in *.
  by rewrite !omap_app.
Qed.


(** A port takes two frames, writes one, and its peer goes away. *)
Definition pump_demo : list pev :=
  [PSend [1; 2] true; PSend [3] true; PWrite [1; 2] true; PWrite [3] false; PCloseIO; POnExit].

