(* ===== verification/Ports.v ===== *)
(** The transports of switchports: src/internal/ports/ports.go, net.go,
    client.go, tap.go, vsock.go, afxdp.go and vhostuser.go.

    Sockets, network devices and BPF objects belong to the kernel and to
    libraries: whether a call on them succeeds is an input, and what is asked of
    them is a list of effects.  Every step of a port between two operations on
    its mutex is a function of its state, so any interleaving of its goroutines
    is a sequence of these functions.  The data path of an AF_XDP port is in
    [Xdp]. *)
From S2P Require Import Prelude Lease GoText Framing.
From Stdlib Require Import Ascii.

#[local] Open Scope Z_scope.

(** * Common (ports.go) *)

Definition ModeReplace : string := "replace".
Definition ModeOccupy : string := "occupy".
Definition ModeMultiplex : string := "multiplex".

(** ["mode must be \"client\" or \"server\", got %q"] *)
Definition quoted (s : string) : string := String (Ascii.ascii_of_nat 34) (s +:+ String (Ascii.ascii_of_nat 34) EmptyString).
Definition badMode (mode : string) : goerr :=
  Errorf ("mode must be " +:+ quoted "client" +:+ " or " +:+ quoted "server" +:+ ", got %q") [AStr mode].

Record StatusT := mkStatusT {
  st_Online : bool;
  st_Peer : string;
  st_Connections : list string
}.

Definition isStreamTransport (t : string) : bool :=
  bool_decide (t = "tcp") || bool_decide (t = "unix") || bool_decide (t = "vsock").
Definition isDgramTransport (t : string) : bool :=
  bool_decide (t = "udp") || bool_decide (t = "unixgram") || bool_decide (t = "vsock-dgram").

Definition validateTransport (t : string) : option goerr :=
  if negb (isStreamTransport t) && negb (isDgramTransport t) then
    Some (Errorf "unknown transport %q" [AStr t])
  else None.

(** * Addresses *)

(** The dynamic type of a [net.Addr], as far as the code asks for it:
    [*vsock.Addr] of the library, or the package's own [*vsockAddr]. *)
Inductive addrType : Type :=
  | AddrOther
  | AddrVsock (cid port : Z)
  | AddrVsockDgram (cid port : Z).

(** A [net.Addr]: its network and its text. *)
Record netAddr := mkAddr {
  na_Network : string;
  na_String : string;
  na_type : addrType
}.

(** The constants of AF_VSOCK. *)
Definition VMADDR_CID_ANY : Z := 0xffffffff.
Definition VMADDR_PORT_ANY : Z := 0xffffffff.

Definition parseVsockAddr (s : string) (cidOptional : bool) : result (Z * Z) :=
  let '(cidStr, portStr) := match Cut s ":"%char with Some p => p | None => (EmptyString, s) end in
  let cid :=
    if is_empty cidStr then
      if negb cidOptional then Err (Errorf "vsock address %q needs cid:port" [AStr s]) else Ok VMADDR_CID_ANY
    else match ParseUint cidStr 32 with
    | Err e => Err (Errorf "bad vsock cid %q: %w" [AStr cidStr; AErr e])
    | Ok c => Ok (u32 c)
    end in
  match cid with
  | Err e => Err e
  | Ok cid =>
      match ParseUint portStr 32 with
      | Err e => Err (Errorf "bad vsock port %q: %w" [AStr portStr; AErr e])
      | Ok p => Ok (cid, u32 p)
      end
  end.

(** [(&vsockAddr{cid, port}).String()] *)
Definition vsockAddr_String (a : Z * Z) : string := Itoa a.1 +:+ ":" +:+ Itoa a.2.

Definition vsockAddr (a : Z * Z) : netAddr := mkAddr "vsock-dgram" (vsockAddr_String a) (AddrVsockDgram a.1 a.2).

(** * Kernel objects

    What a constructor asks for and gives back. *)
Inductive resource : Type :=
  | RSocket
  | RLink (name : string)
  | RFd (n : nat)
  | RPromisc (iface : string)
  | RMap
  | RProgram
  | RXdpLink
  | RXsk.
#[export] Instance resource_eq_dec : EqDecision resource.
Proof. solve_decision. Defined.

Inductive rfx : Type :=
  | Acquire (r : resource)
  | Release (r : resource)
  | RemoveFile (path : string).

Fixpoint removeOne (r : resource) (l : list resource) : list resource :=
  match l with
  | [] => []
  | x :: l' => if bool_decide (x = r) then l' else x :: removeOne r l'
  end.

(** What is held after a sequence of requests. *)
Definition held_step (acc : list resource) (x : rfx) : list resource :=
  match x with
  | Acquire r => r :: acc
  | Release r => removeOne r acc
  | RemoveFile _ => acc
  end.
Definition held (fx : list rfx) : list resource := foldl held_step [] fx.

(** * Sockets (net.go, vsock.go) *)

(** The answers of the kernel and the resolver.  [Listen] may answer
    differently the second time. *)
Record Net := mkNet {
  ResolveTCPAddr : string -> result string;
  ResolveUDPAddr : string -> result string;
  DialTCP : option string -> string -> result netAddr;
  DialUDP : option string -> string -> result netAddr;
  DialUnix : string -> option string -> string -> result netAddr;
  Listen : bool -> string -> string -> option goerr;
  isAddrInUse : goerr -> bool;
  answers : string -> bool;
  isSocketFile : string -> bool;
  vsock_Dial : Z -> Z -> result netAddr;
  vsock_ListenContextID : Z -> Z -> option goerr;
  vsock_Listen : Z -> option goerr;
  unix_Socket : option goerr;
  unix_Bind : Z -> Z -> option goerr;
  unix_Connect : Z -> Z -> option goerr
}.

(** A vsock datagram socket: its own address, and that of the peer it is
    connected to. *)
Record vsockDgram := mkVsockDgram {
  vd_local : Z * Z;
  vd_peer : option (Z * Z)
}.

Definition vd_LocalAddr (d : vsockDgram) : netAddr := vsockAddr (vd_local d).
Definition vd_RemoteAddr (d : vsockDgram) : option netAddr := vsockAddr <$> vd_peer d.

(** Its reads and writes, over the system calls.  [Recvfrom] is given the size
    of the buffer; the address of the sender may be of another family. *)
Inductive sockaddr : Type :=
  | SockaddrVM (cid port : Z)
  | SockaddrOther.

Section vsock.
Context (unix_Recvfrom : Z -> result (bytes * sockaddr)).
Context (unix_Send : bytes -> option goerr) (unix_Sendto : bytes -> Z -> Z -> option goerr).

Definition wrote (b : bytes) (e : option goerr) : result Z := match e with Some e => Err e | None => Ok (len b) end.

Definition vd_Read (size : Z) : result bytes := r <-? unix_Recvfrom size; Ok r.1.

Definition vd_Write (b : bytes) : result Z := wrote b (unix_Send b).

Definition vd_ReadFrom (size : Z) (d : vsockDgram) : result (bytes * netAddr) :=
  r <-? unix_Recvfrom size;
  Ok (r.1, match r.2 with SockaddrVM cid port => vsockAddr (cid, port) | SockaddrOther => vd_LocalAddr d end).

Definition vd_WriteTo (b : bytes) (addr : netAddr) : result Z :=
  match na_type addr with
  | AddrVsockDgram cid port => wrote b (unix_Sendto b cid port)
  | _ => Err (Errorf "not a vsock address: %v" [AStr (na_String addr)])
  end.
End vsock.

Section net.
Context (net : Net).

Definition unixSocketIsStale (path : string) : bool := negb (answers net path).

Definition removeStaleSocket (path : string) : list rfx :=
  if isSocketFile net path then [RemoveFile path] else [].

Definition opt_addr (local : string) : option string := if is_empty local then None else Some local.

Definition dialVsockStream (local remote : string) : result netAddr :=
  if negb (is_empty local) then Err (Errorf "vsock does not support a local bind address" [])
  else match parseVsockAddr remote false with
  | Err e => Err e
  | Ok (cid, port) => vsock_Dial net cid port
  end.

Definition dialStream (transport local remote : string) : result netAddr * list rfx :=
  let r :=
    if bool_decide (transport = "tcp") then
      if is_empty local then DialTCP net None remote
      else match ResolveTCPAddr net local with
      | Err e => Err (Errorf "bad local address: %w" [AErr e])
      | Ok laddr => DialTCP net (Some laddr) remote
      end
    else if bool_decide (transport = "unix") then DialUnix net "unix" (opt_addr local) remote
    else if bool_decide (transport = "vsock") then dialVsockStream local remote
    else Err (Errorf "transport %q is not a stream transport" [AStr transport]) in
  (r, if is_ok r then [Acquire RSocket] else []).

Definition newVsockDgramSocket (local : string) : result vsockDgram * list rfx :=
  match unix_Socket net with
  | Some e => (Err (Errorf "vsock SOCK_DGRAM unsupported on this kernel/transport: %w" [AErr e]), [])
  | None =>
      if is_empty local then (Ok (mkVsockDgram (VMADDR_CID_ANY, VMADDR_PORT_ANY) None), [Acquire RSocket])
      else match parseVsockAddr local true with
      | Err e => (Err e, [Acquire RSocket; Release RSocket])
      | Ok (cid, port) =>
          match unix_Bind net cid port with
          | Some e => (Err (Errorf "vsock bind %s: %w" [AStr local; AErr e]), [Acquire RSocket; Release RSocket])
          | None => (Ok (mkVsockDgram (cid, port) None), [Acquire RSocket])
          end
      end
  end.

Definition dialVsockDgram (local remote : string) : result vsockDgram * list rfx :=
  match parseVsockAddr remote false with
  | Err e => (Err e, [])
  | Ok (cid, port) =>
      match newVsockDgramSocket local with
      | (Err e, fx) => (Err e, fx)
      | (Ok d, fx) =>
          match unix_Connect net cid port with
          | Some e => (Err (Errorf "vsock connect %s: %w" [AStr remote; AErr e]), fx ++ [Release RSocket])
          | None => (Ok (mkVsockDgram (vd_local d) (Some (cid, port))), fx)
          end
      end
  end.

Definition dialUDP (local remote : string) : result netAddr :=
  match ResolveUDPAddr net remote with
  | Err e => Err (Errorf "bad remote address: %w" [AErr e])
  | Ok raddr =>
      if is_empty local then DialUDP net None raddr
      else match ResolveUDPAddr net local with
      | Err e => Err (Errorf "bad local address: %w" [AErr e])
      | Ok laddr => DialUDP net (Some laddr) raddr
      end
  end.

Definition dialDgram (transport local remote : string) : result netAddr * list rfx :=
  let sock (pre : list rfx) (r : result netAddr) := (r, pre ++ if is_ok r then [Acquire RSocket] else []) in
  if bool_decide (transport = "udp") then sock [] (dialUDP local remote)
  else if bool_decide (transport = "unixgram") then
    if is_empty local then
      (Err (Errorf "unixgram client requires a local bind path to receive frames" []), [])
    else sock (removeStaleSocket local) (DialUnix net "unixgram" (Some local) remote)
  else if bool_decide (transport = "vsock-dgram") then
    let '(r, fx) := dialVsockDgram local remote in
    (d <-? r; match vd_RemoteAddr d with Some a => Ok a | None => Err (Errorf "nil address" []) end, fx)
  else (Err (Errorf "transport %q is not a datagram transport" [AStr transport]), []).

Definition listenVsockStream (addr : string) : option goerr :=
  match parseVsockAddr addr true with
  | Err e => Some e
  | Ok (cid, port) =>
      if negb (cid =? VMADDR_CID_ANY) then vsock_ListenContextID net cid port else vsock_Listen net port
  end.

(** Listen, and once more after removing a leftover file. *)
Definition listenUnix (network addr : string) (stale : bool) : option goerr * list rfx :=
  match Listen net false network addr with
  | None => (None, [])
  | Some e =>
      if isAddrInUse net e && stale then (Listen net true network addr, [RemoveFile addr]) else (Some e, [])
  end.

Definition listened (x : option goerr * list rfx) : option goerr * list rfx :=
  (x.1, x.2 ++ match x.1 with None => [Acquire RSocket] | Some _ => [] end).

Definition listenStream (transport addr : string) : option goerr * list rfx :=
  listened (
    if bool_decide (transport = "tcp") then (Listen net false "tcp" addr, [])
    else if bool_decide (transport = "unix") then listenUnix "unix" addr (unixSocketIsStale addr)
    else if bool_decide (transport = "vsock") then (listenVsockStream addr, [])
    else (Some (Errorf "transport %q is not a stream transport" [AStr transport]), [])).

Definition listenVsockDgram (addr : string) : option goerr * list rfx :=
  if is_empty addr then (Some (Errorf "vsock-dgram listen address required" []), [])
  else match newVsockDgramSocket addr with
  | (Err e, fx) => (Some e, fx)
  | (Ok _, fx) => (None, fx)
  end.

Definition listenPacket (transport addr : string) : option goerr * list rfx :=
  if bool_decide (transport = "udp") then listened (Listen net false "udp" addr, [])
  else if bool_decide (transport = "unixgram") then listened (listenUnix "unixgram" addr true)
  else if bool_decide (transport = "vsock-dgram") then listenVsockDgram addr
  else (Some (Errorf "transport %q is not a datagram transport" [AStr transport]), []).
End net.

(** * Client ports and taps (client.go, tap.go)

    Both own one pump.  [pp_attached] says whether the port still points to it:
    the callback of a stopped pump detaches it. *)

Record pumpPort := mkPumpPort {
  pp_id : string;
  pp_pump : pump;
  pp_attached : bool;
  pp_peer : string;
  pp_link : option string
}.

Definition newPumpPort (id peer : string) (link : option string) : pumpPort :=
  mkPumpPort id (start newPump) true peer link.

Definition pp_set (p : pump) (a : bool) (x : pumpPort) : pumpPort := mkPumpPort (pp_id x) p a (pp_peer x) (pp_link x).

Definition NewClient (net : Net) (id transport local remote : string) : result pumpPort * list rfx :=
  match validateTransport transport with
  | Some e => (Err e, [])
  | None =>
      let '(r, fx) := if isStreamTransport transport then dialStream net transport local remote
                      else dialDgram net transport local remote in
      match r with
      | Err e => (Err (Errorf "dial %s %s: %w" [AStr transport; AStr remote; AErr e]), fx)
      | Ok a => (Ok (newPumpPort id (na_String a) None), fx)
      end
  end.

Definition pp_Send (frame : bytes) (x : pumpPort) : pumpPort * bool :=
  if pp_attached x then let '(p, ok) := send frame (pp_pump x) in (pp_set p true x, ok) else (x, false).

(** [pump.stop] and the transport it closes; the boolean is whether the exit
    callback was started. *)
Definition pp_stop (x : pumpPort) : pumpPort * list rfx * bool :=
  let '(p, ev) := stop (pp_pump x) in
  (pp_set p (pp_attached x) x,
   if p_done (pp_pump x) then [] else [Release (match pp_link x with Some _ => RFd 0 | None => RSocket end)],
   negb (p_done (pp_pump x))).

Definition client_Close (x : pumpPort) : pumpPort * list rfx * bool :=
  if pp_attached x then pp_stop x else (x, [], false).

(** A tap also deletes its link. *)
Definition tap_Close (link : string) (x : pumpPort) : pumpPort * list rfx * bool :=
  let '(x', fx, exit) := if pp_attached x then pp_stop x else (x, [], false) in
  (x', fx ++ [Release (RLink link)], exit).

Definition pp_Close (x : pumpPort) : pumpPort * list rfx * bool :=
  match pp_link x with Some n => tap_Close n x | None => client_Close x end.

(** In one form for both kinds of port. *)
Lemma pp_Close_eq x :
  pp_Close x =
    let '(x', fx, exit) := if pp_attached x then pp_stop x else (x, [], false) in
    (x', fx ++ match pp_link x with Some n => [Release (RLink n)] | None => [] end, exit).
Proof.
  unfold pp_Close, tap_Close, client_Close. destruct (pp_link x); [done|].
  destruct (if pp_attached x then _ else _) as [[x' fx] exit]. by rewrite app_nil_r.
Qed.

(** The exit callback; its caller then notifies the switch. *)
Definition pp_exit (x : pumpPort) : pumpPort := pp_set (pp_pump x) false x.

Definition client_Status (x : pumpPort) : StatusT := mkStatusT (pp_attached x) (pp_peer x) [].
Definition tap_Status (link : string) (x : pumpPort) : StatusT := mkStatusT (pp_attached x) link [].

Definition pp_Status (x : pumpPort) : StatusT :=
  match pp_link x with Some n => tap_Status n x | None => client_Status x end.

(** netlink's answers: the number of queue descriptors of the new device, and
    for a name whether the link is a bridge. *)
Record Netlink := mkNetlink {
  LinkAdd : option goerr;
  tapFds : nat;
  LinkByName : string -> result bool;
  LinkSetMaster : option goerr;
  LinkSetUp : option goerr
}.

Section tap.
Context (nl : Netlink).

Definition tapAcquired (name : string) : list rfx := Acquire (RLink name) :: (Acquire ∘ RFd <$> seq 0 (tapFds nl)).

(** [cleanup]. *)
Definition tapCleanup (name : string) : list rfx := (Release ∘ RFd <$> seq 0 (tapFds nl)) ++ [Release (RLink name)].

(** Joining the bridge. *)
Definition joinBridge (name bridge : string) : option goerr :=
  match LinkByName nl bridge with
  | Err e => Some (Errorf "bridge %s: %w" [AStr bridge; AErr e])
  | Ok isBridge =>
      if negb isBridge then Some (Errorf "%s is not a bridge" [AStr bridge])
      else (fun e => Errorf "join %s to bridge %s: %w" [AStr name; AStr bridge; AErr e]) <$> LinkSetMaster nl
  end.

Definition NewTap (id tapName bridge : string) (addToBr : bool) : result pumpPort * list rfx :=
  if is_empty tapName then (Err (Errorf "tap transport requires tap_name" []), [])
  else if addToBr && is_empty bridge then (Err (Errorf "tapbr transport requires bridge" []), [])
  else match LinkAdd nl with
  | Some e => (Err (Errorf "create tap %s: %w" [AStr tapName; AErr e]), [])
  | None =>
      if (tapFds nl =? 0)%nat then
        (Err (Errorf "create tap %s: no queue fd" [AStr tapName]), tapAcquired tapName ++ [Release (RLink tapName)])
      else match (if addToBr then joinBridge tapName bridge else None) with
      | Some e => (Err e, tapAcquired tapName ++ tapCleanup tapName)
      | None =>
          match LinkSetUp nl with
          | Some e => (Err (Errorf "set %s up: %w" [AStr tapName; AErr e]), tapAcquired tapName ++ tapCleanup tapName)
          | None => (Ok (newPumpPort id EmptyString (Some tapName)), tapAcquired tapName)
          end
      end
  end.
End tap.

(** * AF_XDP ports (afxdp.go) *)

Definition afxdpMaxQueues : Z := 64.

(** The answers of netlink, the BPF loader and gVisor's [xdp] package;
    [LinkByName] gives the index of the interface, and [AttachXDP] is asked for
    native and then for generic mode. *)
Record XdpEnv := mkXdp {
  x_LinkByName : result Z;
  x_LinkSetUp : option goerr;
  x_promiscuous : bool;
  x_SetPromiscOn : option goerr;
  x_NewMap : option goerr;
  x_NewProgram : option goerr;
  x_AttachXDP : bool -> option goerr;
  x_NewSocket : option goerr;
  x_MapUpdate : option goerr;
  x_LinkSubscribe : option goerr
}.

(** The port, with what [teardown] finds set; [xp_pollFallback] is the argument
    the receive loop is started with. *)
Record afxdpPort := mkXdpPort {
  xp_id : string;
  xp_iface : string;
  xp_ifindex : Z;
  xp_setPromisc : bool;
  xp_objects : bool;
  xp_xdpLink : bool;
  xp_sock : bool;
  xp_closed : bool;
  xp_pollFallback : bool
}.

Definition teardown (p : afxdpPort) : list rfx :=
  (if xp_sock p then [Release RXsk] else []) ++
  (if xp_xdpLink p then [Release RXdpLink] else []) ++
  (if xp_objects p then [Release RProgram; Release RMap] else []) ++
  (if xp_setPromisc p then [Release (RPromisc (xp_iface p))] else []).

Section afxdp.
Context (x : XdpEnv).

Definition buildRedirectObjects : option goerr * list rfx :=
  match x_NewMap x with
  | Some e => (Some (Errorf "create XSK map: %w" [AErr e]), [])
  | None =>
      match x_NewProgram x with
      | Some e => (Some (Errorf "load XDP program: %w" [AErr e]), [Acquire RMap; Release RMap])
      | None => (None, [Acquire RMap; Acquire RProgram])
      end
  end.

(** [watchLink]: whether link updates will be received; the goroutine that reads
    them is [watchUpdate]. *)
Definition watchLink : bool := match x_LinkSubscribe x with None => true | Some _ => false end.

(** From the BPF objects to the registered socket. *)
Definition afxdpAttach (p : afxdpPort) (queueID : Z) : result afxdpPort * list rfx :=
  let iface := xp_iface p in
  let '(e, fx) := buildRedirectObjects in
  match e with
  | Some e => (Err e, fx ++ teardown p)
  | None =>
      let p := mkXdpPort (xp_id p) iface (xp_ifindex p) (xp_setPromisc p) true false false false false in
      match (match x_AttachXDP x false with None => None | Some _ => x_AttachXDP x true end) with
      | Some e => (Err (Errorf "attach XDP to %s: %w" [AStr iface; AErr e]), fx ++ teardown p)
      | None =>
          let fx := fx ++ [Acquire RXdpLink] in
          let p := mkXdpPort (xp_id p) iface (xp_ifindex p) (xp_setPromisc p) true true false false false in
          match x_NewSocket x with
          | Some e =>
              (Err (Errorf "AF_XDP socket on %s queue %d: %w" [AStr iface; AInt queueID; AErr e]), fx ++ teardown p)
          | None =>
              let fx := fx ++ [Acquire RXsk] in
              let p := mkXdpPort (xp_id p) iface (xp_ifindex p) (xp_setPromisc p) true true true false false in
              match x_MapUpdate x with
              | Some e => (Err (Errorf "register socket in XSK map: %w" [AErr e]), fx ++ teardown p)
              | None => (Ok (mkXdpPort (xp_id p) iface (xp_ifindex p) (xp_setPromisc p) true true true false (negb watchLink)), fx)
              end
          end
      end
  end.

Definition NewAFXDP (id iface : string) (queueID : Z) : result afxdpPort * list rfx :=
  if is_empty iface then (Err (Errorf "af_xdp transport requires interface" []), [])
  else if (queueID <? 0) || (afxdpMaxQueues <=? queueID) then
    (Err (Errorf "af_xdp queue_id must be 0-%d" [AInt (afxdpMaxQueues - 1)]), [])
  else match x_LinkByName x with
  | Err e => (Err (Errorf "interface %s: %w" [AStr iface; AErr e]), [])
  | Ok ifindex =>
      match x_LinkSetUp x with
      | Some e => (Err (Errorf "set %s up: %w" [AStr iface; AErr e]), [])
      | None =>
          let p := mkXdpPort id iface ifindex false false false false false false in
          if x_promiscuous x then afxdpAttach p queueID
          else match x_SetPromiscOn x with
          | Some e => (Err (Errorf "set %s promisc: %w" [AStr iface; AErr e]), teardown p)
          | None =>
              let '(r, fx) := afxdpAttach (mkXdpPort id iface ifindex true false false false false false) queueID in
              (r, Acquire (RPromisc iface) :: fx)
          end
      end
  end.
End afxdp.

Definition xp_Close (p : afxdpPort) : afxdpPort * list rfx :=
  if xp_closed p then (p, [])
  else (mkXdpPort (xp_id p) (xp_iface p) (xp_ifindex p) (xp_setPromisc p) (xp_objects p) (xp_xdpLink p) (xp_sock p) true
          (xp_pollFallback p), teardown p).

(** [linkGone]: the port afterwards, and whether the switch is notified. *)
Definition linkGone (p : afxdpPort) : afxdpPort * list rfx * bool :=
  if xp_closed p then (p, [], false) else (xp_Close p, true).

(** The goroutine of [watchLink] gets an update: its type and the index of the
    link it is about.  The last boolean is whether the goroutine goes on. *)
Definition RTM_DELLINK : Z := 17.

Definition watchUpdate (typ index : Z) (p : afxdpPort) : afxdpPort * list rfx * bool * bool :=
  if (typ =? RTM_DELLINK) && (index =? xp_ifindex p) then (linkGone p, false) else (p, [], false, true).

(** One round of [rxLoop]: what [poll] returned, and whether the interface still
    exists.  Yields the new count of idle rounds, whether the loop continues,
    whether it reads frames, and whether the link is found gone. *)
Record xdpRound := mkRound { xr_idle : Z; xr_continue : bool; xr_read : bool; xr_gone : bool }.

Definition xp_round (pollErr : bool) (n : Z) (hup linkExists : bool) (idle : Z) (p : afxdpPort) : xdpRound :=
  if pollErr then mkRound idle false false false
  else if xp_closed p then mkRound idle false false false
  else if (0 <? n) && hup then
    if negb linkExists then mkRound idle false false true else mkRound idle true true false
  else if xp_pollFallback p && (n =? 0) then
    if 4 <=? idle + 1 then
      if negb linkExists then mkRound 0 false false true else mkRound 0 true false false
    else mkRound (idle + 1) true false false
  else mkRound idle true (negb (n =? 0)) false.

Definition xp_Status (p : afxdpPort) : StatusT := mkStatusT (negb (xp_closed p)) (xp_iface p) [].

(** * vhost-user ports (vhostuser.go)

    A session is a [NetDevice], named by a number. *)

Record vhostPort := mkVhostPort {
  vp_id : string;
  vp_mode : string;
  vp_listening : bool;
  vp_dev : option nat;
  vp_up : bool;
  vp_closed : bool;
  vp_next : nat
}.

Inductive vfx : Type :=
  | VCloseConn
  | VCloseDev (n : nat)
  | VNotifyDown.

(** [adopt]: the next device. *)
Definition vp_adopt (p : vhostPort) : vhostPort :=
  mkVhostPort (vp_id p) (vp_mode p) (vp_listening p) (Some (vp_next p)) (vp_up p) (vp_closed p) (S (vp_next p)).

Definition NewVhostUser (net : Net) (id mode path replacing : string) : result vhostPort * list rfx :=
  if bool_decide (mode = "client") then
    match DialUnix net "unix" None path with
    | Err e => (Err (Errorf "vhost-user dial %s: %w" [AStr path; AErr e]), [])
    | Ok _ => (Ok (vp_adopt (mkVhostPort id replacing false None false false 0)), [Acquire RSocket])
    end
  else if bool_decide (mode = "server") then
    if is_empty replacing || bool_decide (replacing = ModeReplace) || bool_decide (replacing = ModeOccupy) then
      let fx := removeStaleSocket net path in
      match Listen net false "unix" path with
      | Some e => (Err (Errorf "vhost-user listen %s: %w" [AStr path; AErr e]), fx)
      | None => (Ok (mkVhostPort id replacing true None false false 0), fx ++ [Acquire RSocket])
      end
    else (Err (Errorf "vhost-user supports replace/occupy only (one VM session per port)" []), [])
  else (Err (badMode mode), []).

(** [acceptLoop] up to the point where the old session is being closed:
    [Some true] adopts, [Some false] is done, [None] goes on in [vp_accept2]. *)
Definition vp_accept1 (p : vhostPort) : vhostPort * list vfx * option bool :=
  if vp_closed p then (p, [VCloseConn], Some false)
  else match vp_dev p with
  | None => (p, [], Some true)
  | Some old =>
      if bool_decide (vp_mode p = ModeOccupy) then (p, [VCloseConn], Some false)
      else (mkVhostPort (vp_id p) (vp_mode p) (vp_listening p) None (vp_up p) (vp_closed p) (vp_next p),
            [VCloseDev old], None)
  end.

Definition vp_accept2 (p : vhostPort) : vhostPort * list vfx * bool :=
  if vp_closed p || bool_decide (is_Some (vp_dev p)) then (p, [VCloseConn], false) else (p, [], true).

(** The [State] callback of device [n]. *)
Definition vp_State (n : nat) (up : bool) (p : vhostPort) : vhostPort * list vfx :=
  if negb (bool_decide (vp_dev p = Some n)) then (p, [])
  else
    (mkVhostPort (vp_id p) (vp_mode p) (vp_listening p) (if up then vp_dev p else None) up (vp_closed p) (vp_next p),
     if vp_up p && negb up then [VNotifyDown] else []).

Definition vp_Close (p : vhostPort) : vhostPort * list vfx :=
  if vp_closed p then (p, [])
  else
    (mkVhostPort (vp_id p) (vp_mode p) false None (vp_up p) true (vp_next p),
     match vp_dev p with Some n => [VCloseDev n] | None => [] end).

(** [Send], over [WriteFrame] of the device. *)
Definition vp_Send (writeFrame : nat -> bytes -> bool) (frame : bytes) (p : vhostPort) : bool :=
  match vp_dev p with None => false | Some n => writeFrame n frame end.

Definition vp_Status (p : vhostPort) : StatusT :=
  let dev := bool_decide (is_Some (vp_dev p)) in
  mkStatusT (dev && vp_up p) (if dev then "vhost-user" else EmptyString) [].
