(* ===== verification/Xdp.v ===== *)
(** The data path of an AF_XDP port: the receive loop, the sends and the watcher
    of src/internal/ports/afxdp.go, over the rings of gVisor's [xdp] package.

    The package is not part of the repository.  [Rings] is what the code calls
    of it, and [RingLaws] what its documentation promises: a frame of the shared
    memory is free, lent to the kernel, or holds a received packet; the calls
    move frames between these, and only the owner of a frame writes to it.  The
    receive loop and the senders run at the same time; each section between two
    lock operations is a step, and the kernel takes steps of its own. *)
From S2P Require Import Prelude Framing Ports.

#[local] Open Scope Z_scope.

(** * The rings *)

(** [unix.XDPDesc] *)
Record XDPDesc := mkDesc { d_Addr : Z; d_Len : Z }.

Class Rings (U : Type) := {
  RX_Peek : U -> U * Z * Z;
  RX_Get : U -> Z -> XDPDesc;
  RX_Release : Z -> U -> U;
  UMEM_Get : U -> XDPDesc -> bytes;
  UMEM_copy : XDPDesc -> bytes -> U -> U;
  UMEM_AllocFrame : U -> res (U * Z);
  UMEM_FreeFrame : Z -> U -> U;
  Fill_FillAll : U -> U;
  Completion_FreeAll : U -> U;
  TX_Reserve : Z -> U -> U * Z * Z;
  TX_Set : Z -> XDPDesc -> U -> U;
  TX_Notify : U -> U
}.

(** * The code *)

Section code.
Context {U : Type} `{Rings U}.

(** The locked part of a round: copy every packet out and free its frame, then
    give free frames to the kernel. *)
Definition rxTake (rxIndex : Z) (acc : U * list bytes) (i : Z) : U * list bytes :=
  let '(u, frames) := acc in
  let desc := RX_Get u (u32 (rxIndex + i)) in
  let data := UMEM_Get u desc in
  (UMEM_FreeFrame (d_Addr desc) u, frames ++ [data]).

Definition rxCollect (n rxIndex : Z) (u : U) : U * list bytes :=
  let '(u, frames) := foldl (rxTake rxIndex) (u, []) (Z.of_nat <$> seq 0 (Z.to_nat n)) in
  (Fill_FillAll u, frames).

(** Frames must fit a UMEM frame minus the kernel's headroom. *)
Definition afxdpMaxFrame : Z := 3584.

(** [Send] up to the unlock; the boolean is whether the frame was queued, in
    which case [Notify] follows. *)
Definition xp_Send (frame : bytes) (p : afxdpPort) (u : U) : res (U * bool) :=
  if xp_closed p then Ret (u, false)
  else if afxdpMaxFrame <? len frame then Ret (u, false)
  else
    let u := Completion_FreeAll u in
    let '(u, nReserved, index) := TX_Reserve 1 u in
    if nReserved =? 0 then Ret (u, false)
    else
      x ← UMEM_AllocFrame u;
      let desc := mkDesc x.2 (u32 (len frame)) in
      Ret (TX_Set index desc (UMEM_copy desc frame x.1), true).
End code.

(** * Runs *)

(** Where the receive loop is.  [RxTaken] has unlocked and has [n] descriptors
    to release; [RxDeliver] passes the frames to the switch. *)
Inductive rxState : Type :=
  | RxPoll
  | RxReady
  | RxPeeked (n rxIndex : Z)
  | RxTaken (n : Z) (frames : list bytes)
  | RxDeliver (frames : list bytes)
  | RxExit.

(** [xs_arrived] is what the kernel has put into the receive ring so far. *)
Record xdpSys (U : Type) := mkXdpSys {
  xs_port : afxdpPort;
  xs_u : U;
  xs_rx : rxState;
  xs_idle : Z;
  xs_watch : bool;
  xs_delivered : list bytes;
  xs_arrived : list bytes
}.
Arguments mkXdpSys {U} _ _ _ _ _ _ _.
Arguments xs_port {U} _.
Arguments xs_u {U} _.
Arguments xs_rx {U} _.
Arguments xs_idle {U} _.
Arguments xs_watch {U} _.
Arguments xs_delivered {U} _.
Arguments xs_arrived {U} _.

(** * What the package promises *)

(** The frames of the shared memory that are free, those lent to the kernel, and
    the packets received and not yet released. *)
Record ringView := mkView { v_free : list Z; v_lent : list Z; v_rx : list XDPDesc }.

Class RingLaws (U : Type) `{Rings U} := {
  view : U -> ringView;
  frameOf : Z -> Z;
  rxBase : U -> Z;
  kernel : U -> U -> Prop;

  (** [Get] reads the ring; [Peek] says how much of it there is. *)
  law_Get u k d : v_rx (view u) !! k = Some d -> Z.of_nat k < 2 ^ 32 -> RX_Get u (u32 (rxBase u + Z.of_nat k)) = d;
  law_Peek u u' n i : RX_Peek u = (u', n, i) ->
    view u' = view u /\ rxBase u' = rxBase u /\ i = rxBase u /\ 0 <= n <= Z.of_nat (length (v_rx (view u))) /\
    n < 2 ^ 32 /\ forall d, UMEM_Get u' d = UMEM_Get u d;
  (** [Release] gives the first [n] entries of the ring back. *)
  law_Release u n : 0 <= n <= Z.of_nat (length (v_rx (view u))) ->
    let u' := RX_Release n u in
    view u' = mkView (v_free (view u)) (v_lent (view u)) (drop (Z.to_nat n) (v_rx (view u))) /\
    forall d, UMEM_Get u' d = UMEM_Get u d;
  (** [FreeFrame] makes the frame that contains the address free. *)
  law_FreeFrame u a :
    let u' := UMEM_FreeFrame a u in
    view u' = mkView (frameOf a :: v_free (view u)) (v_lent (view u)) (v_rx (view u)) /\ rxBase u' = rxBase u /\
    forall d, UMEM_Get u' d = UMEM_Get u d;
  (** [FillAll] lends free frames to the kernel, which may write to them. *)
  law_FillAll u :
    let u' := Fill_FillAll u in
    (exists l, v_free (view u) ≡ₚ l ++ v_free (view u') /\ v_lent (view u') ≡ₚ l ++ v_lent (view u)) /\
    v_rx (view u') = v_rx (view u) /\ rxBase u' = rxBase u /\
    forall d, frameOf (d_Addr d) ∉ v_free (view u) -> UMEM_Get u' d = UMEM_Get u d;
  (** [FreeAll] takes back the frames whose transmission is complete. *)
  law_FreeAll u :
    let u' := Completion_FreeAll u in
    (exists l, v_lent (view u) ≡ₚ l ++ v_lent (view u') /\ v_free (view u') ≡ₚ l ++ v_free (view u)) /\
    v_rx (view u') = v_rx (view u) /\ rxBase u' = rxBase u /\
    forall d, UMEM_Get u' d = UMEM_Get u d;
  (** As many frames as [Reserve] says may be allocated. *)
  law_Reserve u k u' n i : TX_Reserve k u = (u', n, i) ->
    view u' = view u /\ rxBase u' = rxBase u /\ 0 <= n <= Z.of_nat (length (v_free (view u))) /\
    forall d, UMEM_Get u' d = UMEM_Get u d;
  law_AllocFrame u : v_free (view u) <> [] -> exists u' a,
    UMEM_AllocFrame u = Ret (u', a) /\
    v_free (view u) ≡ₚ frameOf a :: v_free (view u') /\ v_lent (view u') = v_lent (view u) /\
    v_rx (view u') = v_rx (view u) /\ rxBase u' = rxBase u /\
    forall d, UMEM_Get u' d = UMEM_Get u d;
  (** Writing through [Get] changes that frame only. *)
  law_copy u d b :
    let u' := UMEM_copy d b u in
    view u' = view u /\ rxBase u' = rxBase u /\
    (d_Len d = len b -> UMEM_Get u' d = b) /\
    forall d', frameOf (d_Addr d') <> frameOf (d_Addr d) -> UMEM_Get u' d' = UMEM_Get u d';
  (** A descriptor in the TX ring lends its frame to the kernel. *)
  law_Set u i d :
    let u' := TX_Set i d u in
    view u' = mkView (v_free (view u)) (frameOf (d_Addr d) :: v_lent (view u)) (v_rx (view u)) /\ rxBase u' = rxBase u /\
    forall d', UMEM_Get u' d' = UMEM_Get u d';
  law_Notify u :
    let u' := TX_Notify u in
    view u' = view u /\ rxBase u' = rxBase u /\ forall d, UMEM_Get u' d = UMEM_Get u d;
  (** The kernel fills frames it was lent and puts them into the ring. *)
  law_kernel u u' : kernel u u' ->
    v_free (view u') = v_free (view u) /\ rxBase u' = rxBase u /\
    exists new, v_rx (view u') = v_rx (view u) ++ new /\
      v_lent (view u) ≡ₚ (frameOf ∘ d_Addr <$> new) ++ v_lent (view u') /\
      forall d, frameOf (d_Addr d) ∉ v_lent (view u) -> UMEM_Get u' d = UMEM_Get u d
}.

Section runs.
Context {U : Type} `{RingLaws U}.

Inductive xdp_step : xdpSys U -> xdpSys U -> Prop :=
  | XPoll pollErr n hup linkExists p u idle w dl ar :
      let r := xp_round pollErr n hup linkExists idle p in
      xdp_step (mkXdpSys p u RxPoll idle w dl ar)
        (mkXdpSys (if xr_gone r then (linkGone p).1.1 else p) u
           (if xr_continue r then if xr_read r then RxReady else RxPoll else RxExit) (xr_idle r) w dl ar)
  | XPeek p u u' n i idle w dl ar :
      RX_Peek u = (u', n, i) ->
      xdp_step (mkXdpSys p u RxReady idle w dl ar) (mkXdpSys p u' (if n =? 0 then RxPoll else RxPeeked n i) idle w dl ar)
  | XCollect p u u' n i frames idle w dl ar :
      rxCollect n i u = (u', frames) ->
      xdp_step (mkXdpSys p u (RxPeeked n i) idle w dl ar) (mkXdpSys p u' (RxTaken n frames) idle w dl ar)
  | XRelease p u n frames idle w dl ar :
      xdp_step (mkXdpSys p u (RxTaken n frames) idle w dl ar) (mkXdpSys p (RX_Release n u) (RxDeliver frames) idle w dl ar)
  | XDeliver p u f frames idle w dl ar :
      xdp_step (mkXdpSys p u (RxDeliver (f :: frames)) idle w dl ar) (mkXdpSys p u (RxDeliver frames) idle w (dl ++ [f]) ar)
  | XDelivered p u idle w dl ar :
      xdp_step (mkXdpSys p u (RxDeliver []) idle w dl ar) (mkXdpSys p u RxPoll idle w dl ar)
  | XSend frame p u u' ok st idle w dl ar :
      xp_Send frame p u = Ret (u', ok) ->
      xdp_step (mkXdpSys p u st idle w dl ar) (mkXdpSys p u' st idle w dl ar)
  | XNotify p u st idle w dl ar :
      xdp_step (mkXdpSys p u st idle w dl ar) (mkXdpSys p (TX_Notify u) st idle w dl ar)
  | XClose p u st idle w dl ar :
      xdp_step (mkXdpSys p u st idle w dl ar) (mkXdpSys (xp_Close p).1 u st idle w dl ar)
  | XWatch typ index p u st idle dl ar :
      xdp_step (mkXdpSys p u st idle true dl ar)
        (mkXdpSys (watchUpdate typ index p).1.1.1 u st idle (watchUpdate typ index p).2 dl ar)
  | XWatchEnd p u st idle dl ar :
      xp_closed p = true -> xdp_step (mkXdpSys p u st idle true dl ar) (mkXdpSys p u st idle false dl ar)
  | XKernel p u u' st idle w dl ar :
      kernel u u' ->
      xdp_step (mkXdpSys p u st idle w dl ar)
        (mkXdpSys p u' st idle w dl (ar ++ (UMEM_Get u' <$> drop (length (v_rx (view u))) (v_rx (view u'))))).

Inductive xdp_run (p : afxdpPort) (u : U) (w : bool) : xdpSys U -> Prop :=
  | XStart : xdp_run p u w (mkXdpSys p u RxPoll 0 w [] [])
  | XStep s s' : xdp_run p u w s -> xdp_step s s' -> xdp_run p u w s'.

(** * The invariant *)

(** Entries of the receive ring whose frame has been freed already, and the
    copies that are on their way to the switch. *)
Definition taken (st : rxState) : nat := match st with RxTaken n _ => Z.to_nat n | _ => 0 end.
Definition inFlight (st : rxState) : list bytes := match st with RxTaken _ fs | RxDeliver fs => fs | _ => [] end.

Definition frames_of (ds : list XDPDesc) : list Z := frameOf ∘ d_Addr <$> ds.
Definition unread (st : rxState) (u : U) : list XDPDesc := drop (taken st) (v_rx (view u)).
Definition owned (st : rxState) (u : U) : list Z := v_free (view u) ++ v_lent (view u) ++ frames_of (unread st u).
Definition waiting (st : rxState) (u : U) : list bytes := UMEM_Get u <$> unread st u.

Definition rx_ok (st : rxState) (u : U) : Prop :=
  match st with
  | RxPeeked n i => 0 <= n <= Z.of_nat (length (v_rx (view u))) /\ n < 2 ^ 32 /\ i = rxBase u
  | RxTaken n _ => 0 <= n <= Z.of_nat (length (v_rx (view u)))
  | _ => True
  end.

Record xdp_ok (all : list Z) (s : xdpSys U) : Prop := {
  xo_owned : owned (xs_rx s) (xs_u s) ≡ₚ all;
  xo_rx : rx_ok (xs_rx s) (xs_u s);
  xo_exact : xs_delivered s ++ inFlight (xs_rx s) ++ waiting (xs_rx s) (xs_u s) = xs_arrived s
}.

(** A call that leaves the receive ring, and the packets in it, alone. *)
Record keeps (st : rxState) (u u' : U) : Prop := {
  kp_rx : v_rx (view u') = v_rx (view u);
  kp_base : rxBase u' = rxBase u;
  kp_bytes : Forall (fun d => UMEM_Get u' d = UMEM_Get u d) (unread st u);
  kp_owned : v_free (view u') ++ v_lent (view u') ≡ₚ v_free (view u) ++ v_lent (view u)
}.

Lemma keeps_refl st u : keeps st u u.
Proof. split; try done. by apply Forall_true. Qed.

Lemma keeps_trans st u1 u2 u3 : keeps st u1 u2 -> keeps st u2 u3 -> keeps st u1 u3.
Proof.
  intros [R1 B1 F1 O1] [R2 B2 F2 O2]. split; try congruence; [|by rewrite O2].
  unfold unread in *. rewrite R1 in F2. rewrite Forall_forall in *. intros d Hd. by rewrite F2, F1.
Qed.

Lemma keeps_ok all st u u' : keeps st u u' -> forall p i w dl ar p' i' w',
  xdp_ok all (mkXdpSys p u st i w dl ar) -> xdp_ok all (mkXdpSys p' u' st i' w' dl ar).
Proof.
  intros [R B F O] p i w dl ar p' i' w' [Ho Hr He]. cbn in *. split; cbn.
  - rewrite <- Ho. unfold owned, unread. by rewrite R, !(assoc_L (++)), O.
  - unfold rx_ok in *. by rewrite R, B.
  - rewrite <- He. do 2 f_equal. unfold waiting, unread in *. rewrite R. apply list_fmap_ext. intros k d Hd.
    rewrite Forall_forall in F. apply F. by eapply list_elem_of_lookup_2.
Qed.

(** ** Receiving *)

Lemma rx_frees m : forall j u acc, (j + m <= length (v_rx (view u)))%nat -> Z.of_nat (j + m) < 2 ^ 32 -> exists u',
  foldl (rxTake (rxBase u)) (u, acc) (Z.of_nat <$> seq j m) =
    (u', acc ++ (UMEM_Get u <$> take m (drop j (v_rx (view u))))) /\
  v_free (view u') ≡ₚ frames_of (take m (drop j (v_rx (view u)))) ++ v_free (view u) /\
  v_lent (view u') = v_lent (view u) /\ v_rx (view u') = v_rx (view u) /\ rxBase u' = rxBase u /\
  forall d, UMEM_Get u' d = UMEM_Get u d.
Proof.
  induction m as [|m IH]; intros j u acc Hj Hw.
  - exists u. cbn. by rewrite app_nil_r.
  - destruct (lookup_lt_is_Some_2 (v_rx (view u)) j) as [d Hd]; [lia|].
    destruct (law_FreeFrame u (d_Addr d)) as (Hv & Hb & Hg). set (u1 := UMEM_FreeFrame (d_Addr d) u) in *.
    destruct (IH (S j) u1 (acc ++ [UMEM_Get u d])) as (u' & E & Hf & Hl & Hr & Hb' & Hg'); [rewrite Hv; cbn; lia | lia|].
    exists u'. cbn [seq fmap list_fmap foldl]. unfold rxTake at 2. cbv zeta. rewrite (law_Get u j d Hd) by lia. fold u1. rewrite Hb in E. rewrite E.
    rewrite Hv in *. cbn [v_rx v_free v_lent] in *. rewrite (drop_S _ _ _ Hd). cbn [take]. split_and!; try congruence.
    + f_equal. rewrite <- (assoc_L (++)). f_equal. cbn. f_equal. by apply list_fmap_ext.
    + rewrite Hf. cbn. by rewrite Permutation_middle.
Qed.

Lemma rx_collects all p u n i idle w dl ar u' frames :
  NoDup all -> xdp_ok all (mkXdpSys p u (RxPeeked n i) idle w dl ar) -> rxCollect n i u = (u', frames) ->
  xdp_ok all (mkXdpSys p u' (RxTaken n frames) idle w dl ar).
Proof.
  intros Hnd [Ho (Hn & Hw & ->) He]. cbn in *. unfold rxCollect.
  destruct (rx_frees (Z.to_nat n) 0 u []) as (u1 & -> & Hf & Hl & Hr & Hb & Hg); [lia..|]. intros [= <- <-].
  destruct (law_FillAll u1) as ((l & Hl1 & Hl2) & Hr2 & Hb2 & Hg2). set (u2 := Fill_FillAll u1) in *.
  rewrite drop_0 in *. set (rx := v_rx (view u)) in *.
  assert (Hall : frames_of (take (Z.to_nat n) rx) ++ v_free (view u) ++ v_lent (view u) ++ frames_of (drop (Z.to_nat n) rx) ≡ₚ all).
  { rewrite <- Ho. unfold owned, unread, taken. rewrite drop_0. fold rx. rewrite <- (take_drop (Z.to_nat n) rx) at 3.
    unfold frames_of. rewrite fmap_app. solve_Permutation. }
  split; cbn [xs_rx xs_u xs_delivered xs_arrived].
  - unfold owned, unread, taken. rewrite Hr2, Hr. fold rx. rewrite <- Hall, Hl2, Hl.
    rewrite (assoc_L (++) (frames_of _)). rewrite <- Hf, Hl1. solve_Permutation.
  - cbn. by rewrite Hr2, Hr.
  - rewrite <- He. cbn [inFlight app]. f_equal. unfold waiting, unread, taken. rewrite Hr2, Hr.
    rewrite <- (take_drop (Z.to_nat n) rx) at 3. rewrite fmap_app. f_equal. apply list_fmap_ext. intros k d Hd.
    rewrite Hg2; [by rewrite Hg|]. rewrite Hf. rewrite <- Hall in Hnd. intros Hin.
    apply NoDup_app in Hnd as (_ & Hx & Hnd). apply NoDup_app in Hnd as (_ & Hy & _).
    assert (Hd' : frameOf (d_Addr d) ∈ frames_of (drop (Z.to_nat n) rx)).
    { unfold frames_of. apply list_elem_of_fmap. exists d. split; [done | by eapply list_elem_of_lookup_2]. }
    apply elem_of_app in Hin as [Hin|Hin]; [apply (Hx _ Hin) | apply (Hy _ Hin)]; set_solver.
Qed.

(** ** Sending *)

Lemma send_keeps all st frame p u :
  NoDup all -> owned st u ≡ₚ all -> exists u' ok,
  xp_Send frame p u = Ret (u', ok) /\ keeps st u u' /\
  (ok = true -> exists d, frameOf (d_Addr d) ∈ v_lent (view u') /\ UMEM_Get u' d = frame).
Proof.
  intros Hnd Ho. unfold xp_Send. destruct (xp_closed p); [exists u, false; split_and!; [done | apply keeps_refl | done]|].
  destruct (Z.ltb_spec afxdpMaxFrame (len frame)) as [|Hlen]; [exists u, false; split_and!; [done | apply keeps_refl | done]|].
  destruct (law_FreeAll u) as ((l & Hl1 & Hl2) & Hr1 & Hb1 & Hg1). set (u1 := Completion_FreeAll u) in *.
  assert (K1 : keeps st u u1).
  { split; try done; [by apply Forall_true | rewrite Hl2, Hl1; solve_Permutation]. }
  destruct (TX_Reserve 1 u1) as [[u2 n] i] eqn:E. apply law_Reserve in E as (Hv2 & Hb2 & Hn & Hg2).
  assert (K2 : keeps st u u2).
  { eapply keeps_trans; [exact K1|]. split; try by rewrite ?Hv2. by apply Forall_true. }
  destruct (Z.eqb_spec n 0) as [->|Hn0]; [exists u2, false; by split_and!|].
  destruct (law_AllocFrame u2) as (u3 & a & -> & Hf3 & Hl3 & Hr3 & Hb3 & Hg3).
  { rewrite Hv2. intros E. rewrite E in Hn. cbn in Hn. lia. }
  cbn [mbind res_bind fst snd]. set (d := mkDesc a (u32 (len frame))).
  destruct (law_copy u3 d frame) as (Hv4 & Hb4 & Hc4 & Hg4). set (u4 := UMEM_copy d frame u3) in *.
  destruct (law_Set u4 i d) as (Hv5 & Hb5 & Hg5). set (u5 := TX_Set i d u4) in *.
  exists u5, true. split; [done|]. split.
  - eapply keeps_trans; [exact K2|].
    assert (Ho2 : owned st u2 ≡ₚ all).
    { rewrite <- Ho. unfold owned, unread. by rewrite (kp_rx _ _ _ K2), !(assoc_L (++)), (kp_owned _ _ _ K2). }
    split; rewrite ?Hv5, ?Hv4; cbn [v_rx v_free v_lent]; [done | congruence | |].
    + apply Forall_forall. intros d' Hd'. rewrite Hg5, Hg4, Hg3; [done|]. cbn [d d_Addr]. intros Heq.
      rewrite <- Ho2 in Hnd. unfold owned in Hnd. rewrite Hf3 in Hnd. cbn in Hnd. apply NoDup_cons in Hnd as [Hni _].
      apply Hni. rewrite <- Heq. apply elem_of_app. right. apply elem_of_app. right. apply list_elem_of_fmap. by exists d'.
    + rewrite Hl3, Hf3. cbn [d d_Addr]. solve_Permutation.
  - intros _. exists d. split; [rewrite Hv5; apply list_elem_of_here|]. rewrite Hg5. apply Hc4. cbn.
    unfold u32, afxdpMaxFrame, len in *. rewrite Z.mod_small; [done|]. lia.
Qed.

(** ** All steps *)

Lemma xdp_ok_step all s s' : NoDup all -> xdp_ok all s -> xdp_step s s' -> xdp_ok all s'.
Proof.
  intros Hnd Hok Hs. destruct Hs.
  - destruct Hok as [Ho _ He]. split; cbn in *; destruct (if xr_continue r then _ else _) eqn:E; try done;
      destruct (xr_continue r), (xr_read r); simplify_eq; done.
  - apply law_Peek in H1 as (Hv & Hb & -> & Hn & Hw & Hg). destruct Hok as [Ho _ He]. cbn in *.
    assert (Hst : owned (if n =? 0 then RxPoll else RxPeeked n (rxBase u)) u' = owned RxReady u /\
      waiting (if n =? 0 then RxPoll else RxPeeked n (rxBase u)) u' = waiting RxReady u).
    { unfold owned, waiting, unread. rewrite Hv. destruct (n =? 0); (split; [done|]); by apply list_fmap_ext. }
    destruct Hst as [Hst1 Hst2]. split; cbn.
    + by rewrite Hst1.
    + destruct (n =? 0); cbn; [done|]. by rewrite Hv, Hb.
    + rewrite Hst2. by destruct (n =? 0).
  - by eapply rx_collects.
  - destruct Hok as [Ho Hr He]. cbn in *. destruct (law_Release u n Hr) as [Hv Hg].
    split; cbn; [| |]; unfold owned, waiting, unread in *; cbn [taken] in *; rewrite ?Hv; cbn [v_free v_lent v_rx]; rewrite ?drop_0; try done.
    rewrite <- He. do 2 f_equal. by apply list_fmap_ext.
  - destruct Hok as [Ho Hr He]. split; cbn in *; try done. rewrite <- He. by rewrite <- (assoc_L (++)).
  - destruct Hok as [Ho Hr He]. by split.
  - destruct (send_keeps all st frame p u Hnd (xo_owned _ _ Hok)) as (u1 & ok1 & E & K & _). rewrite H1 in E. injection E as <- <-.
    by eapply keeps_ok.
  - destruct (law_Notify u) as (Hv & Hb & Hg). eapply keeps_ok; [|done]. split; rewrite ?Hv; try done. by apply Forall_true.
  - eapply keeps_ok; [apply keeps_refl | done].
  - eapply keeps_ok; [apply keeps_refl | done].
  - eapply keeps_ok; [apply keeps_refl | done].
  - apply law_kernel in H1 as (Hf & Hb & new & Hr & Hl & Hg). destruct Hok as [Ho Hrx He]. cbn in *.
    assert (Ht : (taken st <= length (v_rx (view u)))%nat).
    { destruct st; cbn in *; lia. }
    assert (Hun : unread st u' = unread st u ++ new) by (unfold unread; rewrite Hr; by rewrite drop_app_le).
    split; cbn.
    + rewrite <- Ho. unfold owned. rewrite Hun, Hf, Hl. unfold frames_of. rewrite fmap_app. solve_Permutation.
    + destruct st; cbn in *; try done; rewrite Hr, length_app, ?Hb; split_and!; try lia; by apply Hrx.
    + rewrite <- He. rewrite <- !(assoc_L (++)). do 2 f_equal. unfold waiting. rewrite Hun, fmap_app. rewrite Hr, drop_app_length.
      f_equal. apply list_fmap_ext. intros k d Hd. apply Hg. intros Hin. rewrite <- Ho in Hnd. unfold owned in Hnd.
      apply NoDup_app in Hnd as (_ & _ & Hnd). apply NoDup_app in Hnd as (_ & Hx & _). apply (Hx _ Hin).
      apply list_elem_of_fmap. exists d. split; [done | by eapply list_elem_of_lookup_2].
Qed.

(** C22: an AF_XDP port delivers what the interface receives.  Let the rings
    behave as documented, start with an empty receive ring, and let the receive
    loop, any number of senders, the link watcher, Close and the kernel run in
    any order.  What the port passed to the switch, followed by what it is
    passing on and by the packets still in the ring, is what the interface
    received: every packet once, in order, with its bytes.  No frame of the
    shared memory is lost or owned twice.  And a send never runs out of frames;
    when it reports success the kernel holds a frame with exactly these bytes. *)
Theorem xdp_exact p u w s :
  v_rx (view u) = [] -> NoDup (v_free (view u) ++ v_lent (view u)) -> xdp_run p u w s ->
  xs_delivered s ++ inFlight (xs_rx s) ++ waiting (xs_rx s) (xs_u s) = xs_arrived s /\
  owned (xs_rx s) (xs_u s) ≡ₚ v_free (view u) ++ v_lent (view u) /\
  forall frame, exists u' ok, xp_Send frame (xs_port s) (xs_u s) = Ret (u', ok) /\
    (ok = true -> exists d, frameOf (d_Addr d) ∈ v_lent (view u') /\ UMEM_Get u' d = frame).
Proof.
  intros Hrx Hnd Hr. assert (Hok : xdp_ok (v_free (view u) ++ v_lent (view u)) s).
  { induction Hr as [|s s' _ IH Hs]; [|by eapply xdp_ok_step]. split; cbn; [|done|]; unfold owned, waiting, unread; rewrite Hrx; cbn; [|done].
    by rewrite app_nil_r. }
  split; [apply Hok|]. split; [apply Hok|]. intros frame.
  destruct (send_keeps _ _ frame (xs_port s) _ Hnd (xo_owned _ _ Hok)) as (u' & ok & E & _ & Hd). eauto.
Qed.
End runs.

(** * Rings that keep the promises *)

(** A ring set with frames named by their address and a kernel that fills them
    in the order they were lent. *)
Record simRing := mkSim {
  sr_free : list Z;
  sr_fill : list Z;
  sr_tx : list Z;
  sr_rx : list XDPDesc;
  sr_base : Z;
  sr_mem : gmap Z bytes
}.

Definition sr_frame (a : Z) (u : simRing) : bytes := default [] (sr_mem u !! a).

Definition sr_write (d : XDPDesc) (b : bytes) (u : simRing) : gmap Z bytes :=
  let b := take (Z.to_nat (d_Len d)) b in
  <[d_Addr d := b ++ drop (length b) (sr_frame (d_Addr d) u)]> (sr_mem u).

#[export] Instance simRing_rings : Rings simRing := {
  RX_Peek u := (u, Z.min (Z.of_nat (length (sr_rx u))) 2048, sr_base u);
  RX_Get u i := nth (Z.to_nat (u32 (i - sr_base u))) (sr_rx u) (mkDesc 0 0);
  RX_Release n u := mkSim (sr_free u) (sr_fill u) (sr_tx u) (drop (Z.to_nat n) (sr_rx u)) (u32 (sr_base u + n)) (sr_mem u);
  UMEM_Get u d := take (Z.to_nat (d_Len d)) (sr_frame (d_Addr d) u);
  UMEM_copy d b u := mkSim (sr_free u) (sr_fill u) (sr_tx u) (sr_rx u) (sr_base u) (sr_write d b u);
  UMEM_AllocFrame u :=
    match sr_free u with
    | [] => Panic
    | a :: l => Ret (mkSim l (sr_fill u) (sr_tx u) (sr_rx u) (sr_base u) (sr_mem u), a)
    end;
  UMEM_FreeFrame a u := mkSim (a :: sr_free u) (sr_fill u) (sr_tx u) (sr_rx u) (sr_base u) (sr_mem u);
  Fill_FillAll u := mkSim [] (sr_free u ++ sr_fill u) (sr_tx u) (sr_rx u) (sr_base u) (sr_mem u);
  Completion_FreeAll u := mkSim (sr_tx u ++ sr_free u) (sr_fill u) [] (sr_rx u) (sr_base u) (sr_mem u);
  TX_Reserve k u := (u, Z.min (Z.max 0 k) (Z.of_nat (length (sr_free u))), 0);
  TX_Set i d u := mkSim (sr_free u) (sr_fill u) (d_Addr d :: sr_tx u) (sr_rx u) (sr_base u) (sr_mem u);
  TX_Notify u := u
}.

(** The kernel receives a packet. *)
Definition sr_receive (b : bytes) (u : simRing) : simRing :=
  match sr_fill u with
  | [] => u
  | a :: l => mkSim (sr_free u) l (sr_tx u) (sr_rx u ++ [mkDesc a (len b)]) (sr_base u) (<[a := b]> (sr_mem u))
  end.

Definition sr_view (u : simRing) : ringView := mkView (sr_free u) (sr_tx u ++ sr_fill u) (sr_rx u).

#[export, refine] Instance simRing_laws : RingLaws simRing := {
  view := sr_view;
  frameOf a := a;
  rxBase := sr_base;
  kernel u u' := exists b, u' = sr_receive b u
}.
Proof.
  - intros u k d Hk Hw. cbn in *. unfold u32. rewrite Zminus_mod_idemp_l.
    replace (sr_base u + Z.of_nat k - sr_base u) with (Z.of_nat k) by lia. rewrite Z.mod_small, Nat2Z.id by lia.
    by apply nth_lookup_Some.
  - intros u u' n i. cbn. intros [= <- <- <-]. split_and!; try done; lia.
  - intros u n Hn. by split.
  - intros u a. by split_and!.
  - intros u. cbn. split_and!; try done. exists (sr_free u). split; [by rewrite app_nil_r | solve_Permutation].
  - intros u. cbn. split_and!; try done. by exists (sr_tx u).
  - intros u k u' n i. cbn. intros [= <- <- <-]. split_and!; try done; lia.
  - intros u Hf. cbn in *. destruct (sr_free u) as [|a l] eqn:E; [done|]. do 2 eexists. split; [done|]. by split_and!.
  - intros u d b. cbn. unfold sr_frame, sr_write. cbn. split_and!; try done.
    + intros ->. rewrite lookup_insert_eq. unfold len. rewrite Nat2Z.id. cbn. rewrite firstn_all, take_app_le, firstn_all by done. done.
    + intros d' Hne. by rewrite lookup_insert_ne.
  - intros u i d. by split_and!.
  - by intros u.
  - intros u u' [b ->]. unfold sr_receive. cbn. destruct (sr_fill u) as [|a l] eqn:E; cbn.
    + split_and!; try done. exists []. rewrite E, !app_nil_r. by split_and!.
    + split_and!; try done. exists [mkDesc a (len b)]. split_and!; try done.
      * cbn. by rewrite Permutation_middle.
      * intros d Hd. unfold sr_frame. cbn. rewrite lookup_insert_ne; [done|]. set_solver.
Defined.

(** Two frames; one packet arrives and goes through a whole round. *)
Definition sim0 : simRing := Fill_FillAll (mkSim [0; 4096] [] [] [] 0 ∅).
Definition simPort : afxdpPort := mkXdpPort "x1" "eth0" 2 true true true true false false.

Definition sim1 : simRing := sr_receive [1; 2; 3] sim0.
Definition sim2 : simRing := RX_Release 1 (rxCollect 1 0 sim1).1.

Lemma sim_run : xdp_run simPort sim0 true (mkXdpSys simPort sim2 RxPoll 0 true [[1; 2; 3]] [[1; 2; 3]]).
Proof.
  assert (Hk : kernel sim0 sim1) by by exists [1; 2; 3].
  assert (H1 := XStep _ _ _ _ _ (XStart simPort sim0 true) (XKernel _ _ _ _ _ _ _ _ Hk)).
  assert (H2 := XStep _ _ _ _ _ H1 (XPoll false 1 false true _ _ _ _ _ _)). change (UMEM_Get sim1 <$> _) with [[1; 2; 3]] in H2.
  assert (H3 := XStep _ _ _ _ _ H2 (XPeek _ sim1 sim1 1 0 _ _ _ _ eq_refl)).
  assert (E : rxCollect 1 0 sim1 = ((rxCollect 1 0 sim1).1, [[1; 2; 3]])) by (vm_compute; reflexivity).
  assert (H4 := XStep _ _ _ _ _ H3 (XCollect _ _ _ _ _ _ _ _ _ _ E)).
  assert (H5 := XStep _ _ _ _ _ H4 (XRelease _ _ _ _ _ _ _ _)).
  assert (H6 := XStep _ _ _ _ _ H5 (XDeliver _ _ _ _ _ _ _ _)). exact (XStep _ _ _ _ _ H6 (XDelivered _ _ _ _ _ _)).
Qed.

Lemma xdp_exact_witness :
  NoDup (v_free (view sim0) ++ v_lent (view sim0)) /\
  exists s, xdp_run simPort sim0 true s /\ xs_delivered s = [[1; 2; 3]] /\ owned (xs_rx s) (xs_u s) ≡ₚ [0; 4096].
Proof.
  assert (Hnd : NoDup (v_free (view sim0) ++ v_lent (view sim0))).
  { refine (bool_decide_eq_true_1 _ _). vm_compute. reflexivity. }
  split; [exact Hnd|]. pose proof sim_run as Hr. exists (mkXdpSys simPort sim2 RxPoll 0 true [[1; 2; 3]] [[1; 2; 3]]).
  split; [exact Hr|]. split; [reflexivity|].
  exact (proj1 (proj2 (xdp_exact simPort sim0 true _ eq_refl Hnd Hr))).
Defined.
