(* ===== verification/Server.v ===== *)
(** Server ports: src/internal/ports/server.go.

    A stream server accepts connections in one goroutine; every connection has
    a pump whose exit callback runs in a goroutine of its own, and the API closes
    the port from another.  Each section of code between two operations on the
    server's mutex is one function, and so is each call into the switch, so that
    any interleaving of these goroutines is a run of [srv_step].  Pumps are named
    by numbers; [ss_live] are those that have not been stopped, [ss_exits] those
    whose exit callback has been started and has not run yet.

    A datagram server has one goroutine, its receive loop, which runs over the
    datagrams and source addresses that the socket reports. *)
From S2P Require Import Prelude Vlan Fdb Protect SwitchState Stp Switch Lease GoText Framing Ports.
From stdpp Require Import sorting.

#[local] Open Scope Z_scope.

(** * Names *)

(** A client's address; [None] is a nil [net.Addr]. *)
Definition peerString (a : option netAddr) : string :=
  match a with
  | None => EmptyString
  | Some a =>
      match na_type a with
      | AddrVsock cid port => Itoa cid +:+ ":" +:+ Itoa port
      | _ =>
          if bool_decide (na_Network a = "unix") then
            let s := TrimSpace (na_String a) in
            if is_empty s || bool_decide (s = "@") then EmptyString else s
          else na_String a
      end
  end.

Definition anonName (n : Z) : string := "anonymous-" +:+ Itoa n.

(** [allocAnonLocked]: the first number not taken. *)
Fixpoint allocAnonFrom (fuel : nat) (i : Z) (taken : gset Z) : option Z :=
  match fuel with
  | O => None
  | S fuel' => if bool_decide (i ∈ taken) then allocAnonFrom fuel' (i + 1) taken else Some i
  end.
Definition allocAnon (taken : gset Z) : option Z := allocAnonFrom (S (size taken)) 0 taken.

(** * Stream servers *)

(** The callback a pump was made with. *)
Inductive exitCallback : Type :=
  | ExitAdopted
  | ExitSub (subID : string) (anonID : option Z).

(** Where the accept loop is: waiting, between the two critical sections of
    [adopt], or before [AddPort] in [addSub]. *)
Inductive acceptState : Type :=
  | AcceptIdle
  | AcceptKicked (peer : string)
  | AcceptAdding (subID : string) (anonID : option Z) (k : nat) (attrs : PortAttrs).

Record streamServer := mkStream {
  ss_id : string;
  ss_mode : string;
  ss_attrs : PortAttrs;
  ss_pump : option nat;
  ss_peer : string;
  ss_subs : gmap string nat;
  ss_anon : gset Z;
  ss_closed : bool;
  ss_accept : acceptState;
  ss_next : nat;
  ss_live : gset nat;
  ss_callbacks : gmap nat exitCallback;
  ss_exits : list nat
}.

Definition newStreamServer (id mode : string) (attrs : PortAttrs) : streamServer :=
  mkStream id mode attrs None EmptyString ∅ ∅ false AcceptIdle 0 ∅ ∅ [].

(** The port's own fields, and the rest. *)
Definition ss_port (p : option nat) (peer : string) (s : streamServer) : streamServer :=
  mkStream (ss_id s) (ss_mode s) (ss_attrs s) p peer (ss_subs s) (ss_anon s) (ss_closed s) (ss_accept s)
    (ss_next s) (ss_live s) (ss_callbacks s) (ss_exits s).
Definition ss_set_subs (subs : gmap string nat) (anon : gset Z) (s : streamServer) : streamServer :=
  mkStream (ss_id s) (ss_mode s) (ss_attrs s) (ss_pump s) (ss_peer s) subs anon (ss_closed s) (ss_accept s)
    (ss_next s) (ss_live s) (ss_callbacks s) (ss_exits s).
Definition ss_set_accept (a : acceptState) (s : streamServer) : streamServer :=
  mkStream (ss_id s) (ss_mode s) (ss_attrs s) (ss_pump s) (ss_peer s) (ss_subs s) (ss_anon s) (ss_closed s) a
    (ss_next s) (ss_live s) (ss_callbacks s) (ss_exits s).
Definition ss_set_attrs (a : PortAttrs) (s : streamServer) : streamServer :=
  mkStream (ss_id s) (ss_mode s) a (ss_pump s) (ss_peer s) (ss_subs s) (ss_anon s) (ss_closed s) (ss_accept s)
    (ss_next s) (ss_live s) (ss_callbacks s) (ss_exits s).
Definition ss_set_closed (s : streamServer) : streamServer :=
  mkStream (ss_id s) (ss_mode s) (ss_attrs s) None (ss_peer s) (ss_subs s) (ss_anon s) true (ss_accept s)
    (ss_next s) (ss_live s) (ss_callbacks s) (ss_exits s).
Definition ss_set_live (live : gset nat) (exits : list nat) (s : streamServer) : streamServer :=
  mkStream (ss_id s) (ss_mode s) (ss_attrs s) (ss_pump s) (ss_peer s) (ss_subs s) (ss_anon s) (ss_closed s)
    (ss_accept s) (ss_next s) live (ss_callbacks s) exits.

(** [newPump]. *)
Definition ss_newPump (cb : exitCallback) (s : streamServer) : streamServer :=
  mkStream (ss_id s) (ss_mode s) (ss_attrs s) (ss_pump s) (ss_peer s) (ss_subs s) (ss_anon s) (ss_closed s)
    (ss_accept s) (S (ss_next s)) ({[ss_next s]} ∪ ss_live s) (<[ss_next s := cb]> (ss_callbacks s)) (ss_exits s).

(** [pump.stop]: the first call closes the connection and starts the callback. *)
Definition stopPump (k : nat) (s : streamServer) : streamServer :=
  if bool_decide (k ∈ ss_live s) then ss_set_live (ss_live s ∖ {[k]}) (ss_exits s ++ [k]) s else s.

(** A new connection is refused, or becomes a pump. *)
Inductive accepted : Type :=
  | Refused
  | Adopted (k : nat)
  | Pending.

(** The end of [adopt]: install the pump and start it. *)
Definition install (peer : string) (s : streamServer) : streamServer * accepted :=
  (ss_set_accept AcceptIdle (ss_port (Some (ss_next s)) peer (ss_newPump ExitAdopted s)), Adopted (ss_next s)).

(** [adopt] up to [old.stop()]. *)
Definition adopt1 (peer : string) (kickOld : bool) (s : streamServer) : streamServer * accepted :=
  if ss_closed s then (s, Refused)
  else match ss_pump s with
  | Some old =>
      if negb kickOld then (s, Refused)
      else (ss_set_accept (AcceptKicked peer) (stopPump old (ss_port None (ss_peer s) s)), Pending)
  | None => install peer s
  end.

(** [adopt] after it. *)
Definition adopt2 (peer : string) (s : streamServer) : streamServer * accepted :=
  if ss_closed s || bool_decide (is_Some (ss_pump s)) then (ss_set_accept AcceptIdle s, Refused) else install peer s.

(** [addSub] up to [AddPort]. *)
Definition addSub1 (peer : string) (s : streamServer) : option (streamServer * accepted) :=
  if ss_closed s then Some (s, Refused)
  else
    let named (anonID : option Z) (peer : string) (anon : gset Z) : streamServer * accepted :=
      let subID := ss_id s +:+ "@" +:+ peer in
      match ss_subs s !! subID with
      | Some _ => (s, Refused)
      | None =>
          let k := ss_next s in
          let s' := ss_newPump (ExitSub subID anonID) s in
          (ss_set_accept (AcceptAdding subID anonID k (ss_attrs s)) (ss_set_subs (<[subID := k]> (ss_subs s)) anon s'), Pending)
      end in
    if is_empty peer then
      n ← allocAnon (ss_anon s);
      Some (named (Some n) (anonName n) ({[n]} ∪ ss_anon s))
    else Some (named None peer (ss_anon s)).

Definition free_anon (anonID : option Z) (anon : gset Z) : gset Z :=
  match anonID with Some n => anon ∖ {[n]} | None => anon end.

(** [addSub] from [AddPort] on. *)
Definition addSub2 (subID : string) (anonID : option Z) (k : nat) (attrs : PortAttrs) (s : streamServer) (sw : Switch)
    : streamServer * Switch * accepted * list effect :=
  match AddPort subID attrs sw with
  | (sw, Some _, fx) =>
      (ss_set_accept AcceptIdle (ss_set_live (ss_live s ∖ {[k]}) (ss_exits s)
         (ss_set_subs (delete subID (ss_subs s)) (free_anon anonID (ss_anon s)) s)), sw, Refused, fx)
  | (sw, None, fx) => (ss_set_accept AcceptIdle s, sw, Adopted k, fx)
  end.

(** One turn of [acceptLoop] up to the point where it calls out. *)
Definition acceptLoop (a : option netAddr) (s : streamServer) : option (streamServer * accepted) :=
  if bool_decide (ss_mode s = ModeReplace) then Some (adopt1 (peerString a) true s)
  else if bool_decide (ss_mode s = ModeOccupy) then Some (adopt1 (peerString a) false s)
  else if bool_decide (ss_mode s = ModeMultiplex) then addSub1 (peerString a) s
  else Some (s, Pending).

(** The exit callback of pump [k]. *)
Definition runExit (k : nat) (s : streamServer) (sw : Switch) : streamServer * Switch * list effect :=
  match ss_callbacks s !! k with
  | Some ExitAdopted =>
      match ss_pump s with
      | Some j =>
          if negb (bool_decide (j ∈ ss_live s)) then
            let '(sw, fx) := NotifyDown (ss_id s) sw in (ss_port None EmptyString s, sw, fx)
          else (s, sw, [])
      | None => (s, sw, [])
      end
  | Some (ExitSub subID anonID) =>
      let s := ss_set_subs (delete subID (ss_subs s)) (free_anon anonID (ss_anon s)) s in
      let '(sw, fx) := RemovePort subID sw in (s, sw, fx)
  | None => (s, sw, [])
  end.

(** [Close]; the order of the subports is that of the map iteration. *)
Definition ss_Close (order : gmap string nat -> list (string * nat)) (s : streamServer) : streamServer :=
  if ss_closed s then s
  else
    let s' := ss_set_closed s in
    let s' := match ss_pump s with Some k => stopPump k s' | None => s' end in
    foldl (fun s kv => stopPump kv.2 s) s' (order (ss_subs s)).

Definition str_le (a b : string) : Prop := String.leb a b = true.
#[export] Instance str_le_dec : RelDecision str_le.
Proof. intros a b. unfold str_le. apply _. Defined.

Definition ss_Status (order : gmap string nat -> list (string * nat)) (s : streamServer) : StatusT :=
  if bool_decide (ss_mode s = ModeMultiplex) then
    mkStatusT (bool_decide (0 < size (ss_subs s))%nat) (ss_peer s) (merge_sort str_le (order (ss_subs s)).*1)
  else mkStatusT (bool_decide (is_Some (ss_pump s))) (ss_peer s) [].

Definition UpdateSubAttrs (order : gmap string nat -> list (string * nat)) (attrs : PortAttrs) (s : streamServer) (sw : Switch)
    : streamServer * Switch * list effect :=
  let '(sw, fx) := foldl (fun acc kv =>
      let '(sw, _, fx) := UpdatePortAttrs kv.1 attrs acc.1 in (sw, acc.2 ++ fx)) (sw, []) (order (ss_subs s)) in
  (ss_set_attrs attrs s, sw, fx).

(** [Send]: the pump that gets the frame. *)
Definition ss_Send (s : streamServer) : option nat := ss_pump s.

(** ** Runs *)

Inductive srv_step (s : streamServer) (sw : Switch) : streamServer -> Switch -> Prop :=
  | SrvAccept a s' r : ss_accept s = AcceptIdle -> acceptLoop a s = Some (s', r) -> srv_step s sw s' sw
  | SrvKicked peer : ss_accept s = AcceptKicked peer -> srv_step s sw (adopt2 peer s).1 sw
  | SrvAdd subID n k attrs s' sw' r fx : ss_accept s = AcceptAdding subID n k attrs ->
      addSub2 subID n k attrs s sw = (s', sw', r, fx) -> srv_step s sw s' sw'
  | SrvFail k : (forall subID n attrs, ss_accept s <> AcceptAdding subID n k attrs) -> srv_step s sw (stopPump k s) sw
  | SrvExit k l l' s' sw' fx : ss_exits s = l ++ k :: l' ->
      runExit k (ss_set_live (ss_live s) (l ++ l') s) sw = (s', sw', fx) -> srv_step s sw s' sw'
  | SrvUpdate order attrs s' sw' fx : UpdateSubAttrs order attrs s sw = (s', sw', fx) -> srv_step s sw s' sw'
  | SrvClose order : range_order order -> srv_step s sw (ss_Close order s) sw
  | SrvSwitch sw' : srv_step s sw s sw'.

Inductive srv_reachable : streamServer -> Switch -> Prop :=
  | SrvNew id mode attrs sw : srv_reachable (newStreamServer id mode attrs) sw
  | SrvStep s sw s' sw' : srv_reachable s sw -> srv_step s sw s' sw' -> srv_reachable s' sw'.

(** * Datagram servers *)

Record dgramServer := mkDgram {
  ds_id : string;
  ds_mode : string;
  ds_peer : option netAddr;
  ds_closed : bool
}.

Definition newDgramServer (id mode : string) : dgramServer := mkDgram id mode None false.

(** One turn of [rxLoop]: the frame delivered, if any.  [ReadFrom] of a unix
    socket answers with a nil address for a sender that bound no name of its
    own; the comparison with the peer calls a method of it. *)
Definition ds_rx (a : option netAddr) (datagram : bytes) (s : dgramServer) : res (dgramServer * option bytes) :=
  let take_peer := mkDgram (ds_id s) (ds_mode s) a (ds_closed s) in
  match ds_peer s with
  | None => Ret (take_peer, Some (ReadDatagram datagram))
  | Some p =>
      match a with
      | None => Panic
      | Some a =>
          if negb (bool_decide (na_String a = na_String p)) then
            if bool_decide (ds_mode s = ModeReplace) then Ret (take_peer, Some (ReadDatagram datagram)) else Ret (s, None)
          else Ret (s, Some (ReadDatagram datagram))
      end
  end.

(** [rxLoop] on the datagrams the socket receives until it is closed: the
    frames delivered to the switch. *)
Fixpoint ds_rxLoop (ds : list (option netAddr * bytes)) (s : dgramServer) : res (dgramServer * list bytes) :=
  match ds with
  | [] => Ret (s, [])
  | (a, d) :: ds' =>
      x ← ds_rx a d s;
      y ← ds_rxLoop ds' x.1;
      Ret (y.1, option_list x.2 ++ y.2)
  end.

(** [Send], over the socket's [WriteTo]. *)
Definition ds_Send (writeTo : bytes -> netAddr -> option goerr) (frame : bytes) (s : dgramServer) : bool :=
  match ds_peer s with
  | None => false
  | Some peer => match writeTo frame peer with None => true | Some _ => false end
  end.

Definition ds_Close (s : dgramServer) : dgramServer * list rfx :=
  if ds_closed s then (s, []) else (mkDgram (ds_id s) (ds_mode s) (ds_peer s) true, [Release RSocket]).

Definition ds_Status (s : dgramServer) : StatusT :=
  mkStatusT (bool_decide (is_Some (ds_peer s))) (match ds_peer s with Some p => na_String p | None => EmptyString end) [].

(** * Construction *)

Inductive serverPort : Type :=
  | SStream (s : streamServer)
  | SDgram (s : dgramServer).

Definition checkMode (transport mode : string) : result string :=
  if bool_decide (mode = ModeReplace) || bool_decide (mode = ModeOccupy) then Ok mode
  else if bool_decide (mode = ModeMultiplex) then
    if isDgramTransport transport then Err (Errorf "multiplex mode is not supported on datagram transports" [])
    else Ok mode
  else if is_empty mode then Ok ModeReplace
  else Err (Errorf "unknown replacing mode %q" [AStr mode]).

Definition NewServer (net : Net) (id transport listen mode : string) (attrs : PortAttrs) : result serverPort * list rfx :=
  match validateTransport transport with
  | Some e => (Err e, [])
  | None =>
      match checkMode transport mode with
      | Err e => (Err e, [])
      | Ok mode =>
          let '(e, fx) := if isDgramTransport transport then listenPacket net transport listen
                          else listenStream net transport listen in
          match e with
          | Some e => (Err (Errorf "listen %s %s: %w" [AStr transport; AStr listen; AErr e]), fx)
          | None =>
              (Ok (if isDgramTransport transport then SDgram (newDgramServer id mode)
                   else SStream (newStreamServer id mode attrs)), fx)
          end
      end
  end.
