(* ===== verification/ServerProps.v ===== *)
(** Theorems about ports: sessions of server ports, the senders of datagram
    ports, and that constructors which fail and ports that are closed give back
    what they hold. *)
From S2P Require Import Prelude Vlan Fdb Protect SwitchState Stp Switch Lease GoText Framing Ports Server.
From stdpp Require Import sorting pretty.

#[local] Open Scope Z_scope.

(** * Sessions of a stream server *)

Record srv_ok (s : streamServer) : Prop := {
  so_made : forall k, k ∈ ss_live s \/ k ∈ ss_exits s -> (k < ss_next s)%nat /\ is_Some (ss_callbacks s !! k);
  so_cbs : forall k, (ss_next s <= k)%nat -> ss_callbacks s !! k = None;
  so_once : NoDup (ss_exits s) /\ forall k, k ∈ ss_exits s -> k ∉ ss_live s;
  so_closed : ss_closed s = true -> ss_live s = ∅ /\ ss_pump s = None;
  so_kicked : forall peer, ss_accept s = AcceptKicked peer -> ss_pump s = None /\ ss_live s = ∅ /\ ss_mode s <> ModeMultiplex;
  so_adding : forall subID n k a, ss_accept s = AcceptAdding subID n k a ->
    ss_mode s = ModeMultiplex /\
    (ss_closed s = false -> k ∈ ss_live s /\ ss_subs s !! subID = Some k /\ ss_callbacks s !! k = Some (ExitSub subID n));
  so_subs : forall subID k, ss_subs s !! subID = Some k ->
    exists n peer, ss_callbacks s !! k = Some (ExitSub subID n) /\ subID = ss_id s +:+ "@" +:+ peer;
  so_pending : ss_closed s = false -> forall k subID n, k ∈ ss_exits s -> ss_callbacks s !! k = Some (ExitSub subID n) ->
    ss_subs s !! subID = Some k;
  so_single : ss_mode s <> ModeMultiplex -> ss_subs s = ∅ /\ (forall k, k ∈ ss_live s -> ss_pump s = Some k) /\
    forall k cb, ss_callbacks s !! k = Some cb -> cb = ExitAdopted;
  so_multi : ss_mode s = ModeMultiplex -> ss_pump s = None /\
    forall k, k ∈ ss_live s -> exists subID, ss_subs s !! subID = Some k
}.

Lemma srv_ok_new id mode attrs : srv_ok (newStreamServer id mode attrs).
Proof. split; cbn; try done; try set_solver. split; [constructor | set_solver]. Qed.

(** Stopping pumps. *)
Lemma stopPump_fields k s :
  ss_mode (stopPump k s) = ss_mode s /\ ss_subs (stopPump k s) = ss_subs s /\ ss_pump (stopPump k s) = ss_pump s /\
  ss_callbacks (stopPump k s) = ss_callbacks s /\ ss_closed (stopPump k s) = ss_closed s /\
  ss_accept (stopPump k s) = ss_accept s /\ ss_next (stopPump k s) = ss_next s /\ ss_id (stopPump k s) = ss_id s /\
  ss_live (stopPump k s) = ss_live s ∖ {[k]} /\
  ss_exits (stopPump k s) = ss_exits s ++ (if bool_decide (k ∈ ss_live s) then [k] else []).
Proof.
  unfold stopPump. destruct (bool_decide_reflect (k ∈ ss_live s)); cbn; split_and!; try done; [set_solver | by rewrite app_nil_r].
Qed.

(** A server whose pumps may be stopped: everything but the bookkeeping of the
    accept loop. *)
Lemma stopPump_once k s :
  NoDup (ss_exits s) /\ (forall j, j ∈ ss_exits s -> j ∉ ss_live s) ->
  NoDup (ss_exits (stopPump k s)) /\ (forall j, j ∈ ss_exits (stopPump k s) -> j ∉ ss_live (stopPump k s)).
Proof.
  intros [Hn Hd]. destruct (stopPump_fields k s) as (_ & _ & _ & _ & _ & _ & _ & _ & -> & ->).
  destruct (bool_decide_reflect (k ∈ ss_live s)) as [Hk|Hk]; rewrite ?app_nil_r.
  - split; [apply NoDup_app; split_and!; [done | set_solver | apply NoDup_singleton]|]. set_solver.
  - split; [done | set_solver].
Qed.

Lemma srv_ok_stop k s :
  srv_ok s -> (forall subID n attrs, ss_accept s = AcceptAdding subID n k attrs -> ss_closed s = true) ->
  srv_ok (stopPump k s).
Proof.
  intros [] Hna. pose proof (stopPump_once k s so_once0) as Honce.
  destruct (stopPump_fields k s) as (E1 & E2 & E3 & E4 & E5 & E6 & E7 & E8 & E9 & E10).
  assert (Hex : forall j, j ∈ ss_exits (stopPump k s) -> j ∈ ss_exits s \/ j = k /\ k ∈ ss_live s).
  { intros j. rewrite E10. destruct (bool_decide_reflect (k ∈ ss_live s)); set_solver. }
  split; rewrite ?E1, ?E2, ?E3, ?E4, ?E5, ?E6, ?E7, ?E8; try done.
  - intros j [Hj|Hj]; [rewrite E9 in Hj; apply so_made0; set_solver|]. apply Hex in Hj. apply so_made0. destruct Hj as [|[-> ?]]; auto.
  - intros Hc. rewrite E9. destruct (so_closed0 Hc). set_solver.
  - intros peer Hp. rewrite E9. destruct (so_kicked0 peer Hp) as (? & ? & ?). set_solver.
  - intros subID n j a Ha. destruct (so_adding0 _ _ _ _ Ha) as [? Hlive]. split; [done|]. intros Hc.
    destruct (Hlive Hc) as (? & ? & ?). split_and!; try done. rewrite E9. apply elem_of_difference. split; [done|].
    intros ->%elem_of_singleton. apply Hna in Ha. congruence.
  - intros Hc j subID n Hj Hcb. apply Hex in Hj as [Hj|[-> Hk]]; [by eapply so_pending0|].
    destruct (decide (ss_mode s = ModeMultiplex)) as [Hm|Hm].
    + destruct (so_multi0 Hm) as [_ Hl]. destruct (Hl k Hk) as (id' & Hid). destruct (so_subs0 _ _ Hid) as (n' & p & Hcb' & _).
      rewrite Hcb in Hcb'. by injection Hcb' as <- _.
    + destruct (so_single0 Hm) as (_ & _ & Hall). by apply Hall in Hcb.
  - intros Hm. destruct (so_single0 Hm) as (? & Hl & ?). split_and!; try done. intros j Hj. rewrite E9 in Hj. set_solver.
  - intros Hm. destruct (so_multi0 Hm) as [? Hl]. split; [done|]. intros j Hj. rewrite E9 in Hj. set_solver.
Qed.

(** Stopping a list of pumps. *)
Lemma stopAll_fields (l : list (string * nat)) : forall s,
  let s' := foldl (fun s kv => stopPump kv.2 s) s l in
  ss_mode s' = ss_mode s /\ ss_subs s' = ss_subs s /\ ss_pump s' = ss_pump s /\
  ss_callbacks s' = ss_callbacks s /\ ss_closed s' = ss_closed s /\
  ss_accept s' = ss_accept s /\ ss_next s' = ss_next s /\ ss_id s' = ss_id s /\
  ss_live s' = ss_live s ∖ list_to_set l.*2 /\
  (forall k, k ∈ ss_exits s' -> k ∈ ss_exits s \/ k ∈ ss_live s) /\
  (NoDup (ss_exits s) /\ (forall j, j ∈ ss_exits s -> j ∉ ss_live s) ->
   NoDup (ss_exits s') /\ (forall j, j ∈ ss_exits s' -> j ∉ ss_live s')).
Proof.
  induction l as [|[id k] l IH]; intros s; cbn [foldl snd]; cbv zeta.
  { split_and!; try done; [set_solver | auto]. }
  specialize (IH (stopPump k s)). cbv zeta in IH.
  destruct (stopPump_fields k s) as (E1 & E2 & E3 & E4 & E5 & E6 & E7 & E8 & E9 & E10).
  rewrite E1, E2, E3, E4, E5, E6, E7, E8, E9 in IH. destruct IH as (H1 & H2 & H3 & H4 & H5 & H6 & H7 & H8 & H9 & H10 & H11).
  split_and!; try done.
  - rewrite H9. rewrite fmap_cons. cbn [list_to_set snd]. set_solver.
  - intros j [Hj|Hj]%H10; [|set_solver]. rewrite E10 in Hj. destruct (bool_decide_reflect (k ∈ ss_live s)); set_solver.
  - intros Ho. apply H11. rewrite <- E9. by apply stopPump_once.
Qed.

Lemma srv_ok_Close order s : range_order order -> srv_ok s -> srv_ok (ss_Close order s).
Proof.
  intros Ho Hok. unfold ss_Close. destruct (ss_closed s) eqn:Ec; [done|].
  set (s1 := match ss_pump s with Some k => stopPump k (ss_set_closed s) | None => ss_set_closed s end).
  assert (F : ss_mode s1 = ss_mode s /\ ss_subs s1 = ss_subs s /\ ss_pump s1 = None /\ ss_callbacks s1 = ss_callbacks s /\
    ss_closed s1 = true /\ ss_accept s1 = ss_accept s /\ ss_next s1 = ss_next s /\ ss_id s1 = ss_id s /\
    ss_live s1 = ss_live s ∖ (match ss_pump s with Some k => {[k]} | None => ∅ end) /\
    (forall k, k ∈ ss_exits s1 -> k ∈ ss_exits s \/ k ∈ ss_live s) /\
    NoDup (ss_exits s1) /\ (forall j, j ∈ ss_exits s1 -> j ∉ ss_live s1)).
  { unfold s1. destruct (ss_pump s) as [k|].
    - destruct (stopPump_fields k (ss_set_closed s)) as (E1 & E2 & E3 & E4 & E5 & E6 & E7 & E8 & E9 & E10).
      split_and!; try done; [|apply stopPump_once, Hok..]. intros j. rewrite E10. cbn [ss_live ss_exits ss_set_closed].
      destruct (bool_decide_reflect (k ∈ ss_live s)); set_solver.
    - split_and!; try done; [cbn; set_solver | auto | apply Hok..]. }
  destruct F as (F1 & F2 & F3 & F4 & F5 & F6 & F7 & F8 & F9 & F10 & F11).
  pose proof (stopAll_fields (order (ss_subs s)) s1) as G. cbv zeta in G. set (s2 := foldl _ s1 _) in *.
  rewrite F1, F2, F3, F4, F5, F6, F7, F8, F9 in G. destruct G as (G1 & G2 & G3 & G4 & G5 & G6 & G7 & G8 & G9 & G10 & G11).
  destruct Hok. assert (Hlive : ss_live s2 = ∅).
  { rewrite G9. apply set_eq. intros k. rewrite elem_of_empty. split; [|done].
    intros [[Hk Hp]%elem_of_difference Hs]%elem_of_difference.
    destruct (decide (ss_mode s = ModeMultiplex)) as [Hm|Hm].
    - destruct (so_multi0 Hm) as [_ Hl]. destruct (Hl k Hk) as [subID Hsub]. apply Hs, elem_of_list_to_set, list_elem_of_fmap.
      exists (subID, k). split; [done|]. by apply elem_of_range.
    - destruct (so_single0 Hm) as (_ & Hl & _). rewrite (Hl k Hk) in Hp. set_solver. }
  split; rewrite ?G1, ?G2, ?G3, ?G4, ?G5, ?G6, ?G7, ?G8, ?Hlive; try done.
  - intros k [Hk|Hk]; [set_solver|]. apply G10 in Hk as [Hk|Hk]; [apply F10 in Hk; apply so_made0; tauto|].
    apply so_made0. left. set_solver.
  - rewrite F9 in F11. destruct (G11 F11) as [? _]. split; [done | set_solver].
  - intros peer Hp. by destruct (so_kicked0 _ Hp) as (_ & _ & ?).
  - intros subID n k a Ha. by destruct (so_adding0 _ _ _ _ Ha).
  - intros Hm. destruct (so_single0 Hm) as (? & _ & ?). split_and!; try done; set_solver.
Qed.

(** A new pump of a server that has none. *)
Lemma srv_ok_install peer s :
  srv_ok s -> ss_closed s = false -> ss_pump s = None -> ss_mode s <> ModeMultiplex -> srv_ok (install peer s).1.
Proof.
  intros [] Hc Hp Hm. destruct (so_single0 Hm) as (Hs & Hl & Hcb).
  assert (Hlive : ss_live s = ∅) by (apply set_eq; intros k; split; [intros Hk; by rewrite (Hl k Hk) in Hp | set_solver]).
  unfold install. cbn [fst]. split; cbn [ss_live ss_exits ss_next ss_callbacks ss_closed ss_pump ss_accept ss_mode ss_subs ss_id ss_set_accept ss_port ss_newPump].
  - intros k Hk. assert (Hk' : k = ss_next s \/ k ∈ ss_exits s) by set_solver.
    destruct Hk' as [->|Hk']; [split; [lia|]; rewrite lookup_insert_eq; by eexists|].
    destruct (so_made0 k) as [? ?]; [by right|]. split; [lia|]. rewrite lookup_insert_ne by lia. done.
  - intros k Hk. rewrite lookup_insert_ne by lia. apply so_cbs0. lia.
  - destruct so_once0 as [? _]. split; [done|]. intros k Hk. destruct (so_made0 k) as [? _]; [by right|]. rewrite Hlive. set_unfold. lia.
  - congruence.
  - done.
  - done.
  - rewrite Hs. intros subID k. by rewrite lookup_empty.
  - intros _ k subID n Hk. destruct (so_made0 k) as [? _]; [by right|]. rewrite lookup_insert_ne by lia. by apply so_pending0.
  - intros _. split_and!; [done | rewrite Hlive; set_solver |]. intros k cb. rewrite lookup_insert. case_decide; [by intros [= <-] | apply Hcb].
  - done.
Qed.

Lemma srv_ok_idle s : srv_ok s -> srv_ok (ss_set_accept AcceptIdle s).
Proof. intros []. split; cbn; try done; by intros ???? || by intros ?. Qed.

Lemma srv_ok_adopt1 peer kick s :
  srv_ok s -> ss_accept s = AcceptIdle -> ss_mode s <> ModeMultiplex -> srv_ok (adopt1 peer kick s).1.
Proof.
  intros Hok Hi Hm. unfold adopt1. destruct (ss_closed s) eqn:Ec; [done|].
  destruct (ss_pump s) as [old|] eqn:Hp; [|by apply srv_ok_install]. destruct (negb kick); [done|]. cbn [fst].
  destruct Hok. destruct (so_single0 Hm) as (Hs & Hl & Hcb).
  destruct (stopPump_fields old (ss_port None (ss_peer s) s)) as (E1 & E2 & E3 & E4 & E5 & E6 & E7 & E8 & E9 & E10).
  pose proof (stopPump_once old (ss_port None (ss_peer s) s) so_once0) as Honce.
  set (s1 := stopPump old (ss_port None (ss_peer s) s)) in *.
  cbn [ss_live ss_exits ss_next ss_callbacks ss_closed ss_pump ss_accept ss_mode ss_subs ss_id ss_port] in *.
  assert (Hlive : ss_live s1 = ∅) by (rewrite E9; apply set_eq; intros k; set_unfold; split; [|done]; intros [Hk Hn]; apply Hl in Hk; congruence).
  assert (Hex : forall j, j ∈ ss_exits s1 -> j ∈ ss_exits s \/ j = old /\ old ∈ ss_live s).
  { intros j. rewrite E10. destruct (bool_decide_reflect (old ∈ ss_live s)); set_solver. }
  split; cbn [ss_live ss_exits ss_next ss_callbacks ss_closed ss_pump ss_accept ss_mode ss_subs ss_id ss_set_accept];
    rewrite ?E1, ?E2, ?E3, ?E4, ?E5, ?E6, ?E7, ?E8, ?Hlive; try done.
  - intros k [Hk|Hk]; [set_solver|]. apply Hex in Hk. apply so_made0. destruct Hk as [|[-> ?]]; auto.
  - destruct Honce. split; [done | set_solver].
  - intros _ k subID n _ Hk. by apply Hcb in Hk.
Qed.

Lemma srv_ok_adopt2 peer s : srv_ok s -> ss_accept s = AcceptKicked peer -> srv_ok (adopt2 peer s).1.
Proof.
  intros Hok Ha. unfold adopt2. destruct (ss_closed s) eqn:Ec; [by apply srv_ok_idle|]. cbn [orb].
  destruct (so_kicked _ Hok _ Ha) as (Hp & _ & Hm). rewrite Hp. cbn. by apply srv_ok_install.
Qed.

(** ** Names of anonymous clients *)

Lemma allocAnonFrom_spec fuel : forall i taken,
  match allocAnonFrom fuel i taken with
  | Some n => i <= n /\ n ∉ taken /\ forall j, i <= j < n -> j ∈ taken
  | None => forall j, i <= j < i + Z.of_nat fuel -> j ∈ taken
  end.
Proof.
  induction fuel as [|fuel IH]; intros i taken; cbn [allocAnonFrom]; [lia|].
  destruct (bool_decide_reflect (i ∈ taken)) as [Hi|Hi]; [|split_and!; [lia | done | lia]].
  specialize (IH (i + 1) taken). destruct (allocAnonFrom fuel (i + 1) taken) as [n|].
  - destruct IH as (H1 & H2 & H3). split_and!; [lia | done|]. intros j Hj. destruct (decide (j = i)) as [->|]; [done|]. apply H3. lia.
  - intros j Hj. destruct (decide (j = i)) as [->|]; [done|]. apply IH. lia.
Qed.

(** The loop ends, with the least number that is free. *)
Lemma allocAnon_spec taken :
  exists n, allocAnon taken = Some n /\ 0 <= n /\ n ∉ taken /\ forall j, 0 <= j < n -> j ∈ taken.
Proof.
  unfold allocAnon. pose proof (allocAnonFrom_spec (S (size taken)) 0 taken) as H.
  destruct (allocAnonFrom _ 0 taken) as [n|]; [exists n; naive_solver|]. exfalso.
  assert (Hsub : list_to_set (seqZ 0 (Z.of_nat (S (size taken)))) ⊆ taken).
  { intros j. rewrite elem_of_list_to_set, elem_of_seqZ. apply H. }
  apply subseteq_size in Hsub. rewrite size_list_to_set in Hsub by apply NoDup_seqZ. rewrite length_seqZ in Hsub. lia.
Qed.

Lemma srv_ok_addSub1 peer s s' r :
  srv_ok s -> ss_accept s = AcceptIdle -> ss_mode s = ModeMultiplex -> addSub1 peer s = Some (s', r) -> srv_ok s'.
Proof.
  intros Hok Hi Hm. unfold addSub1. destruct (ss_closed s) eqn:Ec; [by intros [= <- <-]|].
  assert (Hgen : forall n p anon subID, subID = ss_id s +:+ "@" +:+ p -> ss_subs s !! subID = None ->
    srv_ok (ss_set_accept (AcceptAdding subID n (ss_next s) (ss_attrs s))
      (ss_set_subs (<[subID := ss_next s]> (ss_subs s)) anon (ss_newPump (ExitSub subID n) s)))).
  { intros n p anon subID Hid Hnew. destruct Hok.
    split; cbn [ss_live ss_exits ss_next ss_callbacks ss_closed ss_pump ss_accept ss_mode ss_subs ss_id ss_set_accept ss_set_subs ss_newPump].
    - intros k Hk. assert (Hk' : k = ss_next s \/ k ∈ ss_live s \/ k ∈ ss_exits s) by set_solver.
      destruct Hk' as [->|Hk']; [split; [lia|]; rewrite lookup_insert_eq; by eexists|].
      destruct (so_made0 k Hk') as [? ?]. split; [lia|]. rewrite lookup_insert_ne by lia. done.
    - intros k Hk. rewrite lookup_insert_ne by lia. apply so_cbs0. lia.
    - destruct so_once0 as [? Hd]. split; [done|]. intros k Hk. destruct (so_made0 k) as [? _]; [by right|].
      specialize (Hd k Hk). set_unfold. intros [->|?]; [lia | done].
    - congruence.
    - done.
    - intros ???? [= <- <- <- _]. split; [done|]. intros _. rewrite !lookup_insert_eq. split_and!; [set_solver | done | done].
    - intros i k. rewrite lookup_insert. case_decide as E.
      + intros [= <-]. subst i. exists n, p. rewrite lookup_insert_eq. done.
      + intros Hk. destruct (so_subs0 _ _ Hk) as (n' & p' & Hcb & ?). exists n', p'. split; [|done].
        rewrite lookup_insert_ne; [done|]. intros <-. by rewrite so_cbs0 in Hcb by lia.
    - intros _ k i n' Hk. destruct (so_made0 k) as [? _]; [by right|]. rewrite lookup_insert_ne by lia. intros Hcb.
      assert (Hs := so_pending0 Ec k i n' Hk Hcb). rewrite lookup_insert_ne; [done|]. intros <-. congruence.
    - done.
    - intros _. destruct (so_multi0 Hm) as [? Hl]. split; [done|]. intros k Hk.
      assert (Hk' : k = ss_next s \/ k ∈ ss_live s) by set_solver. destruct Hk' as [->|Hk'].
      + exists subID. by rewrite lookup_insert_eq.
      + destruct (Hl k Hk') as [i Hs]. exists i. rewrite lookup_insert_ne; [done|]. intros <-. congruence. }
  destruct (is_empty peer).
  - destruct (allocAnon_spec (ss_anon s)) as (n & -> & _). cbn [mbind option_bind].
    destruct (ss_subs s !! _) eqn:Es; intros [= <- <-]; [done|]. by eapply Hgen.
  - destruct (ss_subs s !! _) eqn:Es; intros [= <- <-]; [done|]. by eapply Hgen.
Qed.

(** Dropping the pump and the name of a connection that is gone. *)
Lemma srv_ok_addSub2 subID n k a s sw s' sw' r fx :
  srv_ok s -> ss_accept s = AcceptAdding subID n k a -> addSub2 subID n k a s sw = (s', sw', r, fx) -> srv_ok s'.
Proof.
  intros Hok Ha. unfold addSub2. destruct (AddPort subID a sw) as [[sw1 [e|]] fx1]; intros [= <- <- <- <-]; [|by apply srv_ok_idle].
  destruct Hok. destruct (so_adding0 _ _ _ _ Ha) as [Hm Hlive].
  split; cbn [ss_live ss_exits ss_next ss_callbacks ss_closed ss_pump ss_accept ss_mode ss_subs ss_id ss_set_accept ss_set_subs ss_set_live]; try done.
  - intros j [Hj|Hj]; apply so_made0; set_solver.
  - destruct so_once0 as [? Hd]. split; [done|]. intros j Hj. specialize (Hd j Hj). set_solver.
  - intros Hc. destruct (so_closed0 Hc). set_solver.
  - intros i j [_ Hj]%lookup_delete_Some. by apply so_subs0.
  - intros Hc j i m Hj Hcb. destruct (Hlive Hc) as (Hkl & Hs & Hk). rewrite lookup_delete_ne; [by eapply so_pending0|].
    intros <-. assert (Hs' := so_pending0 Hc _ _ _ Hj Hcb). rewrite Hs in Hs'. injection Hs' as <-. by apply (proj2 so_once0 k).
  - intros _. destruct (so_multi0 Hm) as [? Hl]. split; [done|]. intros j [Hj Hjk]%elem_of_difference.
    destruct (Hl j Hj) as [i Hi]. exists i. rewrite lookup_delete_ne; [done|]. intros <-.
    destruct (ss_closed s) eqn:Ec; [destruct (so_closed0 eq_refl); set_solver|].
    destruct (Hlive eq_refl) as (_ & Hs & _). rewrite Hi in Hs. injection Hs as ->. set_solver.
Qed.

(** Taking a callback off the list of those to run. *)
Lemma srv_ok_taken l k l' s :
  srv_ok s -> ss_exits s = l ++ k :: l' -> srv_ok (ss_set_live (ss_live s) (l ++ l') s) /\ k ∉ l ++ l' /\ k ∉ ss_live s.
Proof.
  intros [] He. assert (Hsub : forall j, j ∈ l ++ l' -> j ∈ ss_exits s) by (intros j; rewrite He; set_solver).
  destruct so_once0 as [Hn Hd]. assert (Hk : k ∈ ss_exits s) by (rewrite He; set_solver). rewrite He in Hn.
  assert (Hn' : NoDup (l ++ l') /\ k ∉ l ++ l').
  { apply NoDup_app in Hn as (N1 & N2 & [N3 N4]%NoDup_cons). split; [apply NoDup_app; split_and!; set_solver|].
    rewrite elem_of_app. intros [?|?]; [by apply (N2 k); [|set_solver] | done]. }
  destruct Hn' as [Hn1 Hn2]. split; [|split; [done | by apply Hd]]. split; cbn; try done.
  - intros j [Hj|Hj]; apply so_made0; auto.
  - split; [done|]. intros j Hj. by apply Hd, Hsub.
  - intros Hc j i n Hj. by apply so_pending0; auto.
Qed.

Lemma srv_ok_runExit k s sw s' sw' fx :
  srv_ok s -> k ∉ ss_live s -> k ∉ ss_exits s ->
  (ss_closed s = false -> forall subID n, ss_callbacks s !! k = Some (ExitSub subID n) -> ss_subs s !! subID = Some k) ->
  runExit k s sw = (s', sw', fx) -> srv_ok s'.
Proof.
  intros Hok Hkl Hke Hsub. unfold runExit. destruct (ss_callbacks s !! k) as [[|subID n]|] eqn:Hcb; [| |by intros [= <- <- <-]].
  - destruct (ss_pump s) as [j|] eqn:Hp; [|by intros [= <- <- <-]].
    destruct (bool_decide_reflect (j ∈ ss_live s)) as [Hj|Hj]; cbn [negb]; [by intros [= <- <- <-]|].
    destruct (NotifyDown (ss_id s) sw). intros [= <- <- <-]. destruct Hok. split; cbn; try done.
    + intros Hc. split; [by destruct (so_closed0 Hc) | done].
    + intros peer Ha. destruct (so_kicked0 _ Ha) as (? & ? & ?). by split_and!.
    + intros Hm. destruct (so_single0 Hm) as (? & Hl & ?). split_and!; try done. intros i Hi. apply Hl in Hi as Hi'. congruence.
    + intros Hm. split; [done | by destruct (so_multi0 Hm)].
  - destruct (RemovePort subID sw). intros [= <- <- <-]. destruct Hok.
    assert (Hne : forall j i, ss_closed s = false -> ss_subs s !! i = Some j -> j <> k -> i <> subID).
    { intros j i Hc Hi Hjk ->. rewrite (Hsub Hc _ _ eq_refl) in Hi. congruence. }
    split; cbn; try done.
    + intros i m j a Ha. destruct (so_adding0 _ _ _ _ Ha) as [? Hlive]. split; [done|]. intros Hc.
      destruct (Hlive Hc) as (? & ? & ?). split_and!; try done. rewrite lookup_delete_ne; [done|]. symmetry. eapply Hne; [done..|].
      by intros ->.
    + intros i j [_ Hj]%lookup_delete_Some. by apply so_subs0.
    + intros Hc j i m Hj Hcb'. rewrite lookup_delete_ne; [by eapply so_pending0|]. symmetry. eapply Hne; [done | by eapply so_pending0|].
      by intros ->.
    + intros Hm. destruct (so_single0 Hm) as (_ & _ & Hall). by apply Hall in Hcb.
    + intros Hm. destruct (so_multi0 Hm) as [? Hl]. split; [done|]. intros j Hj. destruct (Hl j Hj) as [i Hi]. exists i.
      destruct (ss_closed s) eqn:Ec; [destruct (so_closed0 eq_refl); set_solver|].
      rewrite lookup_delete_ne; [done|]. symmetry. eapply Hne; [done..|]. by intros ->.
Qed.

Lemma srv_ok_step s sw s' sw' : srv_ok s -> srv_step s sw s' sw' -> srv_ok s'.
Proof.
  intros Hok [a s1 r Hi Hacc|peer Ha|subID n k a s1 sw1 r fx Ha Hadd|k Hna|k l l' s1 sw1 fx He Hr|order attrs s1 sw1 fx Hu|order Ho|sw1].
  - unfold acceptLoop in Hacc.
    destruct (bool_decide_reflect (ss_mode s = ModeReplace)) as [Hm|_].
    { injection Hacc as Hacc. rewrite (surjective_pairing (adopt1 _ _ _)) in Hacc. injection Hacc as <- _.
      apply srv_ok_adopt1; [done..|]. by rewrite Hm. }
    destruct (bool_decide_reflect (ss_mode s = ModeOccupy)) as [Hm|_].
    { injection Hacc as Hacc. rewrite (surjective_pairing (adopt1 _ _ _)) in Hacc. injection Hacc as <- _.
      apply srv_ok_adopt1; [done..|]. by rewrite Hm. }
    destruct (bool_decide_reflect (ss_mode s = ModeMultiplex)) as [Hm|_]; [by eapply srv_ok_addSub1 | by simplify_eq].
  - by apply srv_ok_adopt2.
  - by eapply srv_ok_addSub2.
  - apply srv_ok_stop; [done|]. intros subID n attrs Ha. by destruct (Hna _ _ _ Ha).
  - destruct (srv_ok_taken l k l' s Hok He) as (Hok' & Hk1 & Hk2). eapply srv_ok_runExit; [exact Hok' | exact Hk2 | exact Hk1 | | exact Hr].
    cbn. intros Hc subID n Hcb. eapply so_pending; [exact Hok | done | | exact Hcb]. rewrite He. set_solver.
  - unfold UpdateSubAttrs in Hu. destruct (foldl _ _ _) as [sw2 fx2]. injection Hu as <- <- <-. by destruct Hok.
  - by apply srv_ok_Close.
  - done.
Qed.

Lemma srv_reachable_ok s sw : srv_reachable s sw -> srv_ok s.
Proof. induction 1; [apply srv_ok_new | by eapply srv_ok_step]. Qed.


(** A client, and a second one that replaces it. *)
Definition tcp_peer (n : string) : netAddr := mkAddr "tcp" ("10.0.0.2:" +:+ n) AddrOther.
Definition plain_server (mode : string) : streamServer := newStreamServer "up" mode (plainAttrs 0).
Definition accept_one (n : string) (s : streamServer) : streamServer :=
  match acceptLoop (Some (tcp_peer n)) s with Some (s', _) => s' | None => s end.
Definition empty_switch : Switch := New [].

Definition two_clients : streamServer := (adopt2 "10.0.0.2:2" (accept_one "2" (accept_one "1" (plain_server ModeReplace)))).1.

Lemma two_clients_reach : srv_reachable two_clients empty_switch.
Proof.
  apply (SrvStep (accept_one "2" (accept_one "1" (plain_server ModeReplace))) empty_switch); [|by apply SrvKicked].
  apply (SrvStep (accept_one "1" (plain_server ModeReplace)) empty_switch); [|by eapply (SrvAccept _ _ (Some (tcp_peer "2")))].
  apply (SrvStep (plain_server ModeReplace) empty_switch); [apply SrvNew | by eapply (SrvAccept _ _ (Some (tcp_peer "1")))].
Qed.


(** The accept loop registers a subport after the port was closed: closing runs
    between the two halves of [addSub], the callback of the stopped pump finds
    nothing to remove, and the switch is left with a port that nobody owns. *)
Lemma orphan_subport :
  exists s sw, srv_reachable s sw /\ ss_closed s = true /\ ss_live s = ∅ /\ ss_exits s = [] /\ ss_accept s = AcceptIdle /\
    ss_subs s = ∅ /\ is_Some (ports sw !! "up@10.0.0.2:1").
Proof.
  set (s1 := accept_one "1" (plain_server ModeMultiplex)). set (s2 := ss_Close map_to_list s1).
  set (s3 := (runExit 0 (ss_set_live (ss_live s2) [] s2) empty_switch).1.1).
  set (s4 := addSub2 "up@10.0.0.2:1" None 0 (plainAttrs 0) s3 empty_switch).
  exists s4.1.1.1, s4.1.1.2. split; [|vm_compute; split_and!; try reflexivity; by eexists].
  apply (SrvStep s3 empty_switch). 2: { eapply (SrvAdd _ _ "up@10.0.0.2:1" None 0 (plainAttrs 0)); by vm_compute. }
  apply (SrvStep s2 empty_switch). 2: { eapply (SrvExit _ _ 0 [] []); by vm_compute. }
  apply (SrvStep s1 empty_switch). 2: { apply SrvClose. by intros m. }
  apply (SrvStep (plain_server ModeMultiplex) empty_switch); [apply SrvNew|]. by eapply (SrvAccept _ _ (Some (tcp_peer "1"))).
Qed.

(** * Datagram servers *)

#[local] Opaque ReadDatagram.

(** A sender without an address after one that has one. *)
Definition unnamed_after_named (ds : list (option netAddr * bytes)) : Prop :=
  exists l a d l', ds = l ++ (Some a, d) :: l' /\ None ∈ l'.*1.

Definition same_sender (p : option netAddr) (x : option netAddr * bytes) : Prop :=
  match x.1 with None => True | Some a => Some (na_String a) = na_String <$> p end.
#[local] Instance same_sender_dec p x : Decision (same_sender p x).
Proof. unfold same_sender. destruct x as [[a|] d]; apply _. Defined.

(** The sender a server with a peer listens to at the end. *)
Definition peer_after (mode : string) (p : option netAddr) (ds : list (option netAddr * bytes)) : option netAddr :=
  if bool_decide (mode = ModeReplace) then (match last (omap fst ds) with Some a => Some a | None => p end)
  else (match p with Some a => Some a | None => head (omap fst ds) end).

Definition accepted_from (mode : string) (p : option netAddr) (ds : list (option netAddr * bytes)) : list bytes :=
  ReadDatagram ∘ snd <$> (if bool_decide (mode = ModeReplace) then ds else filter (same_sender (peer_after mode p ds)) ds).

Lemma ds_rx_named p a d s :
  ds_peer s = Some p -> exists s', ds_rx (Some a) d s =
    Ret (s', if bool_decide (ds_mode s = ModeReplace) then Some (ReadDatagram d)
             else if bool_decide (na_String a = na_String p) then Some (ReadDatagram d) else None) /\
  ds_mode s' = ds_mode s /\
  exists q, ds_peer s' = Some q /\ na_String q = na_String (if bool_decide (ds_mode s = ModeReplace) then a else p).
Proof.
  intros Hp. unfold ds_rx. rewrite Hp. case_bool_decide as E; cbn [negb].
  - exists s. destruct (bool_decide (ds_mode s = ModeReplace)); eauto 10.
  - destruct (bool_decide (ds_mode s = ModeReplace)) eqn:Em; eexists; (split; [done|]); split; [done | eauto | done | eauto].
Qed.

(** A server with a peer. *)
Lemma ds_rxLoop_peer ds : forall p s, ds_peer s = Some p ->
  (ds_rxLoop ds s = Panic <-> None ∈ ds.*1) /\
  forall s' fs, ds_rxLoop ds s = Ret (s', fs) ->
    na_String <$> ds_peer s' = na_String <$> peer_after (ds_mode s) (Some p) ds /\ fs = accepted_from (ds_mode s) (Some p) ds.
Proof.
  induction ds as [|[[a|] d] ds IH]; intros p s Hp.
  - split; [split; [done | by intros ?%elem_of_nil]|]. intros s' fs [= <- <-]. rewrite Hp. unfold accepted_from, peer_after.
    split; [|]; by destruct (bool_decide _).
  - destruct (ds_rx_named p a d s Hp) as (s1 & E1 & Hm & q & Hq & Hqs). destruct (IH q s1 Hq) as [IHp IHr]. clear IH.
    cbn [ds_rxLoop]. rewrite E1. cbn [mbind res_bind fst snd fmap list_fmap].
    split.
    + rewrite elem_of_cons. destruct (ds_rxLoop ds s1); [|tauto]. split; [done|]. intros [?|H]; [done|]. by apply IHp in H.
    + intros s' fs E. destruct (ds_rxLoop ds s1) as [[s2 fs2]|]; [|done]. cbn in E. injection E as <- <-.
      destruct (IHr s2 fs2 eq_refl) as [Hpe ->]. rewrite Hm in *. rewrite Hpe. unfold accepted_from, peer_after in *.
      destruct (bool_decide (ds_mode s = ModeReplace)).
      * split; [|done]. cbn [omap list_omap fst]. rewrite last_cons. destruct (last (omap fst ds)); cbn; congruence.
      * split; [cbn; congruence|]. rewrite filter_cons.
        rewrite (list_filter_iff (same_sender (Some q)) (same_sender (Some p))).
        2: { intros [[b|] e]; unfold same_sender; cbn; [|done]. by rewrite Hqs. }
        assert (Hd : same_sender (Some p) (Some a, d) <-> na_String a = na_String p).
        { unfold same_sender. cbn. split; [by intros [= ->] | by intros ->]. }
        case_bool_decide as E; case_decide as E'; try done; [by destruct E'; apply Hd | by destruct E; apply Hd].
  - cbn [ds_rxLoop]. unfold ds_rx. rewrite Hp. cbn. split; [|done]. split; [|done]. intros _. by apply list_elem_of_here.
Qed.

(** The datagrams before the server has a peer. *)
Lemma ds_rxLoop_first a d ds s :
  ds_peer s = None ->
  ds_rxLoop ((a, d) :: ds) s =
    (y ← ds_rxLoop ds (mkDgram (ds_id s) (ds_mode s) a (ds_closed s)); Ret (y.1, ReadDatagram d :: y.2)).
Proof. intros Hp. cbn [ds_rxLoop]. unfold ds_rx. rewrite Hp. done. Qed.

(** C40: a datagram port serves one sender.  Take any sequence of datagrams, with
    the addresses the socket reports, at a server that has just been created.
    The receive loop crashes exactly when a datagram without a source address
    follows one that has one, which any local process can cause on a unix
    datagram port by sending from an unbound socket.  Otherwise, in replace mode
    every datagram is delivered and answers go to the latest sender; in the other
    mode answers go to the first sender that has an address, and of the
    datagrams that have one exactly those of that sender are delivered. *)
Theorem datagram_server id mode ds :
  (ds_rxLoop ds (newDgramServer id mode) = Panic <-> unnamed_after_named ds) /\
  forall s fs, ds_rxLoop ds (newDgramServer id mode) = Ret (s, fs) ->
    na_String <$> ds_peer s = na_String <$> peer_after mode None ds /\ fs = accepted_from mode None ds.
Proof.
  set (s := newDgramServer id mode). assert (Hs : ds_peer s = None /\ ds_mode s = mode) by done. clearbody s. destruct Hs as [Hp <-].
  revert s Hp. induction ds as [|[[a|] d] ds IH]; intros s Hp.
  - split; [split; [done | by intros (l & ? & ? & ? & ?%app_cons_not_nil & _)]|]. intros s' fs [= <- <-]. rewrite Hp.
    unfold accepted_from, peer_after. by destruct (bool_decide _).
  - rewrite (ds_rxLoop_first _ d ds s Hp). set (s1 := mkDgram _ _ _ _). destruct (ds_rxLoop_peer ds a s1 eq_refl) as [Hpn Hrt]. cbn [s1 ds_mode] in Hrt.
    split.
    + split.
      * destruct (ds_rxLoop ds s1); [done|]. intros _. exists [], a, d, ds. split; [done | by apply Hpn].
      * intros (l & b & e & l' & E & Hin). assert (H : None ∈ ds.*1).
        { destruct l as [|x l]; simplify_eq/=; [done|]. rewrite fmap_app. set_solver. }
        apply Hpn in H. by rewrite H.
    + intros s' fs E. destruct (ds_rxLoop ds s1) as [[s2 fs2]|]; [|done]. cbn in E. injection E as <- <-.
      destruct (Hrt s2 fs2 eq_refl) as [-> ->]. unfold accepted_from, peer_after. cbn [omap list_omap fst head].
      destruct (bool_decide (ds_mode s = ModeReplace)).
      * rewrite last_cons. by destruct (last (omap fst ds)).
      * split; [done|]. by rewrite filter_cons_True.
  - rewrite (ds_rxLoop_first _ d ds s Hp). set (s1 := mkDgram _ _ _ _). destruct (IH s1 eq_refl) as [Hpn Hrt]. clear IH. cbn [s1 ds_mode] in Hrt. split.
    + split.
      * destruct (ds_rxLoop ds s1); [done|]. intros _. destruct (proj1 Hpn eq_refl) as (l & b & e & l' & -> & Hin).
        by exists ((None, d) :: l), b, e, l'.
      * intros (l & b & e & l' & E & Hin). destruct l as [|x l]; simplify_eq/=.
        assert (H : unnamed_after_named (l ++ (Some b, e) :: l')) by by exists l, b, e, l'. apply Hpn in H. by rewrite H.
    + intros s' fs E. destruct (ds_rxLoop ds s1) as [[s2 fs2]|]; [|done]. cbn in E. injection E as <- <-.
      destruct (Hrt s2 fs2 eq_refl) as [-> ->]. unfold accepted_from, peer_after. cbn [omap list_omap fst].
      destruct (bool_decide (ds_mode s = ModeReplace)); [done|]. split; [done|]. by rewrite filter_cons_True.
Qed.

(** Two senders at a port in replace mode, and one without an address first. *)
Lemma datagram_server_witness :
  exists s, ds_rxLoop [(None, [1]); (Some (tcp_peer "1"), [2]); (Some (tcp_peer "2"), [3])] (newDgramServer "up" ModeReplace) = Ret (s, [[1]; [2]; [3]]) /\
    na_String <$> ds_peer s = Some "10.0.0.2:2".
Proof.
  eexists. split; [vm_compute; reflexivity|].
  exact (proj1 (proj2 (datagram_server "up" ModeReplace [(None, [1]); (Some (tcp_peer "1"), [2]); (Some (tcp_peer "2"), [3])]) _ _ eq_refl)).
Defined.

(** ** Answers of a vsock datagram port *)

Definition colon : Ascii.ascii := Ascii.ascii_of_nat 58.

Lemma pretty_go_colon x : forall s, has_byte s colon = false -> has_byte (pretty_N_go x s) colon = false.
Proof.
  induction (N.lt_wf_0 x) as [x _ IH]; intros s Hs. destruct (decide (0 < x)%N) as [Hx|Hx].
  2: { assert (x = 0%N) as -> by lia. by rewrite pretty_N_go_0. }
  rewrite pretty_N_go_step by done. apply IH; [by apply N.div_lt|].
  assert (Hc : Ascii.eqb (pretty_N_char (x `mod` 10)) colon = false) by (unfold pretty_N_char; by repeat case_match).
  unfold has_byte in *. cbn [IndexByte]. rewrite Hc. by destruct (IndexByte s colon).
Qed.

Lemma Itoa_colon z : 0 <= z -> has_byte (Itoa z) colon = false.
Proof.
  intros Hz. destruct z as [|p|p]; [done | | done]. change (Itoa (Z.pos p)) with (pretty_N_go (N.pos p) EmptyString).
  by apply pretty_go_colon.
Qed.

Lemma colon_split a b : forall a' b',
  has_byte a colon = false -> has_byte a' colon = false -> a +:+ ":" +:+ b = a' +:+ ":" +:+ b' -> a = a' /\ b = b'.
Proof.
  unfold has_byte. induction a as [|c a IH]; intros [|c' a'] b' Ha Ha' E; cbn in *.
  - by injection E.
  - injection E as <- _. done.
  - injection E as -> _. done.
  - injection E as -> E. destruct (Ascii.eqb c' colon); [done|]. destruct (IndexByte a colon) eqn:E1; [done|].
    destruct (IndexByte a' colon) eqn:E2; [done|]. destruct (IH a' b') as [-> ->]; try done; by rewrite ?E1, ?E2.
Qed.

Definition cid_port_ok (a : Z * Z) : Prop := 0 <= a.1 /\ 0 <= a.2.

Lemma vsockAddr_inj a b : cid_port_ok a -> cid_port_ok b -> na_String (vsockAddr a) = na_String (vsockAddr b) -> a = b.
Proof.
  intros [] []. cbn. unfold vsockAddr_String. intros [E1 E2]%colon_split; [|by apply Itoa_colon..].
  unfold Itoa in *. apply (inj pretty) in E1, E2. destruct a, b; cbn in *; congruence.
Qed.

(** The peer is a sender the loop has heard. *)
Lemma ds_rxLoop_heard ds : forall s s' fs, ds_rxLoop ds s = Ret (s', fs) -> ds_peer s' = ds_peer s \/ ds_peer s' ∈ ds.*1.
Proof.
  induction ds as [|[a d] ds IH]; intros s s' fs E; [injection E as <- _; by left|].
  cbn [ds_rxLoop] in E. destruct (ds_rx a d s) as [[s1 r]|] eqn:E1; [|done]. cbn in E.
  destruct (ds_rxLoop ds s1) as [[s2 fs2]|] eqn:E2; [|done]. injection E as <- _. cbn [fmap list_fmap fst].
  assert (H1 : ds_peer s1 = ds_peer s \/ ds_peer s1 = a).
  { unfold ds_rx in E1. destruct (ds_peer s) eqn:Ep; [|injection E1 as <- _; by right]. destruct a; [|done].
    destruct (negb _); [destruct (bool_decide _)|]; injection E1 as <- _; auto. }
  destruct (IH _ _ _ E2) as [->|H]; [|right; by right]. destruct H1 as [->| ->]; [by left | right; by left].
Qed.

(** A vsock datagram port answers the sender it serves: [Send] passes the frame
    to the context identifier and port that the kernel reported for the latest
    datagram in replace mode, for the first one otherwise, although the server
    compares senders by their text only. *)
Lemma vsock_reply sendto id mode (x : (Z * Z) * bytes) ds s fs frame :
  Forall (fun y => cid_port_ok y.1) (x :: ds) ->
  ds_rxLoop ((fun y => (Some (vsockAddr y.1), y.2)) <$> x :: ds) (newDgramServer id mode) = Ret (s, fs) ->
  let to := if bool_decide (mode = ModeReplace) then default x (last (x :: ds)) else x in
  ds_Send (fun b a => match vd_WriteTo sendto b a with Ok _ => None | Err e => Some e end) frame s =
    match sendto frame to.1.1 to.1.2 with None => true | Some _ => false end.
Proof.
  intros Hok E to. pose proof (ds_rxLoop_heard _ _ _ _ E) as Hh. cbn [ds_peer newDgramServer] in Hh.
  set (s0 := newDgramServer id mode) in E. rewrite fmap_cons, (ds_rxLoop_first _ _ _ s0 eq_refl) in E.
  set (s1 := mkDgram _ _ _ _) in E. destruct (ds_rxLoop _ s1) as [[s2 fs2]|] eqn:E2; [|done]. injection E as <- _.
  pose proof (fun l => proj2 (ds_rxLoop_peer l (vsockAddr x.1) s1 eq_refl)) as Hp. destruct (Hp _ _ _ E2) as [Hs _]. cbn [s1 ds_mode s0 newDgramServer] in Hs.
  assert (Hto : to ∈ x :: ds /\ na_String <$> ds_peer s2 = Some (na_String (vsockAddr to.1))).
  { rewrite Hs. subst to. unfold peer_after. destruct (bool_decide (mode = ModeReplace)); [|split; [by left | done]].
    rewrite last_cons. assert (El : omap fst ((fun y : (Z * Z) * bytes => (Some (vsockAddr y.1), y.2)) <$> ds) = vsockAddr ∘ fst <$> ds).
    { clear. induction ds as [|y ds IH]; [done|]. cbn. by rewrite IH. }
    rewrite El, fmap_last. destruct (last ds) as [y|] eqn:Ey; cbn; [|split; [by left | done]].
    split; [|done]. right. by apply last_Some_elem_of. }
  destruct Hto as [Hin Hstr]. destruct Hh as [Hn|Hh]; [by rewrite Hn in Hstr|].
  rewrite <- list_fmap_compose in Hh. apply list_elem_of_fmap in Hh as (y & Hy & Hyin). cbn in Hy. rewrite Hy in Hstr. cbn [fmap option_fmap option_map] in Hstr.
  rewrite Forall_forall in Hok. assert (Eq : y.1 = to.1) by (apply vsockAddr_inj; [by apply Hok.. | congruence]).
  unfold ds_Send. rewrite Hy, Eq. cbn. unfold wrote. by destruct (sendto frame _ _).
Qed.

(** * What constructors and ports hold *)

Lemma removeOne_perm r l : r ∈ l -> l ≡ₚ r :: removeOne r l.
Proof.
  induction l as [|x l IH]; intros Hr; [by apply elem_of_nil in Hr|]. cbn [removeOne].
  destruct (bool_decide_reflect (x = r)) as [->|Hne]; [done|].
  apply elem_of_cons in Hr as [->|Hr]; [done|]. rewrite (IH Hr) at 1. apply perm_swap.
Qed.

Lemma removeOne_hd r l : removeOne r (r :: l) = l.
Proof. cbn [removeOne]. by rewrite bool_decide_true. Qed.

(** Resources released in the reverse order of their acquisition. *)
Ltac lifo := cbn [app held foldl held_step fmap list_fmap seq]; rewrite ?removeOne_hd; done.

Lemma release_perm rs : forall acc rest, acc ≡ₚ rs ++ rest -> foldl held_step acc (Release <$> rs) ≡ₚ rest.
Proof.
  induction rs as [|r rs IH]; intros acc rest Ha; [done|]. cbn [fmap list_fmap foldl held_step]. apply IH.
  assert (Hr : r ∈ acc) by (rewrite Ha; by left). rewrite (removeOne_perm _ _ Hr) in Ha. by apply Permutation_cons_inv in Ha.
Qed.

Lemma acquire_perm rs acc : foldl held_step acc (Acquire <$> rs) ≡ₚ rs ++ acc.
Proof.
  revert acc. induction rs as [|r rs IH]; intros acc; [done|]. cbn [fmap list_fmap foldl held_step]. rewrite IH.
  symmetry. apply Permutation_middle.
Qed.

(** Everything that was asked for is given back. *)
Lemma held_balanced rs rs' : rs ≡ₚ rs' -> held ((Acquire <$> rs) ++ (Release <$> rs')) = [].
Proof.
  intros Hp. apply Permutation_nil. symmetry. unfold held. rewrite foldl_app. apply release_perm. rewrite acquire_perm, !app_nil_r. done.
Qed.

Section clean.
Context (net : Net).

Lemma dial_clean transport local remote e fx :
  (if isStreamTransport transport then dialStream net transport local remote else dialDgram net transport local remote) = (Err e, fx) ->
  held fx = [].
Proof using.
  destruct (isStreamTransport transport).
  - unfold dialStream. set (r := if bool_decide _ then _ else _). destruct r; intros; by simplify_eq.
  - unfold dialDgram. destruct (bool_decide _).
    { destruct (dialUDP net local remote); intros; by simplify_eq. }
    destruct (bool_decide _).
    { destruct (is_empty local); [intros; by simplify_eq|]. unfold removeStaleSocket.
      destruct (DialUnix net _ _ _), (isSocketFile net local); intros; by simplify_eq. }
    destruct (bool_decide _); [|intros; by simplify_eq]. unfold dialVsockDgram.
    destruct (parseVsockAddr remote false) as [[c p]|]; [|intros; by simplify_eq]. unfold newVsockDgramSocket.
    destruct (unix_Socket net); [intros; by simplify_eq|]. destruct (is_empty local).
    + destruct (unix_Connect net c p); intros; by simplify_eq.
    + destruct (parseVsockAddr local true) as [[c' p']|]; [|intros; by simplify_eq].
      destruct (unix_Bind net c' p'); [intros; by simplify_eq|]. destruct (unix_Connect net c p); intros; by simplify_eq.
Qed.

Lemma dial_holds transport local remote a fx :
  (if isStreamTransport transport then dialStream net transport local remote else dialDgram net transport local remote) = (Ok a, fx) ->
  held fx = [RSocket].
Proof using.
  destruct (isStreamTransport transport).
  - unfold dialStream. set (r := if bool_decide _ then _ else _). destruct r; intros; by simplify_eq.
  - unfold dialDgram. destruct (bool_decide _).
    { destruct (dialUDP net local remote); intros; by simplify_eq. }
    destruct (bool_decide _).
    { destruct (is_empty local); [intros; by simplify_eq|]. unfold removeStaleSocket.
      destruct (DialUnix net _ _ _), (isSocketFile net local); intros; by simplify_eq. }
    destruct (bool_decide _); [|intros; by simplify_eq]. unfold dialVsockDgram.
    destruct (parseVsockAddr remote false) as [[c p]|]; [|intros; by simplify_eq]. unfold newVsockDgramSocket.
    destruct (unix_Socket net); [intros; by simplify_eq|]. destruct (is_empty local).
    + destruct (unix_Connect net c p); intros; by simplify_eq.
    + destruct (parseVsockAddr local true) as [[c' p']|]; [|intros; by simplify_eq].
      destruct (unix_Bind net c' p'); [intros; by simplify_eq|]. destruct (unix_Connect net c p); intros; by simplify_eq.
Qed.

Lemma listened_held x e fx :
  held x.2 = [] -> listened x = (e, fx) -> held fx = match e with None => [RSocket] | Some _ => [] end.
Proof using.
  unfold listened. intros Hx [= <- <-]. unfold held in *. rewrite foldl_app, Hx. by destruct x.1.
Qed.

Lemma listenUnix_held network addr stale : held (listenUnix net network addr stale).2 = [].
Proof using. unfold listenUnix. destruct (Listen net false network addr); [|done]. by destruct (_ && _). Qed.

Lemma listen_held transport addr e fx :
  (if isDgramTransport transport then listenPacket net transport addr else listenStream net transport addr) = (e, fx) ->
  held fx = match e with None => [RSocket] | Some _ => [] end.
Proof using.
  destruct (isDgramTransport transport).
  - unfold listenPacket. destruct (bool_decide _); [by apply listened_held|].
    destruct (bool_decide _); [apply listened_held, listenUnix_held|]. destruct (bool_decide _); [|by intros [= <- <-]].
    unfold listenVsockDgram. destruct (is_empty addr); [by intros [= <- <-]|]. unfold newVsockDgramSocket.
    destruct (unix_Socket net); [by intros [= <- <-]|]. destruct (is_empty addr); [by intros [= <- <-]|].
    destruct (parseVsockAddr addr true) as [[c p]|]; [|by intros [= <- <-]]. destruct (unix_Bind net c p); by intros [= <- <-].
  - unfold listenStream. apply listened_held. repeat (destruct (bool_decide _); [done || apply listenUnix_held|]). done.
Qed.
End clean.

Lemma held_app a b : held (a ++ b) = foldl held_step (held a) b.
Proof. apply foldl_app. Qed.

Lemma tap_held nl name fx :
  held (tapAcquired nl name ++ fx) = foldl held_step (held (tapAcquired nl name)) fx.
Proof. apply held_app. Qed.

Lemma tap_clean nl name : held (tapAcquired nl name ++ tapCleanup nl name) = [].
Proof.
  unfold tapAcquired, tapCleanup. rewrite !list_fmap_compose.
  change (Acquire (RLink name) :: (Acquire <$> (RFd <$> seq 0 (tapFds nl)))) with (Acquire <$> (RLink name :: (RFd <$> seq 0 (tapFds nl)))).
  rewrite <- (fmap_app Release _ [RLink name]). apply held_balanced. apply Permutation_cons_append.
Qed.

(** Creating a port that fails leaves nothing behind.  Whichever step fails,
    for whichever reason, every socket, device, descriptor, BPF object and
    interface setting the constructor acquired has been released. *)
Theorem failed_port_leaks_nothing net nl x id :
  (forall transport local remote e fx, NewClient net id transport local remote = (Err e, fx) -> held fx = []) /\
  (forall transport listen mode attrs e fx, NewServer net id transport listen mode attrs = (Err e, fx) -> held fx = []) /\
  (forall mode path replacing e fx, NewVhostUser net id mode path replacing = (Err e, fx) -> held fx = []) /\
  (forall tapName bridge addToBr e fx, NewTap nl id tapName bridge addToBr = (Err e, fx) -> held fx = []) /\
  (forall iface queueID e fx, NewAFXDP x id iface queueID = (Err e, fx) -> held fx = []).
Proof.
  split_and!.
  - intros transport local remote e fx. unfold NewClient. destruct (validateTransport transport); [by intros [= <- <-]|].
    destruct (if isStreamTransport transport then _ else _) as [[a|e'] fx'] eqn:Ed; intros [= <- <-]. by eapply dial_clean.
  - intros transport listen mode attrs e fx. unfold NewServer. destruct (validateTransport transport); [by intros [= <- <-]|].
    destruct (checkMode transport mode); [|by intros [= <- <-]].
    destruct (if isDgramTransport transport then listenPacket net transport listen else _) as [[e'|] fx'] eqn:El; intros [= <- <-].
    by apply listen_held in El.
  - intros mode path replacing e fx. unfold NewVhostUser. destruct (bool_decide _).
    { destruct (DialUnix net _ _ _); by intros [= <- <-]. }
    destruct (bool_decide _); [|by intros [= <- <-]]. destruct (_ || _); [|by intros [= <- <-]].
    unfold removeStaleSocket. destruct (Listen net _ _ _), (isSocketFile net path); by intros [= <- <-].
  - intros tapName bridge addToBr e fx. unfold NewTap. destruct (is_empty tapName); [by intros [= <- <-]|].
    destruct (_ && _); [by intros [= <- <-]|]. destruct (LinkAdd nl); [by intros [= <- <-]|].
    destruct (Nat.eqb_spec (tapFds nl) 0) as [E|]; [intros [= <- <-]; unfold tapAcquired; rewrite E; lifo|].
    destruct (if addToBr then _ else _); [intros [= <- <-]; apply tap_clean|].
    destruct (LinkSetUp nl); intros [= <- <-]. apply tap_clean.
  - intros iface queueID e fx. unfold NewAFXDP. destruct (is_empty iface); [by intros [= <- <-]|].
    destruct (_ || _); [by intros [= <- <-]|]. destruct (x_LinkByName x) as [ifindex|]; [|by intros [= <- <-]].
    destruct (x_LinkSetUp x); [by intros [= <- <-]|].
    assert (Ha : forall p, xp_objects p = false -> xp_xdpLink p = false -> xp_sock p = false -> forall e fx,
      afxdpAttach x p queueID = (Err e, fx) ->
      held ((if xp_setPromisc p then [Acquire (RPromisc (xp_iface p))] else []) ++ fx) = []).
    { intros [i f ix sp ob xl sk cl pf] Hob Hxl Hsk e' fx'. cbn in Hob, Hxl, Hsk. subst.
      unfold afxdpAttach, buildRedirectObjects, teardown. cbn [xp_iface xp_id xp_setPromisc xp_objects xp_xdpLink xp_sock].
      destruct (x_NewMap x); [destruct sp; intros [= <- <-]; lifo|].
      destruct (x_NewProgram x); [destruct sp; intros [= <- <-]; lifo|].
      destruct (match x_AttachXDP x false with None => _ | Some _ => _ end);
        [destruct sp; intros [= <- <-]; lifo|].
      destruct (x_NewSocket x); [destruct sp; intros [= <- <-]; lifo|].
      destruct (x_MapUpdate x); [destruct sp; intros [= <- <-]; lifo|].
      done. }
    destruct (x_promiscuous x); [intros E; by apply (Ha (mkXdpPort id iface ifindex false false false false false false)) in E|].
    destruct (x_SetPromiscOn x); [by intros [= <- <-]|].
    destruct (afxdpAttach x _ queueID) as [r fx'] eqn:E. intros [= -> <-].
    by apply (Ha (mkXdpPort id iface ifindex true false false false false false)) in E.
Qed.

(** An AF_XDP port whose last step fails. *)
Definition xdp_late : XdpEnv :=
  mkXdp (Ok 2) None false None None None (fun _ => None) None (Some (Errorf "no space" [])) None.

Lemma failed_port_leaks_nothing_witness :
  exists e fx, NewAFXDP xdp_late "nic" "eth0" 0 = (Err e, fx) /\ Acquire RXsk ∈ fx /\ held fx = [].
Proof.
  destruct (failed_port_leaks_nothing
    (mkNet (fun s => Ok s) (fun s => Ok s) (fun _ _ => Ok (tcp_peer "1")) (fun _ _ => Ok (tcp_peer "1"))
      (fun _ _ _ => Ok (tcp_peer "1")) (fun _ _ _ => None) (fun _ => false) (fun _ => false) (fun _ => false)
      (fun _ _ => Ok (tcp_peer "1")) (fun _ _ => None) (fun _ => None) None (fun _ _ => None) (fun _ _ => None))
    (mkNetlink None 1 (fun _ => Ok true) None None) xdp_late "nic") as (_ & _ & _ & _ & Hx).
  destruct (NewAFXDP xdp_late "nic" "eth0" 0) as [[p|e] fx] eqn:E; [vm_compute in E; discriminate|].
  exists e, fx. split; [done|]. split; [|exact (Hx "eth0" 0 e fx E)].
  vm_compute in E. injection E as _ <-. set_solver.
Defined.

(** ** Ports that are closed *)

(** What can happen to a client port or a tap before it is closed. *)
Inductive pp_run (x0 : pumpPort) : pumpPort -> list rfx -> Prop :=
  | pp_started : pp_run x0 x0 []
  | pp_sent x fx frame : pp_run x0 x fx -> pp_run x0 (pp_Send frame x).1 fx
  | pp_failed x fx x' fx' b : pp_run x0 x fx -> pp_stop x = (x', fx', b) -> pp_run x0 x' (fx ++ fx')
  | pp_exited x fx : pp_run x0 x fx -> p_done (pp_pump x) = true -> pp_run x0 (pp_exit x) fx.

Definition pp_transport (x : pumpPort) : resource := match pp_link x with Some _ => RFd 0 | None => RSocket end.
Definition pp_device (x : pumpPort) : list resource := match pp_link x with Some n => [RLink n] | None => [] end.

Lemma pp_run_held x0 fx0 x fx :
  p_done (pp_pump x0) = false -> pp_attached x0 = true -> held fx0 = pp_transport x0 :: pp_device x0 ->
  pp_run x0 x fx ->
  pp_link x = pp_link x0 /\ (pp_attached x = false -> p_done (pp_pump x) = true) /\
  held (fx0 ++ fx) = (if p_done (pp_pump x) then [] else [pp_transport x0]) ++ pp_device x0.
Proof.
  intros H0 Ha0 Hh Hr. induction Hr as [|x fx frame _ IH|x fx x' fx' b _ IH E|x fx _ IH Hd].
  - rewrite app_nil_r, H0, Ha0. split_and!; done.
  - destruct IH as (Hl & Ha & IH). unfold pp_Send. destruct (pp_attached x) eqn:Ea; [|cbn [fst]; rewrite Ea; by split_and!].
    unfold send. destruct (p_done (pp_pump x)) eqn:Ed; [|destruct (_ <? _)%nat]; cbn; by rewrite ?Ed.
  - destruct IH as (Hl & Ha & IH). unfold pp_stop, stop in E. destruct (p_done (pp_pump x)) eqn:Ed; injection E as <- <- _.
    + cbn. by rewrite Ed, app_nil_r.
    + cbn. rewrite app_assoc, held_app, IH. split_and!; try done.
      cbn [foldl held_step app]. unfold pp_transport. rewrite Hl. apply removeOne_hd.
  - destruct IH as (Hl & Ha & IH). cbn. by rewrite Hd in *.
Qed.

Lemma closed_port_holds_nothing x0 fx0 x fx x' fx' b :
  p_done (pp_pump x0) = false -> pp_attached x0 = true -> held fx0 = pp_transport x0 :: pp_device x0 ->
  pp_run x0 x fx -> pp_Close x = (x', fx', b) -> held (fx0 ++ fx ++ fx') = [].
Proof.
  intros H0 Ha0 Hh Hr Hc. destruct (pp_run_held _ _ _ _ H0 Ha0 Hh Hr) as (Hl & Ha & Hx).
  rewrite app_assoc, held_app, Hx. rewrite pp_Close_eq in Hc.
  assert (Hdev : foldl held_step (pp_device x0) (match pp_link x with Some n => [Release (RLink n)] | None => [] end) = []).
  { unfold pp_device. rewrite <- Hl. destruct (pp_link x); [|done]. cbn. by rewrite bool_decide_true. }
  destruct (pp_attached x) eqn:Ea.
  - unfold pp_stop, stop in Hc. destruct (p_done (pp_pump x)) eqn:Ed; cbn in Hc; injection Hc as _ <- _; [done|].
    cbn [foldl held_step app]. unfold pp_transport. rewrite <- Hl, removeOne_hd. done.
  - injection Hc as _ <- _. by rewrite (Ha eq_refl).
Qed.

Lemma xdp_closed_holds_nothing x id iface queueID p fx :
  NewAFXDP x id iface queueID = (Ok p, fx) -> held (fx ++ (xp_Close p).2) = [].
Proof.
  unfold NewAFXDP. destruct (is_empty iface); [done|]. destruct (_ || _); [done|]. destruct (x_LinkByName x) as [ifindex|]; [|done].
  destruct (x_LinkSetUp x); [done|].
  assert (Ha : forall sp p fx, afxdpAttach x (mkXdpPort id iface ifindex sp false false false false false) queueID = (Ok p, fx) ->
    held (((if sp then [Acquire (RPromisc iface)] else []) ++ fx) ++ (xp_Close p).2) = []).
  { intros sp p' fx'. unfold afxdpAttach, buildRedirectObjects. cbn [xp_iface xp_id xp_setPromisc].
    destruct (x_NewMap x); [done|]. destruct (x_NewProgram x); [done|].
    destruct (match x_AttachXDP x false with None => _ | Some _ => _ end); [done|].
    destruct (x_NewSocket x); [done|]. destruct (x_MapUpdate x); [done|]. destruct sp; intros [= <- <-]; unfold xp_Close, teardown; cbn [xp_closed xp_sock xp_xdpLink xp_objects xp_setPromisc xp_iface snd]; lifo. }
  destruct (x_promiscuous x); [apply (Ha false)|]. destruct (x_SetPromiscOn x); [done|].
  destruct (afxdpAttach x _ queueID) as [r fx'] eqn:E. intros [= -> <-]. by apply (Ha true) in E.
Qed.
