(* ===== verification/Dhcp.v ===== *)
(** The gateway's DHCPv4 and DHCPv6 servers: src/internal/gateway/dhcp4.go,
    src/internal/gateway/dhcp6.go, and the packet dissection of
    src/internal/gateway/craft.go they share.

    Code of other packages is a parameter: gVisor's header accessors, and the
    parsers and encoders of the DHCP libraries.  A request is what the library's
    accessors return for it; a reply is the list of options it is built with.
    Frames leave through [craftUDP4]/[craftUDP6] and the switch, and appear as
    an effect that carries their arguments.

    The two servers have the same state and many methods with the same text;
    those of DHCPv6 are the definitions of DHCPv4 under their own names. *)
From S2P Require Import Prelude Lease GoText.

(** * Dissecting a frame (craft.go) *)

(** gVisor's [header] package: sizes, protocol numbers and accessors. *)
Record HeaderPkg := mkHeader {
  EthernetMinimumSize : Z;
  IPv4MinimumSize : Z;
  IPv6MinimumSize : Z;
  UDPMinimumSize : Z;
  ICMPv6MinimumSize : Z;
  IPv4ProtocolNumber : Z;
  IPv6ProtocolNumber : Z;
  UDPProtocolNumber : Z;
  ICMPv6ProtocolNumber : Z;
  eth_SourceAddress : bytes -> res bytes;
  eth_Type : bytes -> res Z;
  ip4_IsValid : bytes -> Z -> res bool;
  ip4_TransportProtocol : bytes -> res Z;
  ip4_FragmentOffset : bytes -> res Z;
  ip4_More : bytes -> res bool;
  ip4_HeaderLength : bytes -> res Z;
  ip4_SourceAddress : bytes -> res bytes;
  ip4_DestinationAddress : bytes -> res bytes;
  ip6_SourceAddress : bytes -> res bytes;
  ip6_DestinationAddress : bytes -> res bytes;
  ip6_TransportProtocol : bytes -> res Z;
  udp_SourcePort : bytes -> res Z;
  udp_DestinationPort : bytes -> res Z;
  udp_Payload : bytes -> res bytes;
  icmp6_Type : bytes -> res Z
}.

Inductive pktKind : Type := PUDP4 | PUDP6 | PICMP6.

(** [isUDP4], [isUDP6] and [isICMP6] exclude each other: one kind. *)
Record ingressPacket := mkPkt {
  p_kind : pktKind;
  p_srcMAC : bytes;
  p_srcIP : bytes;
  p_dstIP : bytes;
  p_srcPort : Z;
  p_dstPort : Z;
  p_icmpTyp : Z;
  p_payload : bytes
}.

Section parse.
Context (H : HeaderPkg).

Definition parseUDP (kind : pktKind) (srcMAC srcIP dstIP udp : bytes) : res (option ingressPacket) :=
  sp ← udp_SourcePort H udp;
  dp ← udp_DestinationPort H udp;
  pl ← udp_Payload H udp;
  Ret (Some (mkPkt kind srcMAC srcIP dstIP sp dp 0 pl)).

Definition parseIPv4 (srcMAC body : bytes) : res (option ingressPacket) :=
  if len body <? IPv4MinimumSize H then Ret None
  else
    valid ← ip4_IsValid H body (len body);
    if negb valid then Ret None
    else
      proto ← ip4_TransportProtocol H body;
      if negb (proto =? UDPProtocolNumber H) then Ret None
      else
        fo ← ip4_FragmentOffset H body;
        more ← (if negb (fo =? 0) then Ret true else ip4_More H body);
        if (more : bool) then Ret None
        else
          hl ← ip4_HeaderLength H body;
          udp ← slice_from body hl;
          if len udp <? UDPMinimumSize H then Ret None
          else
            src ← ip4_SourceAddress H body;
            dst ← ip4_DestinationAddress H body;
            parseUDP PUDP4 srcMAC src dst udp.

Definition parseIPv6 (srcMAC body : bytes) : res (option ingressPacket) :=
  if len body <? IPv6MinimumSize H then Ret None
  else
    src ← ip6_SourceAddress H body;
    dst ← ip6_DestinationAddress H body;
    rest ← slice_from body (IPv6MinimumSize H);
    proto ← ip6_TransportProtocol H body;
    if proto =? UDPProtocolNumber H then
      if len rest <? UDPMinimumSize H then Ret None else parseUDP PUDP6 srcMAC src dst rest
    else if proto =? ICMPv6ProtocolNumber H then
      if len rest <? ICMPv6MinimumSize H then Ret None
      else
        ty ← icmp6_Type H rest;
        Ret (Some (mkPkt PICMP6 srcMAC src dst 0 0 (u8 ty) rest))
    else Ret None.

Definition parseIngress (frame : bytes) : res (option ingressPacket) :=
  if len frame <? EthernetMinimumSize H then Ret None
  else
    srcMAC ← eth_SourceAddress H frame;
    body ← slice_from frame (EthernetMinimumSize H);
    ty ← eth_Type H frame;
    if ty =? IPv4ProtocolNumber H then parseIPv4 srcMAC body
    else if ty =? IPv6ProtocolNumber H then parseIPv6 srcMAC body
    else Ret None.
End parse.

(** * The gateway around the servers (gateway.go) *)

Record V4Config := mkV4 { v4_Address : bytes; v4_PrefixLen : Z }.
Record V6Config := mkV6 { v6_Address : bytes; v6_PrefixLen : Z; v6_LinkLocal : bytes }.

Record GatewayT := mkGw {
  gw_MAC : bytes;
  gw_IPv4 : option V4Config;
  gw_IPv6 : option V6Config;
  gw_LinkLocal : bytes
}.

Inductive gfx : Type :=
  | InjectUDP4 (srcMAC dstMAC srcIP dstIP : bytes) (srcPort dstPort : Z) (payload : bytes)
  | InjectUDP6 (srcMAC dstMAC srcIP dstIP : bytes) (srcPort dstPort : Z) (payload : bytes)
  | InjectICMP6 (srcMAC dstMAC srcIP dstIP : bytes) (icmpBody : bytes) (hopLimit : Z).

(** A pointer field that must not be nil. *)
Definition deref {A} (o : option A) : res A := match o with Some a => Ret a | None => Panic end.

Definition addr_or_invalid (o : option Addr) : Addr := match o with Some a => a | None => AInvalid end.

(** The instants at which one request reads the clock, and the orders in which
    it ranges over the maps. *)
Record Clock := mkClock {
  c_lease : Z;
  c_inUse : Z;
  c_client : Addr -> Z;
  c_request : Z;
  c_alloc : Z
}.

Record Orders := mkOrders {
  o_statics : gmap string StaticBinding -> list (string * StaticBinding);
  o_leases : leaseTable -> list (Addr * Lease)
}.

(** * Choosing an address *)

(** Both servers: the static binding of the client, its current lease, in
    DHCPv4 the address it asks for, then the pool. *)
Definition selectFrom (ck : Clock) (od : Orders) (statics : gmap string StaticBinding) (leases : leaseTable)
    (portID mac cid : string) (leaseTime : Z) (poolStart poolEnd gwIP : Addr) (requested : option Addr)
    : leaseTable * Addr :=
  let bindings := (od.(o_statics) statics).*2 in
  let staticIP ip := bool_decide (ip ∈ sb_IP <$> bindings) in
  let lease ip static := mkLease ip mac cid portID (time_add (c_lease ck) leaseTime) static in
  match matchBinding bindings portID mac cid with
  | Some b =>
      if inUse leases (c_inUse ck) (sb_IP b) mac cid then (leases, AInvalid)
      else (lease_set (lease (sb_IP b) true) leases, sb_IP b)
  | None =>
      let pool :=
        match allocate (S (S (size leases + length bindings))) (c_alloc ck) poolStart poolEnd
                (fun ip => bool_decide (ip = gwIP) || staticIP ip) (lease AInvalid false) leases with
        | Some x => x
        | None => (leases, AInvalid)
        end in
      let honour :=
        match requested with
        | Some rip =>
            if IsValid rip && negb (Less poolEnd rip) && negb (Less rip poolStart) &&
               negb (bool_decide (rip = gwIP)) && negb (staticIP rip) &&
               negb (inUse leases (c_request ck) rip mac cid)
            then (lease_set (lease rip false) leases, rip) else pool
        | None => pool
        end in
      match byClient (o_leases od) (c_client ck) leases mac cid with
      | Some cur =>
          if negb (staticIP (l_IP cur)) then (lease_set (lease (l_IP cur) false) leases, l_IP cur) else honour
      | None => honour
      end
  end.

(** * DHCPv4 (dhcp4.go) *)

Definition dhcp4ServerPort : Z := 67.
Definition dhcp4ClientPort : Z := 68.
Definition defaultLeaseTime : Z := Hour.
Definition broadcastMAC : bytes := replicate 6 0xff.
Definition broadcastIP4 : bytes := v4InV6Prefix ++ replicate 4 0xff.

Record DHCPConfig := mkCfg {
  Enabled : bool;
  PoolStart : Addr;
  PoolEnd : Addr;
  LeaseTime : Z;
  DNS : list bytes
}.

Record dhcpServer := mkServer {
  cfg : DHCPConfig;
  statics : gmap string StaticBinding;
  leases : leaseTable
}.

Definition zeroCfg : DHCPConfig := mkCfg false AInvalid AInvalid 0 [].
Definition newDHCPServer : dhcpServer := mkServer zeroCfg ∅ newLeaseTable.

Definition with_cfg (c : DHCPConfig) (s : dhcpServer) : dhcpServer := mkServer c (statics s) (leases s).
Definition with_statics (m : gmap string StaticBinding) (s : dhcpServer) : dhcpServer := mkServer (cfg s) m (leases s).
Definition with_leases (t : leaseTable) (s : dhcpServer) : dhcpServer := mkServer (cfg s) (statics s) t.

(** The message types and the opcode of RFC 2131. *)
Definition MessageTypeDiscover : Z := 1.
Definition MessageTypeOffer : Z := 2.
Definition MessageTypeRequest : Z := 3.
Definition MessageTypeDecline : Z := 4.
Definition MessageTypeAck : Z := 5.
Definition MessageTypeNak : Z := 6.
Definition MessageTypeRelease : Z := 7.
Definition OpcodeBootRequest : Z := 1.

(** What the accessors of [dhcpv4.DHCPv4] return for a request. *)
Record req4 := mkReq4 {
  OpCode : Z;
  MessageType : Z;
  ClientIPAddr : bytes;
  ClientHWAddr : bytes;
  RequestedIPAddress : bytes;
  ClientIdentifier : bytes;
  IsBroadcast : bool
}.

(** The modifiers a reply is built with, and the address set afterwards. *)
Record reply4 := mkReply4 {
  rp_type : Z;
  rp_serverIP : option bytes;
  rp_serverID : bytes;
  rp_maskBits : option Z;
  rp_router : option bytes;
  rp_dns : option (list bytes);
  rp_lease : option Z;
  rp_renew : option Z;
  rp_rebind : option Z;
  rp_yiaddr : option bytes
}.

(** [net.IP.IsUnspecified] *)
Definition ip_IsUnspecified (ip : bytes) : bool :=
  bool_decide (ip = make_bytes 4) || bool_decide (ip = make_bytes 16) ||
  bool_decide (ip = v4InV6Prefix ++ make_bytes 4).

Definition gatewayNet4 (v4 : V4Config) : Prefix :=
  prefix_Masked (addr_or_invalid (AddrFromSlice (To4 (v4_Address v4)))) (v4_PrefixLen v4).

(** [gatewayNet4(v4).Contains(ip)] *)
Definition gatewayNet4_contains (v4 : V4Config) (ip : Addr) : bool :=
  prefix_contains (addr_or_invalid (AddrFromSlice (To4 (v4_Address v4)))) (v4_PrefixLen v4) ip.

Section dhcp4.
Context (H : HeaderPkg) (gw : GatewayT).
Context (fromBytes : bytes -> result req4) (toBytes : req4 -> reply4 -> result bytes).

Definition dhcp4_SetConfig (c : DHCPConfig) (s : dhcpServer) : dhcpServer * option goerr :=
  if Enabled c then
    match gw_IPv4 gw with
    | None => (s, Some (Errorf "gateway has no IPv4 network" []))
    | Some v4 =>
        if negb (Is4 (PoolStart c)) || negb (Is4 (PoolEnd c)) then
          (s, Some (Errorf "dhcp4 pool must be IPv4 addresses" []))
        else if Less (PoolEnd c) (PoolStart c) then (s, Some (Errorf "pool_end is before pool_start" []))
        else if negb (gatewayNet4_contains v4 (PoolStart c)) || negb (gatewayNet4_contains v4 (PoolEnd c)) then
          (s, Some (Errorf "pool [%s, %s] is not inside the gateway network %s"
                      [AStr (addr_String (PoolStart c)); AStr (addr_String (PoolEnd c));
                       AStr (prefix_String (gatewayNet4 v4))]))
        else
          (with_cfg (mkCfg true (PoolStart c) (PoolEnd c)
             (if LeaseTime c <=? 0 then defaultLeaseTime else LeaseTime c)
             (match DNS c with [] => [v4_Address v4] | _ => DNS c end)) s, None)
    end
  else (with_cfg c s, None).

Definition dhcp4_PutStatic (b : StaticBinding) (s : dhcpServer) : dhcpServer * option goerr :=
  match binding_validate b with
  | Some e => (s, Some e)
  | None =>
      if negb (Is4 (sb_IP b)) then (s, Some (Errorf "dhcp4 static binding ip must be IPv4" []))
      else (with_statics (<[sb_ID b := b]> (statics s)) s, None)
  end.

Definition dhcp4_ReplaceStatics (bs : list StaticBinding) (s : dhcpServer) : dhcpServer * option goerr :=
  match buildStaticSet bs false with
  | Err e => (s, Some e)
  | Ok m => (with_statics m s, None)
  end.

Definition DeleteStatic (id : string) (s : dhcpServer) : dhcpServer * option goerr :=
  match statics s !! id with
  | None => (s, Some (Errorf "static binding %q not found" [AStr id]))
  | Some _ => (with_statics (delete id (statics s)) s, None)
  end.

Definition ReleaseLease (ip : Addr) (s : dhcpServer) : dhcpServer * option goerr :=
  let '(t, ok) := release ip (leases s) in
  if (ok : bool) then (with_leases t s, None)
  else (s, Some (Errorf "lease %s not found" [AStr (addr_String ip)])).

Definition dhcp_PortDown (portID : string) (s : dhcpServer) : dhcpServer :=
  with_leases (releaseByPort portID (leases s)) s.

(** One tick of [sweepLoop]. *)
Definition sweep (now : Z) (s : dhcpServer) : dhcpServer := with_leases (expireSweep now (leases s)) s.

Definition Leases (od : Orders) (now : Z) (s : dhcpServer) : list Lease :=
  lease_snapshot (o_leases od) now (leases s).

Definition ListStatic (od : Orders) (s : dhcpServer) : list StaticBinding := (o_statics od (statics s)).*2.

(** [netip.AddrFromSlice(ip.To4())] with [ok && IsValid()]. *)
Definition addr4 (ip : bytes) : option Addr := AddrFromSlice (To4 ip).

Definition selectIP (ck : Clock) (od : Orders) (srcPortID : string) (c : DHCPConfig) (req : req4) (s : dhcpServer)
    : res (dhcpServer * Addr) :=
  v4 ← deref (gw_IPv4 gw);
  let gwIP := addr_or_invalid (addr4 (v4_Address v4)) in
  let '(t, ip) := selectFrom ck od (statics s) (leases s) srcPortID
                    (hwString (ClientHWAddr req)) (EncodeToString (ClientIdentifier req))
                    (LeaseTime c) (PoolStart c) (PoolEnd c) gwIP (addr4 (RequestedIPAddress req)) in
  Ret (with_leases t s, ip).

(** RFC 2131 section 4.1 addressing. *)
Definition transmit4 (req : req4) (rp : reply4) (yiaddr : Addr) (payload : bytes) : res gfx :=
  v4 ← deref (gw_IPv4 gw);
  let '(dstMAC, dstIP) :=
    if negb (bool_decide (ClientIPAddr req = [])) && negb (ip_IsUnspecified (ClientIPAddr req)) then
      (ClientHWAddr req, ClientIPAddr req)
    else if (rp_type rp =? MessageTypeNak) || IsBroadcast req || negb (IsValid yiaddr) then
      (broadcastMAC, broadcastIP4)
    else (ClientHWAddr req, AsSlice yiaddr) in
  Ret (InjectUDP4 (gw_MAC gw) dstMAC (v4_Address v4) dstIP dhcp4ServerPort dhcp4ClientPort payload).

Definition send_built (req : req4) (rp : reply4) (yiaddr : Addr) : res (list gfx) :=
  match toBytes req rp with
  | Err _ => Ret []
  | Ok payload => f ← transmit4 req rp yiaddr payload; Ret [f]
  end.

Definition ackReply (v4 : V4Config) (c : DHCPConfig) (typ : Z) (ip : Addr) : reply4 :=
  mkReply4 typ (Some (v4_Address v4)) (v4_Address v4) (Some (v4_PrefixLen v4)) (Some (v4_Address v4))
    (Some (DNS c)) (Some (LeaseTime c)) (Some (Z.quot (LeaseTime c) 2))
    (Some (Z.quot (s64 (LeaseTime c * 7)) 8)) (Some (AsSlice ip)).

Definition nakReply (v4 : V4Config) : reply4 :=
  mkReply4 MessageTypeNak None (v4_Address v4) None None None None None None None.

Definition sendReply (c : DHCPConfig) (req : req4) (typ : Z) (ip : Addr) : res (list gfx) :=
  v4 ← deref (gw_IPv4 gw);
  send_built req (ackReply v4 c typ ip) ip.

Definition sendNak (req : req4) : res (list gfx) :=
  v4 ← deref (gw_IPv4 gw);
  send_built req (nakReply v4) AInvalid.

Definition replyToDiscover (ck : Clock) (od : Orders) (srcPortID : string) (c : DHCPConfig) (req : req4) (s : dhcpServer)
    : res (dhcpServer * list gfx) :=
  x ← selectIP ck od srcPortID c req s;
  let '(s, ip) := x in
  if negb (IsValid ip) then Ret (s, [])
  else fx ← sendReply c req MessageTypeOffer ip; Ret (s, fx).

(** The address a REQUEST asks for. *)
Definition wanted (req : req4) : option Addr :=
  let usable (o : option Addr) : option Addr :=
    match o with
    | Some a => if negb (IsValid a) || IsUnspecified a then None else Some a
    | None => None
    end in
  match usable (addr4 (RequestedIPAddress req)) with
  | Some a => Some a
  | None => usable (addr4 (ClientIPAddr req))
  end.

Definition replyToRequest (ck : Clock) (od : Orders) (srcPortID : string) (c : DHCPConfig) (req : req4) (s : dhcpServer)
    : res (dhcpServer * list gfx) :=
  match wanted req with
  | None => fx ← sendNak req; Ret (s, fx)
  | Some want =>
      x ← selectIP ck od srcPortID c req s;
      let '(s, got) := x in
      if negb (IsValid got) || negb (bool_decide (got = want)) then fx ← sendNak req; Ret (s, fx)
      else fx ← sendReply c req MessageTypeAck got; Ret (s, fx)
  end.

Definition declined (now : Z) (c : DHCPConfig) (ip : Addr) : Lease :=
  mkLease ip "declined" EmptyString EmptyString (time_add now (LeaseTime c)) false.

(** [handleFrame]: the new state, the frames sent, and whether the frame was
    consumed.  [now] is the clock read of the DECLINE branch. *)
Definition dhcp4_handle (ck : Clock) (od : Orders) (now : Z) (srcPortID : string) (frame : bytes) (s : dhcpServer)
    : res (dhcpServer * list gfx * bool) :=
  p ← parseIngress H frame;
  match p with
  | None => Ret (s, [], false)
  | Some pkt =>
      match p_kind pkt with
      | PUDP4 =>
          if negb (p_dstPort pkt =? dhcp4ServerPort) then Ret (s, [], false)
          else if negb (Enabled (cfg s)) then Ret (s, [], true)
          else match fromBytes (p_payload pkt) with
          | Err _ => Ret (s, [], true)
          | Ok req =>
              if negb (OpCode req =? OpcodeBootRequest) then Ret (s, [], true)
              else if MessageType req =? MessageTypeDiscover then
                x ← replyToDiscover ck od srcPortID (cfg s) req s; Ret (x, true)
              else if MessageType req =? MessageTypeRequest then
                x ← replyToRequest ck od srcPortID (cfg s) req s; Ret (x, true)
              else if MessageType req =? MessageTypeRelease then
                match addr4 (ClientIPAddr req) with
                | Some ip => Ret (if IsValid ip then with_leases (release ip (leases s)).1 s else s, [], true)
                | None => Ret (s, [], true)
                end
              else if MessageType req =? MessageTypeDecline then
                match addr4 (RequestedIPAddress req) with
                | Some ip =>
                    Ret (if IsValid ip then with_leases (lease_set (declined now (cfg s) ip) (leases s)) s else s,
                         [], true)
                | None => Ret (s, [], true)
                end
              else Ret (s, [], true)
          end
      | _ => Ret (s, [], false)
      end
  end.
End dhcp4.

(** * DHCPv6 (dhcp6.go) *)

Definition dhcp6ServerPort : Z := 547.
Definition dhcp6ClientPort : Z := 546.

(** The message types of RFC 8415. *)
Definition MessageTypeSolicit : Z := 1.
Definition MessageTypeRequest6 : Z := 3.
Definition MessageTypeRenew : Z := 5.
Definition MessageTypeRebind : Z := 6.
Definition MessageTypeRelease6 : Z := 8.
Definition MessageTypeInformationRequest : Z := 11.

(** What the accessors of [dhcpv6.Message] return: type, client DUID, IAID of
    the one IA_NA option. *)
Record req6 := mkReq6 {
  MessageType6 : Z;
  ClientID6 : option bytes;
  OneIANA : option bytes
}.

(** An ADVERTISE or a REPLY with the server DUID's link-layer address, the DNS
    servers, and an IA_NA (IAID, address, preferred and valid lifetime). *)
Record reply6 := mkReply6 {
  r6_advertise : bool;
  r6_serverLL : bytes;
  r6_dns : option (list bytes);
  r6_iana : option (bytes * bytes * Z * Z)
}.

Definition gatewayNet6 (v6 : V6Config) : Prefix :=
  prefix_Masked (addr_or_invalid (AddrFromSlice (To16 (v6_Address v6)))) (v6_PrefixLen v6).

(** [gatewayNet6(v6).Contains(ip)] *)
Definition gatewayNet6_contains (v6 : V6Config) (ip : Addr) : bool :=
  prefix_contains (addr_or_invalid (AddrFromSlice (To16 (v6_Address v6)))) (v6_PrefixLen v6) ip.

Definition not_v6 (a : Addr) : bool := negb (Is6 a) || Is4In6 a.

(** State and administration have the text of DHCPv4. *)
Definition newDHCP6Server : dhcpServer := newDHCPServer.
Definition dhcp6_DeleteStatic : string -> dhcpServer -> dhcpServer * option goerr := DeleteStatic.
Definition dhcp6_ReleaseLease : Addr -> dhcpServer -> dhcpServer * option goerr := ReleaseLease.
Definition dhcp6_PortDown : string -> dhcpServer -> dhcpServer := dhcp_PortDown.
Definition dhcp6_sweep : Z -> dhcpServer -> dhcpServer := sweep.
Definition dhcp6_Leases : Orders -> Z -> dhcpServer -> list Lease := Leases.
Definition dhcp6_ListStatic : Orders -> dhcpServer -> list StaticBinding := ListStatic.

Section dhcp6.
Context (H : HeaderPkg) (gw : GatewayT).
Context (fromBytes6 : bytes -> result (option req6)) (toBytes6 : req6 -> reply6 -> result bytes).

Definition dhcp6_SetConfig (c : DHCPConfig) (s : dhcpServer) : dhcpServer * option goerr :=
  if Enabled c then
    match gw_IPv6 gw with
    | None => (s, Some (Errorf "gateway has no IPv6 network" []))
    | Some v6 =>
        if not_v6 (PoolStart c) || not_v6 (PoolEnd c) then
          (s, Some (Errorf "dhcp6 pool must be IPv6 addresses" []))
        else if Less (PoolEnd c) (PoolStart c) then (s, Some (Errorf "pool_end is before pool_start" []))
        else if negb (gatewayNet6_contains v6 (PoolStart c)) || negb (gatewayNet6_contains v6 (PoolEnd c)) then
          (s, Some (Errorf "pool [%s, %s] is not inside the gateway network %s"
                      [AStr (addr_String (PoolStart c)); AStr (addr_String (PoolEnd c));
                       AStr (prefix_String (gatewayNet6 v6))]))
        else
          (with_cfg (mkCfg true (PoolStart c) (PoolEnd c)
             (if LeaseTime c <=? 0 then defaultLeaseTime else LeaseTime c)
             (match DNS c with [] => [v6_Address v6] | _ => DNS c end)) s, None)
    end
  else (with_cfg c s, None).

Definition dhcp6_PutStatic (b : StaticBinding) (s : dhcpServer) : dhcpServer * option goerr :=
  match binding_validate b with
  | Some e => (s, Some e)
  | None =>
      if not_v6 (sb_IP b) then (s, Some (Errorf "dhcp6 static binding ip must be IPv6" []))
      else (with_statics (<[sb_ID b := b]> (statics s)) s, None)
  end.

Definition dhcp6_ReplaceStatics (bs : list StaticBinding) (s : dhcpServer) : dhcpServer * option goerr :=
  match buildStaticSet bs true with
  | Err e => (s, Some e)
  | Ok m => (with_statics m s, None)
  end.

Definition selectIP6 (ck : Clock) (od : Orders) (srcPortID : string) (c : DHCPConfig) (srcMAC : bytes) (duidHex : string)
    (s : dhcpServer) : res (dhcpServer * Addr) :=
  v6 ← deref (gw_IPv6 gw);
  let gwIP := addr_or_invalid (AddrFromSlice (To16 (v6_Address v6))) in
  let '(t, ip) := selectFrom ck od (statics s) (leases s) srcPortID (hwString srcMAC) duidHex
                    (LeaseTime c) (PoolStart c) (PoolEnd c) gwIP None in
  Ret (with_leases t s, ip).

(** The link-layer address of the server's DUID. *)
Definition serverDUID : bytes := gw_MAC gw.

Definition transmit6 (pkt : ingressPacket) (payload : bytes) : gfx :=
  InjectUDP6 (gw_MAC gw) (p_srcMAC pkt) (gw_LinkLocal gw) (p_srcIP pkt) dhcp6ServerPort dhcp6ClientPort payload.

Definition send6 (pkt : ingressPacket) (msg : req6) (rp : reply6) : list gfx :=
  match toBytes6 msg rp with
  | Err _ => []
  | Ok payload => [transmit6 pkt payload]
  end.

Definition replyAddress (ck : Clock) (od : Orders) (srcPortID : string) (c : DHCPConfig) (pkt : ingressPacket)
    (msg : req6) (duid : bytes) (advertise : bool) (s : dhcpServer) : res (dhcpServer * list gfx) :=
  x ← selectIP6 ck od srcPortID c (p_srcMAC pkt) (EncodeToString duid) s;
  let '(s, ip) := x in
  if negb (IsValid ip) then Ret (s, [])
  else
    let ia := (fun iaid => (iaid, AsSlice ip, Z.quot (LeaseTime c) 2, LeaseTime c)) <$> OneIANA msg in
    Ret (s, send6 pkt msg (mkReply6 advertise serverDUID (Some (DNS c)) ia)).

Definition dhcp6_handle (ck : Clock) (od : Orders) (srcPortID : string) (frame : bytes) (s : dhcpServer)
    : res (dhcpServer * list gfx * bool) :=
  p ← parseIngress H frame;
  match p with
  | None => Ret (s, [], false)
  | Some pkt =>
      match p_kind pkt with
      | PUDP6 =>
          if negb (p_dstPort pkt =? dhcp6ServerPort) then Ret (s, [], false)
          else if negb (Enabled (cfg s)) then Ret (s, [], true)
          else match fromBytes6 (p_payload pkt) with
          | Err _ | Ok None => Ret (s, [], true)
          | Ok (Some msg) =>
              match ClientID6 msg with
              | None => Ret (s, [], true)
              | Some duid =>
                  let ty := MessageType6 msg in
                  if ty =? MessageTypeSolicit then
                    x ← replyAddress ck od srcPortID (cfg s) pkt msg duid true s; Ret (x, true)
                  else if (ty =? MessageTypeRequest6) || (ty =? MessageTypeRenew) || (ty =? MessageTypeRebind) then
                    x ← replyAddress ck od srcPortID (cfg s) pkt msg duid false s; Ret (x, true)
                  else if ty =? MessageTypeRelease6 then
                    let t := match byClient (o_leases od) (c_client ck) (leases s) (hwString (p_srcMAC pkt))
                                     (EncodeToString duid) with
                             | Some l => (release (l_IP l) (leases s)).1
                             | None => leases s
                             end in
                    Ret (with_leases t s, send6 pkt msg (mkReply6 false serverDUID None None), true)
                  else if ty =? MessageTypeInformationRequest then
                    Ret (s, send6 pkt msg (mkReply6 false serverDUID (Some (DNS (cfg s))) None), true)
                  else Ret (s, [], true)
              end
          end
      | _ => Ret (s, [], false)
      end
  end.
End dhcp6.
