(* ===== verification/DhcpProps.v ===== *)
(** Theorems about the DHCP servers: which address a client gets, who may take
    a leased address, exhaustion of the pool, and absence of panics. *)
From S2P Require Import Prelude Lease Dhcp.

#[local] Open Scope Z_scope.

(** * What a selection can be *)

Record orders_ok (od : Orders) : Prop := {
  oo_statics : range_order (o_statics od);
  oo_leases : range_order (o_leases od)
}.

Definition std_orders : Orders := mkOrders map_to_list map_to_list.
Lemma std_orders_ok : orders_ok std_orders.
Proof. split; by intros m. Qed.

(** Every binding has an address, every lease is filed under its own. *)
Definition statics_ok (st : gmap string StaticBinding) : Prop :=
  forall id b, st !! id = Some b -> IsValid (sb_IP b) = true.
Definition leases_ok (t : leaseTable) : Prop := forall ip l, t !! ip = Some l -> l_IP l = ip /\ IsValid ip = true.

(** The address is set aside by some binding. *)
Definition reserved (st : gmap string StaticBinding) (ip : Addr) : Prop :=
  exists id b, st !! id = Some b /\ sb_IP b = ip.

Lemma matchBinding_in bs portID mac cid b : matchBinding bs portID mac cid = Some b -> b ∈ bs.
Proof. intros (s & Hin & _)%matchBinding_best. done. Qed.

(** [byClient] finds an active lease of the client. *)
Lemma byClient_active od now (t : leaseTable) mac cid l :
  orders_ok od -> leases_ok t -> byClient (o_leases od) now t mac cid = Some l ->
  t !! l_IP l = Some l /\ lease_key l = clientKey mac cid /\ now (l_IP l) <= l_Expiry l.
Proof.
  intros Hod Hl. unfold byClient. intros ([i [ip l']] & Hf & ->)%fmap_Some.
  apply list_find_Some in Hf as (Hi & Ht & _). apply andb_prop_elim in Ht as [Hk Hx].
  apply bool_decide_spec in Hk. apply Is_true_eq_true in Hx. cbn [fst snd] in *.
  apply list_elem_of_lookup_2, elem_of_range in Hi; [|apply Hod]. destruct (Hl _ _ Hi) as [<- _].
  unfold time_after in Hx. by bool_prop.
Qed.

Section select.
Context (ck : Clock) (od : Orders) (Hod : orders_ok od).
Context (st : gmap string StaticBinding) (t : leaseTable) (Hst : statics_ok st) (Hl : leases_ok t).
Context (portID mac cid : string) (leaseTime : Z) (poolStart poolEnd gwIP : Addr) (requested : option Addr).
Context (mk : Z -> Addr) (M a e : Z) `{!Family mk M}.
Context (Hstart : poolStart = mk a) (Hend : poolEnd = mk e) (Hpool : 0 <= a <= e) (HeM : e < M).

Abbreviation bindings := ((o_statics od st).*2).
Abbreviation key := (clientKey mac cid).

Definition new_lease (ip : Addr) (static : bool) : Lease :=
  mkLease ip mac cid portID (time_add (c_lease ck) leaseTime) static.

Lemma reserved_iff ip : ip ∈ sb_IP <$> bindings <-> reserved st ip.
Proof using Hod.
  rewrite list_elem_of_fmap. setoid_rewrite list_elem_of_fmap. split.
  - intros (b & -> & [id b'] & -> & Hin). apply elem_of_range in Hin; [|apply Hod]. by exists id, b'.
  - intros (id & b & Hb & <-). exists b. split; [done|]. exists (id, b). split; [done|].
    by apply elem_of_range; [apply Hod|].
Qed.

Definition skipped (ip : Addr) : bool := bool_decide (ip = gwIP) || bool_decide (ip ∈ sb_IP <$> bindings).

(** The loop over the pool never runs out of fuel and finds the first free address. *)
Lemma pool_first_free l :
  exists r, first_free mk (c_alloc ck) e skipped t a r /\
    allocate (S (S (size t + length bindings))) (c_alloc ck) poolStart poolEnd skipped l t =
      Some (if IsValid r then (<[r := with_ip r (l_Static l) l]> t, r) else (t, AInvalid)).
Proof using Family0 Hend Hpool Hstart HeM.
  set (rejected := (map_to_list t).*1 ++ gwIP :: (sb_IP <$> bindings)).
  set (rej := list_to_set rejected : gset Addr).
  destruct (allocLoop_first_free mk M (c_alloc ck) e skipped t ltac:(lia) rej (S (S (size t + length bindings))) a)
    as (r & Hr & Hff); [lia | | |].
  - intros w Hw. apply elem_of_list_to_set. unfold rejected. rewrite elem_of_app, elem_of_cons.
    unfold free_addr in Hw. apply andb_false_iff in Hw as [Hw|Hw].
    + apply negb_false_iff, orb_true_iff in Hw. destruct Hw as [Hw|Hw]; bool_prop; auto.
    + destruct (t !! mk w) as [l0|] eqn:E; [|done]. left. apply list_elem_of_fmap. exists (mk w, l0).
      split; [done | by apply elem_of_map_to_list].
  - assert (Hs : (size (ahead rej a) <= size rej)%nat).
    { apply subseteq_size. unfold ahead. intros x [_ Hx]%elem_of_filter. done. }
    pose proof (size_list_to_set_le rejected) as Hr. fold rej in Hr. unfold rejected in Hr.
    rewrite length_app, length_fmap, length_map_to_list in Hr. cbn [length] in Hr.
    rewrite (length_fmap sb_IP) in Hr. lia.
  - exists r. split; [done|]. unfold allocate. rewrite Hstart, Hend, Hr. by destruct (IsValid r).
Qed.

(** The client's own active lease, when its address is not reserved. *)
Definition renewable (l : Lease) : Prop :=
  t !! l_IP l = Some l /\ lease_key l = key /\ c_client ck (l_IP l) <= l_Expiry l /\ ~ reserved st (l_IP l).

Inductive selected : leaseTable -> Addr -> Prop :=
  | sel_busy b :
      matchBinding bindings portID mac cid = Some b -> inUse t (c_inUse ck) (sb_IP b) mac cid = true ->
      selected t AInvalid
  | sel_static b :
      matchBinding bindings portID mac cid = Some b -> inUse t (c_inUse ck) (sb_IP b) mac cid = false ->
      selected (<[sb_IP b := new_lease (sb_IP b) true]> t) (sb_IP b)
  | sel_renew l :
      matchBinding bindings portID mac cid = None -> renewable l ->
      selected (<[l_IP l := new_lease (l_IP l) false]> t) (l_IP l)
  | sel_request ip :
      matchBinding bindings portID mac cid = None -> requested = Some ip -> IsValid ip = true ->
      Less poolEnd ip = false -> Less ip poolStart = false -> ip <> gwIP -> ~ reserved st ip ->
      inUse t (c_request ck) ip mac cid = false ->
      selected (<[ip := new_lease ip false]> t) ip
  | sel_pool v :
      matchBinding bindings portID mac cid = None -> a <= v <= e -> mk v <> gwIP -> ~ reserved st (mk v) ->
      (forall l, t !! mk v = Some l -> l_Expiry l < c_alloc ck) ->
      (forall w, a <= w < v -> free_addr (c_alloc ck) skipped t (mk w) = false) ->
      selected (<[mk v := new_lease (mk v) false]> t) (mk v)
  | sel_exhausted :
      matchBinding bindings portID mac cid = None ->
      (forall w, a <= w <= e -> free_addr (c_alloc ck) skipped t (mk w) = false) ->
      selected t AInvalid.

Lemma byClient_renewable l :
  byClient (o_leases od) (c_client ck) t mac cid = Some l ->
  bool_decide (l_IP l ∈ sb_IP <$> bindings) = false -> renewable l.
Proof using Hod Hl.
  intros Hb Hr. destruct (byClient_active od (c_client ck) t mac cid l Hod Hl Hb) as (? & ? & ?).
  bool_prop. split_and!; [done..|]. by rewrite <- reserved_iff.
Qed.

Lemma free_spec ip :
  free_addr (c_alloc ck) skipped t ip = true ->
  ip <> gwIP /\ ~ reserved st ip /\ forall l, t !! ip = Some l -> l_Expiry l < c_alloc ck.
Proof using Hod.
  unfold free_addr, skipped. intros [Hs Hf]%andb_true_iff. apply negb_true_iff, orb_false_iff in Hs as [H1 H2].
  bool_prop. rewrite reserved_iff in *. split_and!; try done. intros l Hlk. rewrite Hlk in Hf.
  unfold time_after in Hf. by bool_prop.
Qed.

Lemma pool_selected :
  matchBinding bindings portID mac cid = None ->
  let x := match allocate (S (S (size t + length bindings))) (c_alloc ck) poolStart poolEnd skipped
                   (new_lease AInvalid false) t with
           | Some x => x
           | None => (t, AInvalid)
           end in
  selected x.1 x.2.
Proof using Family0 Hend Hpool Hstart HeM Hod.
  intros Hm. destruct (pool_first_free (new_lease AInvalid false)) as (r & Hff & ->).
  destruct Hff as [(v & Hv & -> & Hf & Hw)|[-> Hw]]; cbn [fst snd].
  - rewrite fam_valid. apply free_spec in Hf as (? & ? & ?). by apply sel_pool.
  - by apply sel_exhausted.
Qed.

Lemma selectFrom_selected :
  let x := selectFrom ck od st t portID mac cid leaseTime poolStart poolEnd gwIP requested in
  selected x.1 x.2.
Proof using Family0 Hend Hpool Hstart HeM Hod Hl.
  cbv zeta. unfold selectFrom. destruct (matchBinding _ _ _ _) as [b|] eqn:Hm.
  { destruct (inUse _ _ _ _ _) eqn:Hu; [by eapply sel_busy | by eapply sel_static]. }
  pose proof (pool_selected Hm) as Hp. cbv zeta in Hp. unfold skipped, new_lease in Hp.
  cbv zeta. match goal with |- selected (match _ with Some _ => _ | None => ?h end).1 _ => assert (Hh : selected h.1 h.2) end.
  { destruct requested as [rip|] eqn:Hreq; [|done]. destruct (_ && _) eqn:Ec; [|done].
    bool_prop. cbn [fst snd]. rewrite reserved_iff in *. by apply sel_request. }
  destruct (byClient _ _ _ _ _) as [cur|] eqn:Hc; [|done].
  destruct (bool_decide (l_IP cur ∈ _)) eqn:Hr; [done|]. apply (sel_renew cur); [done|]. apply byClient_renewable; [exact Hc | exact Hr].
Qed.
End select.

(** * Consequences for the lease table *)

Lemma inUse_own (t : leaseTable) ip mac cid now l :
  t !! ip = Some l -> now <= l_Expiry l -> inUse t now ip mac cid = false -> lease_key l = clientKey mac cid.
Proof.
  intros Hlk Hx. unfold inUse. rewrite Hlk. unfold time_after. rewrite (proj2 (Z.ltb_ge _ _)) by done.
  intros Hn. by bool_prop.
Qed.

Section consequences.
Context (ck : Clock) (od : Orders) (st : gmap string StaticBinding) (t : leaseTable).
Context (portID mac cid : string) (leaseTime : Z) (poolStart poolEnd gwIP : Addr) (requested : option Addr).
Context (mk : Z -> Addr) (a e : Z).

Abbreviation chosen :=
  (selected ck od st t portID mac cid leaseTime poolStart poolEnd gwIP requested mk a e).

(** Every read of the clock happens before [x]. *)
Definition clock_before (x : Z) : Prop :=
  c_inUse ck <= x /\ c_request ck <= x /\ c_alloc ck <= x /\ forall i, c_client ck i <= x.

(** A selection either changes nothing or books its address for the client. *)
Lemma selected_table t' ip :
  chosen t' ip ->
  statics_ok st -> orders_ok od -> leases_ok t -> (forall v, IsValid (mk v) = true) ->
  (ip = AInvalid /\ t' = t) \/
  (IsValid ip = true /\ exists static, t' = <[ip := new_lease ck portID mac cid leaseTime ip static]> t).
Proof using.
  intros Hsel Hst Hod Hl Hmk. destruct Hsel as [|b Hm|l Hm [Hlk _]|i|v|]; [by left | right.. | by left]; (split; [|by eexists]); try done.
  - apply matchBinding_in, list_elem_of_fmap in Hm as ([id b'] & -> & Hin).
    apply elem_of_range in Hin; [|apply Hod]. by eapply Hst.
  - by destruct (Hl _ _ Hlk).
Qed.

(** It never takes an address another client holds. *)
Lemma selected_own t' ip l :
  chosen t' ip ->
  t !! ip = Some l -> clock_before (l_Expiry l) -> IsValid ip = true -> lease_key l = clientKey mac cid.
Proof using.
  intros Hsel Hlk (H1 & H2 & H3 & H4) Hne. destruct Hsel as [|b Hm Hu|l0 Hm (Hl0 & Hk & _)|i _ _ _ _ _ _ _ Hu|v _ _ _ _ Hx|]; try done.
  - eapply inUse_own; [exact Hlk | | exact Hu]; done.
  - congruence.
  - eapply inUse_own; [exact Hlk | | exact Hu]; done.
  - apply Hx in Hlk. lia.
Qed.

Lemma selected_keeps t' ip i l :
  chosen t' ip ->
  statics_ok st -> orders_ok od -> leases_ok t -> (forall v, IsValid (mk v) = true) ->
  t !! i = Some l -> clock_before (l_Expiry l) ->
  exists l', t' !! i = Some l' /\ lease_key l' = lease_key l.
Proof using.
  intros Hsel Hst Hod Hl Hmk Hlk Hx. destruct (selected_table _ _ Hsel Hst Hod Hl Hmk) as [[_ ->]|[Hv [s Ht]]]; [by exists l|].
  destruct (decide (i = ip)) as [->|Hne]; [|exists l; by rewrite Ht, lookup_insert_ne].
  exists (new_lease ck portID mac cid leaseTime ip s). rewrite Ht, lookup_insert_eq. split; [done|].
  symmetry. by eapply selected_own.
Qed.

Lemma selected_leases_ok t' ip :
  chosen t' ip ->
  statics_ok st -> orders_ok od -> leases_ok t -> (forall v, IsValid (mk v) = true) -> leases_ok t'.
Proof using.
  intros Hsel Hst Hod Hl Hmk. destruct (selected_table _ _ Hsel Hst Hod Hl Hmk) as [[_ ->]|[Hv [s ->]]]; [done|].
  intros i l. rewrite lookup_insert. case_decide as E; [|apply Hl]. intros [= <-]. by subst.
Qed.
End consequences.

(** * Server states *)

Definition addr_ok (x : Addr) : Prop :=
  match x with AInvalid => True | A4 v => 0 <= v < 2 ^ 32 | A6 v _ => 0 <= v < 2 ^ 128 end.

(** The pool of an enabled server lies in one family and the gateway has it. *)
Definition pool_in (mk : Z -> Addr) (M : Z) (c : DHCPConfig) : Prop :=
  exists a e, PoolStart c = mk a /\ PoolEnd c = mk e /\ 0 <= a <= e /\ e < M.

Record server_ok (has_net : Prop) (mk : Z -> Addr) (M : Z) (s : dhcpServer) : Prop := {
  sv_statics : statics_ok (statics s);
  sv_leases : leases_ok (leases s);
  sv_cfg : Enabled (cfg s) = true -> has_net /\ pool_in mk M (cfg s) /\ 0 < LeaseTime (cfg s)
}.

Lemma buildStaticSet_ok bs v6 m : buildStaticSet bs v6 = Ok m -> statics_ok m.
Proof.
  unfold buildStaticSet. assert (Hgen : forall acc, (forall m0, acc = Ok m0 -> statics_ok m0) ->
    foldl (buildStep v6) acc bs = Ok m -> statics_ok m); [|apply Hgen; intros m0 [= <-] id b; by rewrite lookup_empty].
  induction bs as [|b bs IH]; intros acc Hacc; cbn [foldl]; [apply Hacc|]. apply IH. intros m0. unfold buildStep.
  destruct acc as [m1|]; [|done]. destruct (bool_decide _); [done|].
  destruct (binding_validate b) eqn:Hv; [done|]. destruct (v6 && _); [done|]. destruct (negb v6 && _); [done|].
  destruct (m1 !! sb_ID b); [done|]. intros [= <-] id b'. rewrite lookup_insert. case_decide; [|by apply Hacc].
  intros [= <-]. unfold binding_validate in Hv. by destruct (sb_PortID b), (sb_MAC b), (sb_ClientID b), (IsValid (sb_IP b)).
Qed.

Lemma binding_validate_ip b : binding_validate b = None -> IsValid (sb_IP b) = true.
Proof. unfold binding_validate. by destruct (sb_PortID b), (sb_MAC b), (sb_ClientID b), (IsValid (sb_IP b)). Qed.

Section admin.
Context (P : Prop) (mk : Z -> Addr) (M : Z).
Abbreviation ok := (server_ok P mk M).

Lemma ok_new : ok newDHCPServer.
Proof.
  split; [| |done].
  - intros id b Hb. exfalso. apply (lookup_empty_Some id b), Hb.
  - intros i l Hl. exfalso. apply (lookup_empty_Some i l), Hl.
Qed.

Lemma ok_with_leases s t : leases_ok t -> ok s -> ok (with_leases t s).
Proof. by intros Ht []. Qed.

Lemma ok_with_statics s m : statics_ok m -> ok s -> ok (with_statics m s).
Proof. by intros Hm []. Qed.

Lemma statics_ok_insert m b : statics_ok m -> IsValid (sb_IP b) = true -> statics_ok (<[sb_ID b := b]> m).
Proof. intros Hm Hb id x. rewrite lookup_insert. case_decide; [by intros [= <-] | apply Hm]. Qed.

Lemma statics_ok_delete m id : statics_ok m -> statics_ok (delete id m).
Proof. intros Hm i x [_ Hx]%lookup_delete_Some. by eapply Hm. Qed.

Lemma leases_ok_sub t t' : (forall i l, t' !! i = Some l -> t !! i = Some l) -> leases_ok t -> leases_ok t'.
Proof. intros Hs Ht i l Hl. by eapply Ht, Hs. Qed.

Lemma release_sub ip t i l : (release ip t).1 !! i = Some l -> t !! i = Some l.
Proof. unfold release. destruct (t !! ip); [|done]. cbn [fst]. by intros [_ ?]%lookup_delete_Some. Qed.

Lemma ok_DeleteStatic id s : ok s -> ok (DeleteStatic id s).1.
Proof.
  intros Hok. unfold DeleteStatic. destruct (statics s !! id); [|done].
  apply ok_with_statics; [apply statics_ok_delete, Hok | done].
Qed.

Lemma ok_ReleaseLease ip s : ok s -> ok (ReleaseLease ip s).1.
Proof.
  intros Hok. unfold ReleaseLease. pose proof (release_sub ip (leases s)) as Hs.
  destruct (release ip (leases s)) as [t []]; [|done]. apply ok_with_leases; [|done].
  eapply leases_ok_sub; [apply Hs | apply Hok].
Qed.

Lemma ok_PortDown portID s : ok s -> ok (dhcp_PortDown portID s).
Proof.
  intros Hok. apply ok_with_leases; [|done]. eapply leases_ok_sub; [|apply Hok].
  intros i l. unfold releaseByPort. rewrite map_lookup_filter_Some. by intros [? _].
Qed.

Lemma ok_sweep now s : ok s -> ok (sweep now s).
Proof.
  intros Hok. apply ok_with_leases; [|done]. eapply leases_ok_sub; [|apply Hok].
  intros i l. unfold expireSweep. rewrite map_lookup_filter_Some. by intros [? _].
Qed.
End admin.

(** * gVisor's header accessors

    An accessor needs the bytes of its header and no more; a packet that
    [IsValid] accepts has a header length within the packet. *)
Record header_ok (H : HeaderPkg) : Prop := {
  hd_eth0 : 0 <= EthernetMinimumSize H;
  hd_ip60 : 0 <= IPv6MinimumSize H;
  hd_eth : forall b, EthernetMinimumSize H <= len b ->
    (exists x, eth_SourceAddress H b = Ret x) /\ (exists x, eth_Type H b = Ret x);
  hd_ip4 : forall b, IPv4MinimumSize H <= len b ->
    (exists x, ip4_IsValid H b (len b) = Ret x) /\ (exists x, ip4_TransportProtocol H b = Ret x) /\
    (exists x, ip4_FragmentOffset H b = Ret x) /\ (exists x, ip4_More H b = Ret x) /\
    (exists x, ip4_SourceAddress H b = Ret x) /\ (exists x, ip4_DestinationAddress H b = Ret x);
  hd_ip4_valid : forall b, ip4_IsValid H b (len b) = Ret true ->
    exists hl, ip4_HeaderLength H b = Ret hl /\ 0 <= hl <= len b;
  hd_ip6 : forall b, IPv6MinimumSize H <= len b ->
    (exists x, ip6_SourceAddress H b = Ret x) /\ (exists x, ip6_DestinationAddress H b = Ret x) /\
    (exists x, ip6_TransportProtocol H b = Ret x);
  hd_udp : forall b, UDPMinimumSize H <= len b ->
    (exists x, udp_SourcePort H b = Ret x) /\ (exists x, udp_DestinationPort H b = Ret x) /\
    (exists x, udp_Payload H b = Ret x);
  hd_icmp : forall b, ICMPv6MinimumSize H <= len b -> exists x, icmp6_Type H b = Ret x
}.

Section dissect.
Context (H : HeaderPkg) (Hok : header_ok H).

Lemma parseUDP_total kind mac src dst udp :
  UDPMinimumSize H <= len udp -> exists p, parseUDP H kind mac src dst udp = Ret p.
Proof using Hok.
  intros Hu. destruct (hd_udp H Hok udp Hu) as ([sp E1] & [dp E2] & [pl E3]).
  unfold parseUDP. rewrite E1, bind_Ret, E2, bind_Ret, E3, bind_Ret. by eexists.
Qed.

Lemma parseIPv4_total mac body : exists p, parseIPv4 H mac body = Ret p.
Proof using Hok.
  unfold parseIPv4. destruct (Z.ltb_spec (len body) (IPv4MinimumSize H)) as [|Hl]; [by eexists|].
  destruct (hd_ip4 H Hok body Hl) as ([v E1] & [pr E2] & [fo E3] & [mo E4] & [s E5] & [d E6]).
  rewrite E1, bind_Ret. destruct v; [|by eexists]. cbn [negb]. rewrite E2, bind_Ret.
  destruct (negb _); [by eexists|]. rewrite E3, bind_Ret.
  assert (Hm : exists more, (if negb (fo =? 0) then Ret true else ip4_More H body) = Ret more)
    by (destruct (negb (fo =? 0)); eauto).
  destruct Hm as [more ->]. rewrite bind_Ret. destruct more; [by eexists|].
  destruct (hd_ip4_valid H Hok body E1) as (hl & -> & Hhl). rewrite bind_Ret, slice_from_ret, bind_Ret by lia.
  destruct (Z.ltb_spec (len (drop (Z.to_nat hl) body)) (UDPMinimumSize H)) as [|Hu]; [by eexists|].
  rewrite E5, bind_Ret, E6, bind_Ret. by apply parseUDP_total.
Qed.

Lemma parseIPv6_total mac body : exists p, parseIPv6 H mac body = Ret p.
Proof using Hok.
  unfold parseIPv6. destruct (Z.ltb_spec (len body) (IPv6MinimumSize H)) as [|Hl]; [by eexists|].
  destruct (hd_ip6 H Hok body Hl) as ([s E1] & [d E2] & [pr E3]). pose proof (hd_ip60 H Hok).
  rewrite E1, bind_Ret, E2, bind_Ret, slice_from_ret, bind_Ret, E3, bind_Ret by lia.
  destruct (pr =? _).
  - destruct (Z.ltb_spec (len (drop (Z.to_nat (IPv6MinimumSize H)) body)) (UDPMinimumSize H)); [by eexists|].
    by apply parseUDP_total.
  - destruct (pr =? _); [|by eexists].
    destruct (Z.ltb_spec (len (drop (Z.to_nat (IPv6MinimumSize H)) body)) (ICMPv6MinimumSize H)) as [|Hi]; [by eexists|].
    destruct (hd_icmp H Hok _ Hi) as [ty ->]. rewrite bind_Ret. by eexists.
Qed.

Lemma parseIngress_total frame : exists p, parseIngress H frame = Ret p.
Proof using Hok.
  unfold parseIngress. destruct (Z.ltb_spec (len frame) (EthernetMinimumSize H)) as [|Hl]; [by eexists|].
  destruct (hd_eth H Hok frame Hl) as ([s E1] & [ty E2]). pose proof (hd_eth0 H Hok).
  rewrite E1, bind_Ret, slice_from_ret, bind_Ret, E2, bind_Ret by lia.
  destruct (ty =? _); [apply parseIPv4_total|]. destruct (ty =? _); [apply parseIPv6_total | by eexists].
Qed.
End dissect.

(** * The DHCPv4 server *)

Section v4.
Context (H : HeaderPkg) (gw : GatewayT).
Context (fromBytes : bytes -> result req4) (toBytes : req4 -> reply4 -> result bytes).

Definition ok4 : dhcpServer -> Prop := server_ok (is_Some (gw_IPv4 gw)) A4 (2 ^ 32).

Lemma ok4_SetConfig c s :
  addr_ok (PoolStart c) -> addr_ok (PoolEnd c) -> ok4 s -> ok4 (dhcp4_SetConfig gw c s).1.
Proof.
  intros Ha He Hok. unfold dhcp4_SetConfig. destruct (Enabled c) eqn:En; [|by destruct Hok; split; cbn; [..|congruence]].
  destruct (gw_IPv4 gw) as [v4|] eqn:Hv; [|done].
  destruct (PoolStart c) as [|a|] eqn:Ea, (PoolEnd c) as [|e|] eqn:Ee; cbn [Is4 negb orb]; try done.
  rewrite (fam_less (mk := A4) (M := 2 ^ 32)) by done. destruct (Z.ltb_spec e a); [done|].
  destruct (_ || _); [done|]. destruct Hok. split; [done..|]. intros _. cbn [cfg with_cfg fst].
  split_and!; [by eexists | exists a, e; split_and!; cbn in *; try done; lia|].
  cbn [LeaseTime]. destruct (Z.leb_spec (LeaseTime c) 0); [done | lia].
Qed.

(** A request the server acts on. *)
Definition dhcp4_request (frame : bytes) (req : req4) : Prop :=
  exists pkt, parseIngress H frame = Ret (Some pkt) /\ p_kind pkt = PUDP4 /\
    p_dstPort pkt = dhcp4ServerPort /\ fromBytes (p_payload pkt) = Ok req /\ OpCode req = OpcodeBootRequest.

Definition mac_of (req : req4) : string := hwString (ClientHWAddr req).
Definition cid_of (req : req4) : string := EncodeToString (ClientIdentifier req).

Lemma selectIP_selected ck od portID req s :
  orders_ok od -> ok4 s -> Enabled (cfg s) = true ->
  exists v4 t ip a e,
    gw_IPv4 gw = Some v4 /\ PoolStart (cfg s) = A4 a /\ PoolEnd (cfg s) = A4 e /\
    selectIP gw ck od portID (cfg s) req s = Ret (with_leases t s, ip) /\
    selected ck od (statics s) (leases s) portID (mac_of req) (cid_of req) (LeaseTime (cfg s))
      (PoolStart (cfg s)) (PoolEnd (cfg s)) (addr_or_invalid (addr4 (v4_Address v4)))
      (addr4 (RequestedIPAddress req)) A4 a e t ip.
Proof.
  intros Hod [Hst Hl Hc] En. destruct (Hc En) as ([v4 Hv] & (a & e & Ea & Ee & Hae & HeM) & _).
  pose proof (selectFrom_selected ck od Hod (statics s) (leases s) Hl portID (mac_of req) (cid_of req)
    (LeaseTime (cfg s)) (PoolStart (cfg s)) (PoolEnd (cfg s)) (addr_or_invalid (addr4 (v4_Address v4)))
    (addr4 (RequestedIPAddress req)) A4 (2 ^ 32) a e Ea Ee Hae HeM) as Hsel. cbv zeta in Hsel.
  unfold selectIP. rewrite Hv. cbn [deref]. rewrite bind_Ret. fold (mac_of req) (cid_of req).
  destruct (selectFrom _ _ _ _ _ _ _ _ _ _ _ _) as [t ip]. by exists v4, t, ip, a, e.
Qed.

Lemma send_built_total req rp y : is_Some (gw_IPv4 gw) -> exists fx, send_built gw toBytes req rp y = Ret fx.
Proof.
  intros [v4 Hv]. unfold send_built, transmit4. destruct (toBytes req rp); [|by eexists].
  rewrite Hv. cbn [deref]. rewrite bind_Ret. destruct (if _ && _ then _ else _) as [dm di]. by eexists.
Qed.

(** What answering a DISCOVER or a REQUEST does to the state. *)
Lemma discover_total ck od portID req s :
  orders_ok od -> ok4 s -> Enabled (cfg s) = true ->
  exists s' ip fx, selectIP gw ck od portID (cfg s) req s = Ret (s', ip) /\
    replyToDiscover gw toBytes ck od portID (cfg s) req s = Ret (s', fx).
Proof.
  intros Hod Hok En. destruct (selectIP_selected ck od portID req s Hod Hok En) as (v4 & t & ip & a & e & Hv & _ & _ & E & _).
  unfold replyToDiscover, sendReply. rewrite E, bind_Ret. destruct (negb _); [by eexists _, _, _|].
  rewrite Hv. cbn [deref]. rewrite bind_Ret.
  destruct (send_built_total req (ackReply v4 (cfg s) MessageTypeOffer ip) ip) as [fx ->]; [by eexists|].
  rewrite bind_Ret. by eexists _, _, _.
Qed.

Lemma request_total ck od portID req s :
  orders_ok od -> ok4 s -> Enabled (cfg s) = true ->
  exists s' fx, replyToRequest gw toBytes ck od portID (cfg s) req s = Ret (s', fx) /\
    (s' = s \/ exists ip, selectIP gw ck od portID (cfg s) req s = Ret (s', ip)).
Proof.
  intros Hod Hok En. destruct (selectIP_selected ck od portID req s Hod Hok En) as (v4 & t & ip & a & e & Hv & _ & _ & E & _).
  unfold replyToRequest, sendReply, sendNak. rewrite Hv. cbn [deref]. rewrite !bind_Ret.
  assert (Hs : forall rp y, exists fx, send_built gw toBytes req rp y = Ret fx)
    by (intros; apply send_built_total; by eexists).
  destruct (wanted req) as [want|].
  - rewrite E, bind_Ret. destruct (_ || _); rewrite ?bind_Ret.
    + destruct (Hs (nakReply v4) AInvalid) as [fx ->]. rewrite bind_Ret. eexists _, _. split; [done | right; by eexists].
    + destruct (Hs (ackReply v4 (cfg s) MessageTypeAck ip) ip) as [fx ->]. rewrite bind_Ret.
      eexists _, _. split; [done | right; by eexists].
  - destruct (Hs (nakReply v4) AInvalid) as [fx ->]. rewrite bind_Ret. eexists _, _. split; [done | by left].
Qed.

(** What handling a frame can do to the state. *)
Inductive handled (ck : Clock) (od : Orders) (now : Z) (portID : string) (frame : bytes) (s : dhcpServer)
    : dhcpServer -> Prop :=
  | hd_same : handled ck od now portID frame s s
  | hd_select req s' ip :
      dhcp4_request frame req -> Enabled (cfg s) = true ->
      selectIP gw ck od portID (cfg s) req s = Ret (s', ip) -> handled ck od now portID frame s s'
  | hd_release req ip :
      dhcp4_request frame req -> MessageType req = MessageTypeRelease -> addr4 (ClientIPAddr req) = Some ip ->
      handled ck od now portID frame s (with_leases (release ip (leases s)).1 s)
  | hd_decline req ip :
      dhcp4_request frame req -> MessageType req = MessageTypeDecline ->
      addr4 (RequestedIPAddress req) = Some ip -> IsValid ip = true ->
      handled ck od now portID frame s (with_leases (lease_set (declined now (cfg s) ip) (leases s)) s).

Lemma dhcp4_handle_total ck od now portID frame s :
  header_ok H -> orders_ok od -> ok4 s ->
  exists s' fx c, dhcp4_handle H gw fromBytes toBytes ck od now portID frame s = Ret (s', fx, c) /\
    handled ck od now portID frame s s'.
Proof.
  intros HH Hod Hok. assert (Hsame : forall c : bool, exists s' (fx : list gfx) (c' : bool), Ret (s, [], c) = Ret (s', fx, c') /\
    handled ck od now portID frame s s') by (intros c; eexists _, _, _; split; [done | apply hd_same]).
  unfold dhcp4_handle. destruct (parseIngress_total H HH frame) as [p Hp]. rewrite Hp, bind_Ret.
  destruct p as [pkt|]; [|by apply (Hsame false)]. destruct (p_kind pkt) eqn:Hk; try by apply (Hsame false).
  destruct (Z.eqb_spec (p_dstPort pkt) dhcp4ServerPort) as [Hport|]; cbn [negb]; [|by apply (Hsame false)].
  destruct (Enabled (cfg s)) eqn:En; cbn [negb]; [|by apply (Hsame true)].
  destruct (fromBytes (p_payload pkt)) as [req|] eqn:Hreq; [|by apply (Hsame true)].
  destruct (Z.eqb_spec (OpCode req) OpcodeBootRequest) as [Hop|]; cbn [negb]; [|by apply (Hsame true)].
  assert (Hr : dhcp4_request frame req) by by exists pkt.
  destruct (_ =? MessageTypeDiscover).
  { destruct (discover_total ck od portID req s Hod Hok En) as (s' & ip & fx & E1 & ->). rewrite bind_Ret.
    eexists _, _, _. split; [done | by eapply hd_select]. }
  destruct (_ =? MessageTypeRequest).
  { destruct (request_total ck od portID req s Hod Hok En) as (s' & fx & -> & Hs). rewrite bind_Ret.
    eexists _, _, _. split; [done|]. destruct Hs as [->|[ip E]]; [apply hd_same | by eapply hd_select]. }
  destruct (Z.eqb_spec (MessageType req) MessageTypeRelease) as [Ht|_].
  { destruct (addr4 (ClientIPAddr req)) as [ip|] eqn:Ha; [|by apply (Hsame true)].
    destruct (IsValid ip); [|by apply (Hsame true)]. eexists _, _, _. split; [done | by eapply hd_release]. }
  destruct (Z.eqb_spec (MessageType req) MessageTypeDecline) as [Ht|_]; [|by apply (Hsame true)].
  destruct (addr4 (RequestedIPAddress req)) as [ip|] eqn:Ha; [|by apply (Hsame true)].
  destruct (IsValid ip) eqn:Hv; [|by apply (Hsame true)]. eexists _, _, _. split; [done | by eapply hd_decline].
Qed.

Lemma ok4_handled ck od now portID frame s s' :
  orders_ok od -> ok4 s -> handled ck od now portID frame s s' -> ok4 s'.
Proof.
  intros Hod Hok [|req s1 ip _ En E|req ip _ _ _|req ip _ _ _ Hv]; [done | | |].
  - destruct (selectIP_selected ck od portID req s Hod Hok En) as (v4 & t & ip' & a & e & _ & _ & _ & E' & Hsel).
    rewrite E in E'. injection E' as -> ->. apply ok_with_leases; [|done].
    eapply selected_leases_ok; [done | apply Hok | done | apply Hok | done].
  - apply ok_with_leases; [|done]. eapply leases_ok_sub; [apply release_sub | apply Hok].
  - apply ok_with_leases; [|done]. intros i l. unfold lease_set. cbn [l_IP declined].
    rewrite lookup_insert. case_decide; [|apply Hok]. intros [= <-]. by subst.
Qed.

(** Everything that can happen to the server. *)
Inductive dhcp4_step (s : dhcpServer) : dhcpServer -> Prop :=
  | d4_config c : addr_ok (PoolStart c) -> addr_ok (PoolEnd c) -> dhcp4_step s (dhcp4_SetConfig gw c s).1
  | d4_put b : dhcp4_step s (dhcp4_PutStatic b s).1
  | d4_replace bs : dhcp4_step s (dhcp4_ReplaceStatics bs s).1
  | d4_delete id : dhcp4_step s (DeleteStatic id s).1
  | d4_release ip : dhcp4_step s (ReleaseLease ip s).1
  | d4_portDown id : dhcp4_step s (dhcp_PortDown id s)
  | d4_sweep now : dhcp4_step s (sweep now s)
  | d4_frame ck od now portID frame s' fx c :
      orders_ok od -> dhcp4_handle H gw fromBytes toBytes ck od now portID frame s = Ret (s', fx, c) ->
      dhcp4_step s s'.

Inductive dhcp4_reachable : dhcpServer -> Prop :=
  | d4_new : dhcp4_reachable newDHCPServer
  | d4_next s s' : dhcp4_reachable s -> dhcp4_step s s' -> dhcp4_reachable s'.

Lemma dhcp4_step_ok s s' : header_ok H -> ok4 s -> dhcp4_step s s' -> ok4 s'.
Proof.
  intros HH Hok Hstep.
  destruct Hstep as [c Ha He|b|bs|id|ip|id|now|ck od now portID frame s' fx c Hod E].
  - by apply ok4_SetConfig.
  - unfold dhcp4_PutStatic. destruct (binding_validate b) eqn:Hv; [done|]. destruct (negb _); [done|].
    apply ok_with_statics; [|done]. apply statics_ok_insert; [apply Hok | by apply binding_validate_ip].
  - unfold dhcp4_ReplaceStatics. destruct (buildStaticSet bs false) as [m|] eqn:E; [|done].
    apply ok_with_statics; [by eapply buildStaticSet_ok | done].
  - by apply ok_DeleteStatic.
  - by apply ok_ReleaseLease.
  - by apply ok_PortDown.
  - by apply ok_sweep.
  - destruct (dhcp4_handle_total ck od now portID frame s HH Hod Hok) as (s1 & fx1 & c1 & E1 & Hh).
    rewrite E in E1. injection E1 as <- <- <-. by eapply ok4_handled.
Qed.

Lemma dhcp4_reachable_ok s : header_ok H -> dhcp4_reachable s -> ok4 s.
Proof. intros HH. induction 1; [apply ok_new | by eapply dhcp4_step_ok]. Qed.

(** C19: a leased address is the client's.  Whatever frame arrives, an address
    whose lease has not expired stays with the client that holds it: handling
    the frame leaves a lease of the same client on it, unless the frame is a
    RELEASE or a DECLINE naming that address. *)
Theorem lease_exclusive ck od now portID frame s s' fx c ip l :
  header_ok H -> dhcp4_reachable s -> orders_ok od ->
  dhcp4_handle H gw fromBytes toBytes ck od now portID frame s = Ret (s', fx, c) ->
  leases s !! ip = Some l -> clock_before ck (l_Expiry l) ->
  (exists l', leases s' !! ip = Some l' /\ lease_key l' = lease_key l) \/
  (exists req, dhcp4_request frame req /\
     (MessageType req = MessageTypeRelease /\ addr4 (ClientIPAddr req) = Some ip \/
      MessageType req = MessageTypeDecline /\ addr4 (RequestedIPAddress req) = Some ip)).
Proof.
  intros HH Hs Hod E Hl Hck. apply dhcp4_reachable_ok in Hs as Hok; [|done].
  destruct (dhcp4_handle_total ck od now portID frame s HH Hod Hok) as (s1 & fx1 & c1 & E1 & Hh).
  rewrite E in E1. injection E1 as <- <- <-.
  destruct Hh as [|req s1 i Hreq En Es|req i Hreq Ht Ha|req i Hreq Ht Ha Hv].
  - left. by exists l.
  - left. destruct (selectIP_selected ck od portID req s Hod Hok En) as (v4 & t & i' & a & e & _ & _ & _ & E' & Hsel).
    rewrite Es in E'. injection E' as -> ->.
    eapply selected_keeps; [done | apply Hok | done | apply Hok | done | done | done].
  - destruct (decide (i = ip)) as [->|Hne]; [right; exists req; auto|]. left. exists l. split; [|done].
    unfold release. cbn [leases with_leases]. destruct (leases s !! i); [cbn [fst]; by rewrite lookup_delete_ne | done].
  - destruct (decide (i = ip)) as [->|Hne]; [right; exists req; auto|]. left. exists l. split; [|done].
    unfold lease_set. cbn [leases with_leases l_IP declined]. by rewrite lookup_insert_ne.
Qed.

(** C18: which address a DHCPv4 client gets.  When a selection yields an
    address, no other client held an active lease on it; it is booked for the
    client for the configured time and nothing else changes.  If a static
    binding matches, it is the address of a best one: most conditions, then
    highest order.  Otherwise it is reserved for nobody, and it is the client's
    own active lease or a pool address other than the gateway's. *)
Theorem address_choice ck od portID req s s' ip :
  header_ok H -> dhcp4_reachable s -> orders_ok od -> Enabled (cfg s) = true ->
  selectIP gw ck od portID (cfg s) req s = Ret (s', ip) -> IsValid ip = true ->
  (forall l, leases s !! ip = Some l -> clock_before ck (l_Expiry l) ->
     lease_key l = clientKey (mac_of req) (cid_of req)) /\
  exists static,
    s' = with_leases (<[ip := new_lease ck portID (mac_of req) (cid_of req) (LeaseTime (cfg s)) ip static]> (leases s)) s /\
    let bs := (o_statics od (statics s)).*2 in
    match matchBinding bs portID (mac_of req) (cid_of req) with
    | Some b => static = true /\ ip = sb_IP b /\
        exists score, best_binding portID (mac_of req) (cid_of req) bs (Some (b, score))
    | None => static = false /\ best_binding portID (mac_of req) (cid_of req) bs None /\ ~ reserved (statics s) ip /\
        ((exists l, leases s !! ip = Some l /\ lease_key l = clientKey (mac_of req) (cid_of req) /\
            c_client ck ip <= l_Expiry l) \/
         (Less (PoolEnd (cfg s)) ip = false /\ Less ip (PoolStart (cfg s)) = false /\
          exists v4, gw_IPv4 gw = Some v4 /\ ip <> addr_or_invalid (addr4 (v4_Address v4))))
    end.
Proof.
  intros HH Hs Hod En E Hv. apply dhcp4_reachable_ok in Hs as Hok; [|done].
  destruct (selectIP_selected ck od portID req s Hod Hok En) as (v4 & t & i & a & e & Hv4 & Ea & Ee & E' & Hsel).
  rewrite E in E'. injection E' as -> <-.
  split; [intros l Hl Hck; by eapply selected_own|].
  destruct Hsel as [|b Hm Hu|l Hm (Hl & Hk & Hx & Hr)|r Hm Hq Hvr H1 H2 H3 H4 H5|v Hm Hr Hg Hre Hx Hw|]; try done.
  - exists true. split; [done|]. cbv zeta. rewrite Hm. split_and!; try done. by apply matchBinding_best.
  - exists false. split; [done|]. cbv zeta. rewrite Hm. split_and!; try done; [by apply matchBinding_none|]. left. by exists l.
  - exists false. split; [done|]. cbv zeta. rewrite Hm. split_and!; try done; [by apply matchBinding_none|]. right.
    split_and!; try done. by exists v4.
  - exists false. split; [done|]. cbv zeta. rewrite Hm. split_and!; try done; [by apply matchBinding_none|]. right.
    destruct (sv_cfg _ _ _ _ Hok En) as (_ & (a' & e' & Ea' & Ee' & ? & ?) & _).
    rewrite Ea in Ea'. rewrite Ee in Ee'. injection Ea' as <-. injection Ee' as <-. rewrite Ea, Ee.
    rewrite !(fam_less (mk := A4) (M := 2 ^ 32)) by lia. split_and!; [apply Z.ltb_ge; lia.. |]. by exists v4.
Qed.

(** An address of the pool that can be handed out at time [now]. *)
Definition offerable (gwIP : Addr) (s : dhcpServer) (now v : Z) : Prop :=
  A4 v <> gwIP /\ ~ reserved (statics s) (A4 v) /\
  forall l, leases s !! A4 v = Some l -> l_Expiry l < now.

Lemma offerable_free gwIP od s now v :
  orders_ok od -> offerable gwIP s now v ->
  free_addr now (skipped od (statics s) gwIP) (leases s) (A4 v) = true.
Proof.
  intros Hod (H1 & H2 & H3). unfold free_addr, skipped. rewrite bool_decide_eq_false_2 by done.
  rewrite <- (reserved_iff od Hod) in H2. rewrite bool_decide_eq_false_2 by done. cbn [negb orb andb].
  destruct (leases s !! A4 v) as [l|] eqn:E; [|done]. apply Z.ltb_lt. by apply H3.
Qed.

(** No binding of the server matches the client. *)
Definition unbound (s : dhcpServer) (portID : string) (req : req4) : Prop :=
  forall id b sc, statics s !! id = Some b -> binding_score portID (mac_of req) (cid_of req) b = Some sc -> sc = 0.

Lemma unbound_no_match od s portID req :
  orders_ok od -> unbound s portID req ->
  matchBinding (o_statics od (statics s)).*2 portID (mac_of req) (cid_of req) = None.
Proof.
  intros Hod Hu. destruct (matchBinding _ _ _ _) as [b|] eqn:E; [|done].
  apply matchBinding_best in E as (sc & Hin & Hsc & Hne & _).
  apply list_elem_of_fmap in Hin as ([id b'] & -> & Hin). apply elem_of_range in Hin; [|apply Hod].
  by specialize (Hu _ _ _ Hin Hsc).
Qed.

(** the pool is used to the last address.  A client that no binding
    matches, that has no active lease and asks for no address gets the lowest
    pool address that is not the gateway's, not reserved and not leased; it goes
    away empty-handed only if there is none, and then nothing changes. *)
Theorem pool_complete ck od portID req s a e v4 :
  header_ok H -> dhcp4_reachable s -> orders_ok od -> Enabled (cfg s) = true ->
  PoolStart (cfg s) = A4 a -> PoolEnd (cfg s) = A4 e -> gw_IPv4 gw = Some v4 ->
  unbound s portID req -> addr4 (RequestedIPAddress req) = None ->
  (forall i l, leases s !! i = Some l -> lease_key l = clientKey (mac_of req) (cid_of req) -> l_Expiry l < c_client ck i) ->
  let free := offerable (addr_or_invalid (addr4 (v4_Address v4))) s (c_alloc ck) in
  exists s' r, selectIP gw ck od portID (cfg s) req s = Ret (s', r) /\
    ((exists v, r = A4 v /\ a <= v <= e /\ free v /\ forall w, a <= w < v -> ~ free w) \/
     (r = AInvalid /\ s' = s /\ forall w, a <= w <= e -> ~ free w)).
Proof.
  intros HH Hs Hod En Ea Ee Hv4 Hub Hrq Hown free. apply dhcp4_reachable_ok in Hs as Hok; [|done].
  destruct (selectIP_selected ck od portID req s Hod Hok En) as (v4' & t & i & a' & e' & Hv' & Ea' & Ee' & E & Hsel).
  rewrite Hv4 in Hv'. rewrite Ea in Ea'. rewrite Ee in Ee'. injection Hv' as <-. injection Ea' as <-. injection Ee' as <-.
  exists (with_leases t s), i. split; [done|].
  assert (Hno : forall w, free_addr (c_alloc ck) (skipped od (statics s) (addr_or_invalid (addr4 (v4_Address v4))))
    (leases s) (A4 w) = false -> ~ free w).
  { intros w Hw Hfree. apply (offerable_free _ od) in Hfree; [|done]. congruence. }
  pose proof (unbound_no_match od s portID req Hod Hub) as Hnm. rewrite Hrq in Hsel.
  destruct Hsel as [b Hm|b Hm|l Hm (Hl & Hk & Hx & Hr)|r Hm Hq|v Hm Hr Hg Hre Hx Hw|Hm Hw]; try congruence.
  - specialize (Hown _ _ Hl Hk). lia.
  - left. exists v. split_and!; try done; try lia. intros w Hw'. by apply Hno, Hw.
  - right. split_and!; [done | by destruct s |]. intros w Hw'. by apply Hno, Hw.
Qed.

(** The client's only active lease is the one [byClient] finds. *)
Lemma byClient_unique od now (t : leaseTable) mac cid ip l :
  orders_ok od -> t !! ip = Some l -> lease_key l = clientKey mac cid -> now ip <= l_Expiry l ->
  (forall i l', i <> ip -> t !! i = Some l' -> lease_key l' = clientKey mac cid -> l_Expiry l' < now i) ->
  byClient (o_leases od) now t mac cid = Some l.
Proof.
  intros Hod Hl Hk Hx Hother. unfold byClient. destruct (list_find _ _) as [[n [i l']]|] eqn:E; cbn [fmap option_fmap option_map].
  - apply list_find_Some in E as (Hi & Ht & _). apply andb_prop_elim in Ht as [Hk' Hx'].
    apply bool_decide_spec in Hk'. apply Is_true_eq_true in Hx'. unfold time_after in Hx'. cbn [fst snd] in *. bool_prop.
    apply list_elem_of_lookup_2, elem_of_range in Hi; [|apply Hod].
    destruct (decide (i = ip)) as [->|Hne]; [congruence|]. specialize (Hother i l' Hne Hi Hk'). lia.
  - exfalso. apply list_find_None in E. rewrite Forall_forall in E.
    apply (E (ip, l)); [by apply elem_of_range; [apply Hod|]|]. apply andb_prop_intro.
    split; [by apply bool_decide_spec|]. apply Is_true_true. cbn [fst snd]. unfold time_after.
    by rewrite (proj2 (Z.ltb_ge _ _)).
Qed.

Lemma inUse_mine (t : leaseTable) now ip mac cid l :
  t !! ip = Some l -> lease_key l = clientKey mac cid -> inUse t now ip mac cid = false.
Proof.
  intros Hl Hk. unfold inUse. rewrite Hl. destruct (time_after _ _); [done|].
  by rewrite bool_decide_eq_true_2.
Qed.

(** Once booked, the address is selected again. *)
Lemma selectFrom_again ck ck' od od' st t portID mac cid leaseTime ps pe gwIP rq mk a e t1 ip rq' :
  orders_ok od -> orders_ok od' -> statics_ok st -> leases_ok t -> (forall v, IsValid (mk v) = true) ->
  selected ck od st t portID mac cid leaseTime ps pe gwIP rq mk a e t1 ip -> IsValid ip = true ->
  matchBinding (o_statics od st).*2 portID mac cid = matchBinding (o_statics od' st).*2 portID mac cid ->
  (forall i, c_client ck' i <= c_lease ck + leaseTime) ->
  (forall i l, i <> ip -> t !! i = Some l -> lease_key l = clientKey mac cid -> l_Expiry l < c_client ck' i) ->
  exists static,
    selectFrom ck' od' st t1 portID mac cid leaseTime ps pe gwIP rq' =
      (<[ip := new_lease ck' portID mac cid leaseTime ip static]> t1, ip).
Proof.
  intros Hod Hod' Hst Hl Hmk Hsel Hv Hm Hck Hother.
  destruct (selected_table _ _ _ _ _ _ _ _ _ _ _ _ _ _ _ _ _ Hsel Hst Hod Hl Hmk) as [[-> _]|[_ [static Ht1]]]; [done|].
  assert (Hl1 : t1 !! ip = Some (new_lease ck portID mac cid leaseTime ip static)) by (by rewrite Ht1, lookup_insert_eq).
  unfold selectFrom. rewrite <- Hm. destruct (matchBinding _ _ _ _) as [b|] eqn:Hmb.
  - exists true. assert (sb_IP b = ip) as -> by (destruct Hsel; (done || congruence)).
    by erewrite inUse_mine.
  - exists false. erewrite byClient_unique; [|done|exact Hl1|done|apply Hck|].
    + cbn [l_IP new_lease]. rewrite bool_decide_eq_false_2; [done|]. rewrite (reserved_iff od' Hod').
      destruct Hsel as [| |l0 _ (_ & _ & _ & ?)| | |]; (done || congruence).
    + intros i l' Hne. rewrite Ht1, lookup_insert_ne by done. by apply Hother.
Qed.

End v4.
