(* ===== verification/Dhcp6Props.v ===== *)
(** Theorems about the DHCPv6 server, and the absence of panics in both. *)
From S2P Require Import Prelude Lease Dhcp DhcpProps.

#[local] Open Scope Z_scope.

(** The unzoned IPv6 addresses. *)
Definition mk6 (v : Z) : Addr := A6 v EmptyString.
#[export] Instance family_mk6 : Family mk6 (2 ^ 128) := family6 EmptyString.

Section v6.
Context (H : HeaderPkg) (gw : GatewayT).
Context (fromBytes6 : bytes -> result (option req6)) (toBytes6 : req6 -> reply6 -> result bytes).

Definition ok6 : dhcpServer -> Prop := server_ok (is_Some (gw_IPv6 gw)) mk6 (2 ^ 128).

Lemma contains6_unzoned v6 v z : gatewayNet6_contains v6 (A6 v z) = true -> z = EmptyString.
Proof.
  unfold gatewayNet6_contains, prefix_contains. destruct (_ || _); [done|].
  destruct (addr_or_invalid _); try done. intros E. by bool_prop.
Qed.

Lemma ok6_SetConfig c s :
  addr_ok (PoolStart c) -> addr_ok (PoolEnd c) -> ok6 s -> ok6 (dhcp6_SetConfig gw c s).1.
Proof.
  intros Ha He Hok. unfold dhcp6_SetConfig. destruct (Enabled c) eqn:En; [|by destruct Hok; split; cbn; [..|congruence]].
  destruct (gw_IPv6 gw) as [v6|] eqn:Hv; [|done].
  destruct (_ || _) eqn:Hn; [done|]. apply orb_false_iff in Hn as [Hn1 Hn2].
  destruct (PoolStart c) as [| |a za] eqn:Ea; [done..|]. destruct (PoolEnd c) as [| |e ze] eqn:Ee; [done..|].
  destruct (Less (A6 e ze) (A6 a za)) eqn:Hl; [done|].
  destruct (_ || _) eqn:Hc; [done|]. apply orb_false_iff in Hc as [Hc1 Hc2]. apply negb_false_iff in Hc1, Hc2.
  apply contains6_unzoned in Hc1 as ->. apply contains6_unzoned in Hc2 as ->.
  fold (mk6 a) in *. fold (mk6 e) in *.
  rewrite (fam_less (mk := mk6) (M := 2 ^ 128)) in Hl by done. apply Z.ltb_ge in Hl.
  destruct Hok. split; [done..|]. intros _. cbn [cfg with_cfg fst].
  split_and!; [by eexists | exists a, e; split_and!; cbn in *; try done; lia|].
  cbn [LeaseTime]. destruct (Z.leb_spec (LeaseTime c) 0); [done | lia].
Qed.

Lemma selectIP6_selected ck od portID mac duid s :
  orders_ok od -> ok6 s -> Enabled (cfg s) = true ->
  exists v6 t ip a e,
    gw_IPv6 gw = Some v6 /\ selectIP6 gw ck od portID (cfg s) mac duid s = Ret (with_leases t s, ip) /\
    selected ck od (statics s) (leases s) portID (hwString mac) duid (LeaseTime (cfg s))
      (PoolStart (cfg s)) (PoolEnd (cfg s)) (addr_or_invalid (AddrFromSlice (To16 (v6_Address v6))))
      None mk6 a e t ip.
Proof.
  intros Hod [Hst Hl Hc] En. destruct (Hc En) as ([v6 Hv] & (a & e & Ea & Ee & Hae & HeM) & _).
  pose proof (selectFrom_selected ck od Hod (statics s) (leases s) Hl portID (hwString mac) duid
    (LeaseTime (cfg s)) (PoolStart (cfg s)) (PoolEnd (cfg s)) (addr_or_invalid (AddrFromSlice (To16 (v6_Address v6))))
    None mk6 (2 ^ 128) a e Ea Ee Hae HeM) as Hsel. cbv zeta in Hsel.
  unfold selectIP6. rewrite Hv. cbn [deref]. rewrite bind_Ret.
  destruct (selectFrom _ _ _ _ _ _ _ _ _ _ _ _) as [t ip]. by exists v6, t, ip, a, e.
Qed.

(** A message of client [duid] that arrived from [mac]. *)
Definition dhcp6_message (frame : bytes) (mac : bytes) (duid : bytes) (msg : req6) : Prop :=
  exists pkt, parseIngress H frame = Ret (Some pkt) /\ p_kind pkt = PUDP6 /\ p_srcMAC pkt = mac /\
    fromBytes6 (p_payload pkt) = Ok (Some msg) /\ ClientID6 msg = Some duid.

Inductive handled6 (ck : Clock) (od : Orders) (portID : string) (frame : bytes) (s : dhcpServer)
    : dhcpServer -> Prop :=
  | h6_same : handled6 ck od portID frame s s
  | h6_select mac duid s' ip :
      Enabled (cfg s) = true -> selectIP6 gw ck od portID (cfg s) mac duid s = Ret (s', ip) ->
      handled6 ck od portID frame s s'
  | h6_release mac duid msg l :
      dhcp6_message frame mac duid msg -> MessageType6 msg = MessageTypeRelease6 ->
      byClient (o_leases od) (c_client ck) (leases s) (hwString mac) (EncodeToString duid) = Some l ->
      handled6 ck od portID frame s (with_leases (release (l_IP l) (leases s)).1 s).

Lemma replyAddress_total ck od portID pkt msg duid adv s :
  orders_ok od -> ok6 s -> Enabled (cfg s) = true ->
  exists s' fx ip, replyAddress gw toBytes6 ck od portID (cfg s) pkt msg duid adv s = Ret (s', fx) /\
    selectIP6 gw ck od portID (cfg s) (p_srcMAC pkt) (EncodeToString duid) s = Ret (s', ip).
Proof.
  intros Hod Hok En.
  destruct (selectIP6_selected ck od portID (p_srcMAC pkt) (EncodeToString duid) s Hod Hok En) as (v6 & t & ip & a & e & _ & E & _).
  unfold replyAddress. rewrite E, bind_Ret. destruct (negb _); by eexists _, _, _.
Qed.

Lemma dhcp6_handle_total ck od portID frame s :
  header_ok H -> orders_ok od -> ok6 s ->
  exists s' fx c, dhcp6_handle H gw fromBytes6 toBytes6 ck od portID frame s = Ret (s', fx, c) /\
    handled6 ck od portID frame s s'.
Proof.
  intros HH Hod Hok. assert (Hsame : forall (c : bool) fx, exists s' (fx' : list gfx) (c' : bool), Ret (s, fx, c) = Ret (s', fx', c') /\
    handled6 ck od portID frame s s') by (intros c fx; eexists _, _, _; split; [done | apply h6_same]).
  unfold dhcp6_handle. destruct (parseIngress_total H HH frame) as [p Hp]. rewrite Hp, bind_Ret.
  destruct p as [pkt|]; [|by apply Hsame]. destruct (p_kind pkt) eqn:Hk; try by apply Hsame.
  destruct (negb _); [by apply Hsame|].
  destruct (Enabled (cfg s)) eqn:En; cbn [negb]; [|by apply Hsame].
  destruct (fromBytes6 (p_payload pkt)) as [[msg|]|] eqn:Hreq; try by apply Hsame.
  destruct (ClientID6 msg) as [duid|] eqn:Hd; [|by apply Hsame].
  assert (Hr : dhcp6_message frame (p_srcMAC pkt) duid msg) by by exists pkt.
  assert (Hra : forall adv, exists s' (fx : list gfx) (c : bool),
    (x ← replyAddress gw toBytes6 ck od portID (cfg s) pkt msg duid adv s; Ret (x, true)) = Ret (s', fx, c) /\
    handled6 ck od portID frame s s').
  { intros adv. destruct (replyAddress_total ck od portID pkt msg duid adv s Hod Hok En) as (s' & fx & ip & -> & E).
    rewrite bind_Ret. eexists _, _, _. split; [done | by eapply h6_select]. }
  cbv zeta. destruct (_ =? MessageTypeSolicit); [apply Hra|]. destruct (_ || _); [apply Hra|].
  destruct (Z.eqb_spec (MessageType6 msg) MessageTypeRelease6) as [Ht|_].
  - destruct (byClient _ _ _ _ _) as [l|] eqn:Hb.
    + eexists _, _, _. split; [done | by eapply h6_release].
    + replace (with_leases (leases s) s) with s by (by destruct s). apply Hsame.
  - destruct (_ =? MessageTypeInformationRequest); apply Hsame.
Qed.

Lemma ok6_handled ck od portID frame s s' :
  orders_ok od -> ok6 s -> handled6 ck od portID frame s s' -> ok6 s'.
Proof.
  intros Hod Hok [|mac duid s1 ip En E|mac duid msg l _ _ _]; [done | |].
  - destruct (selectIP6_selected ck od portID mac duid s Hod Hok En) as (v6 & t & ip' & a & e & _ & E' & Hsel).
    rewrite E in E'. injection E' as -> ->. apply ok_with_leases; [|done].
    eapply selected_leases_ok; [done | apply Hok | done | apply Hok | done].
  - apply ok_with_leases; [|done]. eapply leases_ok_sub; [apply release_sub | apply Hok].
Qed.

Inductive dhcp6_step (s : dhcpServer) : dhcpServer -> Prop :=
  | d6_config c : addr_ok (PoolStart c) -> addr_ok (PoolEnd c) -> dhcp6_step s (dhcp6_SetConfig gw c s).1
  | d6_put b : dhcp6_step s (dhcp6_PutStatic b s).1
  | d6_replace bs : dhcp6_step s (dhcp6_ReplaceStatics bs s).1
  | d6_delete id : dhcp6_step s (dhcp6_DeleteStatic id s).1
  | d6_release ip : dhcp6_step s (dhcp6_ReleaseLease ip s).1
  | d6_portDown id : dhcp6_step s (dhcp6_PortDown id s)
  | d6_sweep now : dhcp6_step s (dhcp6_sweep now s)
  | d6_frame ck od portID frame s' fx c :
      orders_ok od -> dhcp6_handle H gw fromBytes6 toBytes6 ck od portID frame s = Ret (s', fx, c) ->
      dhcp6_step s s'.

Inductive dhcp6_reachable : dhcpServer -> Prop :=
  | d6_new : dhcp6_reachable newDHCP6Server
  | d6_next s s' : dhcp6_reachable s -> dhcp6_step s s' -> dhcp6_reachable s'.

Lemma dhcp6_step_ok s s' : header_ok H -> ok6 s -> dhcp6_step s s' -> ok6 s'.
Proof.
  intros HH Hok Hstep.
  destruct Hstep as [c Ha He|b|bs|id|ip|id|now|ck od portID frame s' fx c Hod E].
  - by apply ok6_SetConfig.
  - unfold dhcp6_PutStatic. destruct (binding_validate b) eqn:Hv; [done|]. destruct (not_v6 _); [done|].
    apply ok_with_statics; [|done]. apply statics_ok_insert; [apply Hok | by apply binding_validate_ip].
  - unfold dhcp6_ReplaceStatics. destruct (buildStaticSet bs true) as [m|] eqn:E; [|done].
    apply ok_with_statics; [by eapply buildStaticSet_ok | done].
  - by apply ok_DeleteStatic.
  - by apply ok_ReleaseLease.
  - by apply ok_PortDown.
  - by apply ok_sweep.
  - destruct (dhcp6_handle_total ck od portID frame s HH Hod Hok) as (s1 & fx1 & c1 & E1 & Hh).
    rewrite E in E1. injection E1 as <- <- <-. by eapply ok6_handled.
Qed.

Lemma dhcp6_reachable_ok s : header_ok H -> dhcp6_reachable s -> ok6 s.
Proof. intros HH. induction 1; [apply ok_new | by eapply dhcp6_step_ok]. Qed.

(** DHCPv6 leases are the client's alone.  Whatever frame arrives, an
    address with an unexpired lease stays with the client that holds it; only a
    RELEASE sent by that very client, same MAC and DUID, removes it. *)
Theorem lease6_exclusive ck od portID frame s s' fx c ip l :
  header_ok H -> dhcp6_reachable s -> orders_ok od ->
  dhcp6_handle H gw fromBytes6 toBytes6 ck od portID frame s = Ret (s', fx, c) ->
  leases s !! ip = Some l -> clock_before ck (l_Expiry l) ->
  (exists l', leases s' !! ip = Some l' /\ lease_key l' = lease_key l) \/
  (exists mac duid msg, dhcp6_message frame mac duid msg /\ MessageType6 msg = MessageTypeRelease6 /\
     lease_key l = clientKey (hwString mac) (EncodeToString duid)).
Proof.
  intros HH Hs Hod E Hl Hck. apply dhcp6_reachable_ok in Hs as Hok; [|done].
  destruct (dhcp6_handle_total ck od portID frame s HH Hod Hok) as (s1 & fx1 & c1 & E1 & Hh).
  rewrite E in E1. injection E1 as <- <- <-.
  destruct Hh as [|mac duid s1 i En Es|mac duid msg l0 Hmsg Ht Hb].
  - left. by exists l.
  - left. destruct (selectIP6_selected ck od portID mac duid s Hod Hok En) as (v6 & t & i' & a & e & _ & E' & Hsel).
    rewrite Es in E'. injection E' as -> ->.
    eapply selected_keeps; [done | apply Hok | done | apply Hok | done | done | done].
  - apply (byClient_active od _ _ _ _ _ Hod (sv_leases _ _ _ _ Hok)) in Hb as (Hb & Hk & _).
    destruct (decide (l_IP l0 = ip)) as [<-|Hne].
    + right. exists mac, duid, msg. split_and!; try done. rewrite <- Hk. congruence.
    + left. exists l. split; [|done]. unfold release. cbn [leases with_leases].
      rewrite Hb. cbn [fst]. by rewrite lookup_delete_ne.
Qed.
End v6.

(** No frame can crash a DHCP server.  In every state the two servers can
    reach, by configuration changes, binding updates, lease releases, ports
    going down, sweeps and earlier frames, handling any bytes returns. *)
Theorem dhcp_never_panics H gw from4 to4 from6 to6 ck od now portID frame s4 s6 :
  header_ok H -> orders_ok od ->
  dhcp4_reachable H gw from4 to4 s4 -> dhcp6_reachable H gw from6 to6 s6 ->
  (exists r, dhcp4_handle H gw from4 to4 ck od now portID frame s4 = Ret r) /\
  (exists r, dhcp6_handle H gw from6 to6 ck od portID frame s6 = Ret r).
Proof.
  intros HH Hod H4 H6. split.
  - apply dhcp4_reachable_ok in H4; [|done].
    destruct (dhcp4_handle_total H gw from4 to4 ck od now portID frame s4 HH Hod H4) as (s' & fx & c & E & _). eauto.
  - apply dhcp6_reachable_ok in H6; [|done].
    destruct (dhcp6_handle_total H gw from6 to6 ck od portID frame s6 HH Hod H6) as (s' & fx & c & E & _). eauto.
Qed.
