(* ===== verification/DhcpDemo.v ===== *)
(** A demonstration gateway: concrete header accessors, message codecs and
    frames, on which the theorems about the DHCP servers are instantiated. *)
From S2P Require Import Prelude Lease Dhcp DhcpProps Dhcp6Props.

#[local] Open Scope Z_scope.

(** * A demonstration gateway *)

(** Header accessors by the RFCs' offsets. *)
Definition field (lo hi : Z) (b : bytes) : res Z := x ← slice b lo hi; Ret (be_get x).
Definition demoHeader : HeaderPkg := {|
  EthernetMinimumSize := 14; IPv4MinimumSize := 20; IPv6MinimumSize := 40;
  UDPMinimumSize := 8; ICMPv6MinimumSize := 8;
  IPv4ProtocolNumber := 0x0800; IPv6ProtocolNumber := 0x86dd;
  UDPProtocolNumber := 17; ICMPv6ProtocolNumber := 58;
  eth_SourceAddress := fun b => slice b 6 12;
  eth_Type := field 12 14;
  ip4_IsValid := fun b n => x ← field 0 1 b; let hl := Z.land x 15 * 4 in Ret ((20 <=? hl) && (hl <=? n));
  ip4_TransportProtocol := field 9 10;
  ip4_FragmentOffset := fun b => x ← field 6 8 b; Ret (Z.land x 0x1fff);
  ip4_More := fun b => x ← field 6 7 b; Ret (Z.testbit x 5);
  ip4_HeaderLength := fun b => x ← field 0 1 b; Ret (Z.land x 15 * 4);
  ip4_SourceAddress := fun b => slice b 12 16;
  ip4_DestinationAddress := fun b => slice b 16 20;
  ip6_SourceAddress := fun b => slice b 8 24;
  ip6_DestinationAddress := fun b => slice b 24 40;
  ip6_TransportProtocol := field 6 7;
  udp_SourcePort := field 0 2;
  udp_DestinationPort := field 2 4;
  udp_Payload := fun b => slice_from b 8;
  icmp6_Type := field 0 1
|}.

Lemma field_total lo hi b : 0 <= lo -> lo <= hi -> hi <= len b -> exists x, field lo hi b = Ret x.
Proof. intros. unfold field. rewrite slice_ret by lia. by eexists. Qed.

Lemma slice_total b lo hi : 0 <= lo -> lo <= hi -> hi <= len b -> exists x, slice b lo hi = Ret x.
Proof. intros. rewrite slice_ret by lia. by eexists. Qed.

Lemma demoHeader_ok : header_ok demoHeader.
Proof.
  split; cbn; try lia.
  - intros b Hb. split; [apply slice_total | apply field_total]; lia.
  - intros b Hb. split_and!; try (apply field_total || apply slice_total; lia).
    + destruct (field_total 0 1 b) as [x ->]; [lia..|]. rewrite bind_Ret. by eexists.
    + destruct (field_total 6 8 b) as [x ->]; [lia..|]. rewrite bind_Ret. by eexists.
    + destruct (field_total 6 7 b) as [x ->]; [lia..|]. rewrite bind_Ret. by eexists.
  - intros b. destruct (field 0 1 b) as [x|]; [|done]. rewrite !bind_Ret. intros [= E]. bool_prop.
    eexists. split; [done | lia].
  - intros b Hb. split_and!; (apply slice_total || apply field_total); lia.
  - intros b Hb. split_and!; try (apply field_total; lia). unfold slice_from. apply slice_total; lia.
  - intros b Hb. apply field_total; lia.
Qed.

(** The gateway 10.0.0.1/24 and fd00::1/64 with a three-address pool each. *)
Definition demoGw : GatewayT :=
  mkGw [2; 0; 0; 0; 0; 1] (Some (mkV4 [10; 0; 0; 1] 24))
    (Some (mkV6 ([0xfd] ++ make_bytes 14 ++ [1]) 64 [])) ([0xfe; 0x80] ++ make_bytes 13 ++ [1]).

Definition ip4 (n : Z) : Addr := A4 (be_get [10; 0; 0; n]).
Definition ip6 (n : Z) : Addr := mk6 (be_get ([0xfd] ++ make_bytes 14 ++ [n])).

(** Requests as opcode, type, ciaddr, chaddr and requested address; DHCPv6
    messages as type and DUID. *)
Definition demoFrom4 (p : bytes) : result req4 :=
  match p with
  | op :: ty :: rest =>
      let rq := take 4 (drop 10 rest) in
      Ok (mkReq4 op ty (take 4 rest) (take 6 (drop 4 rest)) (if bool_decide (rq = make_bytes 4) then [] else rq) [] false)
  | _ => Err (Errorf "short packet" [])
  end.
Definition demoTo4 (req : req4) (rp : reply4) : result bytes := Ok [rp_type rp].
Definition demoFrom6 (p : bytes) : result (option req6) :=
  match p with
  | ty :: duid => Ok (Some (mkReq6 ty (Some duid) (Some [0; 0; 0; 1])))
  | [] => Err (Errorf "short packet" [])
  end.
Definition demoTo6 (req : req6) (rp : reply6) : result bytes := Ok [if r6_advertise rp then 2 else 7].

(** A frame of client [n] with the given UDP payload. *)
Definition frame4 (n : Z) (payload : bytes) : bytes :=
  replicate 6 0xff ++ [2; 0; 0; 0; 0; n] ++ [8; 0] ++
  [0x45] ++ make_bytes 8 ++ [17] ++ make_bytes 10 ++
  [0; 68; 0; 67] ++ make_bytes 4 ++ payload.
Definition frame6 (n : Z) (payload : bytes) : bytes :=
  replicate 6 0xff ++ [2; 0; 0; 0; 0; n] ++ [0x86; 0xdd] ++
  make_bytes 6 ++ [17] ++ make_bytes 33 ++
  be_put 2 546 ++ be_put 2 547 ++ make_bytes 4 ++ payload.

Definition client4 (n ty : Z) (rq : bytes) : bytes := frame4 n ([1; ty] ++ make_bytes 4 ++ [2; 0; 0; 0; 0; n] ++ rq).
Definition req_of (n ty : Z) (rq : bytes) : req4 :=
  mkReq4 1 ty (make_bytes 4) [2; 0; 0; 0; 0; n] rq [] false.

Definition at_time (t : Z) : Clock := mkClock t t (fun _ => t) t t.

Definition demoCfg4 : DHCPConfig := mkCfg true (ip4 100) (ip4 102) 100 [].
Definition demoCfg6 : DHCPConfig := mkCfg true (ip6 100) (ip6 102) 100 [].

Definition step4 (t : Z) (portID : string) (frame : bytes) (s : dhcpServer) : dhcpServer :=
  match dhcp4_handle demoHeader demoGw demoFrom4 demoTo4 (at_time t) std_orders t portID frame s with
  | Ret (s', _, _) => s'
  | Panic => s
  end.
Definition step6 (t : Z) (portID : string) (frame : bytes) (s : dhcpServer) : dhcpServer :=
  match dhcp6_handle demoHeader demoGw demoFrom6 demoTo6 (at_time t) std_orders portID frame s with
  | Ret (s', _, _) => s'
  | Panic => s
  end.

Definition reach4 : dhcpServer -> Prop := dhcp4_reachable demoHeader demoGw demoFrom4 demoTo4.
Definition reach6 : dhcpServer -> Prop := dhcp6_reachable demoHeader demoGw demoFrom6 demoTo6.

Lemma step4_reach t portID frame s : reach4 s -> reach4 (step4 t portID frame s).
Proof.
  intros Hs. unfold step4. destruct (dhcp4_handle _ _ _ _ _ _ _ _ _ _) as [[[s' fx] c]|] eqn:E; [|done].
  eapply d4_next; [done|]. eapply d4_frame; [apply std_orders_ok | exact E].
Qed.
Lemma step6_reach t portID frame s : reach6 s -> reach6 (step6 t portID frame s).
Proof.
  intros Hs. unfold step6. destruct (dhcp6_handle _ _ _ _ _ _ _ _ _) as [[[s' fx] c]|] eqn:E; [|done].
  eapply d6_next; [done|]. eapply d6_frame; [apply std_orders_ok | exact E].
Qed.

(** Configured servers, and the same after client 7 obtained an address. *)
Definition server4 : dhcpServer := (dhcp4_SetConfig demoGw demoCfg4 newDHCPServer).1.
Definition server6 : dhcpServer := (dhcp6_SetConfig demoGw demoCfg6 newDHCPServer).1.
Definition leased4 : dhcpServer := step4 0 "vm7" (client4 7 MessageTypeDiscover (make_bytes 4)) server4.
Definition leased6 : dhcpServer := step6 0 "vm7" (frame6 7 [MessageTypeSolicit; 7]) server6.

Lemma server4_reach : reach4 server4.
Proof. eapply d4_next; [apply d4_new|]. apply (d4_config _ _ _ _ _ demoCfg4); vm_compute; split; congruence. Qed.
Lemma server6_reach : reach6 server6.
Proof. eapply d6_next; [apply d6_new|]. apply (d6_config _ _ _ _ _ demoCfg6); vm_compute; split; congruence. Qed.
Lemma leased4_reach : reach4 leased4.
Proof. apply step4_reach, server4_reach. Qed.
Lemma leased6_reach : reach6 leased6.
Proof. apply step6_reach, server6_reach. Qed.

Definition lease7 : Lease := mkLease (ip4 100) "02:00:00:00:00:07" EmptyString "vm7" 100 false.
Definition lease7_6 : Lease := mkLease (ip6 100) "02:00:00:00:00:07" "07" "vm7" 100 false.

Lemma leased4_ip : leases leased4 !! ip4 100 = Some lease7.
Proof. vm_compute. reflexivity. Qed.
Lemma leased6_ip : leases leased6 !! ip6 100 = Some lease7_6.
Proof. vm_compute. reflexivity. Qed.

Lemma at_time_before t x : t <= x -> clock_before (at_time t) x.
Proof. by intros; split_and!. Qed.

(** * Instances of the theorems *)

Lemma leased4_statics : statics leased4 = ∅.
Proof. vm_compute. reflexivity. Qed.
Lemma server4_statics : statics server4 = ∅.
Proof. reflexivity. Qed.
Lemma server4_leases : leases server4 = ∅.
Proof. reflexivity. Qed.

Lemma unbound_empty s portID req : statics s = ∅ -> unbound s portID req.
Proof. intros E id b sc Hb. rewrite E in Hb. by apply lookup_empty_Some in Hb. Qed.

(** Client 9 asks for the address of client 7. *)
Lemma lease_exclusive_witness :
  let frame := client4 9 MessageTypeRequest [10; 0; 0; 100] in
  exists s' fx c,
    dhcp4_handle demoHeader demoGw demoFrom4 demoTo4 (at_time 50) std_orders 50 "vm9" frame leased4 = Ret (s', fx, c) /\
    ((exists l', leases s' !! ip4 100 = Some l' /\ lease_key l' = lease_key lease7) \/
     (exists req, dhcp4_request demoHeader demoFrom4 frame req /\
        (MessageType req = MessageTypeRelease /\ addr4 (ClientIPAddr req) = Some (ip4 100) \/
         MessageType req = MessageTypeDecline /\ addr4 (RequestedIPAddress req) = Some (ip4 100)))).
Proof.
  intros frame.
  destruct (dhcp4_handle demoHeader demoGw demoFrom4 demoTo4 (at_time 50) std_orders 50 "vm9" frame leased4)
    as [[[s' fx] c]|] eqn:E; [|vm_compute in E; discriminate E].
  exists s', fx, c. split; [reflexivity|].
  apply (lease_exclusive demoHeader demoGw demoFrom4 demoTo4 (at_time 50) std_orders 50 "vm9" frame leased4 s' fx c
    (ip4 100) lease7).
  - exact demoHeader_ok.
  - exact leased4_reach.
  - exact std_orders_ok.
  - exact E.
  - exact leased4_ip.
  - apply at_time_before. cbn. lia.
Defined.

Lemma lease6_exclusive_witness :
  let frame := frame6 9 [MessageTypeSolicit; 9] in
  exists s' fx c,
    dhcp6_handle demoHeader demoGw demoFrom6 demoTo6 (at_time 50) std_orders "vm9" frame leased6 = Ret (s', fx, c) /\
    ((exists l', leases s' !! ip6 100 = Some l' /\ lease_key l' = lease_key lease7_6) \/
     (exists mac duid msg, dhcp6_message demoHeader demoFrom6 frame mac duid msg /\
        MessageType6 msg = MessageTypeRelease6 /\
        lease_key lease7_6 = clientKey (hwString mac) (EncodeToString duid))).
Proof.
  intros frame.
  destruct (dhcp6_handle demoHeader demoGw demoFrom6 demoTo6 (at_time 50) std_orders "vm9" frame leased6)
    as [[[s' fx] c]|] eqn:E; [|vm_compute in E; discriminate E].
  exists s', fx, c. split; [reflexivity|].
  apply (lease6_exclusive demoHeader demoGw demoFrom6 demoTo6 (at_time 50) std_orders "vm9" frame leased6 s' fx c
    (ip6 100) lease7_6).
  - exact demoHeader_ok.
  - exact leased6_reach.
  - exact std_orders_ok.
  - exact E.
  - exact leased6_ip.
  - apply at_time_before. cbn. lia.
Defined.

(** Client 9 is given the second address. *)
Lemma address_choice_witness :
  let req := req_of 9 MessageTypeDiscover [] in
  exists s', selectIP demoGw (at_time 50) std_orders "vm9" (cfg leased4) req leased4 = Ret (s', ip4 101) /\
    (forall l, leases leased4 !! ip4 101 = Some l -> clock_before (at_time 50) (l_Expiry l) ->
       lease_key l = clientKey (mac_of req) (cid_of req)) /\
    exists static, s' = with_leases (<[ip4 101 := new_lease (at_time 50) "vm9" (mac_of req) (cid_of req)
                                         (LeaseTime (cfg leased4)) (ip4 101) static]> (leases leased4)) leased4.
Proof.
  intros req.
  destruct (selectIP demoGw (at_time 50) std_orders "vm9" (cfg leased4) req leased4) as [[s' i]|] eqn:E;
    [|vm_compute in E; discriminate E].
  assert (i = ip4 101) as ->.
  { enough (match selectIP demoGw (at_time 50) std_orders "vm9" (cfg leased4) req leased4 with
            | Ret (_, i) => i | Panic => AInvalid end = ip4 101) as Hi by (rewrite E in Hi; exact Hi).
    vm_compute. reflexivity. }
  exists s'. split; [reflexivity|].
  destruct (address_choice demoHeader demoGw demoFrom4 demoTo4 (at_time 50) std_orders "vm9" req leased4 s' (ip4 101)
    demoHeader_ok leased4_reach std_orders_ok eq_refl E eq_refl) as [Hown [static [Hs _]]].
  split; [exact Hown | exists static; exact Hs].
Defined.

Lemma pool_complete_witness :
  let req := req_of 9 MessageTypeDiscover [] in
  let free := offerable (ip4 1) leased4 50 in
  exists s' r, selectIP demoGw (at_time 50) std_orders "vm9" (cfg leased4) req leased4 = Ret (s', r) /\
    ((exists v, r = A4 v /\ addr_value (ip4 100) <= v <= addr_value (ip4 102) /\ free v /\
        forall w, addr_value (ip4 100) <= w < v -> ~ free w) \/
     (r = AInvalid /\ s' = leased4 /\ forall w, addr_value (ip4 100) <= w <= addr_value (ip4 102) -> ~ free w)).
Proof.
  intros req free.
  apply (pool_complete demoHeader demoGw demoFrom4 demoTo4 (at_time 50) std_orders "vm9" req leased4
    (addr_value (ip4 100)) (addr_value (ip4 102)) (mkV4 [10; 0; 0; 1] 24)).
  - exact demoHeader_ok.
  - exact leased4_reach.
  - exact std_orders_ok.
  - vm_compute. reflexivity.
  - vm_compute. reflexivity.
  - vm_compute. reflexivity.
  - reflexivity.
  - apply unbound_empty, leased4_statics.
  - reflexivity.
  - intros i l Hl Hk. exfalso.
    assert (El : leases leased4 = {[ ip4 100 := lease7 ]}) by (vm_compute; reflexivity).
    rewrite El in Hl. apply lookup_singleton_Some in Hl as [_ <-]. vm_compute in Hk. discriminate Hk.
Defined.


Lemma dhcp_never_panics_witness :
  (exists r, dhcp4_handle demoHeader demoGw demoFrom4 demoTo4 (at_time 50) std_orders 50 "vm9"
     (client4 9 MessageTypeDecline [10; 0; 0; 100]) leased4 = Ret r) /\
  (exists r, dhcp6_handle demoHeader demoGw demoFrom6 demoTo6 (at_time 50) std_orders "vm9"
     (client4 9 MessageTypeDecline [10; 0; 0; 100]) leased6 = Ret r).
Proof.
  exact (dhcp_never_panics demoHeader demoGw demoFrom4 demoTo4 demoFrom6 demoTo6 (at_time 50) std_orders 50 "vm9"
    (client4 9 MessageTypeDecline [10; 0; 0; 100]) leased4 leased6 demoHeader_ok std_orders_ok leased4_reach leased6_reach).
Defined.
