(* ===== verification/Gateway.v ===== *)
(** The gateway of a VLAN: src/internal/gateway/gateway.go, its router
    advertisements (src/internal/gateway/ra.go) and the frames it crafts
    (src/internal/gateway/craft.go).

    The gVisor stack behind the gateway and slirpnetstack are not part of the
    repository.  The encoders of gVisor's [header] package, slirpnetstack's
    address checks and the outcome of creating the NIC are parameters; a frame
    that no service consumes is handed to the stack as an effect. *)
From S2P Require Import Prelude Vlan Fdb Protect SwitchState Stp Switch Lease GoText Forwards Dhcp.

#[local] Open Scope Z_scope.

(** * Crafting frames (craft.go) *)

(** The encoders of gVisor's [header] and [checksum] packages.  A header is a
    slice of the frame; an encoder yields the slice's new contents. *)
Record EncodePkg := mkEncode {
  eth_Encode : bytes -> bytes -> bytes -> Z -> res bytes;
  ip4_Encode : bytes -> Z -> Z -> Z -> bytes -> bytes -> res bytes;
  ip4_CalculateChecksum : bytes -> res Z;
  ip4_SetChecksum : bytes -> Z -> res bytes;
  ip6_Encode : bytes -> Z -> Z -> Z -> bytes -> bytes -> res bytes;
  udp_Encode : bytes -> Z -> Z -> Z -> res bytes;
  udp_CalculateChecksum : bytes -> Z -> res Z;
  udp_SetChecksum : bytes -> Z -> res bytes;
  icmp6_SetType : bytes -> Z -> res bytes;
  icmp6_SetChecksum : bytes -> Z -> res bytes;
  ICMPv6Checksum : bytes -> bytes -> bytes -> Z;
  PseudoHeaderChecksum : Z -> bytes -> bytes -> Z -> Z;
  Checksum : bytes -> Z -> Z
}.

(** [^x] of a uint16. *)
Definition not16 (x : Z) : Z := 65535 - u16 x.

(** [tcpip.AddrFromSlice] panics unless the slice is an address. *)
Definition tcpip_Addr (b : bytes) : res bytes :=
  if (len b =? 4) || (len b =? 16) then Ret b else Panic.

(** Write through the slice [frame[off:]]. *)
Definition in_place (frame : bytes) (off : Z) (f : bytes -> res bytes) : res bytes :=
  tail ← slice_from frame off;
  tail ← f tail;
  Ret (take (Z.to_nat off) frame ++ tail).

Section craft.
Context (H : HeaderPkg) (E : EncodePkg).

(** The UDP header and payload, the same in both families. *)
Definition craftUDP (srcIP dstIP : bytes) (srcPort dstPort udpLen : Z) (payload udp : bytes) : res bytes :=
  udp ← udp_Encode E udp srcPort dstPort (u16 udpLen);
  let udp := copy_at udp (Z.to_nat (UDPMinimumSize H)) payload in
  src ← tcpip_Addr srcIP;
  dst ← tcpip_Addr dstIP;
  let xsum := PseudoHeaderChecksum E (UDPProtocolNumber H) src dst (u16 udpLen) in
  x ← udp_CalculateChecksum E udp (Checksum E payload xsum);
  udp_SetChecksum E udp (not16 x).

Definition craftUDP4 (srcMAC dstMAC srcIP dstIP : bytes) (srcPort dstPort : Z) (payload : bytes) : res bytes :=
  let udpLen := UDPMinimumSize H + len payload in
  let totalLen := EthernetMinimumSize H + IPv4MinimumSize H + udpLen in
  frame ← eth_Encode E (make_bytes (Z.to_nat totalLen)) srcMAC dstMAC (IPv4ProtocolNumber H);
  frame ← in_place frame (EthernetMinimumSize H) (fun ip =>
    src ← tcpip_Addr (To4 srcIP);
    dst ← tcpip_Addr (To4 dstIP);
    ip ← ip4_Encode E ip (u16 (IPv4MinimumSize H + udpLen)) 64 (u8 (UDPProtocolNumber H)) src dst;
    x ← ip4_CalculateChecksum E ip;
    ip4_SetChecksum E ip (not16 x));
  in_place frame (EthernetMinimumSize H + IPv4MinimumSize H)
    (craftUDP (To4 srcIP) (To4 dstIP) srcPort dstPort udpLen payload).

Definition craftUDP6 (srcMAC dstMAC srcIP dstIP : bytes) (srcPort dstPort : Z) (payload : bytes) : res bytes :=
  let udpLen := UDPMinimumSize H + len payload in
  let totalLen := EthernetMinimumSize H + IPv6MinimumSize H + udpLen in
  frame ← eth_Encode E (make_bytes (Z.to_nat totalLen)) srcMAC dstMAC (IPv6ProtocolNumber H);
  frame ← in_place frame (EthernetMinimumSize H) (fun ip =>
    src ← tcpip_Addr (To16 srcIP);
    dst ← tcpip_Addr (To16 dstIP);
    ip6_Encode E ip (u16 udpLen) (UDPProtocolNumber H) 64 src dst);
  in_place frame (EthernetMinimumSize H + IPv6MinimumSize H)
    (craftUDP (To16 srcIP) (To16 dstIP) srcPort dstPort udpLen payload).

Definition craftICMP6 (srcMAC dstMAC srcIP dstIP : bytes) (icmpBody : bytes) (hopLimit : Z) : res bytes :=
  let totalLen := EthernetMinimumSize H + IPv6MinimumSize H + len icmpBody in
  frame ← eth_Encode E (make_bytes (Z.to_nat totalLen)) srcMAC dstMAC (IPv6ProtocolNumber H);
  frame ← in_place frame (EthernetMinimumSize H) (fun ip =>
    src ← tcpip_Addr (To16 srcIP);
    dst ← tcpip_Addr (To16 dstIP);
    ip6_Encode E ip (u16 (len icmpBody)) (ICMPv6ProtocolNumber H) hopLimit src dst);
  in_place frame (EthernetMinimumSize H + IPv6MinimumSize H) (fun icmp =>
    let icmp := copy_at icmp 0 icmpBody in
    icmp ← icmp6_SetChecksum E icmp 0;
    src ← tcpip_Addr (To16 srcIP);
    dst ← tcpip_Addr (To16 dstIP);
    icmp6_SetChecksum E icmp (ICMPv6Checksum E icmp src dst)).

(** The frame of an effect. *)
Definition craft (x : gfx) : res bytes :=
  match x with
  | InjectUDP4 sm dm si di sp dp pl => craftUDP4 sm dm si di sp dp pl
  | InjectUDP6 sm dm si di sp dp pl => craftUDP6 sm dm si di sp dp pl
  | InjectICMP6 sm dm si di body hl => craftICMP6 sm dm si di body hl
  end.
End craft.

(** * Router advertisements (ra.go) *)

Definition defaultRAInterval : Z := 200 * Second.
Definition defaultRouterLifetime : Z := 1800 * Second.
Definition defaultValidLifetime : Z := 30 * 24 * Hour.
Definition defaultPreferredLifetime : Z := 7 * 24 * Hour.

Definition allNodesIP6 : bytes := ParseIP "ff02::1".
Definition allNodesMAC : bytes := [0x33; 0x33; 0x00; 0x00; 0x00; 0x01].

Record RAPrefix := mkRAPrefix {
  rap_Prefix : Prefix;
  rap_ValidLifetime : Z;
  rap_PreferredLifetime : Z;
  rap_OnLink : bool;
  rap_Autonomous : bool
}.

Record SLAACConfig := mkSLAAC {
  ra_Enabled : bool;
  ra_Interval : Z;
  ra_Managed : bool;
  ra_Other : bool;
  ra_RouterLifetime : Z;
  ra_Prefixes : list RAPrefix
}.

(** [kick] has room for one token. *)
Record raServer := mkRa { ra_cfg : SLAACConfig; ra_kick : bool }.

Definition newRAServer : raServer := mkRa (mkSLAAC false 0 false false 0 []) false.

Definition positive_or (d dflt : Z) : Z := if d <=? 0 then dflt else d.

(** The loop over the prefixes; the first that is not IPv6 ends it. *)
Fixpoint raPrefixes (ps : list RAPrefix) : result (list RAPrefix) :=
  match ps with
  | [] => Ok []
  | p :: ps' =>
      if negb (Is6 (pfx_Addr (rap_Prefix p))) || Is4In6 (pfx_Addr (rap_Prefix p)) then
        Err (Errorf "ra prefix %s is not IPv6" [AStr (prefix_String (rap_Prefix p))])
      else match raPrefixes ps' with
      | Err e => Err e
      | Ok r =>
          Ok (mkRAPrefix (rap_Prefix p) (positive_or (rap_ValidLifetime p) defaultValidLifetime)
                (positive_or (rap_PreferredLifetime p) defaultPreferredLifetime)
                (rap_OnLink p) (rap_Autonomous p) :: r)
      end
  end.

Definition ra_SetConfig (gw : GatewayT) (c : SLAACConfig) (s : raServer) : raServer * option goerr :=
  if ra_Enabled c then
    match gw_IPv6 gw with
    | None => (s, Some (Errorf "gateway has no IPv6 network" []))
    | Some _ =>
        match raPrefixes (ra_Prefixes c) with
        | Err e => (s, Some e)
        | Ok ps =>
            (mkRa (mkSLAAC true (positive_or (ra_Interval c) defaultRAInterval) (ra_Managed c) (ra_Other c)
                     (positive_or (ra_RouterLifetime c) defaultRouterLifetime) ps) true, None)
        end
    end
  else (mkRa c true, None).

Definition ra_Config (s : raServer) : SLAACConfig := ra_cfg s.

(** The Neighbor Discovery part of the [header] package. *)
Inductive NDPOption : Type :=
  | SourceLinkLayer (mac : bytes)
  | PrefixInformation (body : bytes).

Record NdpPkg := mkNdp {
  ICMPv6HeaderSize : Z;
  NDPRAMinimumSize : Z;
  ICMPv6RouterSolicit : Z;
  ICMPv6RouterAdvert : Z;
  NDPHopLimit : Z;
  opts_Length : list NDPOption -> Z;
  opts_Serialize : bytes -> list NDPOption -> res bytes
}.

Definition flag (b : bool) (bit : Z) : Z := if b then Z.shiftl 1 bit else 0.

(** [binary.BigEndian.PutUint*] at an offset. *)
Definition put_at (n : nat) (b : bytes) (off : nat) (v : Z) : bytes := copy_at b off (be_put n v).

Definition buildPrefixInfo (p : RAPrefix) : bytes :=
  let b := make_bytes 30 in
  let b := copy_at b 0 [u8 (pfx_Bits (rap_Prefix p))] in
  let b := copy_at b 1 [Z.lor (flag (rap_OnLink p) 7) (flag (rap_Autonomous p) 6)] in
  let b := put_at 4 b 2 (u32 (Z.quot (rap_ValidLifetime p) Second)) in
  let b := put_at 4 b 6 (u32 (Z.quot (rap_PreferredLifetime p) Second)) in
  copy_at b 14 (As16 (pfx_Addr (rap_Prefix p))).

Section ra.
Context (H : HeaderPkg) (E : EncodePkg) (N : NdpPkg) (gw : GatewayT).

Definition ra_options (c : SLAACConfig) : list NDPOption :=
  SourceLinkLayer (gw_MAC gw) :: (PrefixInformation ∘ buildPrefixInfo <$> ra_Prefixes c).

(** [ra[0]], [ra[1]], [ra[2:4]], and the options. *)
Definition ra_fields (c : SLAACConfig) (ra : bytes) : res bytes :=
  _ ← index ra 0;
  let ra := copy_at ra 0 [64] in
  _ ← index ra 1;
  let ra := copy_at ra 1 [Z.lor (flag (ra_Managed c) 7) (flag (ra_Other c) 6)] in
  _ ← slice ra 2 4;
  let ra := put_at 2 ra 2 (u16 (Z.quot (ra_RouterLifetime c) Second)) in
  in_place ra (NDPRAMinimumSize N) (fun b => opts_Serialize N b (ra_options c)).

Definition ra_body (c : SLAACConfig) : res bytes :=
  let body := make_bytes (Z.to_nat (ICMPv6HeaderSize N + NDPRAMinimumSize N + opts_Length N (ra_options c))) in
  body ← icmp6_SetType E body (ICMPv6RouterAdvert N);
  in_place body (ICMPv6HeaderSize N) (ra_fields c).

Definition ra_send (c : SLAACConfig) (dstMAC dstIP : bytes) : res gfx :=
  body ← ra_body c;
  Ret (InjectICMP6 (gw_MAC gw) dstMAC (gw_LinkLocal gw) dstIP body (NDPHopLimit N)).

(** One turn of [loop]: what is sent, and how long the timer runs. *)
Definition ra_turn (s : raServer) : res (list gfx * Z) :=
  if ra_Enabled (ra_cfg s) then
    x ← ra_send (ra_cfg s) allNodesMAC allNodesIP6;
    Ret ([x], ra_Interval (ra_cfg s))
  else Ret ([], Hour).

(** [loop] takes the token off [kick]. *)
Definition ra_kicked (s : raServer) : option raServer :=
  if ra_kick s then Some (mkRa (ra_cfg s) false) else None.

(** [handleFrame] answers router solicitations. *)
Definition ra_handle (frame : bytes) (s : raServer) : res (list gfx * bool) :=
  p ← parseIngress H frame;
  match p with
  | None => Ret ([], false)
  | Some pkt =>
      match p_kind pkt with
      | PICMP6 =>
          if negb (p_icmpTyp pkt =? u8 (ICMPv6RouterSolicit N)) then Ret ([], false)
          else if negb (ra_Enabled (ra_cfg s)) then Ret ([], true)
          else
            let '(dstMAC, dstIP) :=
              if negb (ip_IsUnspecified (p_srcIP pkt)) then (p_srcMAC pkt, p_srcIP pkt)
              else (allNodesMAC, allNodesIP6) in
            x ← ra_send (ra_cfg s) dstMAC dstIP;
            Ret ([x], true)
      | _ => Ret ([], false)
      end
  end.
End ra.

(** * The gateway (gateway.go) *)

Definition gwTxQueueLen : nat := 512.

Record Config := mkGwConfig {
  gc_PortID : string;
  gc_MAC : bytes;
  gc_MTU : Z;
  gc_IPv4 : option V4Config;
  gc_IPv6 : option V6Config;
  gc_EnableInternetRouting : bool;
  gc_EnableHostRouting : bool;
  gc_Allow : list string;
  gc_Deny : list string;
  gc_DNSProxy : bool
}.

(** What slirpnetstack's router is given. *)
Record GatewayStateOpts := mkStateOpts {
  NatRange4 : string;
  NatRange6 : string;
  EnableHostRouting : bool;
  EnableInternetRouting : bool;
  AllowRange : list string;
  DenyRange : list string
}.

Inductive FrameHandler : Type := HandleDHCP4 | HandleDHCP6 | HandleRA.

Record Gateway := mkGateway {
  g_cfg : Config;
  g_ref : PortRef;
  g_state : GatewayStateOpts;
  g_addrs : list bytes;
  g_dnsIPs : list bytes;
  g_linkLocal : bytes;
  g_handlers : list FrameHandler;
  g_txq : list (string * bytes);
  g_done : bool;
  g_forwards : forwardsT;
  g_dhcp4 : dhcpServer;
  g_dhcp6 : dhcpServer;
  g_ra : raServer
}.

(** The view the services have of it. *)
Definition gw_of (g : Gateway) : GatewayT :=
  mkGw (gc_MAC (g_cfg g)) (gc_IPv4 (g_cfg g)) (gc_IPv6 (g_cfg g)) (g_linkLocal g).

Definition ID (g : Gateway) : string := gc_PortID (g_cfg g).

Definition g_set_ref (r : PortRef) (g : Gateway) : Gateway :=
  mkGateway (g_cfg g) r (g_state g) (g_addrs g) (g_dnsIPs g) (g_linkLocal g) (g_handlers g) (g_txq g)
    (g_done g) (g_forwards g) (g_dhcp4 g) (g_dhcp6 g) (g_ra g).
Definition g_set_handlers (hs : list FrameHandler) (g : Gateway) : Gateway :=
  mkGateway (g_cfg g) (g_ref g) (g_state g) (g_addrs g) (g_dnsIPs g) (g_linkLocal g) hs (g_txq g)
    (g_done g) (g_forwards g) (g_dhcp4 g) (g_dhcp6 g) (g_ra g).
Definition g_set_txq (q : list (string * bytes)) (g : Gateway) : Gateway :=
  mkGateway (g_cfg g) (g_ref g) (g_state g) (g_addrs g) (g_dnsIPs g) (g_linkLocal g) (g_handlers g) q
    (g_done g) (g_forwards g) (g_dhcp4 g) (g_dhcp6 g) (g_ra g).
Definition g_set_forwards (done : bool) (f : forwardsT) (g : Gateway) : Gateway :=
  mkGateway (g_cfg g) (g_ref g) (g_state g) (g_addrs g) (g_dnsIPs g) (g_linkLocal g) (g_handlers g) (g_txq g)
    done f (g_dhcp4 g) (g_dhcp6 g) (g_ra g).
Definition g_set_dhcp4 (s : dhcpServer) (g : Gateway) : Gateway :=
  mkGateway (g_cfg g) (g_ref g) (g_state g) (g_addrs g) (g_dnsIPs g) (g_linkLocal g) (g_handlers g) (g_txq g)
    (g_done g) (g_forwards g) s (g_dhcp6 g) (g_ra g).
Definition g_set_dhcp6 (s : dhcpServer) (g : Gateway) : Gateway :=
  mkGateway (g_cfg g) (g_ref g) (g_state g) (g_addrs g) (g_dnsIPs g) (g_linkLocal g) (g_handlers g) (g_txq g)
    (g_done g) (g_forwards g) (g_dhcp4 g) s (g_ra g).
Definition g_set_ra (s : raServer) (g : Gateway) : Gateway :=
  mkGateway (g_cfg g) (g_ref g) (g_state g) (g_addrs g) (g_dnsIPs g) (g_linkLocal g) (g_handlers g) (g_txq g)
    (g_done g) (g_forwards g) (g_dhcp4 g) (g_dhcp6 g) s.

Definition AddFrameHandler (h : FrameHandler) (g : Gateway) : Gateway := g_set_handlers (g_handlers g ++ [h]) g.

(** ** Construction *)

Definition natRange (ip : bytes) (bits : Z) : string := ip_String ip +:+ "/" +:+ Itoa bits.

(** The loop over the allow or deny list. *)
Fixpoint setRanges (parse : string -> option goerr) (msg : string) (l : list string) : option goerr :=
  match l with
  | [] => None
  | a :: l' =>
      match parse a with
      | Some e => Some (Errorf msg [AStr a; AErr e])
      | None => setRanges parse msg l'
      end
  end.

Section new.
Context (IPPortRange_Set : string -> option goerr).
Context (ResolveLinkLocalV6 : string -> bytes -> result bytes).
Context (CreateNIC : option goerr).

(** The checks before anything is built. *)
Definition checkConfig (c : Config) : option goerr :=
  match gc_IPv4 c, gc_IPv6 c with
  | None, None => Some (Errorf "gateway needs at least one of ipv4/ipv6" [])
  | _, _ =>
      if len (gc_MAC c) =? 0 then Some (Errorf "gateway MAC must be set" [])
      else match gc_IPv4 c with
      | Some v4 =>
          if len (To4 (v4_Address v4)) =? 0 then
            Some (Errorf "ipv4 address %s is not IPv4" [AStr (ip_String (v4_Address v4))])
          else None
      | None => None
      end
  end.

Definition checkIPv6 (c : Config) : option goerr :=
  match gc_IPv6 c with
  | Some v6 =>
      if negb (len (To4 (v6_Address v6)) =? 0) || (len (To16 (v6_Address v6)) =? 0) then
        Some (Errorf "ipv6 address %s is not IPv6" [AStr (ip_String (v6_Address v6))])
      else None
  | None => None
  end.

Definition firstErr (es : list (option goerr)) : option goerr := head (omap id es).

Definition llOverride (c : Config) : string :=
  match gc_IPv6 c with
  | Some v6 => if len (v6_LinkLocal v6) =? 0 then EmptyString else ip_String (v6_LinkLocal v6)
  | None => EmptyString
  end.

Definition gwAddresses (c : Config) : list bytes :=
  match gc_IPv4 c with Some v4 => [To4 (v4_Address v4)] | None => [] end ++
  match gc_IPv6 c with Some v6 => [To16 (v6_Address v6)] | None => [] end.

Definition dnsAddresses (c : Config) : list bytes :=
  if gc_DNSProxy c then
    match gc_IPv4 c with Some v4 => [v4_Address v4] | None => [] end ++
    match gc_IPv6 c with Some v6 => [v6_Address v6] | None => [] end
  else [].

Definition NewGateway (c : Config) : result Gateway :=
  let c := mkGwConfig (gc_PortID c) (gc_MAC c) (if gc_MTU c =? 0 then 1500 else gc_MTU c) (gc_IPv4 c) (gc_IPv6 c)
             (gc_EnableInternetRouting c) (gc_EnableHostRouting c) (gc_Allow c) (gc_Deny c) (gc_DNSProxy c) in
  match firstErr [checkConfig c; checkIPv6 c;
                  setRanges IPPortRange_Set "bad allow range %q: %w" (gc_Allow c);
                  setRanges IPPortRange_Set "bad deny range %q: %w" (gc_Deny c)] with
  | Some e => Err e
  | None =>
      match ResolveLinkLocalV6 (llOverride c) (gc_MAC c) with
      | Err e => Err e
      | Ok linkLocal =>
          match CreateNIC with
          | Some e => Err (Errorf "create NIC: %w" [AErr e])
          | None =>
              let state := mkStateOpts
                (match gc_IPv4 c with Some v4 => natRange (v4_Address v4) (v4_PrefixLen v4) | None => EmptyString end)
                (match gc_IPv6 c with Some v6 => natRange (v6_Address v6) (v6_PrefixLen v6) | None => EmptyString end)
                (gc_EnableHostRouting c) (gc_EnableInternetRouting c) (gc_Allow c) (gc_Deny c) in
              Ok (AddFrameHandler HandleRA (AddFrameHandler HandleDHCP6 (AddFrameHandler HandleDHCP4
                   (mkGateway c (Ref (gc_PortID c)) state (linkLocal :: gwAddresses c) (dnsAddresses c) linkLocal
                      [] [] false newForwards newDHCPServer newDHCP6Server newRAServer))))
          end
      end
  end.
End new.

(** [icmpEchoHandler]: does the stack answer an echo request itself? *)
Definition echoLocal (g : Gateway) (dst : bytes) : bool := bool_decide (dst ∈ g_addrs g).

(** ** Frames from the switch *)

(** [Send]. *)
Definition g_Send (srcPortID : string) (frame : bytes) (g : Gateway) : Gateway * bool :=
  if g_done g then (g, false)
  else if (length (g_txq g) <? gwTxQueueLen)%nat then (g_set_txq (g_txq g ++ [(srcPortID, frame)]) g, true)
  else (g, false).

(** The clocks and orders of one frame: DHCPv4, DHCPv6, and the switch's. *)
Record GwEnv := mkGwEnv {
  ge_ck4 : Clock;
  ge_ck6 : Clock;
  ge_od4 : Orders;
  ge_od6 : Orders;
  ge_now : Z;
  ge_sw : Env
}.

Section run.
Context (H : HeaderPkg) (E : EncodePkg) (N : NdpPkg).
Context (from4 : bytes -> result req4) (to4 : req4 -> reply4 -> result bytes).
Context (from6 : bytes -> result (option req6)) (to6 : req6 -> reply6 -> result bytes).

Definition runHandler (ge : GwEnv) (h : FrameHandler) (srcPortID : string) (frame : bytes) (g : Gateway)
    : res (Gateway * list gfx * bool) :=
  match h with
  | HandleDHCP4 =>
      x ← dhcp4_handle H (gw_of g) from4 to4 (ge_ck4 ge) (ge_od4 ge) (ge_now ge) srcPortID frame (g_dhcp4 g);
      let '(s, fx, ok) := x in Ret (g_set_dhcp4 s g, fx, ok)
  | HandleDHCP6 =>
      x ← dhcp6_handle H (gw_of g) from6 to6 (ge_ck6 ge) (ge_od6 ge) srcPortID frame (g_dhcp6 g);
      let '(s, fx, ok) := x in Ret (g_set_dhcp6 s g, fx, ok)
  | HandleRA =>
      x ← ra_handle H E N (gw_of g) frame (g_ra g);
      let '(fx, ok) := x in Ret (g, fx, ok)
  end.

(** [runHandlers]: the first handler that consumes the frame ends the loop. *)
Fixpoint runHandlers (ge : GwEnv) (hs : list FrameHandler) (srcPortID : string) (frame : bytes) (g : Gateway)
    : res (Gateway * list gfx * bool) :=
  match hs with
  | [] => Ret (g, [], false)
  | h :: hs' =>
      x ← runHandler ge h srcPortID frame g;
      let '(g, fx, ok) := x in
      if (ok : bool) then Ret (g, fx, true)
      else
        y ← runHandlers ge hs' srcPortID frame g;
        Ret (y.1.1, fx ++ y.1.2, y.2)
  end.

Definition InjectFrame (env : Env) (frame : bytes) (g : Gateway) (sw : Switch) : res (Gateway * Switch * list effect) :=
  x ← PortRef_Deliver env (g_ref g) frame sw;
  let '(r, sw, fx) := x in Ret (g_set_ref r g, sw, fx).

(** One turn of [rxPump]: a packet the stack emits, or none when the gateway was
    closed; the boolean is whether the loop goes on. *)
Definition rxPump (env : Env) (pkt : option bytes) (g : Gateway) (sw : Switch) : res (Gateway * Switch * list effect * bool) :=
  match pkt with
  | None => Ret (g, sw, [], false)
  | Some frame =>
      x ← PortRef_Deliver env (g_ref g) frame sw;
      let '(r, sw, fx) := x in Ret (g_set_ref r g, sw, fx, true)
  end.

(** Craft and inject what a handler sends. *)
Fixpoint injectAll (env : Env) (fx : list gfx) (g : Gateway) (sw : Switch) : res (Gateway * Switch * list effect) :=
  match fx with
  | [] => Ret (g, sw, [])
  | x :: fx' =>
      frame ← craft H E x;
      a ← InjectFrame env frame g sw;
      let '(g, sw, es) := a in
      b ← injectAll env fx' g sw;
      Ret (b.1.1, b.1.2, es ++ b.2)
  end.

(** One turn of [txWorker]: take a frame, run the handlers, and hand it to the
    stack if none consumed it. *)
Definition txWorker (ge : GwEnv) (g : Gateway) (sw : Switch)
    : option (res (Gateway * Switch * list effect * option bytes)) :=
  match g_txq g with
  | [] => None
  | (srcPortID, frame) :: q =>
      Some (
        x ← runHandlers ge (g_handlers g) srcPortID frame (g_set_txq q g);
        let '(g, fx, ok) := x in
        y ← injectAll (ge_sw ge) fx g sw;
        Ret (y, if (ok : bool) then None else Some frame))
  end.

(** One turn of the advertisement loop. *)
Definition raLoop (env : Env) (g : Gateway) (sw : Switch) : res (Gateway * Switch * list effect * Z) :=
  x ← ra_turn E N (gw_of g) (g_ra g);
  y ← injectAll env x.1 g sw;
  Ret (y, x.2).
End run.

(** ** Administration *)

Definition g_PortDown (portID : string) (g : Gateway) : Gateway :=
  g_set_dhcp6 (dhcp6_PortDown portID (g_dhcp6 g)) (g_set_dhcp4 (dhcp_PortDown portID (g_dhcp4 g)) g).

Definition g_Close (od : FwdOrders) (g : Gateway) : Gateway * list ffx :=
  if g_done g then (g, [])
  else let '(f, fx) := closeForwards od (g_forwards g) in (g_set_forwards true f g, fx).
