(* ===== verification/GatewayProps.v ===== *)
(** Theorems about the gateway: what a router advertisement says, that no frame
    from the switch can crash a gateway, and that each frame goes to exactly one
    of its services or to its stack. *)
From S2P Require Import Prelude Vlan Fdb Protect SwitchState Stp StpFacts Switch SwitchInv Deliver Lease GoText Forwards ForwardsProps Dhcp DhcpProps Dhcp6Props DhcpDemo Gateway.

#[local] Open Scope Z_scope.

(** * gVisor's encoders

    An encoder needs the bytes of its header, keeps the length of the slice and
    takes addresses of its family. *)
Record encode_ok (H : HeaderPkg) (E : EncodePkg) : Prop := {
  en_sizes : 0 <= EthernetMinimumSize H /\ 0 <= IPv4MinimumSize H /\ 0 <= IPv6MinimumSize H /\ 0 <= UDPMinimumSize H;
  en_eth : forall b sm dm t, EthernetMinimumSize H <= len b ->
    exists b', eth_Encode E b sm dm t = Ret b' /\ len b' = len b;
  en_ip4 : forall b tl ttl pr si di, IPv4MinimumSize H <= len b -> len si = 4 -> len di = 4 ->
    exists b', ip4_Encode E b tl ttl pr si di = Ret b' /\ len b' = len b;
  en_ip4_sum : forall b, IPv4MinimumSize H <= len b ->
    (exists x, ip4_CalculateChecksum E b = Ret x) /\
    forall x, exists b', ip4_SetChecksum E b x = Ret b' /\ len b' = len b;
  en_ip6 : forall b pl pr hl si di, IPv6MinimumSize H <= len b -> len si = 16 -> len di = 16 ->
    exists b', ip6_Encode E b pl pr hl si di = Ret b' /\ len b' = len b;
  en_udp : forall b sp dp l, UDPMinimumSize H <= len b ->
    exists b', udp_Encode E b sp dp l = Ret b' /\ len b' = len b;
  en_udp_sum : forall b, UDPMinimumSize H <= len b ->
    (forall x, exists y, udp_CalculateChecksum E b x = Ret y) /\
    forall x, exists b', udp_SetChecksum E b x = Ret b' /\ len b' = len b;
  en_icmp_sum : forall b x, ICMPv6MinimumSize H <= len b ->
    exists b', icmp6_SetChecksum E b x = Ret b' /\ len b' = len b
}.

(** The addresses of a frame to be crafted are of its family. *)
Definition gfx_ok (H : HeaderPkg) (x : gfx) : Prop :=
  match x with
  | InjectUDP4 _ _ si di _ _ _ => len (To4 si) = 4 /\ len (To4 di) = 4
  | InjectUDP6 _ _ si di _ _ _ => len (To16 si) = 16 /\ len (To16 di) = 16
  | InjectICMP6 _ _ si di body _ => len (To16 si) = 16 /\ len (To16 di) = 16 /\ ICMPv6MinimumSize H <= len body
  end.

Lemma tcpip_Addr_ok b : len b = 4 \/ len b = 16 -> tcpip_Addr b = Ret b.
Proof. unfold tcpip_Addr. by intros [-> | ->]. Qed.

Lemma in_place_ok frame off f :
  0 <= off <= len frame ->
  (forall t, len t = len frame - off -> exists t', f t = Ret t' /\ len t' = len t) ->
  exists frame', in_place frame off f = Ret frame' /\ len frame' = len frame.
Proof.
  intros Ho Hf. unfold in_place. rewrite slice_from_ret, bind_Ret by lia.
  destruct (Hf (drop (Z.to_nat off) frame)) as (t' & -> & Ht); [lens|]. rewrite bind_Ret.
  eexists. split; [done|]. lens.
Qed.

Section craft.
Context (H : HeaderPkg) (E : EncodePkg) (HE : encode_ok H E).

Lemma len_make n : 0 <= n -> len (make_bytes (Z.to_nat n)) = n.
Proof. intros. lens. Qed.

Lemma craftUDP_ok si di sp dp payload udp :
  (len si = 4 \/ len si = 16) -> (len di = 4 \/ len di = 16) ->
  len udp = UDPMinimumSize H + len payload ->
  exists udp', craftUDP H E si di sp dp (UDPMinimumSize H + len payload) payload udp = Ret udp' /\ len udp' = len udp.
Proof using HE.
  intros Hs Hd Hl. destruct HE as [(_ & _ & _ & Hu) _ _ _ _ H1 H2 _]. unfold craftUDP.
  destruct (H1 udp sp dp (u16 (UDPMinimumSize H + len payload))) as (b & -> & Hb); [unfold len in *; lia|].
  rewrite bind_Ret, !tcpip_Addr_ok, !bind_Ret by done.
  set (b2 := copy_at b (Z.to_nat (UDPMinimumSize H)) payload).
  assert (Hb2 : len b2 = len udp) by (unfold b2, len in *; rewrite length_copy_at; lia).
  destruct (H2 b2) as [Hc Hset]; [unfold len in *; lia|]. destruct (Hc (Checksum E payload
    (PseudoHeaderChecksum E (UDPProtocolNumber H) si di (u16 (UDPMinimumSize H + len payload))))) as [x ->].
  rewrite bind_Ret. destruct (Hset (not16 x)) as (b' & -> & Hb'). exists b'. split; [done | lia].
Qed.

Lemma To4_len b : len (To4 b) = 4 \/ len (To4 b) = 0.
Proof.
  unfold To4. destruct (Z.eqb_spec (len b) 4); [by left|]. destruct (_ && _) eqn:Eb; [|by right].
  left. bool_prop. lens.
Qed.

(** Crafting never panics on addresses of the right family. *)
Lemma craft_total x : gfx_ok H x -> exists frame, craft H E x = Ret frame.
Proof using HE.
  pose proof HE as [(He & H4 & H6 & Hu) Heth Hi4 Hs4 Hi6 _ _ Hic].
  assert (Hudp : forall payload, 0 <= len payload) by (intros; unfold len; lia).
  destruct x as [sm dm si di sp dp pl|sm dm si di sp dp pl|sm dm si di body hl]; cbn [gfx_ok craft].
  - intros [Hsi Hdi]. specialize (Hudp pl). unfold craftUDP4.
    set (n := EthernetMinimumSize H + IPv4MinimumSize H + (UDPMinimumSize H + len pl)).
    destruct (Heth (make_bytes (Z.to_nat n)) sm dm (IPv4ProtocolNumber H)) as (f1 & -> & L1);
      [rewrite len_make; lia|]. rewrite len_make in L1 by lia. rewrite bind_Ret.
    match goal with |- context [in_place f1 ?o ?f] => destruct (in_place_ok f1 o f) as (f2 & -> & L2); [lia | |] end.
    + intros t Ht. rewrite !tcpip_Addr_ok, !bind_Ret by lia.
      destruct (Hi4 t (u16 (IPv4MinimumSize H + (UDPMinimumSize H + len pl))) 64 (u8 (UDPProtocolNumber H)) (To4 si) (To4 di))
        as (t1 & -> & T1); [lia | done..|]. rewrite bind_Ret. destruct (Hs4 t1) as [[c ->] Hset]; [lia|]. rewrite bind_Ret.
      destruct (Hset (not16 c)) as (t2 & -> & T2). exists t2. split; [done | lia].
    + rewrite bind_Ret. match goal with |- context [in_place f2 ?o ?f] => destruct (in_place_ok f2 o f) as (f3 & -> & L3) end;
        [lia | | by eexists]. intros t Ht. apply craftUDP_ok; [by left..|]. lia.
  - intros [Hsi Hdi]. specialize (Hudp pl). unfold craftUDP6.
    set (n := EthernetMinimumSize H + IPv6MinimumSize H + (UDPMinimumSize H + len pl)).
    destruct (Heth (make_bytes (Z.to_nat n)) sm dm (IPv6ProtocolNumber H)) as (f1 & -> & L1);
      [rewrite len_make; lia|]. rewrite len_make in L1 by lia. rewrite bind_Ret.
    match goal with |- context [in_place f1 ?o ?f] => destruct (in_place_ok f1 o f) as (f2 & -> & L2); [lia | |] end.
    + intros t Ht. rewrite !tcpip_Addr_ok, !bind_Ret by lia. apply Hi6; [lia | done..].
    + rewrite bind_Ret. match goal with |- context [in_place f2 ?o ?f] => destruct (in_place_ok f2 o f) as (f3 & -> & L3) end;
        [lia | | by eexists]. intros t Ht. apply craftUDP_ok; [by right..|]. lia.
  - intros (Hsi & Hdi & Hb). specialize (Hudp body). unfold craftICMP6.
    set (n := EthernetMinimumSize H + IPv6MinimumSize H + len body).
    destruct (Heth (make_bytes (Z.to_nat n)) sm dm (IPv6ProtocolNumber H)) as (f1 & -> & L1);
      [rewrite len_make; lia|]. rewrite len_make in L1 by lia. rewrite bind_Ret.
    match goal with |- context [in_place f1 ?o ?f] => destruct (in_place_ok f1 o f) as (f2 & -> & L2); [lia | |] end.
    + intros t Ht. rewrite !tcpip_Addr_ok, !bind_Ret by lia. apply Hi6; [lia | done..].
    + rewrite bind_Ret. match goal with |- context [in_place f2 ?o ?f] => destruct (in_place_ok f2 o f) as (f3 & -> & L3) end;
        [lia | | by eexists]. intros t Ht.
      assert (Lc : len (copy_at t 0 body) = len t) by (unfold len in *; rewrite length_copy_at; lia).
      destruct (Hic (copy_at t 0 body) 0) as (t1 & -> & T1); [lia|]. rewrite bind_Ret, !tcpip_Addr_ok, !bind_Ret by lia.
      destruct (Hic t1 (ICMPv6Checksum E t1 (To16 si) (To16 di))) as (t2 & -> & T2); [lia|]. exists t2. split; [done | lia].
Qed.
End craft.

(** * Neighbor Discovery messages

    Options are type, length in units of eight bytes, body (RFC 4861 section
    4.6); these are the two the gateway sends. *)
Definition ndp_option_ok (o : NDPOption) : Prop :=
  match o with SourceLinkLayer mac => length mac = 6%nat | PrefixInformation b => length b = 30%nat end.
Definition ndp_wire (o : NDPOption) : bytes :=
  match o with SourceLinkLayer mac => [1; 1] ++ mac | PrefixInformation b => [3; 4] ++ b end.

Record ndp_ok (E : EncodePkg) (N : NdpPkg) : Prop := {
  nd_consts : ICMPv6HeaderSize N = 4 /\ NDPRAMinimumSize N = 12 /\ NDPHopLimit N = 255 /\
    ICMPv6RouterSolicit N = 133 /\ ICMPv6RouterAdvert N = 134;
  nd_type : forall x b t, icmp6_SetType E (x :: b) t = Ret (t :: b);
  nd_total : forall os, 0 <= opts_Length N os /\
    forall b, len b = opts_Length N os -> exists b', opts_Serialize N b os = Ret b' /\ len b' = len b;
  nd_length : forall os, Forall ndp_option_ok os -> opts_Length N os = len (concat (ndp_wire <$> os));
  nd_serialize : forall os b, Forall ndp_option_ok os -> len b = opts_Length N os ->
    opts_Serialize N b os = Ret (concat (ndp_wire <$> os))
}.

(** A router advertisement as a host reads it (RFC 4861 section 4.2). *)
Record Advert := mkAdvert {
  adv_hopLimit : Z;
  adv_managed : bool;
  adv_other : bool;
  adv_lifetime : Z;
  adv_reachable : Z;
  adv_retrans : Z;
  adv_options : list (Z * bytes)
}.

Fixpoint parseOptions (fuel : nat) (b : bytes) : option (list (Z * bytes)) :=
  match fuel with
  | O => None
  | S fuel' =>
      match b with
      | [] => Some []
      | ty :: l :: rest =>
          let n := (8 * Z.to_nat l - 2)%nat in
          if (l <=? 0) || (length rest <? n)%nat then None
          else cons (ty, take n rest) <$> parseOptions fuel' (drop n rest)
      | _ => None
      end
  end.

Definition parseAdvert (body : bytes) : option Advert :=
  match body with
  | ty :: _ :: _ :: _ :: hop :: fl :: l1 :: l2 :: r1 :: r2 :: r3 :: r4 :: t1 :: t2 :: t3 :: t4 :: opts =>
      if ty =? 134 then
        os ← parseOptions (S (length opts)) opts;
        Some (mkAdvert hop (Z.testbit fl 7) (Z.testbit fl 6) (be_get [l1; l2]) (be_get [r1; r2; r3; r4])
                (be_get [t1; t2; t3; t4]) os)
      else None
  | _ => None
  end.

(** The body of a Prefix Information option: length, L, A, valid and preferred
    lifetime, prefix. *)
Definition parsePrefixInfo (b : bytes) : Z * bool * bool * Z * Z * bytes :=
  (nth 0 b 0, Z.testbit (nth 1 b 0) 7, Z.testbit (nth 1 b 0) 6,
   be_get (take 4 (drop 2 b)), be_get (take 4 (drop 6 b)), take 16 (drop 14 b)).

(** Copying into a slice whose parts are known. *)
Lemma copy_at_parts a b b' c off :
  length a = off -> length b' = length b -> copy_at (a ++ b ++ c) off b' = a ++ b' ++ c.
Proof.
  intros <- Hb. rewrite copy_at_fits by (rewrite !length_app; lia). rewrite take_app_length. f_equal. f_equal.
  rewrite <- drop_drop, drop_app_length, Hb. apply drop_app_length.
Qed.

Lemma length_As16 a : length (As16 a) = 16%nat.
Proof. destruct a; cbn [As16]; rewrite ?length_app, ?length_be_put, ?length_replicate; done. Qed.

(** A big-endian field of two or four bytes. *)
Lemma be_put_2 v : exists a b, be_put 2 v = [a; b].
Proof. by eexists _, _. Qed.
Lemma be_put_4 v : exists a b c d, be_put 4 v = [a; b; c; d].
Proof. by eexists _, _, _, _. Qed.

Definition prefix_flags (p : RAPrefix) : Z := Z.lor (flag (rap_OnLink p) 7) (flag (rap_Autonomous p) 6).

Lemma flags_bits x y :
  Z.testbit (Z.lor (flag x 7) (flag y 6)) 7 = x /\ Z.testbit (Z.lor (flag x 7) (flag y 6)) 6 = y.
Proof. by destruct x, y. Qed.

Lemma buildPrefixInfo_eq p :
  buildPrefixInfo p = [u8 (pfx_Bits (rap_Prefix p)); prefix_flags p] ++
    be_put 4 (u32 (Z.quot (rap_ValidLifetime p) Second)) ++
    be_put 4 (u32 (Z.quot (rap_PreferredLifetime p) Second)) ++ make_bytes 4 ++ As16 (pfx_Addr (rap_Prefix p)).
Proof.
  unfold buildPrefixInfo, put_at, prefix_flags. set (fl := Z.lor _ _). set (v := Z.quot (rap_ValidLifetime p) _).
  set (w := Z.quot (rap_PreferredLifetime p) _). set (n := u8 _).
  change (copy_at (copy_at (make_bytes 30) 0 [n]) 1 [fl]) with ([n; fl] ++ make_bytes 4 ++ make_bytes 24).
  rewrite copy_at_parts by done.
  change (make_bytes 24) with (make_bytes 4 ++ make_bytes 4 ++ make_bytes 16).
  rewrite (app_assoc [n; fl]), copy_at_parts by done.
  rewrite <- (app_nil_r (make_bytes 16)). rewrite !app_assoc. rewrite <- (app_assoc _ (make_bytes 16) []).
  rewrite copy_at_parts by (rewrite ?length_As16; done). by rewrite app_nil_r, <- !app_assoc.
Qed.

Lemma length_buildPrefixInfo p : length (buildPrefixInfo p) = 30%nat.
Proof. rewrite buildPrefixInfo_eq, !length_app, length_As16. done. Qed.

Lemma u32_mod v : be_get (be_put 4 (u32 v)) = u32 v.
Proof. rewrite be_get_put. unfold u32. by rewrite Zmod_mod. Qed.
Lemma u16_mod v : be_get (be_put 2 (u16 v)) = u16 v.
Proof. rewrite be_get_put. unfold u16. by rewrite Zmod_mod. Qed.

(** A Prefix Information option says what was configured, with the lifetimes in
    seconds modulo their 32-bit fields. *)
Lemma parsePrefixInfo_build p :
  parsePrefixInfo (buildPrefixInfo p) =
    (u8 (pfx_Bits (rap_Prefix p)), rap_OnLink p, rap_Autonomous p,
     u32 (Z.quot (rap_ValidLifetime p) Second), u32 (Z.quot (rap_PreferredLifetime p) Second),
     As16 (pfx_Addr (rap_Prefix p))).
Proof.
  rewrite buildPrefixInfo_eq. destruct (be_put_4 (u32 (Z.quot (rap_ValidLifetime p) Second))) as (a & b & c & d & E1).
  destruct (be_put_4 (u32 (Z.quot (rap_PreferredLifetime p) Second))) as (e & f & g & h & E2).
  pose proof (u32_mod (Z.quot (rap_ValidLifetime p) Second)) as V. rewrite E1 in V.
  pose proof (u32_mod (Z.quot (rap_PreferredLifetime p) Second)) as W. rewrite E2 in W. rewrite E1, E2.
  set (q := As16 _). assert (Hq : take 16 q = q) by (apply take_ge; unfold q; by rewrite length_As16).
  unfold parsePrefixInfo. cbn [app drop nth make_bytes replicate]. rewrite drop_0, Hq. cbn [take]. rewrite V, W.
  destruct (flags_bits (rap_OnLink p) (rap_Autonomous p)) as [F1 F2]. unfold prefix_flags. by rewrite F1, F2.
Qed.

Lemma parseOptions_wire os : forall fuel,
  Forall ndp_option_ok os -> (length (concat (ndp_wire <$> os)) < fuel)%nat ->
  parseOptions fuel (concat (ndp_wire <$> os)) =
    Some ((fun o => match o with SourceLinkLayer m => (1, m) | PrefixInformation b => (3, b) end) <$> os).
Proof.
  induction os as [|o os IH]; intros [|fuel] Hok Hf; try lia; [done|]. apply Forall_cons in Hok as [Ho Hok].
  rewrite !fmap_cons in *. cbn [concat] in *. rewrite length_app in Hf.
  assert (Hn : forall t l b, o = match t with true => SourceLinkLayer b | false => PrefixInformation b end ->
    ndp_wire o = [if t then 1 else 3; l] ++ b -> (0 < l) -> length b = (8 * Z.to_nat l - 2)%nat ->
    parseOptions (S fuel) (ndp_wire o ++ concat (ndp_wire <$> os)) =
      Some ((if t then 1 else 3, b) :: ((fun o => match o with SourceLinkLayer m => (1, m) | PrefixInformation b => (3, b) end) <$> os))).
  { intros t l b _ -> Hl Hb. cbn [app parseOptions]. rewrite (proj2 (Z.leb_gt _ _)) by lia. cbn [orb].
    rewrite <- Hb, length_app, (proj2 (Nat.ltb_ge _ _)), take_app_length, drop_app_length by lia.
    rewrite IH; [done | done |]. pose proof (length_app [if t then 1 else 3; l] b). destruct o; cbn [ndp_wire app length] in *; lia. }
  destruct o as [mac|b].
  - by apply (Hn true 1 mac).
  - by apply (Hn false 4 b).
Qed.

Section ra.
Context (H : HeaderPkg) (E : EncodePkg) (N : NdpPkg) (HN : ndp_ok E N) (gw : GatewayT).

(** The advertisement of a configuration. *)
Definition advert_of (c : SLAACConfig) : Advert :=
  mkAdvert 64 (ra_Managed c) (ra_Other c) (u16 (Z.quot (ra_RouterLifetime c) Second)) 0 0
    ((1, gw_MAC gw) :: ((fun p => (3, buildPrefixInfo p)) <$> ra_Prefixes c)).

Lemma ra_options_ok c : length (gw_MAC gw) = 6%nat -> Forall ndp_option_ok (ra_options gw c).
Proof using.
  intros Hm. unfold ra_options. constructor; [done|]. apply Forall_fmap, Forall_forall. intros p _. apply length_buildPrefixInfo.
Qed.

Lemma ra_fields_eq c pad w :
  length pad = length w -> opts_Serialize N pad (ra_options gw c) = Ret w ->
  ra_fields N gw c (make_bytes 12 ++ pad) =
    Ret ([64; Z.lor (flag (ra_Managed c) 7) (flag (ra_Other c) 6)] ++
         be_put 2 (u16 (Z.quot (ra_RouterLifetime c) Second)) ++ make_bytes 8 ++ w).
Proof using HN.
  intros Hp Hw. destruct HN as [(_ & C2 & _) _ _ _ _]. unfold ra_fields. rewrite C2. set (fl := Z.lor _ _). set (life := u16 _).
  rewrite (index_ret (make_bytes 12 ++ pad) 0), bind_Ret by lens.
  change (copy_at (make_bytes 12 ++ pad) 0 [64]) with ([64] ++ make_bytes 11 ++ pad).
  rewrite (index_ret ([64] ++ make_bytes 11 ++ pad) 1), bind_Ret by lens.
  change (copy_at ([64] ++ make_bytes 11 ++ pad) 1 [fl]) with ([64; fl] ++ make_bytes 2 ++ make_bytes 8 ++ pad).
  rewrite slice_ret, bind_Ret by lens. unfold put_at. rewrite copy_at_parts by done.
  unfold in_place. rewrite slice_from_ret, bind_Ret by lens.
  change (drop (Z.to_nat 12) ([64; fl] ++ be_put 2 life ++ make_bytes 8 ++ pad)) with pad.
  rewrite Hw, bind_Ret. done.
Qed.

Lemma ra_body_advert c :
  length (gw_MAC gw) = 6%nat -> exists body, ra_body E N gw c = Ret body /\ parseAdvert body = Some (advert_of c).
Proof using HN.
  intros Hm. pose proof (ra_options_ok c Hm) as Ho. pose proof HN as [(C1 & C2 & _ & _ & C5) Hty _ Hlen Hser].
  unfold ra_body. rewrite C1, C2, C5, Hlen by done. set (w := concat (ndp_wire <$> ra_options gw c)).
  replace (Z.to_nat (4 + 12 + len w)) with (16 + length w)%nat by (unfold len; lia).
  change (make_bytes (16 + length w)) with (0 :: ([0; 0; 0] ++ make_bytes 12 ++ make_bytes (length w))).
  rewrite Hty, bind_Ret. unfold in_place at 1. rewrite slice_from_ret, bind_Ret by lens.
  change (drop (Z.to_nat 4) (134 :: [0; 0; 0] ++ make_bytes 12 ++ make_bytes (length w)))
    with (make_bytes 12 ++ make_bytes (length w)).
  rewrite (ra_fields_eq c _ w), bind_Ret; [|apply length_replicate | apply Hser; [done | rewrite Hlen by done; unfold len, make_bytes; by rewrite length_replicate]].
  eexists. split; [done|]. change (take (Z.to_nat 4) (134 :: [0; 0; 0] ++ make_bytes 12 ++ make_bytes (length w))) with [134; 0; 0; 0].
  destruct (be_put_2 (u16 (Z.quot (ra_RouterLifetime c) Second))) as (a & b & Eb).
  pose proof (u16_mod (Z.quot (ra_RouterLifetime c) Second)) as V. rewrite Eb in V. rewrite Eb.
  cbn [app make_bytes replicate parseAdvert]. rewrite Z.eqb_refl.
  unfold w. rewrite parseOptions_wire by (done || lia). cbn [mbind option_bind]. rewrite V.
  destruct (flags_bits (ra_Managed c) (ra_Other c)) as [-> ->]. unfold advert_of, ra_options.
  rewrite fmap_cons, <- list_fmap_compose. done.
Qed.
End ra.


(** * The effects of the services *)

Section services.
Context (H : HeaderPkg) (E : EncodePkg) (N : NdpPkg).
Context (from4 : bytes -> result req4) (to4 : req4 -> reply4 -> result bytes).
Context (from6 : bytes -> result (option req6)) (to6 : req6 -> reply6 -> result bytes).

(** What the theorems need of the packages: addresses come in their size. *)
Record packages_ok : Prop := {
  pk_header : header_ok H;
  pk_encode : encode_ok H E;
  pk_ndp : ndp_ok E N;
  pk_src6 : forall b x, ip6_SourceAddress H b = Ret x -> len x = 16;
  pk_ciaddr : forall p req, from4 p = Ok req -> len (ClientIPAddr req) = 4;
  pk_icmp : ICMPv6MinimumSize H <= 16
}.
Context (Hpk : packages_ok).

Lemma parseIngress_src6 frame pkt :
  parseIngress H frame = Ret (Some pkt) -> p_kind pkt <> PUDP4 -> len (p_srcIP pkt) = 16.
Proof using Hpk.
  assert (Hudp : forall k m si di u, parseUDP H k m si di u = Ret (Some pkt) -> p_kind pkt = k /\ p_srcIP pkt = si).
  { intros k m si di u. unfold parseUDP. intros (sp & _ & (dp & _ & (pl & _ & [= <-])%bind_Ret_inv)%bind_Ret_inv)%bind_Ret_inv. done. }
  unfold parseIngress. destruct (_ <? _); [done|]. intros (mac & _ & (body & _ & (ty & _ & E1)%bind_Ret_inv)%bind_Ret_inv)%bind_Ret_inv Hk.
  destruct (ty =? _).
  - exfalso. unfold parseIPv4 in E1. destruct (_ <? _); [done|]. apply bind_Ret_inv in E1 as (v & _ & E1).
    destruct (negb v); [done|]. apply bind_Ret_inv in E1 as (pr & _ & E1). destruct (negb _); [done|].
    apply bind_Ret_inv in E1 as (fo & _ & E1). apply bind_Ret_inv in E1 as (mo & _ & E1). destruct mo; [done|].
    apply bind_Ret_inv in E1 as (hl & _ & E1). apply bind_Ret_inv in E1 as (u & _ & E1). destruct (_ <? _); [done|].
    apply bind_Ret_inv in E1 as (a & _ & E1). apply bind_Ret_inv in E1 as (b & _ & E1). apply Hudp in E1 as [E1 _]. by rewrite E1 in Hk.
  - destruct (ty =? _); [|done]. unfold parseIPv6 in E1. destruct (_ <? _); [done|].
    apply bind_Ret_inv in E1 as (si & Hsi & E1). apply (pk_src6 Hpk) in Hsi.
    apply bind_Ret_inv in E1 as (di & _ & E1). apply bind_Ret_inv in E1 as (rest & _ & E1).
    apply bind_Ret_inv in E1 as (pr & _ & E1). destruct (pr =? _).
    + destruct (_ <? _); [done|]. by apply Hudp in E1 as [_ ->].
    + destruct (pr =? _); [|done]. destruct (_ <? _); [done|]. apply bind_Ret_inv in E1 as (t & _ & [= <-]). done.
Qed.

Lemma To16_16 b : len b = 16 -> To16 b = b.
Proof using. intros Hb. unfold To16. by rewrite Hb. Qed.

(** ** DHCPv4 hands out IPv4 addresses *)

Record in_v4 (s : dhcpServer) : Prop := {
  i4_statics : forall id b, statics s !! id = Some b -> Is4 (sb_IP b) = true;
  i4_leases : forall ip l, leases s !! ip = Some l -> Is4 ip = true
}.

Lemma addr4_Is4 b ip : addr4 b = Some ip -> Is4 ip = true.
Proof using.
  unfold addr4, AddrFromSlice. destruct (To4_len b) as [-> | ->]; [|done]. by intros [= <-].
Qed.

Lemma selected_v4 ck od st t portID mac cid lt ps pe gwIP rq a e t' ip :
  orders_ok od -> leases_ok t -> (forall id b, st !! id = Some b -> Is4 (sb_IP b) = true) ->
  (forall i l, t !! i = Some l -> Is4 i = true) -> (forall i, rq = Some i -> Is4 i = true) ->
  selected ck od st t portID mac cid lt ps pe gwIP rq A4 a e t' ip ->
  (IsValid ip = true -> Is4 ip = true) /\ forall i l, t' !! i = Some l -> Is4 i = true.
Proof using.
  intros Hod Hl Hst Ht Hrq Hsel.
  assert (Hins : forall (x : Addr) (l : Lease), Is4 x = true -> forall i l', <[x := l]> t !! i = Some l' -> Is4 i = true).
  { intros x l Hx i l'. rewrite lookup_insert. case_decide; [by subst | apply Ht]. }
  destruct Hsel as [b Hm _|b Hm _|l _ (Hlk & _)|i _ Hi _ _ _ _ _ _|v _ _ _ _ _ _| ]; try done.
  - assert (Hb : Is4 (sb_IP b) = true).
    { apply matchBinding_in, list_elem_of_fmap in Hm as ([id b'] & -> & Hin).
      apply elem_of_range in Hin; [|apply Hod]. by eapply Hst. }
    split; [done | by apply Hins].
  - specialize (Ht _ _ Hlk). split; [done | by apply Hins].
  - specialize (Hrq _ Hi). split; [done | by apply Hins].
  - split; [done | by apply Hins].
Qed.

Section v4.
Context (gw : GatewayT) (Haddr : forall v4, gw_IPv4 gw = Some v4 -> len (To4 (v4_Address v4)) = 4).

Lemma len_AsSlice4 ip : Is4 ip = true -> len (AsSlice ip) = 4.
Proof using. by destruct ip. Qed.

Lemma len_To4 b : len b = 4 -> To4 b = b.
Proof using. intros Hb. unfold To4. by rewrite Hb. Qed.

Lemma send_built_ok req rp y fx :
  len (ClientIPAddr req) = 4 -> (IsValid y = true -> Is4 y = true) ->
  send_built gw to4 req rp y = Ret fx -> Forall (gfx_ok H) fx.
Proof using Haddr.
  intros Hc Hy. unfold send_built, transmit4. destruct (to4 req rp) as [pl|]; [|by intros [= <-]].
  intros (f & (v4 & Hv & Ef)%bind_Ret_inv & [= <-])%bind_Ret_inv.
  destruct (gw_IPv4 gw) as [w|]; [|done]. injection Hv as <-. specialize (Haddr w eq_refl).
  destruct (if _ && _ then _ else _) as [dm di] eqn:Ed. injection Ef as <-. constructor; [|constructor]. split; [done|].
  destruct (_ && _); [injection Ed as <- <-; by rewrite len_To4|]. destruct (_ || _ || _) eqn:Eo; injection Ed as <- <-; [done|].
  bool_prop. rewrite len_To4; by apply len_AsSlice4, Hy.
Qed.

Lemma selectIP_v4 ck od portID req s s' ip :
  orders_ok od -> ok4 gw s -> in_v4 s -> Enabled (cfg s) = true ->
  selectIP gw ck od portID (cfg s) req s = Ret (s', ip) ->
  (IsValid ip = true -> Is4 ip = true) /\ in_v4 s'.
Proof using.
  intros Hod Hok [Hst Hl] En Es.
  destruct (selectIP_selected gw ck od portID req s Hod Hok En) as (v4 & t & i & a & e & _ & _ & _ & E' & Hsel).
  rewrite Es in E'. injection E' as -> ->.
  destruct (selected_v4 _ _ _ _ _ _ _ _ _ _ _ _ _ _ _ _ Hod (sv_leases _ _ _ _ Hok) Hst Hl ltac:(intros; by eapply addr4_Is4) Hsel).
  split; [done | by split].
Qed.

Lemma dhcp4_effects ck od now portID frame s s' fx c :
  orders_ok od -> ok4 gw s -> in_v4 s ->
  dhcp4_handle H gw from4 to4 ck od now portID frame s = Ret (s', fx, c) -> Forall (gfx_ok H) fx /\ in_v4 s'.
Proof using Hpk Haddr.
  intros Hod Hok Hi. unfold dhcp4_handle. intros (p & _ & Eh)%bind_Ret_inv.
  destruct p as [pkt|]; [|by simplify_eq]. destruct (p_kind pkt); try by simplify_eq.
  destruct (negb _); [by simplify_eq|]. destruct (Enabled (cfg s)) eqn:En; cbn [negb] in Eh; [|by simplify_eq].
  destruct (from4 (p_payload pkt)) as [req|] eqn:Hf; [|by simplify_eq]. apply (pk_ciaddr Hpk) in Hf.
  destruct (negb _); [by simplify_eq|]. destruct (_ =? MessageTypeDiscover).
  { apply bind_Ret_inv in Eh as ([s1 fx1] & Er & [= <- <- <-]). unfold replyToDiscover in Er.
    apply bind_Ret_inv in Er as ([s2 ip] & Es & Er). destruct (selectIP_v4 _ _ _ _ _ _ _ Hod Hok Hi En Es) as [Hv Hi'].
    destruct (negb (IsValid ip)); [by simplify_eq|]. apply bind_Ret_inv in Er as (fx2 & Ef & [= <- <-]). split; [|done].
    unfold sendReply in Ef. apply bind_Ret_inv in Ef as (v4 & _ & Ef). by eapply send_built_ok. }
  assert (Hnak : forall fx, sendNak gw to4 req = Ret fx -> Forall (gfx_ok H) fx).
  { unfold sendNak. intros fx1 (v4 & _ & Ef)%bind_Ret_inv. by eapply send_built_ok; [..|exact Ef]. }
  destruct (_ =? MessageTypeRequest).
  { apply bind_Ret_inv in Eh as ([s1 fx1] & Er & [= <- <- <-]). unfold replyToRequest in Er.
    destruct (wanted req) as [want|].
    - apply bind_Ret_inv in Er as ([s2 ip] & Es & Er). destruct (selectIP_v4 _ _ _ _ _ _ _ Hod Hok Hi En Es) as [Hv Hi'].
      destruct (_ || _); apply bind_Ret_inv in Er as (fx2 & Ef & [= <- <-]); (split; [|done]); [by apply Hnak|].
      unfold sendReply in Ef. apply bind_Ret_inv in Ef as (v4 & _ & Ef). by eapply send_built_ok.
    - apply bind_Ret_inv in Er as (fx2 & Ef & [= <- <-]). split; [by apply Hnak | done]. }
  destruct (_ =? MessageTypeRelease).
  { destruct (addr4 (ClientIPAddr req)) as [ip|]; [|by simplify_eq]. simplify_eq. split; [done|].
    destruct (IsValid ip); [|done]. destruct Hi as [Hst Hl]. split; [done|]. intros i l Hr%release_sub. by eapply Hl. }
  destruct (_ =? MessageTypeDecline); [|by simplify_eq].
  destruct (addr4 (RequestedIPAddress req)) as [ip|] eqn:Ha; [|by simplify_eq]. simplify_eq. split; [done|].
  destruct (IsValid ip); [|done]. destruct Hi as [Hst Hl]. split; [done|]. intros i l. cbn [leases with_leases].
  unfold lease_set. cbn [l_IP declined]. rewrite lookup_insert. case_decide; [subst; intros _; by eapply addr4_Is4 | apply Hl].
Qed.
End v4.

Lemma dhcp6_effects gw ck od portID frame s s' fx c :
  len (gw_LinkLocal gw) = 16 ->
  dhcp6_handle H gw from6 to6 ck od portID frame s = Ret (s', fx, c) -> Forall (gfx_ok H) fx.
Proof using Hpk.
  intros Hll. unfold dhcp6_handle. intros (p & Hp & Eh)%bind_Ret_inv.
  destruct p as [pkt|]; [|by simplify_eq]. destruct (p_kind pkt) eqn:Hk; try by simplify_eq.
  apply parseIngress_src6 in Hp; [|by rewrite Hk].
  assert (Hs : forall msg rp, Forall (gfx_ok H) (send6 gw to6 pkt msg rp)).
  { intros msg rp. unfold send6. destruct (to6 msg rp); [|done]. constructor; [|done]. unfold transmit6. cbn. by rewrite !To16_16. }
  destruct (negb _); [by simplify_eq|]. destruct (negb _); [by simplify_eq|].
  destruct (from6 (p_payload pkt)) as [[msg|]|]; [|by simplify_eq..].
  destruct (ClientID6 msg) as [duid|]; [|by simplify_eq].
  assert (Hr : forall adv, (x ← replyAddress gw to6 ck od portID (cfg s) pkt msg duid adv s; Ret (x, true)) = Ret (s', fx, c) ->
    Forall (gfx_ok H) fx).
  { intros adv ([s1 fx1] & Er & [= <- <- <-])%bind_Ret_inv. unfold replyAddress in Er.
    apply bind_Ret_inv in Er as ([s2 ip] & _ & Er). destruct (negb _); simplify_eq; [done | apply Hs]. }
  cbv zeta in Eh. destruct (_ =? MessageTypeSolicit); [by eapply Hr|]. destruct (_ || _); [by eapply Hr|].
  destruct (_ =? MessageTypeRelease6); [simplify_eq; apply Hs|].
  destruct (_ =? MessageTypeInformationRequest); simplify_eq; [apply Hs | done].
Qed.

(** Advertisements, whatever the length of the gateway's MAC. *)
Lemma ra_send_ok gw c dm di :
  len (gw_LinkLocal gw) = 16 -> len di = 16 -> exists x, ra_send E N gw c dm di = Ret x /\ gfx_ok H x.
Proof using Hpk.
  intros Hll Hdi. destruct (pk_ndp Hpk) as [(C1 & C2 & _ & _ & C5) Hty Htot _ _]. unfold ra_send, ra_body.
  destruct (Htot (ra_options gw c)) as [Hn Hser]. rewrite C1, C2, C5. set (n := opts_Length N (ra_options gw c)) in *.
  replace (Z.to_nat (4 + 12 + n)) with (S (15 + Z.to_nat n)) by lia. cbn [make_bytes replicate]. rewrite Hty, bind_Ret.
  set (body := 134 :: replicate (15 + Z.to_nat n) 0). assert (Lb : len body = 16 + n) by (unfold body; lens).
  destruct (in_place_ok body 4 (ra_fields N gw c)) as (b' & -> & Lb'); [lia | |].
  - intros ra Lr. unfold ra_fields. rewrite C2, (index_ret ra 0), bind_Ret by lia.
    assert (Hc : forall b o (x : list Z), (o <= length b)%nat -> len (copy_at b o x) = len b)
      by (intros; unfold len; by rewrite length_copy_at).
    set (r1 := copy_at ra 0 [64]). assert (L1 : len r1 = len ra) by (apply Hc; lia).
    rewrite (index_ret r1 1), bind_Ret by lia. set (r2 := copy_at r1 1 _).
    assert (L2 : len r2 = len ra) by (unfold r2; rewrite Hc; unfold len in *; lia).
    rewrite (slice_ret r2 2 4), bind_Ret by lia. set (r3 := put_at 2 r2 2 _).
    assert (L3 : len r3 = len ra) by (unfold r3, put_at; rewrite Hc; unfold len in *; lia).
    destruct (in_place_ok r3 12 (fun b => opts_Serialize N b (ra_options gw c))) as (r4 & -> & L4); [lia | | by eexists; rewrite L4].
    intros t Lt. apply Hser. lia.
  - rewrite !bind_Ret. eexists. split; [done|]. cbn. rewrite !To16_16 by done. split_and!; try done.
    pose proof (pk_icmp Hpk). lia.
Qed.

Lemma ra_handle_ok gw frame s :
  len (gw_LinkLocal gw) = 16 -> exists fx c, ra_handle H E N gw frame s = Ret (fx, c) /\ Forall (gfx_ok H) fx.
Proof using Hpk.
  intros Hll. unfold ra_handle. destruct (parseIngress_total H (pk_header Hpk) frame) as [p Hp]. rewrite Hp, bind_Ret.
  destruct p as [pkt|]; [|by eexists _, _]. destruct (p_kind pkt) eqn:Hk; try by eexists _, _.
  apply parseIngress_src6 in Hp; [|by rewrite Hk]. destruct (negb _); [by eexists _, _|]. destruct (negb _); [by eexists _, _|].
  set (d := if negb (ip_IsUnspecified (p_srcIP pkt)) then _ else _).
  assert (Hd : len d.2 = 16) by (unfold d; by destruct (negb _)). destruct d as [dm di].
  destruct (ra_send_ok gw (ra_cfg s) dm di Hll Hd) as (x & -> & Hx). rewrite bind_Ret. eexists _, _. split; [done | by constructor].
Qed.
End services.

(** * The gateway as a whole *)

(** What each service claims of the traffic. *)
Definition claims (N : NdpPkg) (h : FrameHandler) (pkt : ingressPacket) : bool :=
  match h, p_kind pkt with
  | HandleDHCP4, PUDP4 => p_dstPort pkt =? dhcp4ServerPort
  | HandleDHCP6, PUDP6 => p_dstPort pkt =? dhcp6ServerPort
  | HandleRA, PICMP6 => p_icmpTyp pkt =? u8 (ICMPv6RouterSolicit N)
  | _, _ => false
  end.

Definition claims_frame (N : NdpPkg) (h : FrameHandler) (p : option ingressPacket) : bool :=
  match p with Some pkt => claims N h pkt | None => false end.

Section gateway.
Context (H : HeaderPkg) (E : EncodePkg) (N : NdpPkg).
Context (from4 : bytes -> result req4) (to4 : req4 -> reply4 -> result bytes).
Context (from6 : bytes -> result (option req6)) (to6 : req6 -> reply6 -> result bytes).
Context {FwdAddr : Type}.
Context (NewFwdAddr : string -> string -> string -> string -> string -> result FwdAddr).
Context (DynLocalForwardTCP DynLocalForwardUDP : nat -> FwdAddr -> option goerr).
Context (fwdTable_Add : nat -> FwdAddr -> result string).
Context (IPPortRange_Set : string -> option goerr).
Context (ResolveLinkLocalV6 : string -> bytes -> result bytes).

(** A link-local address is an IPv6 address. *)
Context (Hll : forall o m a, ResolveLinkLocalV6 o m = Ok a -> len a = 16).
Context (Hpk : packages_ok H E N from4).

Record gateway_ok (g : Gateway) : Prop := {
  go_v4 : forall v4, gc_IPv4 (g_cfg g) = Some v4 -> len (To4 (v4_Address v4)) = 4;
  go_v6 : forall v6, gc_IPv6 (g_cfg g) = Some v6 -> len (v6_Address v6) = 16 /\ len (To4 (v6_Address v6)) = 0;
  go_ll : len (g_linkLocal g) = 16;
  go_handlers : g_handlers g = [HandleDHCP4; HandleDHCP6; HandleRA];
  go_txq : (length (g_txq g) <= gwTxQueueLen)%nat;
  go_dhcp4 : ok4 (gw_of g) (g_dhcp4 g);
  go_in4 : in_v4 (g_dhcp4 g);
  go_dhcp6 : ok6 (gw_of g) (g_dhcp6 g);
  go_ra : ra_Enabled (ra_cfg (g_ra g)) = true -> is_Some (gc_IPv6 (g_cfg g)) /\
    0 < ra_Interval (ra_cfg (g_ra g)) /\ 0 < ra_RouterLifetime (ra_cfg (g_ra g)) /\
    Forall (fun p => not_v6 (pfx_Addr (rap_Prefix p)) = false /\ 0 < rap_ValidLifetime p /\ 0 < rap_PreferredLifetime p)
      (ra_Prefixes (ra_cfg (g_ra g)));
  go_fwd : fwd_ok (g_forwards g)
}.

Lemma firstErr_None es e : firstErr es = None -> e ∈ es -> e = None.
Proof using.
  unfold firstErr. destruct (omap id es) as [|x l] eqn:Eo; [|done]. intros _ He. destruct e as [x|]; [|done].
  assert (Hx : x ∈ omap id es) by (apply list_elem_of_omap; by exists (Some x)). rewrite Eo in Hx. by apply elem_of_nil in Hx.
Qed.

Lemma NewGateway_ok nic c g :
  NewGateway IPPortRange_Set ResolveLinkLocalV6 nic c = Ok g -> gateway_ok g.
Proof using Hll.
  clear Hpk. unfold NewGateway. set (c1 := mkGwConfig _ _ _ _ _ _ _ _ _ _). destruct (firstErr _) eqn:Ef; [done|].
  assert (Hc : checkConfig c1 = None) by (eapply firstErr_None; [exact Ef | set_solver]).
  assert (H6 : checkIPv6 c1 = None) by (eapply firstErr_None; [exact Ef | set_solver]). clear Ef.
  destruct (ResolveLinkLocalV6 _ _) as [ll|] eqn:El; [|done]. apply Hll in El. destruct nic; [done|]. intros [= <-].
  split; cbn; try done.
  - intros v4 Hv. unfold checkConfig in Hc. change (gc_IPv4 c1) with (gc_IPv4 c) in Hc. rewrite Hv in Hc.
    destruct (len (gc_MAC c1) =? 0); [done|]. destruct (Z.eqb_spec (len (To4 (v4_Address v4))) 0); [done|].
    by destruct (To4_len (v4_Address v4)).
  - intros v6 Hv. unfold checkIPv6 in H6. change (gc_IPv6 c1) with (gc_IPv6 c) in H6. rewrite Hv in H6.
    destruct (_ || _) eqn:Eo; [done|]. bool_prop. split; [|done]. unfold To4, To16 in *.
    destruct (Z.eqb_spec (len (v6_Address v6)) 4); [lia|]. by destruct (Z.eqb_spec (len (v6_Address v6)) 16).
  - unfold gwTxQueueLen. lia.
Qed.

(** ** Steps that leave the addresses alone *)

Definition same_net (g g' : Gateway) : Prop :=
  g_cfg g' = g_cfg g /\ g_linkLocal g' = g_linkLocal g /\ g_handlers g' = g_handlers g.

Lemma gateway_ok_ref r g : gateway_ok g -> gateway_ok (g_set_ref r g).
Proof using. intros []. by split. Qed.
Lemma gateway_ok_dhcp4 s g : ok4 (gw_of g) s -> in_v4 s -> gateway_ok g -> gateway_ok (g_set_dhcp4 s g).
Proof using. intros ?? []. by split. Qed.
Lemma gateway_ok_dhcp6 s g : ok6 (gw_of g) s -> gateway_ok g -> gateway_ok (g_set_dhcp6 s g).
Proof using. intros ? []. by split. Qed.
Lemma gateway_ok_txq q g : (length q <= gwTxQueueLen)%nat -> gateway_ok g -> gateway_ok (g_set_txq q g).
Proof using. intros ? []. by split. Qed.
Lemma gateway_ok_fwd d f g : fwd_ok f -> gateway_ok g -> gateway_ok (g_set_forwards d f g).
Proof using. intros ? []. by split. Qed.

Record env_ok (ge : GwEnv) : Prop := { eo_od4 : orders_ok (ge_od4 ge); eo_od6 : orders_ok (ge_od6 ge) }.

(** Every branch of a handler that does not fall through consumes the frame. *)
Ltac consumes :=
  repeat match goal with
  | E : Ret _ = Ret _ |- _ => by simplify_eq
  | E : mbind _ _ = Ret _ |- _ => apply bind_Ret_inv in E as (? & ? & E)
  | E : context [match ?x with _ => _ end] |- _ => destruct x
  | E : context [if ?x then _ else _] |- _ => destruct x
  end.

Lemma dhcp4_claims gw ck od now src frame s s' fx c p :
  parseIngress H frame = Ret p -> dhcp4_handle H gw from4 to4 ck od now src frame s = Ret (s', fx, c) ->
  c = claims_frame N HandleDHCP4 p /\ (c = false -> s' = s /\ fx = []).
Proof using.
  intros Hp. unfold dhcp4_handle. rewrite Hp, bind_Ret. intros Eh. destruct p as [pkt|]; [|by simplify_eq].
  unfold claims_frame, claims. destruct (p_kind pkt); try by simplify_eq.
  destruct (p_dstPort pkt =? dhcp4ServerPort); cbn [negb] in Eh; [|by simplify_eq].
  assert (c = true) as ->; [|done]. consumes.
Qed.

Lemma dhcp6_claims gw ck od src frame s s' fx c p :
  parseIngress H frame = Ret p -> dhcp6_handle H gw from6 to6 ck od src frame s = Ret (s', fx, c) ->
  c = claims_frame N HandleDHCP6 p /\ (c = false -> s' = s /\ fx = []).
Proof using.
  intros Hp. unfold dhcp6_handle. rewrite Hp, bind_Ret. intros Eh. destruct p as [pkt|]; [|by simplify_eq].
  unfold claims_frame, claims. destruct (p_kind pkt); try by simplify_eq.
  destruct (p_dstPort pkt =? dhcp6ServerPort); cbn [negb] in Eh; [|by simplify_eq].
  assert (c = true) as ->; [|done]. cbv zeta in Eh. consumes.
Qed.

Lemma ra_claims gw frame s fx c p :
  parseIngress H frame = Ret p -> ra_handle H E N gw frame s = Ret (fx, c) ->
  c = claims_frame N HandleRA p /\ (c = false -> fx = []).
Proof using.
  intros Hp. unfold ra_handle. rewrite Hp, bind_Ret. intros Eh. destruct p as [pkt|]; [|by simplify_eq].
  unfold claims_frame, claims. destruct (p_kind pkt); try by simplify_eq.
  destruct (p_icmpTyp pkt =? _); cbn [negb] in Eh; [|by simplify_eq].
  destruct (negb _); [by simplify_eq|]. destruct (ip_IsUnspecified _); apply bind_Ret_inv in Eh as (x & _ & Eh); by simplify_eq.
Qed.

(** A handler consumes exactly what it claims and changes nothing otherwise. *)
Lemma runHandler_ok ge h src frame g p :
  env_ok ge -> gateway_ok g -> parseIngress H frame = Ret p ->
  exists g' fx, runHandler H E N from4 to4 from6 to6 ge h src frame g = Ret (g', fx, claims_frame N h p) /\
    gateway_ok g' /\ same_net g g' /\ Forall (gfx_ok H) fx /\ (claims_frame N h p = false -> g' = g /\ fx = []).
Proof using Hpk.
  intros [Ho4 Ho6] Hg Hp. pose proof (go_ll _ Hg) as Hl. destruct h; cbn [runHandler].
  - destruct (dhcp4_handle_total H (gw_of g) from4 to4 (ge_ck4 ge) (ge_od4 ge) (ge_now ge) src frame (g_dhcp4 g)
      (pk_header _ _ _ _ Hpk) Ho4 (go_dhcp4 _ Hg)) as (s' & fx & c & Eh & Hh).
    destruct (dhcp4_effects H E N from4 to4 Hpk (gw_of g) (go_v4 _ Hg) _ _ _ _ _ _ _ _ _ Ho4 (go_dhcp4 _ Hg) (go_in4 _ Hg) Eh) as [Hfx Hi].
    destruct (dhcp4_claims _ _ _ _ _ _ _ _ _ _ _ Hp Eh) as [-> Hc]. rewrite Eh, bind_Ret. eexists _, _. split_and!; try done.
    + apply gateway_ok_dhcp4; [|done..]. by eapply ok4_handled; [exact Ho4 | apply Hg | exact Hh].
    + intros [-> ->]%Hc. by destruct g.
  - destruct (dhcp6_handle_total H (gw_of g) from6 to6 (ge_ck6 ge) (ge_od6 ge) src frame (g_dhcp6 g)
      (pk_header _ _ _ _ Hpk) Ho6 (go_dhcp6 _ Hg)) as (s' & fx & c & Eh & Hh).
    pose proof (dhcp6_effects H E N from4 from6 to6 Hpk (gw_of g) _ _ _ _ _ _ _ _ Hl Eh) as Hfx.
    destruct (dhcp6_claims _ _ _ _ _ _ _ _ _ _ Hp Eh) as [-> Hc]. rewrite Eh, bind_Ret. eexists _, _. split_and!; try done.
    + apply gateway_ok_dhcp6; [|done..]. by eapply ok6_handled; [exact Ho6 | apply Hg | exact Hh].
    + intros [-> ->]%Hc. by destruct g.
  - destruct (ra_handle_ok H E N from4 Hpk (gw_of g) frame (g_ra g) Hl) as (fx & c & Eh & Hfx).
    destruct (ra_claims _ _ _ _ _ _ Hp Eh) as [-> Hc]. rewrite Eh, bind_Ret. eexists _, _. split_and!; try done. intros Hf. split; [done | exact (Hc Hf)].
Qed.

(** The services claim disjoint traffic, so at most one of them acts. *)
Lemma claims_disjoint h h' p : claims_frame N h p = true -> claims_frame N h' p = true -> h = h'.
Proof using. destruct p as [pkt|]; [|done]. cbn. unfold claims. by destruct h, h', (p_kind pkt). Qed.

Lemma runHandlers_ok ge src frame p hs : forall g,
  env_ok ge -> gateway_ok g -> parseIngress H frame = Ret p ->
  exists g' fx, runHandlers H E N from4 to4 from6 to6 ge hs src frame g =
      Ret (g', fx, existsb (fun h => claims_frame N h p) hs) /\
    gateway_ok g' /\ same_net g g' /\ Forall (gfx_ok H) fx /\
    (existsb (fun h => claims_frame N h p) hs = false -> g' = g /\ fx = []) /\
    (forall h, claims_frame N h p = true -> h ∈ hs -> runHandler H E N from4 to4 from6 to6 ge h src frame g = Ret (g', fx, true)).
Proof using Hpk.
  induction hs as [|h hs IH]; intros g He Hg Hp; cbn [runHandlers existsb].
  { eexists _, _. split_and!; try done. intros h _ Hh. by apply elem_of_nil in Hh. }
  destruct (runHandler_ok ge h src frame g p He Hg Hp) as (g1 & fx1 & Eh & Hg1 & Hn1 & Hf1 & Hc1). rewrite Eh, bind_Ret.
  destruct (claims_frame N h p) eqn:Ec; cbn [orb].
  - eexists _, _. split_and!; try done. intros h' Hh' _. by rewrite (claims_disjoint h' h p Hh' Ec).
  - destruct (Hc1 eq_refl) as [-> ->]. destruct (IH g He Hg Hp) as (g2 & fx2 & -> & Hg2 & Hn2 & Hf2 & Hc2 & Hr2). rewrite bind_Ret.
    eexists _, _. split_and!; try done. intros h' Hh' [->|Hin]%elem_of_cons; [congruence | by apply Hr2].
Qed.

Lemma PortRef_Deliver_ok env r frame sw :
  switch_ok sw -> exists r' sw' fx, PortRef_Deliver env r frame sw = Ret (r', sw', fx) /\ switch_ok sw'.
Proof using.
  intros Hs. unfold PortRef_Deliver. destruct (if ref_stale sw r then _ else _) as [l|]; [|by eexists _, _, _].
  destruct (deliver_cases env l frame sw) as (s' & fx & Ed & _). rewrite Ed, bind_Ret. eexists _, _, _. split; [done|].
  by eapply switch_ok_deliver.
Qed.

Lemma injectAll_ok env fx : forall g sw,
  Forall (gfx_ok H) fx -> gateway_ok g -> switch_ok sw ->
  exists r sw' es, injectAll H E env fx g sw = Ret (g_set_ref r g, sw', es) /\ switch_ok sw' /\ (fx = [] -> sw' = sw /\ r = g_ref g /\ es = []).
Proof using Hpk.
  induction fx as [|x fx IH]; intros g sw Hfx Hg Hs; cbn [injectAll].
  { exists (g_ref g), sw, []. split_and!; try done. by destruct g. }
  apply Forall_cons in Hfx as [Hx Hfx]. destruct (craft_total H E (pk_encode _ _ _ _ Hpk) x Hx) as [frame ->]. rewrite bind_Ret.
  unfold InjectFrame. destruct (PortRef_Deliver_ok env (g_ref g) frame sw Hs) as (r & sw1 & es & -> & Hs1). rewrite !bind_Ret.
  destruct (IH (g_set_ref r g) sw1 Hfx ltac:(by apply gateway_ok_ref) Hs1) as (r2 & sw2 & es2 & -> & Hs2 & _). rewrite bind_Ret.
  by eexists _, _, _.
Qed.

(** ** Runs *)

(** Everything that can happen to a gateway. *)
Inductive gw_step (g : Gateway) : Gateway -> Prop :=
  | gs_send src frame : gw_step g (g_Send src frame g).1
  | gs_frame ge sw g' sw' fx o : env_ok ge -> switch_ok sw ->
      txWorker H E N from4 to4 from6 to6 ge g sw = Some (Ret (g', sw', fx, o)) -> gw_step g g'
  | gs_advertise env sw g' sw' fx d : switch_ok sw -> raLoop H E N env g sw = Ret (g', sw', fx, d) -> gw_step g g'
  | gs_emit env pkt sw g' sw' fx b : switch_ok sw -> rxPump env pkt g sw = Ret (g', sw', fx, b) -> gw_step g g'
  | gs_kick s : ra_kicked (g_ra g) = Some s -> gw_step g (g_set_ra s g)
  | gs_slaac c : gw_step g (g_set_ra (ra_SetConfig (gw_of g) c (g_ra g)).1 g)
  | gs_dhcp4 s : dhcp4_step H (gw_of g) from4 to4 (g_dhcp4 g) s -> gw_step g (g_set_dhcp4 s g)
  | gs_dhcp6 s : dhcp6_step H (gw_of g) from6 to6 (g_dhcp6 g) s -> gw_step g (g_set_dhcp6 s g)
  | gs_forward f : fwd_step NewFwdAddr DynLocalForwardTCP DynLocalForwardUDP fwdTable_Add (g_forwards g) f ->
      gw_step g (g_set_forwards (g_done g) f g)
  | gs_portDown id : gw_step g (g_PortDown id g)
  | gs_close od : fwd_orders_ok od -> gw_step g (g_Close od g).1.

Inductive gw_reachable : Gateway -> Prop :=
  | gr_new nic c g : NewGateway IPPortRange_Set ResolveLinkLocalV6 nic c = Ok g -> gw_reachable g
  | gr_step g g' : gw_reachable g -> gw_step g g' -> gw_reachable g'.

Lemma positive_or_pos d x : 0 < x -> 0 < positive_or d x.
Proof using. intros Hx. unfold positive_or. destruct (Z.leb_spec d 0); lia. Qed.

Lemma raPrefixes_ok ps : forall ps', raPrefixes ps = Ok ps' ->
  Forall (fun p => not_v6 (pfx_Addr (rap_Prefix p)) = false /\ 0 < rap_ValidLifetime p /\ 0 < rap_PreferredLifetime p) ps'.
Proof using.
  pose proof positive_or_pos as Hpos. induction ps as [|p ps IH]; intros ps'; cbn [raPrefixes]; [by intros [= <-]|].
  destruct (negb _ || _) eqn:Eb; [done|]. destruct (raPrefixes ps) as [r|] eqn:Er; [|done]. intros [= <-].
  constructor; [|by apply IH]. cbn. split_and!; [exact Eb | by apply Hpos..].
Qed.

Lemma ra_SetConfig_ok c g : gateway_ok g -> gateway_ok (g_set_ra (ra_SetConfig (gw_of g) c (g_ra g)).1 g).
Proof using.
  intros Hg. assert (Hsame : g_set_ra (g_ra g) g = g) by (by destruct g). unfold ra_SetConfig.
  destruct (ra_Enabled c) eqn:En; [|destruct Hg; split; try done; cbn; congruence].
  destruct (gw_IPv6 (gw_of g)) as [v6|] eqn:Hv; [|cbn [fst]; by rewrite Hsame].
  destruct (raPrefixes _) as [ps|] eqn:Ep; [|cbn [fst]; by rewrite Hsame]. destruct Hg. split; try done. intros _. cbn in *.
  split_and!; [by eexists | by apply positive_or_pos.. | by eapply raPrefixes_ok].
Qed.

Lemma buildStaticSet_v4 bs m :
  buildStaticSet bs false = Ok m -> forall id b, m !! id = Some b -> Is4 (sb_IP b) = true.
Proof using.
  unfold buildStaticSet.
  assert (Hgen : forall acc, (forall m0, acc = Ok m0 -> forall id b, m0 !! id = Some b -> Is4 (sb_IP b) = true) ->
    foldl (buildStep false) acc bs = Ok m -> forall id b, m !! id = Some b -> Is4 (sb_IP b) = true);
    [|apply Hgen; intros m0 [= <-] id b; by rewrite lookup_empty].
  induction bs as [|b bs IH]; intros acc Hacc; cbn [foldl]; [apply Hacc|]. apply IH. intros m0. unfold buildStep.
  destruct acc as [m1|]; [|done]. destruct (bool_decide _); [done|]. destruct (binding_validate b); [done|].
  cbn [andb negb]. destruct (Is4 (sb_IP b)) eqn:E4; [|done]. cbn [negb]. destruct (m1 !! sb_ID b); [done|].
  intros [= <-] id x. rewrite lookup_insert. case_decide; [by intros [= <-] | by apply Hacc].
Qed.

Lemma in_v4_step gw s s' :
  (forall v4, gw_IPv4 gw = Some v4 -> len (To4 (v4_Address v4)) = 4) ->
  ok4 gw s -> in_v4 s -> dhcp4_step H gw from4 to4 s s' -> in_v4 s'.
Proof using Hpk.
  intros Ha Hok [Hst Hl] [c _ _|b|bs|id|ip|id|now|ck od now portID frame s1 fx c Hod Eh].
  - unfold dhcp4_SetConfig. destruct (Enabled c); [|by split]. destruct (gw_IPv4 gw) as [v4|]; [|by split].
    destruct (_ || _); [by split|]. destruct (Less _ _); [by split|]. destruct (_ || _); by split.
  - unfold dhcp4_PutStatic. destruct (binding_validate b); [by split|]. destruct (Is4 (sb_IP b)) eqn:E4; [|by split].
    split; [|done]. intros id x. cbn. rewrite lookup_insert. case_decide; [by intros [= <-] | apply Hst].
  - unfold dhcp4_ReplaceStatics. destruct (buildStaticSet bs false) as [m|] eqn:Eb; [|by split]. split; [|done].
    by eapply buildStaticSet_v4.
  - unfold DeleteStatic. destruct (statics s !! id); [|by split]. split; [|done].
    cbn. intros i x [_ Hx]%lookup_delete_Some. by eapply Hst.
  - unfold ReleaseLease. pose proof (release_sub ip (leases s)) as Hs. destruct (release ip (leases s)) as [t []]; [|by split].
    split; [done|]. intros i l Hil. eapply Hl, Hs, Hil.
  - split; [done|]. intros i l Hil. cbn in Hil. unfold releaseByPort in Hil. apply map_lookup_filter_Some in Hil as [Hil _]. by eapply Hl.
  - split; [done|]. intros i l Hil. cbn in Hil. unfold expireSweep in Hil. apply map_lookup_filter_Some in Hil as [Hil _]. by eapply Hl.
  - by eapply dhcp4_effects.
Qed.

(** Is the frame one of a service's? *)
Definition service_frame (p : option ingressPacket) : bool :=
  existsb (fun h => claims_frame N h p) [HandleDHCP4; HandleDHCP6; HandleRA].

Lemma txWorker_ok ge g sw src frame q :
  env_ok ge -> gateway_ok g -> switch_ok sw -> g_txq g = (src, frame) :: q ->
  exists p g1 fx r sw' es,
    parseIngress H frame = Ret p /\
    txWorker H E N from4 to4 from6 to6 ge g sw =
      Some (Ret (g_set_ref r g1, sw', es, if service_frame p then None else Some frame)) /\
    gateway_ok (g_set_ref r g1) /\ same_net g g1 /\ switch_ok sw' /\
    (service_frame p = false -> g_set_ref r g1 = g_set_txq q g /\ sw' = sw /\ es = []) /\
    (forall h, claims_frame N h p = true ->
      runHandler H E N from4 to4 from6 to6 ge h src frame (g_set_txq q g) = Ret (g1, fx, true)) /\
    injectAll H E (ge_sw ge) fx g1 sw = Ret (g_set_ref r g1, sw', es).
Proof using Hpk.
  intros He Hg Hs Hq. unfold txWorker. rewrite Hq.
  destruct (parseIngress_total H (pk_header _ _ _ _ Hpk) frame) as [p Hp].
  assert (Hg0 : gateway_ok (g_set_txq q g)).
  { apply gateway_ok_txq; [|done]. pose proof (go_txq _ Hg) as Hn. rewrite Hq in Hn. cbn in Hn. lia. }
  rewrite (go_handlers _ Hg).
  destruct (runHandlers_ok ge src frame p [HandleDHCP4; HandleDHCP6; HandleRA] _ He Hg0 Hp)
    as (g1 & fx & Er & Hg1 & Hn & Hfx & Hc & Hr).
  destruct (injectAll_ok (ge_sw ge) fx g1 sw Hfx Hg1 Hs) as (r & sw' & es & Ei & Hs' & Hnil).
  exists p, g1, fx, r, sw', es. rewrite Er, bind_Ret, Ei, bind_Ret. fold (service_frame p) in *.
  split_and!; try done; [by apply gateway_ok_ref | |].
  - intros Hf. destruct (Hc Hf) as [-> ->]. destruct (Hnil eq_refl) as (-> & -> & ->). done.
  - intros h Hh. apply Hr; [done|]. destruct h; rewrite !elem_of_cons; auto.
Qed.

Lemma raLoop_ok env g sw :
  gateway_ok g -> switch_ok sw ->
  exists r sw' es d, raLoop H E N env g sw = Ret (g_set_ref r g, sw', es, d) /\ switch_ok sw' /\ 0 < d.
Proof using Hpk.
  intros Hg Hs. unfold raLoop, ra_turn. destruct (ra_Enabled (ra_cfg (g_ra g))) eqn:En.
  - destruct (ra_send_ok H E N from4 Hpk (gw_of g) (ra_cfg (g_ra g)) allNodesMAC allNodesIP6 (go_ll _ Hg) eq_refl)
      as (x & -> & Hx). rewrite !bind_Ret. cbn [fst snd].
    destruct (injectAll_ok env [x] g sw ltac:(by constructor) Hg Hs) as (r & sw' & es & -> & Hs' & _). rewrite bind_Ret.
    eexists _, _, _, _. split_and!; [done | done |]. by apply (go_ra _ Hg).
  - rewrite bind_Ret. cbn [fst snd]. destruct (injectAll_ok env [] g sw ltac:(constructor) Hg Hs) as (r & sw' & es & -> & Hs' & _).
    rewrite bind_Ret. by eexists _, _, _, _.
Qed.

Lemma gateway_ok_PortDown id g : gateway_ok g -> gateway_ok (g_PortDown id g).
Proof using.
  intros Hg. unfold g_PortDown. apply gateway_ok_dhcp6; [apply ok_PortDown, Hg|].
  apply gateway_ok_dhcp4; [apply ok_PortDown, Hg | | done]. destruct (go_in4 _ Hg) as [Hst Hl]. split; [done|].
  intros i l Hil. cbn in Hil. unfold releaseByPort in Hil. apply map_lookup_filter_Some in Hil as [Hil _]. by eapply Hl.
Qed.

Lemma rxPump_ok env pkt g sw :
  switch_ok sw -> exists r sw' es, rxPump env pkt g sw = Ret (g_set_ref r g, sw', es, bool_decide (is_Some pkt)) /\ switch_ok sw'.
Proof.
  intros Hs. destruct pkt as [frame|]; cbn [rxPump].
  - destruct (PortRef_Deliver_ok env (g_ref g) frame sw Hs) as (r & sw1 & es & -> & Hs1). rewrite bind_Ret. eauto.
  - exists (g_ref g), sw, []. by destruct g.
Qed.

Lemma gateway_ok_step g g' : gateway_ok g -> gw_step g g' -> gateway_ok g'.
Proof using Hpk.
  intros Hg [src frame|ge sw g1 sw' fx o He Hs Et|env sw g1 sw' fx d Hs Er|env pkt sw g1 sw' fx b Hs Ep|s Ek|c|s Hd|s Hd|f Hf|id|od Ho].
  - unfold g_Send. destruct (g_done g); [done|]. destruct (Nat.ltb_spec (length (g_txq g)) gwTxQueueLen); [|done].
    apply gateway_ok_txq; [rewrite length_app; cbn; lia | done].
  - destruct (g_txq g) as [|[src frame] q] eqn:Hq; [unfold txWorker in Et; by rewrite Hq in Et|].
    destruct (txWorker_ok ge g sw src frame q He Hg Hs Hq) as (p & g2 & fx2 & r & sw2 & es & _ & Et' & Hok & _).
    rewrite Et in Et'. by simplify_eq.
  - destruct (raLoop_ok env g sw Hg Hs) as (r & sw2 & es & d' & Er' & _). rewrite Er in Er'. simplify_eq.
    by apply gateway_ok_ref.
  - destruct (rxPump_ok env pkt g sw Hs) as (r & sw2 & es & Ep' & _). rewrite Ep in Ep'. simplify_eq. by apply gateway_ok_ref.
  - unfold ra_kicked in Ek. destruct (ra_kick (g_ra g)); [|done]. injection Ek as <-. by destruct Hg.
  - by apply ra_SetConfig_ok.
  - apply gateway_ok_dhcp4; [|exact (in_v4_step (gw_of g) _ _ (go_v4 _ Hg) (go_dhcp4 _ Hg) (go_in4 _ Hg) Hd) | done].
    eapply dhcp4_step_ok; [apply (pk_header _ _ _ _ Hpk) | apply Hg | exact Hd].
  - apply gateway_ok_dhcp6; [|done]. eapply dhcp6_step_ok; [apply (pk_header _ _ _ _ Hpk) | apply Hg | exact Hd].
  - apply gateway_ok_fwd; [|done]. eapply fwd_step_ok; [apply Hg | exact Hf].
  - by apply gateway_ok_PortDown.
  - unfold g_Close. destruct (g_done g); [done|]. destruct (closeForwards od (g_forwards g)) as [f fx] eqn:Ec.
    apply gateway_ok_fwd; [|done]. by apply closeForwards_ok in Ec as [? _]; [|done|apply Hg].
Qed.

Lemma gw_reachable_ok g : gw_reachable g -> gateway_ok g.
Proof using Hll Hpk. induction 1; [by eapply NewGateway_ok | by eapply gateway_ok_step]. Qed.

(** C30: no frame can crash a gateway.  In every reachable state of a gateway and
    whatever frames the switch queued for it, each turn of the worker ends: the
    handlers run, their replies are crafted with addresses of the right family
    and delivered to the switch, and both stay in a state where this holds; the
    same is true of each turn of the advertisement loop, whose timer is always
    positive, and of each packet the stack emits. *)
Theorem gateway_never_panics g sw ge env :
  gw_reachable g -> switch_ok sw -> env_ok ge ->
  (txWorker H E N from4 to4 from6 to6 ge g sw = None <-> g_txq g = []) /\
  (forall x, txWorker H E N from4 to4 from6 to6 ge g sw = Some x ->
     exists g' sw' fx o, x = Ret (g', sw', fx, o) /\ gw_reachable g' /\ gateway_ok g' /\ switch_ok sw') /\
  (exists g' sw' fx d, raLoop H E N env g sw = Ret (g', sw', fx, d) /\ gateway_ok g' /\ switch_ok sw' /\ 0 < d) /\
  (forall pkt, exists g' sw' fx, rxPump env pkt g sw = Ret (g', sw', fx, bool_decide (is_Some pkt)) /\ gateway_ok g' /\ switch_ok sw').
Proof using Hll Hpk.
  intros Hr Hs He. apply gw_reachable_ok in Hr as Hg. split_and!.
  - unfold txWorker. destruct (g_txq g) as [|[]]; split; done.
  - destruct (g_txq g) as [|[src frame] q] eqn:Hq; [unfold txWorker; by rewrite Hq|]. intros x Ex.
    destruct (txWorker_ok ge g sw src frame q He Hg Hs Hq) as (p & g2 & fx2 & r & sw2 & es & _ & Et & Hok & _ & Hs2 & _).
    rewrite Ex in Et. injection Et as ->. eexists _, _, _, _. split; [done|]. split_and!; try done.
    eapply gr_step; [exact Hr|]. eapply gs_frame; [exact He | exact Hs | exact Ex].
  - destruct (raLoop_ok env g sw Hg Hs) as (r & sw2 & es & d & -> & Hs2 & Hd).
    eexists _, _, _, _. split; [done|]. split_and!; try done. by apply gateway_ok_ref.
  - intros pkt. destruct (rxPump_ok env pkt g sw Hs) as (r & sw2 & es & -> & Hs2). eexists _, _, _. split; [done|].
    split; [by apply gateway_ok_ref | done].
Qed.

(** each frame goes to one place.  A DHCPv4 request goes to the DHCPv4
    server, a DHCPv6 request to the DHCPv6 server, a router solicitation to the
    advertisement service, and none of them reaches the stack; every other frame
    reaches the stack unchanged, and neither the gateway's services nor the switch
    notice it. *)
Theorem gateway_dispatch g sw ge src frame q g' sw' fx o :
  gw_reachable g -> switch_ok sw -> env_ok ge -> g_txq g = (src, frame) :: q ->
  txWorker H E N from4 to4 from6 to6 ge g sw = Some (Ret (g', sw', fx, o)) ->
  exists p, parseIngress H frame = Ret p /\
    match filter (fun h => claims_frame N h p = true) [HandleDHCP4; HandleDHCP6; HandleRA] with
    | [] => o = Some frame /\ g' = g_set_txq q g /\ sw' = sw /\ fx = []
    | [h] => o = None /\ exists g1 fx1,
        runHandler H E N from4 to4 from6 to6 ge h src frame (g_set_txq q g) = Ret (g1, fx1, true) /\
        injectAll H E (ge_sw ge) fx1 g1 sw = Ret (g', sw', fx)
    | _ => False
    end.
Proof using Hll Hpk.
  intros Hr Hs He Hq Et. apply gw_reachable_ok in Hr as Hg.
  destruct (txWorker_ok ge g sw src frame q He Hg Hs Hq) as (p & g1 & fx1 & r & sw1 & es & Hp & Et' & _ & _ & _ & Hn & Hh & Hi).
  rewrite Et in Et'. injection Et' as -> -> -> ->. exists p. split; [done|].
  assert (Hone : forall h h', claims_frame N h p = true -> claims_frame N h' p = true -> h = h')
    by (intros; by eapply claims_disjoint).
  unfold service_frame in *. cbn [existsb] in *.
  destruct (claims_frame N HandleDHCP4 p) eqn:C4, (claims_frame N HandleDHCP6 p) eqn:C6, (claims_frame N HandleRA p) eqn:CR;
    try (by specialize (Hone _ _ C4 C6)); try (by specialize (Hone _ _ C4 CR)); try (by specialize (Hone _ _ C6 CR));
    repeat first [rewrite filter_cons_True by done | rewrite filter_cons_False by (by rewrite ?C4, ?C6, ?CR)];
    rewrite filter_nil; cbn [orb] in *.
  - split; [done|]. exists g1, fx1. split; [by apply Hh | done].
  - split; [done|]. exists g1, fx1. split; [by apply Hh | done].
  - split; [done|]. exists g1, fx1. split; [by apply Hh | done].
  - destruct (Hn eq_refl) as (E1 & -> & ->). by rewrite E1.
Qed.
End gateway.
