(* ===== verification/GatewayDemo.v ===== *)
(** A demonstration gateway with concrete encoders, on which the theorems about
    gateways are instantiated. *)
From S2P Require Import Prelude Vlan Fdb Protect SwitchState Stp StpFacts Switch SwitchInv SwitchProps Lease GoText Forwards ForwardsProps Dhcp DhcpProps Dhcp6Props DhcpDemo Gateway GatewayProps.

#[local] Open Scope Z_scope.

(** Headers by the RFCs' offsets. *)
Definition guard (n : Z) (b : bytes) (k : bytes) : res bytes := if len b <? n then Panic else Ret k.

Fixpoint sum16 (b : bytes) (acc : Z) : Z :=
  match b with
  | x :: y :: b' => sum16 b' (acc + 256 * x + y)
  | [x] => acc + 256 * x
  | [] => acc
  end.
Definition fold16 (x : Z) : Z := u16 (x mod 65536 + x / 65536).

Definition demoEncode : EncodePkg := {|
  eth_Encode := fun b sm dm t => guard 14 b (put_at 2 (copy_at (copy_at b 0 (take 6 dm)) 6 (take 6 sm)) 12 t);
  ip4_Encode := fun b tl ttl pr si di =>
    guard 20 b (copy_at (copy_at (copy_at (put_at 2 (copy_at b 0 [0x45; 0]) 2 tl) 8 [ttl; pr]) 12 (take 4 si)) 16 (take 4 di));
  ip4_CalculateChecksum := fun b => if len b <? 20 then Panic else Ret (fold16 (sum16 (take 20 b) 0));
  ip4_SetChecksum := fun b x => guard 20 b (put_at 2 b 10 x);
  ip6_Encode := fun b pl pr hl si di =>
    guard 40 b (copy_at (copy_at (copy_at (put_at 2 (copy_at b 0 [0x60]) 4 pl) 6 [pr; hl]) 8 (take 16 si)) 24 (take 16 di));
  udp_Encode := fun b sp dp l => guard 8 b (put_at 2 (put_at 2 (put_at 2 b 0 sp) 2 dp) 4 l);
  udp_CalculateChecksum := fun b x => if len b <? 8 then Panic else Ret (fold16 (sum16 (take 8 b) x));
  udp_SetChecksum := fun b x => guard 8 b (put_at 2 b 6 x);
  icmp6_SetType := fun b t => match b with [] => Panic | _ :: b' => Ret (t :: b') end;
  icmp6_SetChecksum := fun b x => guard 4 b (put_at 2 b 2 x);
  ICMPv6Checksum := fun b si di => fold16 (sum16 (si ++ di ++ b) 58);
  PseudoHeaderChecksum := fun pr si di l => fold16 (sum16 (si ++ di) (pr + l));
  Checksum := fun b x => fold16 (sum16 b x)
|}.

Lemma guard_ok n b k : n <= len b -> length k = length b -> exists b', guard n b k = Ret b' /\ len b' = len b.
Proof. intros Hn Hk. unfold guard. rewrite (proj2 (Z.ltb_ge _ _)) by done. exists k. split; [done|]. unfold len. by rewrite Hk. Qed.

(** Every write is inside the header. *)
Ltac written := repeat (unfold put_at; rewrite length_copy_at); try done; unfold len in *; lia.

Lemma demoEncode_ok : encode_ok demoHeader demoEncode.
Proof.
  split; cbn.
  - lia.
  - intros b sm dm t Hb. apply guard_ok; [done | written].
  - intros b tl ttl pr si di Hb _ _. apply guard_ok; [done | written].
  - intros b Hb. rewrite (proj2 (Z.ltb_ge _ _)) by done. split; [by eexists|]. intros x. apply guard_ok; [done | written].
  - intros b pl pr hl si di Hb _ _. apply guard_ok; [done | written].
  - intros b sp dp l Hb. apply guard_ok; [done | written].
  - intros b Hb. rewrite (proj2 (Z.ltb_ge _ _)) by done. split; [by eexists|]. intros x. apply guard_ok; [done | written].
  - intros b x Hb. apply guard_ok; [lia | written].
Qed.

(** Options padded to a multiple of eight bytes. *)
Definition demo_wire (o : NDPOption) : bytes :=
  let '(ty, b) := match o with SourceLinkLayer m => (1, m) | PrefixInformation b => (3, b) end in
  let n := ((length b + 9) / 8)%nat in
  [ty; Z.of_nat n] ++ b ++ make_bytes (8 * n - 2 - length b).

Definition demoNdp : NdpPkg := {|
  ICMPv6HeaderSize := 4;
  NDPRAMinimumSize := 12;
  ICMPv6RouterSolicit := 133;
  ICMPv6RouterAdvert := 134;
  NDPHopLimit := 255;
  opts_Length := fun os => len (concat (demo_wire <$> os));
  opts_Serialize := fun b os =>
    if len b =? len (concat (demo_wire <$> os)) then Ret (concat (demo_wire <$> os)) else Panic
|}.

Lemma demo_wire_eq os : Forall ndp_option_ok os -> concat (demo_wire <$> os) = concat (ndp_wire <$> os).
Proof.
  induction 1 as [|o os Ho _ IH]; [done|]. rewrite !fmap_cons. cbn [concat]. rewrite IH. f_equal.
  destruct o as [m|b]; cbn in Ho; unfold demo_wire, ndp_wire; rewrite Ho; cbn [make_bytes replicate]; by rewrite app_nil_r.
Qed.

Lemma demoNdp_ok : ndp_ok demoEncode demoNdp.
Proof.
  split; cbn.
  - done.
  - done.
  - intros os. split; [unfold len; lia|]. intros b Hb. rewrite Hb, Z.eqb_refl. by eexists.
  - intros os Ho. by rewrite demo_wire_eq.
  - intros os b Ho Hb. rewrite Hb, Z.eqb_refl. by rewrite demo_wire_eq.
Qed.

Definition demoFrom4' (p : bytes) : result req4 :=
  if len p <? 16 then Err (Errorf "short packet" []) else demoFrom4 p.

Lemma demo_packages_ok : packages_ok demoHeader demoEncode demoNdp demoFrom4'.
Proof.
  split.
  - apply demoHeader_ok.
  - apply demoEncode_ok.
  - apply demoNdp_ok.
  - intros b x Hx. apply slice_length in Hx. done.
  - intros p req. unfold demoFrom4', demoFrom4. destruct (Z.ltb_spec (len p) 16); [done|].
    destruct p as [|op [|ty rest]]; [done..|]. intros [= <-]. cbn [ClientIPAddr]. lens.
  - done.
Qed.

Definition demoRange (s : string) : option goerr := None.
Definition demoLinkLocal (o : string) (mac : bytes) : result bytes := Ok ([0xfe; 0x80] ++ make_bytes 13 ++ [1]).
Lemma demoLinkLocal_ok o m a : demoLinkLocal o m = Ok a -> len a = 16.
Proof. by intros [= <-]. Qed.

Definition demoConfig : Config :=
  mkGwConfig "gw-vlan0" [2; 0; 0; 0; 0; 1] 0 (Some (mkV4 [10; 0; 0; 1] 24))
    (Some (mkV6 ([0xfd] ++ make_bytes 14 ++ [1]) 64 [])) true false [] [] false.

(** A router solicitation of client [n], from its link-local address. *)
Definition solicit (n : Z) : bytes :=
  [0x33; 0x33; 0; 0; 0; 2] ++ [2; 0; 0; 0; 0; n] ++ [0x86; 0xdd] ++
  make_bytes 6 ++ [58; 255] ++ [0xfe; 0x80] ++ make_bytes 13 ++ [n] ++ make_bytes 16 ++ [133] ++ make_bytes 7.

Definition demoSLAAC : SLAACConfig :=
  mkSLAAC true 0 true false (70000 * Second) [mkRAPrefix (mkPrefix (ip6 0) 64) 0 0 true true].


Abbreviation demo_reach :=
  (gw_reachable demoHeader demoEncode demoNdp demoFrom4' demoTo4 demoFrom6 demoTo6 demo_new demo_bind demo_bind demo_table
     demoRange demoLinkLocal).
Abbreviation demo_step4 := (gw_step demoHeader demoEncode demoNdp demoFrom4' demoTo4 demoFrom6 demoTo6 demo_new demo_bind demo_bind demo_table).

(** The gateway with DHCPv4 enabled and a DISCOVER of client 7 queued. *)
Definition demoGateway : Gateway :=
  match NewGateway demoRange demoLinkLocal None demoConfig with
  | Ok g => (g_Send "vm7" (client4 7 MessageTypeDiscover (make_bytes 4))
               (g_set_dhcp4 (dhcp4_SetConfig (gw_of g) demoCfg4 (g_dhcp4 g)).1 g)).1
  | Err _ => mkGateway demoConfig (Ref EmptyString) (mkStateOpts EmptyString EmptyString false false [] []) [] [] [] [] [] false
               newForwards newDHCPServer newDHCPServer newRAServer
  end.

Lemma demoGateway_reach : demo_reach demoGateway.
Proof.
  unfold demoGateway. destruct (NewGateway demoRange demoLinkLocal None demoConfig) as [g|] eqn:Eg; [|discriminate Eg].
  eapply gr_step; [eapply gr_step; [eapply gr_new; exact Eg|]|apply gs_send].
  apply gs_dhcp4, d4_config; vm_compute; split; congruence.
Qed.

Lemma demoGateway_queue : g_txq demoGateway = [("vm7", client4 7 MessageTypeDiscover (make_bytes 4))].
Proof. vm_compute. reflexivity. Qed.

Definition demoEnv (t : Z) : GwEnv :=
  mkGwEnv (at_time t) (at_time t) std_orders std_orders t (mkEnv (fun _ _ => true) t t t 0 std_ranges).

Lemma demoEnv_ok t : env_ok (demoEnv t).
Proof. split; apply std_orders_ok. Qed.

Lemma gateway_never_panics_witness :
  demo_reach demoGateway /\ switch_ok demo /\
  exists g' sw' fx o,
    txWorker demoHeader demoEncode demoNdp demoFrom4' demoTo4 demoFrom6 demoTo6 (demoEnv 0) demoGateway demo =
      Some (Ret (g', sw', fx, o)).
Proof.
  assert (Hs : switch_ok demo) by (apply reachable_switch_ok, demo_reachable).
  destruct (gateway_never_panics _ _ _ _ _ _ _ _ _ _ _ _ _ demoLinkLocal_ok demo_packages_ok demoGateway demo (demoEnv 0)
    (ge_sw (demoEnv 0)) demoGateway_reach Hs (demoEnv_ok 0)) as (Hn & Hx & _).
  split; [exact demoGateway_reach|]. split; [exact Hs|].
  destruct (txWorker _ _ _ _ _ _ _ _ _ _) as [x|] eqn:Et; [|exfalso; pose proof (proj1 Hn eq_refl) as Hq; rewrite demoGateway_queue in Hq; discriminate Hq].
  destruct (Hx x eq_refl) as (g' & sw' & fx & o & -> & _). by exists g', sw', fx, o.
Defined.

Lemma demo_discover_claimed :
  exists p, parseIngress demoHeader (client4 7 MessageTypeDiscover (make_bytes 4)) = Ret p /\
    claims_frame demoNdp HandleDHCP4 p = true /\ claims_frame demoNdp HandleDHCP6 p = false /\
    claims_frame demoNdp HandleRA p = false.
Proof. eexists. split; [vm_compute; reflexivity | done]. Qed.

Lemma gateway_dispatch_witness :
  exists g' sw' fx,
    txWorker demoHeader demoEncode demoNdp demoFrom4' demoTo4 demoFrom6 demoTo6 (demoEnv 0) demoGateway demo =
      Some (Ret (g', sw', fx, None)) /\
    exists p, parseIngress demoHeader (client4 7 MessageTypeDiscover (make_bytes 4)) = Ret p /\
      claims_frame demoNdp HandleDHCP4 p = true.
Proof.
  assert (Hs : switch_ok demo) by (apply reachable_switch_ok, demo_reachable).
  assert (Ht : exists g' sw' fx o, txWorker demoHeader demoEncode demoNdp demoFrom4' demoTo4 demoFrom6 demoTo6 (demoEnv 0) demoGateway demo =
    Some (Ret (g', sw', fx, o))).
  { destruct (txWorker_ok _ _ _ _ demoTo4 demoFrom6 demoTo6 demo_packages_ok (demoEnv 0) demoGateway demo _ _ _ (demoEnv_ok 0)
      (gw_reachable_ok _ _ _ _ _ _ _ _ _ _ _ _ _ demoLinkLocal_ok demo_packages_ok _ demoGateway_reach) Hs demoGateway_queue)
      as (p & g1 & fx & r & sw' & es & _ & Et & _). rewrite Et. by eexists _, _, _, _. }
  destruct Ht as (g' & sw' & fx & o & Et).
  destruct (gateway_dispatch _ _ _ _ _ _ _ _ _ _ _ _ _ demoLinkLocal_ok demo_packages_ok demoGateway demo (demoEnv 0)
    "vm7" (client4 7 MessageTypeDiscover (make_bytes 4)) [] g' sw' fx o demoGateway_reach Hs (demoEnv_ok 0) demoGateway_queue Et)
    as (p & Hp & Hm).
  destruct demo_discover_claimed as (p' & Hp' & Hc & H6 & Hr). rewrite Hp in Hp'. injection Hp' as <-.
  rewrite filter_cons_True, (filter_cons_False _ HandleDHCP6), (filter_cons_False _ HandleRA), filter_nil in Hm
    by (rewrite ?H6, ?Hr; first [exact Hc | discriminate]).
  destruct Hm as [Ho _].
  subst o. exact (ex_intro _ g' (ex_intro _ sw' (ex_intro _ fx (conj Et (ex_intro _ p (conj Hp Hc)))))).
Defined.
