(* ===== verification/Json.v ===== *)
(** Decoding of JSON documents into Go values, as encoding/json does it.

    A document is its syntax tree; a number keeps its literal.  Decoding is into
    a value that is already there, which is how [null] and repeated keys work:
    [null] leaves everything but pointers and slices alone, and a second
    occurrence of a key decodes into what the first one left.  The text of a
    type error leaves out the path of the field, and when a document has several
    errors, which of them is reported is not modelled: the callers only pass the
    text on. *)
From S2P Require Import Prelude Lease GoText.
From Stdlib Require Import Ascii.

#[local] Open Scope Z_scope.

Inductive json : Type :=
  | JNull
  | JBool (b : bool)
  | JNum (literal : string)
  | JStr (s : string)
  | JArr (elems : list json)
  | JObj (members : list (string * json)).

(** * Errors *)

Definition UnmarshalTypeError {A} (value type : string) : result A :=
  Err (Errorf "json: cannot unmarshal %s into Go value of type %s" [AStr value; AStr type]).

Definition json_kind (j : json) : string :=
  match j with
  | JNull => "null"
  | JBool _ => "bool"
  | JNum _ => "number"
  | JStr _ => "string"
  | JArr _ => "array"
  | JObj _ => "object"
  end.

(** * Values *)

Definition decoder (T : Type) : Type := json -> T -> result T.

Definition dec_string : decoder string := fun j cur =>
  match j with JStr s => Ok s | JNull => Ok cur | _ => UnmarshalTypeError (json_kind j) "string" end.

Definition dec_bool : decoder bool := fun j cur =>
  match j with JBool b => Ok b | JNull => Ok cur | _ => UnmarshalTypeError (json_kind j) "bool" end.

(** [int] has 64 bits; a literal with a fraction or an exponent is no integer. *)
Definition dec_int : decoder Z := fun j cur =>
  match j with
  | JNum lit => match Atoi lit with Some n => Ok n | None => UnmarshalTypeError ("number " +:+ lit) "int" end
  | JNull => Ok cur
  | _ => UnmarshalTypeError (json_kind j) "int"
  end.

Definition dec_uint (bits : Z) : decoder Z := fun j cur =>
  let type := "uint" +:+ Itoa bits in
  match j with
  | JNum lit => match ParseUint lit bits with Ok n => Ok n | Err _ => UnmarshalTypeError ("number " +:+ lit) type end
  | JNull => Ok cur
  | _ => UnmarshalTypeError (json_kind j) type
  end.

(** A pointer; [zero] is what a new one points to. *)
Definition dec_ptr {A} (zero : A) (d : decoder A) : decoder (option A) := fun j cur =>
  match j with
  | JNull => Ok None
  | _ => match d j (default zero cur) with Ok x => Ok (Some x) | Err e => Err e end
  end.

(** A slice: elements decode into those that are there. *)
Fixpoint dec_elems {A} (zero : A) (d : decoder A) (js : list json) (cur : list A) : result (list A) :=
  match js with
  | [] => Ok []
  | j :: js' =>
      match d j (default zero (head cur)) with
      | Err e => Err e
      | Ok x => match dec_elems zero d js' (tail cur) with Ok xs => Ok (x :: xs) | Err e => Err e end
      end
  end.

Definition dec_list {A} (zero : A) (d : decoder A) : decoder (list A) := fun j cur =>
  match j with
  | JNull => Ok []
  | JArr js => dec_elems zero d js cur
  | _ => UnmarshalTypeError (json_kind j) "slice"
  end.

(** A [json.RawMessage] takes any value, [null] included. *)
Definition dec_raw : decoder (option json) := fun j _ => Ok (Some j).

(** * Structs *)

(** Keys are compared without regard to case.  Two characters outside ASCII fold
    to a letter: the long s and the Kelvin sign. *)
Definition lower (c : Ascii.ascii) : Ascii.ascii :=
  if (65 <=? code c) && (code c <=? 90) then Ascii.ascii_of_nat (Z.to_nat (code c + 32)) else c.

Fixpoint foldName (s : string) : string :=
  match s with
  | EmptyString => EmptyString
  | String c s1 =>
      let plain := String (lower c) (foldName s1) in
      match s1 with
      | EmptyString => plain
      | String c2 s2 =>
          if (code c =? 0xc5) && (code c2 =? 0xbf) then String "s"%char (foldName s2)
          else match s2 with
          | EmptyString => plain
          | String c3 s3 =>
              if (code c =? 0xe2) && (code c2 =? 0x84) && (code c3 =? 0xaa) then String "k"%char (foldName s3) else plain
          end
      end
  end.

(** The members of an object; [null] has none. *)
Definition members (type : string) (j : json) : result (list (string * json)) :=
  match j with
  | JObj kvs => Ok kvs
  | JNull => Ok []
  | _ => UnmarshalTypeError (json_kind j) type
  end.

(** [DisallowUnknownFields] *)
Fixpoint unknownField (fields : list string) (kvs : list (string * json)) : option goerr :=
  match kvs with
  | [] => None
  | (k, _) :: kvs' =>
      if bool_decide (foldName k ∈ fields) then unknownField fields kvs'
      else Some (Errorf "json: unknown field %q" [AStr k])
  end.

(** One field: every member with its key, in order, into the current value. *)
Fixpoint field {A} (kvs : list (string * json)) (name : string) (d : decoder A) (cur : A) : result A :=
  match kvs with
  | [] => Ok cur
  | (k, j) :: kvs' =>
      if bool_decide (foldName k = name) then
        match d j cur with Ok x => field kvs' name d x | Err e => Err e end
      else field kvs' name d cur
  end.

(** Whether fields are strict is the same for a whole document. *)
Definition object (strict : bool) (type : string) (fields : list string) (j : json) : result (list (string * json)) :=
  match members type j with
  | Err e => Err e
  | Ok kvs => match (if strict then unknownField fields kvs else None) with Some e => Err e | None => Ok kvs end
  end.

(** * Facts *)

(** A field that decodes keeps what the decoder guarantees. *)
Lemma field_ind {A} (P : A -> Prop) (d : decoder A) kvs name cur x :
  (forall j c y, P c -> d j c = Ok y -> P y) -> P cur -> field kvs name d cur = Ok x -> P x.
Proof.
  intros Hd. revert cur. induction kvs as [|[k j] kvs IH]; intros cur Hc; cbn; [by intros [= <-]|].
  case_bool_decide; [|by apply IH]. destruct (d j cur) eqn:E; [|done]. apply IH. by eapply Hd.
Qed.

Lemma dec_ptr_ind {A} (P : A -> Prop) zero (d : decoder A) :
  P zero -> (forall j c y, P c -> d j c = Ok y -> P y) ->
  forall j c y, from_option P True c -> dec_ptr zero d j c = Ok y -> from_option P True y.
Proof.
  intros Hz Hd j c y Hc. unfold dec_ptr.
  assert (P (default zero c)) by by destruct c.
  destruct j; try (by intros [= <-]); (destruct (d _ _) eqn:E; [|done]); intros [= <-]; cbn; by eapply Hd.
Qed.

Lemma dec_list_ind {A} (P : A -> Prop) zero (d : decoder A) :
  P zero -> (forall j c y, P c -> d j c = Ok y -> P y) ->
  forall j c y, Forall P c -> dec_list zero d j c = Ok y -> Forall P y.
Proof.
  intros Hz Hd j c y Hc. destruct j; cbn; try done; [by intros [= <-]|].
  revert c y Hc. induction elems as [|j js IH]; intros c y Hc; cbn; [by intros [= <-]|].
  destruct (d j _) as [x|] eqn:E; [|done]. destruct (dec_elems _ _ js _) as [xs|] eqn:E2; [|done].
  intros [= <-]. constructor.
  - eapply Hd; [|exact E]. by destruct Hc.
  - eapply IH; [|exact E2]. by destruct Hc.
Qed.

Lemma Atoi_range s n : Atoi s = Some n -> minInt64 <= n <= maxInt64.
Proof.
  assert (forall b s', (n ← parse_dec s'; let v := if (b : bool) then - n else n in
    if (minInt64 <=? v) && (v <=? maxInt64) then Some v else None) = Some n -> minInt64 <= n <= maxInt64) as H.
  { intros b s'. destruct (parse_dec s'); cbn; [|done]. case_match eqn:E; [|done]. intros [= <-].
    apply andb_prop in E as []. lia. }
  unfold Atoi. destruct s as [|c s]; [apply (H false)|].
  destruct c as [[] [] [] [] [] [] [] []]; try apply (H false); apply (H true).
Qed.

Lemma digits_value_nonneg s acc n : 0 <= acc -> digits_value s acc = Some n -> 0 <= n.
Proof.
  revert acc. induction s as [|c s IH]; intros acc Hacc; cbn; [by intros [= <-]|].
  unfold digit. case_match eqn:E; [|done]. case_match eqn:E2; [|done]. simplify_eq.
  apply andb_prop in E2 as []. apply IH. lia.
Qed.

Lemma ParseUint_range s bits n : ParseUint s bits = Ok n -> 0 <= n < 2 ^ bits.
Proof.
  unfold ParseUint. destruct (parse_dec s) as [m|] eqn:E; [|done]. case_match eqn:E2; [|done]. intros [= <-].
  unfold parse_dec in E. destruct s; [done|]. apply digits_value_nonneg in E; lia.
Qed.

Lemma dec_int_range j c n : minInt64 <= c <= maxInt64 -> dec_int j c = Ok n -> minInt64 <= n <= maxInt64.
Proof. intros Hc. destruct j; cbn; try done; [by intros [= <-]|]. case_match eqn:E; [|done]. intros [= <-]. by eapply Atoi_range. Qed.

Lemma dec_uint_range bits j c n : 0 <= c < 2 ^ bits -> dec_uint bits j c = Ok n -> 0 <= n < 2 ^ bits.
Proof. intros Hc. destruct j; cbn; try done; [by intros [= <-]|]. case_match eqn:E; [|done]. intros [= <-]. by eapply ParseUint_range. Qed.
