(* ===== verification/ApiTypes.v ===== *)
(** The data of the REST interface: src/internal/api/types.go and the types of
    src/internal/api/gateway.go, with the JSON keys their fields are tagged with.

    Decoders take whether unknown keys are errors: they are in request bodies,
    and are not in the configuration file. *)
From S2P Require Import Prelude Vlan SwitchState Stp Lease GoText Json.
From Stdlib Require Import Ascii.

#[local] Open Scope Z_scope.

(** * Ports (types.go) *)

(** [identifierRe]: [^[A-Za-z0-9._-]+$] *)
Definition identifierRe : string := "^[A-Za-z0-9._-]+$".

Definition identifierChar (c : Ascii.ascii) : bool :=
  ((65 <=? code c) && (code c <=? 90)) || ((97 <=? code c) && (code c <=? 122)) ||
  ((48 <=? code c) && (code c <=? 57)) || (code c =? 46) || (code c =? 95) || (code c =? 45).

Fixpoint allChars (p : Ascii.ascii -> bool) (s : string) : bool :=
  match s with EmptyString => true | String c s' => p c && allChars p s' end.

Definition ValidateIdentifier (id : string) : option goerr :=
  if negb (is_empty id) && allChars identifierChar id then None
  else Some (Errorf "identifier must match %s" [AStr identifierRe]).

Record PortRequest := mkPortRequest {
  pq_Identifier : string;
  pq_VLAN : option Z;
  pq_Isolated : bool;
  pq_PortSecurity : option string;
  pq_Enabled : option bool;
  pq_AutoRemove : option bool;
  pq_Mode : string;
  pq_Transport : string;
  pq_Local : string;
  pq_Remote : string;
  pq_ReplacingMode : string;
  pq_AccessPlatform : bool;
  pq_TapName : string;
  pq_Bridge : string;
  pq_Interface : string;
  pq_QueueID : Z;
  pq_BPDUGuard : bool;
  pq_LoopDetect : bool;
  pq_StormPPS : Z;
  pq_STP : bool;
  pq_STPCost : Z;
  pq_STPPriority : Z
}.

Definition zeroPortRequest : PortRequest :=
  mkPortRequest EmptyString None false None None None EmptyString EmptyString EmptyString EmptyString EmptyString
    false EmptyString EmptyString EmptyString 0 false false 0 false 0 0.

Definition portRequestFields : list string :=
  ["identifier"; "vlan"; "isolated"; "port_security"; "enabled"; "auto_remove"; "mode"; "transport"; "local"; "remote";
   "replacing_mode"; "access_platform"; "tap_name"; "bridge"; "interface"; "queue_id"; "bpdu_guard"; "loop_detect";
   "storm_pps"; "stp"; "stp_cost"; "stp_priority"].

Definition decPortRequest (strict : bool) : decoder PortRequest := fun j c =>
  kvs <-? object strict "api.PortRequest" portRequestFields j;
  f1 <-? field kvs "identifier" dec_string (pq_Identifier c);
  f2 <-? field kvs "vlan" (dec_ptr 0 dec_int) (pq_VLAN c);
  f3 <-? field kvs "isolated" dec_bool (pq_Isolated c);
  f4 <-? field kvs "port_security" (dec_ptr EmptyString dec_string) (pq_PortSecurity c);
  f5 <-? field kvs "enabled" (dec_ptr false dec_bool) (pq_Enabled c);
  f6 <-? field kvs "auto_remove" (dec_ptr false dec_bool) (pq_AutoRemove c);
  f7 <-? field kvs "mode" dec_string (pq_Mode c);
  f8 <-? field kvs "transport" dec_string (pq_Transport c);
  f9 <-? field kvs "local" dec_string (pq_Local c);
  f10 <-? field kvs "remote" dec_string (pq_Remote c);
  f11 <-? field kvs "replacing_mode" dec_string (pq_ReplacingMode c);
  f12 <-? field kvs "access_platform" dec_bool (pq_AccessPlatform c);
  f13 <-? field kvs "tap_name" dec_string (pq_TapName c);
  f14 <-? field kvs "bridge" dec_string (pq_Bridge c);
  f15 <-? field kvs "interface" dec_string (pq_Interface c);
  f16 <-? field kvs "queue_id" dec_int (pq_QueueID c);
  f17 <-? field kvs "bpdu_guard" dec_bool (pq_BPDUGuard c);
  f18 <-? field kvs "loop_detect" dec_bool (pq_LoopDetect c);
  f19 <-? field kvs "storm_pps" (dec_uint 32) (pq_StormPPS c);
  f20 <-? field kvs "stp" dec_bool (pq_STP c);
  f21 <-? field kvs "stp_cost" (dec_uint 32) (pq_STPCost c);
  f22 <-? field kvs "stp_priority" (dec_uint 8) (pq_STPPriority c);
  Ok (mkPortRequest f1 f2 f3 f4 f5 f6 f7 f8 f9 f10 f11 f12 f13 f14 f15 f16 f17 f18 f19 f20 f21 f22).

Definition Attrs (r : PortRequest) : result PortAttrs :=
  let attrs (mac : option bytes) : PortAttrs :=
    mkPortAttrs mac (pq_Isolated r)
      (match pq_VLAN r with Some v => v | None => VLANTrunk end)
      (match pq_Enabled r with Some e => negb e | None => false end)
      (pq_BPDUGuard r) (pq_LoopDetect r) (pq_StormPPS r) (pq_STP r) (pq_STPCost r) (pq_STPPriority r) in
  match pq_PortSecurity r with
  | None => Ok (attrs None)
  | Some s =>
      match ParseMAC s with
      | Err e => Err (Errorf "bad port_security MAC: %w" [AErr e])
      | Ok mac => Ok (attrs (Some mac))
      end
  end.

Record PortPatch := mkPortPatch {
  pp_VLAN : option Z;
  pp_Isolated : option bool;
  pp_PortSecurity : option json;
  pp_Enabled : option bool;
  pp_BPDUGuard : option bool;
  pp_LoopDetect : option bool;
  pp_StormPPS : option Z;
  pp_STP : option bool;
  pp_STPCost : option Z;
  pp_STPPriority : option Z
}.

Definition zeroPortPatch : PortPatch := mkPortPatch None None None None None None None None None None.

Definition portPatchFields : list string :=
  ["vlan"; "isolated"; "port_security"; "enabled"; "bpdu_guard"; "loop_detect"; "storm_pps"; "stp"; "stp_cost"; "stp_priority"].

Definition decPortPatch (strict : bool) : decoder PortPatch := fun j c =>
  kvs <-? object strict "api.PortPatch" portPatchFields j;
  f1 <-? field kvs "vlan" (dec_ptr 0 dec_int) (pp_VLAN c);
  f2 <-? field kvs "isolated" (dec_ptr false dec_bool) (pp_Isolated c);
  f3 <-? field kvs "port_security" dec_raw (pp_PortSecurity c);
  f4 <-? field kvs "enabled" (dec_ptr false dec_bool) (pp_Enabled c);
  f5 <-? field kvs "bpdu_guard" (dec_ptr false dec_bool) (pp_BPDUGuard c);
  f6 <-? field kvs "loop_detect" (dec_ptr false dec_bool) (pp_LoopDetect c);
  f7 <-? field kvs "storm_pps" (dec_ptr 0 (dec_uint 32)) (pp_StormPPS c);
  f8 <-? field kvs "stp" (dec_ptr false dec_bool) (pp_STP c);
  f9 <-? field kvs "stp_cost" (dec_ptr 0 (dec_uint 32)) (pp_STPCost c);
  f10 <-? field kvs "stp_priority" (dec_ptr 0 (dec_uint 8)) (pp_STPPriority c);
  Ok (mkPortPatch f1 f2 f3 f4 f5 f6 f7 f8 f9 f10).

(** [port_security]: absent, null, or a string. *)
Definition patchMAC (p : PortPatch) (cur : option bytes) : result (option bytes) :=
  match pp_PortSecurity p with
  | None => Ok cur
  | Some raw =>
      match dec_ptr EmptyString dec_string raw None with
      | Err e => Err (Errorf "bad port_security: %w" [AErr e])
      | Ok None => Ok None
      | Ok (Some s) =>
          match ParseMAC s with
          | Err e => Err (Errorf "bad port_security MAC: %w" [AErr e])
          | Ok mac => Ok (Some mac)
          end
      end
  end.

Definition Apply (p : PortPatch) (a : PortAttrs) : result PortAttrs :=
  mac <-? patchMAC p (SecurityMAC a);
  Ok (mkPortAttrs mac (default (Isolated a) (pp_Isolated p)) (default (VLAN a) (pp_VLAN p))
        (match pp_Enabled p with Some e => negb e | None => Disabled a end)
        (default (BPDUGuard a) (pp_BPDUGuard p)) (default (LoopDetect a) (pp_LoopDetect p))
        (default (StormPPS a) (pp_StormPPS p)) (default (STP a) (pp_STP p))
        (default (STPCost a) (pp_STPCost p)) (default (STPPriority a) (pp_STPPriority p))).

Record PortInfo := mkPortInfo {
  pi_Identifier : string;
  pi_VLAN : Z;
  pi_Isolated : bool;
  pi_PortSecurity : option string;
  pi_Enabled : bool;
  pi_AutoRemove : bool;
  pi_Mode : string;
  pi_Transport : string;
  pi_Local : string;
  pi_Remote : string;
  pi_ReplacingMode : string;
  pi_TapName : string;
  pi_Bridge : string;
  pi_Interface : string;
  pi_QueueID : Z;
  pi_BPDUGuard : bool;
  pi_LoopDetect : bool;
  pi_StormPPS : Z;
  pi_STP : bool;
  pi_STPCost : Z;
  pi_STPPriority : Z;
  pi_STPState : string;
  pi_STPRole : string;
  pi_BlockedReason : string;
  pi_Online : bool;
  pi_Peer : string;
  pi_Connections : list string;
  pi_Stats : portCounters
}.

(** ** The forwarding database *)

Record FDBRow := mkFDBRow {
  ar_VLAN : Z;
  ar_MAC : string;
  ar_Port : string;
  ar_AgeSeconds : Z;
  ar_Static : bool
}.

Record StaticFDBRequest := mkStaticFDB { sf_VLAN : Z; sf_MAC : string; sf_Port : string }.

Definition zeroStaticFDBRequest : StaticFDBRequest := mkStaticFDB 0 EmptyString EmptyString.

Definition decStaticFDBRequest (strict : bool) : decoder StaticFDBRequest := fun j c =>
  kvs <-? object strict "api.StaticFDBRequest" ["vlan"; "mac"; "port"] j;
  f1 <-? field kvs "vlan" dec_int (sf_VLAN c);
  f2 <-? field kvs "mac" dec_string (sf_MAC c);
  f3 <-? field kvs "port" dec_string (sf_Port c);
  Ok (mkStaticFDB f1 f2 f3).

Record FDBFlushRequest := mkFlush { fl_Port : string; fl_VLAN : option Z }.

Definition zeroFDBFlushRequest : FDBFlushRequest := mkFlush EmptyString None.

Definition decFDBFlushRequest (strict : bool) : decoder FDBFlushRequest := fun j c =>
  kvs <-? object strict "api.FDBFlushRequest" ["port"; "vlan"] j;
  f1 <-? field kvs "port" dec_string (fl_Port c);
  f2 <-? field kvs "vlan" (dec_ptr 0 dec_int) (fl_VLAN c);
  Ok (mkFlush f1 f2).

Record FDBConfig := mkFDBConfig { fc_AgingSeconds : Z }.

Definition zeroFDBConfig : FDBConfig := mkFDBConfig 0.

Definition decFDBConfig (strict : bool) : decoder FDBConfig := fun j c =>
  kvs <-? object strict "api.FDBConfig" ["aging_seconds"] j;
  f1 <-? field kvs "aging_seconds" dec_int (fc_AgingSeconds c);
  Ok (mkFDBConfig f1).

(** * Gateways (gateway.go) *)

Record GatewayV4 := mkGatewayV4 { g4_Address : string; g4_PrefixLen : Z }.

Definition zeroGatewayV4 : GatewayV4 := mkGatewayV4 EmptyString 0.

Definition decGatewayV4 (strict : bool) : decoder GatewayV4 := fun j c =>
  kvs <-? object strict "api.GatewayV4" ["address"; "prefix_len"] j;
  f1 <-? field kvs "address" dec_string (g4_Address c);
  f2 <-? field kvs "prefix_len" dec_int (g4_PrefixLen c);
  Ok (mkGatewayV4 f1 f2).

Record GatewayV6 := mkGatewayV6 { g6_Address : string; g6_PrefixLen : Z; g6_LinkLocal : string }.

Definition zeroGatewayV6 : GatewayV6 := mkGatewayV6 EmptyString 0 EmptyString.

Definition decGatewayV6 (strict : bool) : decoder GatewayV6 := fun j c =>
  kvs <-? object strict "api.GatewayV6" ["address"; "prefix_len"; "link_local"] j;
  f1 <-? field kvs "address" dec_string (g6_Address c);
  f2 <-? field kvs "prefix_len" dec_int (g6_PrefixLen c);
  f3 <-? field kvs "link_local" dec_string (g6_LinkLocal c);
  Ok (mkGatewayV6 f1 f2 f3).

Record GatewayRequest := mkGatewayRequest {
  gq_VLAN : Z;
  gq_MAC : string;
  gq_Isolated : bool;
  gq_MTU : Z;
  gq_IPv4 : option GatewayV4;
  gq_IPv6 : option GatewayV6;
  gq_EnableInternetRouting : bool;
  gq_EnableHostRouting : bool;
  gq_Allow : list string;
  gq_Deny : list string;
  gq_DNSProxy : bool
}.

Definition zeroGatewayRequest : GatewayRequest :=
  mkGatewayRequest 0 EmptyString false 0 None None false false [] [] false.

Definition gatewayRequestFields : list string :=
  ["vlan"; "mac"; "isolated"; "mtu"; "ipv4"; "ipv6"; "enable_internet_routing"; "enable_host_routing"; "allow"; "deny"; "dns_proxy"].

(** The fields on their own: the configuration file embeds them. *)
Definition decGatewayRequestFields (strict : bool) (kvs : list (string * json)) (c : GatewayRequest) : result GatewayRequest :=
  f1 <-? field kvs "vlan" dec_int (gq_VLAN c);
  f2 <-? field kvs "mac" dec_string (gq_MAC c);
  f3 <-? field kvs "isolated" dec_bool (gq_Isolated c);
  f4 <-? field kvs "mtu" dec_int (gq_MTU c);
  f5 <-? field kvs "ipv4" (dec_ptr zeroGatewayV4 (decGatewayV4 strict)) (gq_IPv4 c);
  f6 <-? field kvs "ipv6" (dec_ptr zeroGatewayV6 (decGatewayV6 strict)) (gq_IPv6 c);
  f7 <-? field kvs "enable_internet_routing" dec_bool (gq_EnableInternetRouting c);
  f8 <-? field kvs "enable_host_routing" dec_bool (gq_EnableHostRouting c);
  f9 <-? field kvs "allow" (dec_list EmptyString dec_string) (gq_Allow c);
  f10 <-? field kvs "deny" (dec_list EmptyString dec_string) (gq_Deny c);
  f11 <-? field kvs "dns_proxy" dec_bool (gq_DNSProxy c);
  Ok (mkGatewayRequest f1 f2 f3 f4 f5 f6 f7 f8 f9 f10 f11).

Definition decGatewayRequest (strict : bool) : decoder GatewayRequest := fun j c =>
  kvs <-? object strict "api.GatewayRequest" gatewayRequestFields j;
  decGatewayRequestFields strict kvs c.

Record GatewayInfo := mkGatewayInfo {
  gi_Request : GatewayRequest;
  gi_MACEffective : string;
  gi_LinkLocalEffective : string;
  gi_Stats : portCounters
}.

(** ** Port forwards *)

Record ForwardRequest := mkForwardRequest { fq_Type : string; fq_Network : string; fq_Bind : string; fq_Host : string }.

Definition zeroForwardRequest : ForwardRequest := mkForwardRequest EmptyString EmptyString EmptyString EmptyString.

Definition decForwardRequest (strict : bool) : decoder ForwardRequest := fun j c =>
  kvs <-? object strict "api.ForwardRequest" ["type"; "network"; "bind"; "host"] j;
  f1 <-? field kvs "type" dec_string (fq_Type c);
  f2 <-? field kvs "network" dec_string (fq_Network c);
  f3 <-? field kvs "bind" dec_string (fq_Bind c);
  f4 <-? field kvs "host" dec_string (fq_Host c);
  Ok (mkForwardRequest f1 f2 f3 f4).

Record ForwardInfo := mkForwardInfo { fi_ID : string; fi_Request : ForwardRequest }.

(** ** DHCP *)

Record DHCP4Config := mkDHCPConfig {
  dq_Enabled : bool;
  dq_PoolStart : string;
  dq_PoolEnd : string;
  dq_LeaseSeconds : Z;
  dq_DNS : list string
}.

(** The same fields. *)
Definition DHCP6Config : Type := DHCP4Config.

Definition zeroDHCPConfig : DHCP4Config := mkDHCPConfig false EmptyString EmptyString 0 [].

Definition decDHCPConfig (strict : bool) : decoder DHCP4Config := fun j c =>
  kvs <-? object strict "api.DHCP4Config" ["enabled"; "pool_start"; "pool_end"; "lease_seconds"; "dns"] j;
  f1 <-? field kvs "enabled" dec_bool (dq_Enabled c);
  f2 <-? field kvs "pool_start" dec_string (dq_PoolStart c);
  f3 <-? field kvs "pool_end" dec_string (dq_PoolEnd c);
  f4 <-? field kvs "lease_seconds" dec_int (dq_LeaseSeconds c);
  f5 <-? field kvs "dns" (dec_list EmptyString dec_string) (dq_DNS c);
  Ok (mkDHCPConfig f1 f2 f3 f4 f5).

Record DHCPStaticBinding := mkDHCPStatic {
  ds_ID : string;
  ds_Order : Z;
  ds_PortIdentifier : option string;
  ds_MAC : option string;
  ds_ClientID : option string;
  ds_IP : string
}.

Definition zeroDHCPStaticBinding : DHCPStaticBinding := mkDHCPStatic EmptyString 0 None None None EmptyString.

Definition decDHCPStaticBinding (strict : bool) : decoder DHCPStaticBinding := fun j c =>
  kvs <-? object strict "api.DHCPStaticBinding" ["id"; "order"; "port_identifier"; "mac"; "client_id"; "ip"] j;
  f1 <-? field kvs "id" dec_string (ds_ID c);
  f2 <-? field kvs "order" dec_int (ds_Order c);
  f3 <-? field kvs "port_identifier" (dec_ptr EmptyString dec_string) (ds_PortIdentifier c);
  f4 <-? field kvs "mac" (dec_ptr EmptyString dec_string) (ds_MAC c);
  f5 <-? field kvs "client_id" (dec_ptr EmptyString dec_string) (ds_ClientID c);
  f6 <-? field kvs "ip" dec_string (ds_IP c);
  Ok (mkDHCPStatic f1 f2 f3 f4 f5 f6).

(** [ExpiresAt] is the time the text of RFC 3339 shows: whole seconds, in UTC. *)
Record LeaseInfo := mkLeaseInfo {
  li_IP : string;
  li_MAC : string;
  li_ClientID : string;
  li_PortIdentifier : string;
  li_ExpiresAt : Z;
  li_Static : bool
}.

(** ** Router advertisements *)

Record RAPrefix := mkRAPrefix {
  rq_Prefix : string;
  rq_ValidLifetime : Z;
  rq_PreferredLifetime : Z;
  rq_OnLink : bool;
  rq_Autonomous : bool
}.

Definition zeroRAPrefix : RAPrefix := mkRAPrefix EmptyString 0 0 false false.

Definition decRAPrefix (strict : bool) : decoder RAPrefix := fun j c =>
  kvs <-? object strict "api.RAPrefix" ["prefix"; "valid_lifetime"; "preferred_lifetime"; "on_link"; "autonomous"] j;
  f1 <-? field kvs "prefix" dec_string (rq_Prefix c);
  f2 <-? field kvs "valid_lifetime" dec_int (rq_ValidLifetime c);
  f3 <-? field kvs "preferred_lifetime" dec_int (rq_PreferredLifetime c);
  f4 <-? field kvs "on_link" dec_bool (rq_OnLink c);
  f5 <-? field kvs "autonomous" dec_bool (rq_Autonomous c);
  Ok (mkRAPrefix f1 f2 f3 f4 f5).

Record SLAACConfig := mkSLAACConfig {
  sq_Enabled : bool;
  sq_IntervalSeconds : Z;
  sq_Managed : bool;
  sq_Other : bool;
  sq_RouterLifetimeSeconds : Z;
  sq_Prefixes : list RAPrefix
}.

Definition zeroSLAACConfig : SLAACConfig := mkSLAACConfig false 0 false false 0 [].

Definition decSLAACConfig (strict : bool) : decoder SLAACConfig := fun j c =>
  kvs <-? object strict "api.SLAACConfig" ["enabled"; "interval_seconds"; "managed"; "other"; "router_lifetime_seconds"; "prefixes"] j;
  f1 <-? field kvs "enabled" dec_bool (sq_Enabled c);
  f2 <-? field kvs "interval_seconds" dec_int (sq_IntervalSeconds c);
  f3 <-? field kvs "managed" dec_bool (sq_Managed c);
  f4 <-? field kvs "other" dec_bool (sq_Other c);
  f5 <-? field kvs "router_lifetime_seconds" dec_int (sq_RouterLifetimeSeconds c);
  f6 <-? field kvs "prefixes" (dec_list zeroRAPrefix (decRAPrefix strict)) (sq_Prefixes c);
  Ok (mkSLAACConfig f1 f2 f3 f4 f5 f6).

(** ** Spanning tree *)

Record STPRequest := mkSTPRequest {
  tq_Enabled : bool;
  tq_Priority : Z;
  tq_HelloSeconds : Z;
  tq_MaxAgeSeconds : Z;
  tq_ForwardDelaySeconds : Z
}.

Definition zeroSTPRequest : STPRequest := mkSTPRequest false 0 0 0 0.

Definition decSTPRequest (strict : bool) : decoder STPRequest := fun j c =>
  kvs <-? object strict "api.STPRequest" ["enabled"; "priority"; "hello_seconds"; "max_age_seconds"; "forward_delay_seconds"] j;
  f1 <-? field kvs "enabled" dec_bool (tq_Enabled c);
  f2 <-? field kvs "priority" (dec_uint 16) (tq_Priority c);
  f3 <-? field kvs "hello_seconds" dec_int (tq_HelloSeconds c);
  f4 <-? field kvs "max_age_seconds" dec_int (tq_MaxAgeSeconds c);
  f5 <-? field kvs "forward_delay_seconds" dec_int (tq_ForwardDelaySeconds c);
  Ok (mkSTPRequest f1 f2 f3 f4 f5).

Record STPResponse := mkSTPResponse { sr_STPStatus : STPStatusT; sr_Ports : gmap string STPPortStatus }.
