(* ===== verification/Manager.v ===== *)
(** The manager: src/internal/manager/manager.go, gateways.go, fdb.go and
    config.go.

    The manager owns the switch, the transports and the gateways.  Transports
    and gateways are objects: the records of the manager, the registry of the
    switch and running goroutines share them, so they live in stores and are
    named by numbers.  [mg_of] says which object a port of the switch is.

    Creating a port or a gateway is three steps, separated where the code leaves
    the manager's lock: build the transport, register it with the switch, record
    it.  Deleting one is two steps, and changing a port is several: look the
    record up, read the policy, give it to the switch and to the server's
    connections, rewrite the record.  The methods compose these parts without
    anything in between; [System] interleaves them.  Every other method is one
    step.  A goroutine the code starts is an entry
    of [mg_exits] (the exit callback of a transport's pump) or [mg_deletes] (the
    removal of a port that went offline) until it runs. *)
From S2P Require Import Prelude Vlan Fdb Protect SwitchState Stp Switch Lease GoText Forwards Framing Ports Server Dhcp Gateway Json ApiTypes.
From stdpp Require Import sorting.
From Stdlib Require Import Floats.SpecFloat.

#[local] Open Scope Z_scope.

(** * State *)

(** [ports.ManagedPort] *)
Inductive managedPort : Type :=
  | MPump (p : pumpPort)
  | MXdp (p : afxdpPort)
  | MVhost (p : vhostPort)
  | MStream (s : streamServer)
  | MDgram (s : dgramServer).

(** What is behind a port of the switch: a transport, a connection of a
    multiplex server, or a gateway. *)
Inductive portObj : Type :=
  | OPort (o : nat)
  | OSub (o k : nat)
  | OGateway (o : nat).

Record portRecord := mkPortRecord { pr_req : PortRequest; pr_port : nat }.
Record gatewayRecord := mkGatewayRecord { gr_req : GatewayRequest; gr_gw : nat }.

Record Manager := mkManager {
  mg_sw : Switch;
  mg_ports : gmap string portRecord;
  mg_gateways : gmap Z gatewayRecord;
  mg_transports : gmap nat managedPort;
  mg_gws : gmap nat Gateway;
  mg_next : nat;
  mg_of : gmap loc portObj;
  mg_exits : list nat;
  mg_deletes : list string
}.

Definition set_sw (sw : Switch) (m : Manager) : Manager :=
  mkManager sw (mg_ports m) (mg_gateways m) (mg_transports m) (mg_gws m) (mg_next m) (mg_of m) (mg_exits m) (mg_deletes m).
Definition set_ports (ps : gmap string portRecord) (m : Manager) : Manager :=
  mkManager (mg_sw m) ps (mg_gateways m) (mg_transports m) (mg_gws m) (mg_next m) (mg_of m) (mg_exits m) (mg_deletes m).
Definition set_gateways (gs : gmap Z gatewayRecord) (m : Manager) : Manager :=
  mkManager (mg_sw m) (mg_ports m) gs (mg_transports m) (mg_gws m) (mg_next m) (mg_of m) (mg_exits m) (mg_deletes m).
Definition set_transport (o : nat) (p : managedPort) (m : Manager) : Manager :=
  mkManager (mg_sw m) (mg_ports m) (mg_gateways m) (<[o := p]> (mg_transports m)) (mg_gws m) (mg_next m) (mg_of m)
    (mg_exits m) (mg_deletes m).
Definition set_gw (o : nat) (g : Gateway) (m : Manager) : Manager :=
  mkManager (mg_sw m) (mg_ports m) (mg_gateways m) (mg_transports m) (<[o := g]> (mg_gws m)) (mg_next m) (mg_of m)
    (mg_exits m) (mg_deletes m).
Definition set_exits (ex : list nat) (m : Manager) : Manager :=
  mkManager (mg_sw m) (mg_ports m) (mg_gateways m) (mg_transports m) (mg_gws m) (mg_next m) (mg_of m) ex (mg_deletes m).
Definition set_deletes (ds : list string) (m : Manager) : Manager :=
  mkManager (mg_sw m) (mg_ports m) (mg_gateways m) (mg_transports m) (mg_gws m) (mg_next m) (mg_of m) (mg_exits m) ds.

(** A new object. *)
Definition alloc_transport (p : managedPort) (m : Manager) : Manager :=
  mkManager (mg_sw m) (mg_ports m) (mg_gateways m) (<[mg_next m := p]> (mg_transports m)) (mg_gws m) (S (mg_next m))
    (mg_of m) (mg_exits m) (mg_deletes m).
Definition alloc_gw (g : Gateway) (m : Manager) : Manager :=
  mkManager (mg_sw m) (mg_ports m) (mg_gateways m) (mg_transports m) (<[mg_next m := g]> (mg_gws m)) (S (mg_next m))
    (mg_of m) (mg_exits m) (mg_deletes m).

(** What happens outside: requests to the kernel, to the vhost-user devices and
    to slirpnetstack. *)
Inductive mfx : Type :=
  | MKernel (x : rfx)
  | MDevice (x : vfx)
  | MForward (x : ffx).

Definition kernel (fx : list mfx) : list rfx :=
  omap (fun x => match x with MKernel x => Some x | _ => None end) fx.

(** The iteration orders of the maps the manager ranges over. *)
Record MgrOrders := mkMgrOrders {
  mo_ports : gmap string portRecord -> list (string * portRecord);
  mo_gateways : gmap Z gatewayRecord -> list (Z * gatewayRecord);
  mo_subs : gmap string nat -> list (string * nat);
  mo_fdb : gmap fdbKey fdbEntry -> list (fdbKey * fdbEntry);
  mo_fwd : FwdOrders;
  mo_dhcp : Orders;
  mo_sw : Ranges
}.

(** What the kernel, the resolver, netlink and slirpnetstack answer. *)
Record World := mkWorld {
  w_net : Net;
  w_netlink : Netlink;
  w_xdp : XdpEnv;
  w_IPPortRange_Set : string -> option goerr;
  w_ResolveLinkLocalV6 : string -> bytes -> result bytes;
  w_CreateNIC : option goerr;
  w_FwdAddr : Type;
  w_NewFwdAddr : string -> string -> string -> string -> string -> result w_FwdAddr;
  w_DynLocalForwardTCP : nat -> w_FwdAddr -> option goerr;
  w_DynLocalForwardUDP : nat -> w_FwdAddr -> option goerr;
  w_fwdTable_Add : nat -> w_FwdAddr -> result string
}.

Section manager.
Context (w : World) (od : MgrOrders).

(** * Transports behind one interface *)

Definition portID (p : managedPort) : string :=
  match p with
  | MPump p => pp_id p
  | MXdp p => xp_id p
  | MVhost p => vp_id p
  | MStream s => ss_id s
  | MDgram s => ds_id s
  end.

Definition portStatusOf (p : managedPort) : StatusT :=
  match p with
  | MPump p => pp_Status p
  | MXdp p => xp_Status p
  | MVhost p => vp_Status p
  | MStream s => ss_Status (mo_subs od) s
  | MDgram s => ds_Status s
  end.

(** [Close] of a vhost-user port and of a stream server also close their
    listener, and the former the connection of its session. *)
Definition vp_released (p : vhostPort) : list rfx :=
  if vp_closed p then []
  else (if vp_listening p then [Release RSocket] else []) ++
       (if bool_decide (is_Some (vp_dev p)) then [Release RSocket] else []).

(** The port closed, what it released, and whether the exit callback of its pump
    was started; those of a server are in the server's own list. *)
Definition portClose (p : managedPort) : managedPort * list mfx * bool :=
  match p with
  | MPump p => let '(p, fx, exit) := pp_Close p in (MPump p, MKernel <$> fx, exit)
  | MXdp p => let '(p, fx) := xp_Close p in (MXdp p, MKernel <$> fx, false)
  | MVhost p => let '(p', fx) := vp_Close p in (MVhost p', (MKernel <$> vp_released p) ++ (MDevice <$> fx), false)
  | MStream s => (MStream (ss_Close (mo_subs od) s), if ss_closed s then [] else [MKernel (Release RSocket)], false)
  | MDgram s => let '(s, fx) := ds_Close s in (MDgram s, MKernel <$> fx, false)
  end.

(** * Effects of the switch *)

(** [Close] called on an object. *)
Definition closeTransport (o : nat) (m : Manager) : Manager * list mfx :=
  match mg_transports m !! o with
  | None => (m, [])
  | Some p =>
      let '(p, fx, exit) := portClose p in
      (set_exits (mg_exits m ++ if (exit : bool) then [o] else []) (set_transport o p m), fx)
  end.

Definition closeSub (o k : nat) (m : Manager) : Manager :=
  match mg_transports m !! o with
  | Some (MStream s) => set_transport o (MStream (stopPump k s)) m
  | _ => m
  end.

Definition closeGateway (o : nat) (m : Manager) : Manager * list mfx :=
  match mg_gws m !! o with
  | None => (m, [])
  | Some g => let '(g, fx) := g_Close (mo_fwd od) g in (set_gw o g m, MForward <$> fx)
  end.

Definition closeObj (l : loc) (m : Manager) : Manager * list mfx :=
  match mg_of m !! l with
  | Some (OPort o) => closeTransport o m
  | Some (OSub o k) => (closeSub o k m, [])
  | Some (OGateway o) => closeGateway o m
  | None => (m, [])
  end.

(** The callback [New] registers: every gateway releases the leases of the port,
    and a port that opted in and is offline is removed by a new goroutine. *)
Definition gatewaysDown (id : string) (m : Manager) : Manager :=
  foldl (fun m kv =>
    match mg_gws m !! gr_gw kv.2 with
    | Some g => set_gw (gr_gw kv.2) (g_PortDown id g) m
    | None => m
    end) m (mo_gateways od (mg_gateways m)).

Definition autoRemove (r : PortRequest) : bool := match pq_AutoRemove r with None => true | Some b => b end.

Definition downHook (id : string) (m : Manager) : Manager :=
  let spawn :=
    match mg_ports m !! id with
    | None => false
    | Some rec =>
        autoRemove (pr_req rec) &&
        match mg_transports m !! pr_port rec with Some p => negb (st_Online (portStatusOf p)) | None => false end
    end in
  let m := gatewaysDown id m in
  if spawn then set_deletes (mg_deletes m ++ [id]) m else m.

(** A frame handed to a port, and the resynchronisation of the spanning tree in a
    goroutine of its own, are steps of their own. *)
Definition runEffect (e : effect) (m : Manager) : Manager * list mfx :=
  match e with
  | EClose l => closeObj l m
  | EPortDown _ id => (downHook id m, [])
  | ESend _ _ _ | ESpawnPortChanged => (m, [])
  end.

Fixpoint runEffects (es : list effect) (m : Manager) : Manager * list mfx :=
  match es with
  | [] => (m, [])
  | e :: es' =>
      let '(m, fx) := runEffect e m in
      let '(m, fx') := runEffects es' m in
      (m, fx ++ fx')
  end.

(** * manager.go *)

Definition m_New (random : bytes) : Manager :=
  mkManager (OnPortDown 0 (New random)) ∅ ∅ ∅ ∅ 0 ∅ [] [].

Definition m_Close (m : Manager) : Manager * list mfx :=
  let '(sw, es) := Switch.Close (mo_sw od) (mg_sw m) in
  runEffects es (set_sw sw m).

Definition nilObject {A} : result A := Err (Errorf "nil pointer" []).

Definition portNotFound (id : string) : goerr := Errorf "port %q not found" [AStr id].

Definition portInfoLocked (id : string) (m : Manager) : result PortInfo :=
  match mg_ports m !! id with
  | None => Err (portNotFound id)
  | Some rec =>
      match mg_transports m !! pr_port rec with
      | None => nilObject
      | Some p =>
          let st := portStatusOf p in
          let req := pr_req rec in
          let attrs := PortAttrs_of id (mg_sw m) in
          let on {A} (f : PortAttrs -> A) (dflt : A) : A := from_option f dflt attrs in
          let '(stp, participates) := STPPortStatusOf (mg_sw m) id in
          Ok (mkPortInfo (pq_Identifier req) (on VLAN VLANTrunk) (pq_Isolated req) (pq_PortSecurity req)
                (on (fun a => negb (Disabled a)) true) (autoRemove req)
                (pq_Mode req) (pq_Transport req) (pq_Local req) (pq_Remote req) (pq_ReplacingMode req)
                (pq_TapName req) (pq_Bridge req) (pq_Interface req) (pq_QueueID req)
                (on BPDUGuard false) (on LoopDetect false) (on StormPPS 0) (on STP false) (on STPCost 0) (on STPPriority 0)
                (if (participates : bool) then ps_State stp else EmptyString)
                (if participates then ps_Role stp else EmptyString)
                (BlockReason id (mg_sw m)) (st_Online st) (st_Peer st) (st_Connections st)
                (default zeroCounters (PortStats_of id (mg_sw m))))
      end
  end.

(** ** Creating a port *)

Definition as_port {A} (f : A -> managedPort) (x : result A * list rfx) : result managedPort * list rfx :=
  (match x.1 with Ok a => Ok (f a) | Err e => Err e end, x.2).

Definition serverManaged (s : serverPort) : managedPort :=
  match s with SStream s => MStream s | SDgram s => MDgram s end.

(** The transport a request asks for. *)
Definition buildPort (req : PortRequest) (attrs : PortAttrs) : result managedPort * list rfx :=
  let id := pq_Identifier req in
  if bool_decide (pq_Transport req = "vhost-user") then
    let path := if bool_decide (pq_Mode req = "client") then pq_Remote req else pq_Local req in
    as_port MVhost (NewVhostUser (w_net w) id (pq_Mode req) path (pq_ReplacingMode req))
  else if bool_decide (pq_Mode req = "client") then
    if bool_decide (pq_Transport req = "tap") || bool_decide (pq_Transport req = "tapbr") then
      as_port MPump (NewTap (w_netlink w) id (pq_TapName req) (pq_Bridge req) (bool_decide (pq_Transport req = "tapbr")))
    else if bool_decide (pq_Transport req = "af_xdp") then
      as_port MXdp (NewAFXDP (w_xdp w) id (pq_Interface req) (pq_QueueID req))
    else as_port MPump (NewClient (w_net w) id (pq_Transport req) (pq_Local req) (pq_Remote req))
  else if bool_decide (pq_Mode req = "server") then
    as_port serverManaged (NewServer (w_net w) id (pq_Transport req) (pq_Local req) (pq_ReplacingMode req) attrs)
  else (Err (badMode (pq_Mode req)), []).

(** Up to the transport: the object's number and the attributes. *)
Definition createPort1 (req : PortRequest) (m : Manager) : Manager * result (nat * PortAttrs) * list mfx :=
  match ValidateIdentifier (pq_Identifier req) with
  | Some e => (m, Err e, [])
  | None =>
      match Attrs req with
      | Err e => (m, Err e, [])
      | Ok attrs =>
          match mg_ports m !! pq_Identifier req with
          | Some _ => (m, Err (Errorf "port %q already exists" [AStr (pq_Identifier req)]), [])
          | None =>
              match buildPort req attrs with
              | (Err e, fx) => (m, Err e, MKernel <$> fx)
              | (Ok p, fx) => (alloc_transport p m, Ok (mg_next m, attrs), MKernel <$> fx)
              end
          end
      end
  end.

(** Put an object behind the port that [AddPort] just made. *)
Definition registered (sw : Switch) (x : portObj) (m : Manager) : Manager :=
  mkManager sw (mg_ports m) (mg_gateways m) (mg_transports m) (mg_gws m) (mg_next m)
    (<[nextLoc (mg_sw m) := x]> (mg_of m)) (mg_exits m) (mg_deletes m).

(** Register the transport, or close it. *)
Definition createPort2 (id : string) (o : nat) (attrs : PortAttrs) (m : Manager) : Manager * option goerr * list mfx :=
  match AddPort id attrs (mg_sw m) with
  | (sw, Some e, _) => let '(m, fx) := closeTransport o (set_sw sw m) in (m, Some e, fx)
  | (sw, None, es) => let '(m, fx) := runEffects es (registered sw (OPort o) m) in (m, None, fx)
  end.

(** Record it. *)
Definition createPort3 (req : PortRequest) (o : nat) (m : Manager) : Manager * result PortInfo :=
  let m := set_ports (<[pq_Identifier req := mkPortRecord req o]> (mg_ports m)) m in
  (m, portInfoLocked (pq_Identifier req) m).

Definition CreatePort (req : PortRequest) (m : Manager) : Manager * result PortInfo * list mfx :=
  match createPort1 req m with
  | (m, Err e, fx) => (m, Err e, fx)
  | (m, Ok (o, attrs), fx) =>
      match createPort2 (pq_Identifier req) o attrs m with
      | (m, Some e, fx') => (m, Err e, fx ++ fx')
      | (m, None, fx') => let '(m, r) := createPort3 req o m in (m, r, fx ++ fx')
      end
  end.

Definition GetPort (id : string) (m : Manager) : result PortInfo := portInfoLocked id m.

Definition ListPorts (m : Manager) : list PortInfo :=
  omap (fun kv => match portInfoLocked kv.1 m with Ok i => Some i | Err _ => None end) (mo_ports od (mg_ports m)).

(** ** Changing and deleting a port *)

(** The stored request shows the new policy. *)
Definition reflect (attrs : PortAttrs) (r : PortRequest) : PortRequest :=
  mkPortRequest (pq_Identifier r) (Some (VLAN attrs)) (Isolated attrs) (hwString <$> SecurityMAC attrs)
    (pq_Enabled r) (pq_AutoRemove r) (pq_Mode r) (pq_Transport r) (pq_Local r) (pq_Remote r) (pq_ReplacingMode r)
    (pq_AccessPlatform r) (pq_TapName r) (pq_Bridge r) (pq_Interface r) (pq_QueueID r) (pq_BPDUGuard r)
    (pq_LoopDetect r) (pq_StormPPS r) (pq_STP r) (pq_STPCost r) (pq_STPPriority r).

(** [UpdateSubAttrs], for the ports that have it. *)
Definition updateSubs (o : nat) (attrs : PortAttrs) (m : Manager) : Manager :=
  match mg_transports m !! o with
  | Some (MStream s) =>
      let '(s, sw, _) := UpdateSubAttrs (mo_subs od) attrs s (mg_sw m) in
      set_sw sw (set_transport o (MStream s) m)
  | _ => m
  end.

(** [PatchPort] takes the locks one after the other; these are its parts, in
    order.  The port's policy is read and the patch applied to it. *)
Definition patchAttrs (id : string) (patch : PortPatch) (m : Manager) : result PortAttrs :=
  match PortAttrs_of id (mg_sw m) with
  | None => Err (Errorf "port %q not registered" [AStr id])
  | Some attrs => Apply patch attrs
  end.

(** The switch gets the new policy. *)
Definition patchSwitch (id : string) (attrs : PortAttrs) (m : Manager) : Manager * option goerr :=
  let '(sw, e, _) := UpdatePortAttrs id attrs (mg_sw m) in (set_sw sw m, e).

(** The stored request is rewritten through the pointer that was looked up
    first: a port that was created under the same identifier meanwhile has
    another record. *)
Definition patchRecord (id : string) (o : nat) (attrs : PortAttrs) (m : Manager) : Manager :=
  match mg_ports m !! id with
  | Some rec =>
      if bool_decide (pr_port rec = o)
      then set_ports (<[id := mkPortRecord (reflect attrs (pr_req rec)) o]> (mg_ports m)) m
      else m
  | None => m
  end.

Definition PatchPort (id : string) (patch : PortPatch) (m : Manager) : Manager * result PortInfo :=
  match mg_ports m !! id with
  | None => (m, Err (portNotFound id))
  | Some rec =>
      match patchAttrs id patch m with
      | Err e => (m, Err e)
      | Ok attrs =>
          match patchSwitch id attrs m with
          | (m, Some e) => (m, Err e)
          | (m, None) =>
              let m := patchRecord id (pr_port rec) attrs (updateSubs (pr_port rec) attrs m) in
              (m, portInfoLocked id m)
          end
      end
  end.

(** [DeletePort] up to the unlock, and after it. *)
Definition deletePort1 (id : string) (m : Manager) : Manager * option goerr :=
  match mg_ports m !! id with
  | None => (m, Some (portNotFound id))
  | Some _ => (set_ports (delete id (mg_ports m)) m, None)
  end.

Definition deletePort2 (id : string) (m : Manager) : Manager * list mfx :=
  let '(sw, es) := RemovePort id (mg_sw m) in
  runEffects es (set_sw sw m).

Definition DeletePort (id : string) (m : Manager) : Manager * option goerr * list mfx :=
  match deletePort1 id m with
  | (m, Some e) => (m, Some e, [])
  | (m, None) => let '(m, fx) := deletePort2 id m in (m, None, fx)
  end.

(** [int(d.Seconds())], in binary64. *)
Definition Seconds (d : Z) : spec_float :=
  SFadd 53 1024 (float64 (Z.quot d Second)) (fdiv (float64 (Z.rem d Second)) (float64 Second)).

Definition m_FDB (now ovf : Z) (m : Manager) : list FDBRow :=
  (fun e => mkFDBRow (row_VLAN e) (row_MAC e) (row_PortID e) (int64_of_float ovf (Seconds (row_Age e))) (row_Static e))
    <$> snapshot (mo_fdb od) (sfdb (mg_sw m)) now.

(** * fdb.go *)

(** A hardware address, or the error every handler gives. *)
Definition badMac {A} (k : bytes -> A) (fail : goerr -> A) (mac : string) : A :=
  match ParseMAC mac with Err e => fail (Errorf "bad mac: %w" [AErr e]) | Ok hw => k hw end.

Definition on_sw (x : Switch * option goerr) (m : Manager) : Manager * option goerr := (set_sw x.1 m, x.2).

Definition m_DeleteFDBEntry (vlan : Z) (mac : string) (m : Manager) : Manager * option goerr :=
  badMac (fun hw => on_sw (DeleteFDBEntry vlan hw (mg_sw m)) m) (fun e => (m, Some e)) mac.

Definition m_FlushFDB (req : FDBFlushRequest) (m : Manager) : Manager * Z :=
  let '(sw, n) := FlushFDB (fl_Port req) (fl_VLAN req) (mg_sw m) in (set_sw sw m, n).

Definition PutStaticFDB (now : Z) (req : StaticFDBRequest) (m : Manager) : Manager * option goerr :=
  badMac (fun hw => on_sw (AddStaticFDB now (sf_VLAN req) hw (sf_Port req) (mg_sw m)) m) (fun e => (m, Some e)) (sf_MAC req).

Definition DeleteStaticFDB (vlan : Z) (mac : string) (m : Manager) : Manager * option goerr :=
  badMac (fun hw => on_sw (RemoveStaticFDB vlan hw (mg_sw m)) m) (fun e => (m, Some e)) mac.

(** [time.Duration(n) * time.Second] and [int(d / time.Second)]. *)
Definition seconds (n : Z) : Z := s64 (n * Second).
Definition inSeconds (d : Z) : Z := Z.quot d Second.

Definition GetFDBConfig (m : Manager) : FDBConfig := mkFDBConfig (inSeconds (getMaxAge (sfdb (mg_sw m)))).

Definition SetFDBConfig (c : FDBConfig) (m : Manager) : Manager * option goerr :=
  on_sw (SetFDBMaxAge (seconds (fc_AgingSeconds c)) (mg_sw m)) m.

Definition SetSTP (req : STPRequest) (m : Manager) : Manager * option goerr :=
  (set_sw (SetSTPConfig (mo_sw od)
             (mkSTPConfig (tq_Enabled req) (tq_Priority req) (seconds (tq_HelloSeconds req))
                (seconds (tq_MaxAgeSeconds req)) (seconds (tq_ForwardDelaySeconds req))) (mg_sw m)) m, None).

Definition GetSTP (m : Manager) : STPResponse :=
  let '(st, ports) := STPStatus (mg_sw m) in mkSTPResponse st ports.

(** * gateways.go *)

Definition gatewayPortID (vlan : Z) : string := "gw-vlan" +:+ Itoa vlan.

Definition defaultGatewayMAC (vlan : Z) : bytes := [0x52; 0x54; 0x00; 0x67; u8 (Z.shiftr vlan 8); u8 vlan].

Definition gatewayExists (vlan : Z) : goerr := Errorf "gateway for vlan %d already exists" [AInt vlan].
Definition gatewayNotFound (vlan : Z) : goerr := Errorf "gateway for vlan %d not found" [AInt vlan].

(** The address fields of a request. *)
Definition configMAC (req : GatewayRequest) : result bytes :=
  if negb (is_empty (gq_MAC req)) then badMac Ok Err (gq_MAC req) else Ok (defaultGatewayMAC (gq_VLAN req)).

Definition configIPv4 (req : GatewayRequest) : result (option V4Config) :=
  match gq_IPv4 req with
  | None => Ok None
  | Some v4 =>
      let ip := ParseIP (g4_Address v4) in
      if len (To4 ip) =? 0 then Err (Errorf "bad ipv4 address %q" [AStr (g4_Address v4)])
      else if (g4_PrefixLen v4 <? 1) || (30 <? g4_PrefixLen v4) then
        Err (Errorf "bad ipv4 prefix_len %d" [AInt (g4_PrefixLen v4)])
      else Ok (Some (mkV4 (To4 ip) (g4_PrefixLen v4)))
  end.

Definition configIPv6 (req : GatewayRequest) : result (option V6Config) :=
  match gq_IPv6 req with
  | None => Ok None
  | Some v6 =>
      let ip := ParseIP (g6_Address v6) in
      if (len ip =? 0) || negb (len (To4 ip) =? 0) then Err (Errorf "bad ipv6 address %q" [AStr (g6_Address v6)])
      else if (g6_PrefixLen v6 <? 1) || (126 <? g6_PrefixLen v6) then
        Err (Errorf "bad ipv6 prefix_len %d" [AInt (g6_PrefixLen v6)])
      else if negb (is_empty (g6_LinkLocal v6)) then
        let ll := ParseIP (g6_LinkLocal v6) in
        if len ll =? 0 then Err (Errorf "bad link_local %q" [AStr (g6_LinkLocal v6)])
        else Ok (Some (mkV6 ip (g6_PrefixLen v6) ll))
      else Ok (Some (mkV6 ip (g6_PrefixLen v6) []))
  end.

Definition gatewayConfig (req : GatewayRequest) : result Gateway.Config :=
  mac <-? configMAC req;
  v4 <-? configIPv4 req;
  v6 <-? configIPv6 req;
  Ok (mkGwConfig (gatewayPortID (gq_VLAN req)) mac (u32 (gq_MTU req)) v4 v6 (gq_EnableInternetRouting req)
        (gq_EnableHostRouting req) (gq_Allow req) (gq_Deny req) (gq_DNSProxy req)).

(** Up to [gateway.New]: the object's number. *)
Definition createGateway1 (req : GatewayRequest) (m : Manager) : Manager * result nat :=
  if (gq_VLAN req <? 0) || (4094 <? gq_VLAN req) then
    (m, Err (Errorf "vlan must be 0 (untagged domain) or 1-4094, got %d" [AInt (gq_VLAN req)]))
  else match mg_gateways m !! gq_VLAN req with
  | Some _ => (m, Err (gatewayExists (gq_VLAN req)))
  | None =>
      match (c <-? gatewayConfig req;
             NewGateway (w_IPPortRange_Set w) (w_ResolveLinkLocalV6 w) (w_CreateNIC w) c) with
      | Err e => (m, Err e)
      | Ok g => (alloc_gw g m, Ok (mg_next m))
      end
  end.

Definition gatewayAttrs (req : GatewayRequest) : PortAttrs :=
  mkPortAttrs None (gq_Isolated req) (gq_VLAN req) false false false 0 false 0 0.

Definition createGateway2 (req : GatewayRequest) (o : nat) (m : Manager) : Manager * option goerr * list mfx :=
  match AddPort (gatewayPortID (gq_VLAN req)) (gatewayAttrs req) (mg_sw m) with
  | (sw, Some e, _) => let '(m, fx) := closeGateway o (set_sw sw m) in (m, Some e, fx)
  | (sw, None, es) => let '(m, fx) := runEffects es (registered sw (OGateway o) m) in (m, None, fx)
  end.

(** [gateway]: the record's gateway. *)
Definition gateway (vlan : Z) (m : Manager) : result (gatewayRecord * Gateway) :=
  match mg_gateways m !! vlan with
  | None => Err (gatewayNotFound vlan)
  | Some rec => match mg_gws m !! gr_gw rec with Some g => Ok (rec, g) | None => nilObject end
  end.

Definition gatewayInfo (vlan : Z) (m : Manager) : result GatewayInfo :=
  x <-? gateway vlan m;
  let '(rec, g) := x in
  Ok (mkGatewayInfo (gr_req rec) (hwString (gc_MAC (g_cfg g)))
        (match gq_IPv6 (gr_req rec) with Some _ => ip_String (g_linkLocal g) | None => EmptyString end)
        (default zeroCounters (PortStats_of (ID g) (mg_sw m)))).

Definition createGateway3 (req : GatewayRequest) (o : nat) (m : Manager) : Manager * result GatewayInfo * list mfx :=
  match mg_gateways m !! gq_VLAN req with
  | Some _ =>
      let '(sw, es) := RemovePort (gatewayPortID (gq_VLAN req)) (mg_sw m) in
      let '(m, fx) := runEffects es (set_sw sw m) in
      (m, Err (gatewayExists (gq_VLAN req)), fx)
  | None =>
      let m := set_gateways (<[gq_VLAN req := mkGatewayRecord req o]> (mg_gateways m)) m in
      (m, gatewayInfo (gq_VLAN req) m, [])
  end.

Definition CreateGateway (req : GatewayRequest) (m : Manager) : Manager * result GatewayInfo * list mfx :=
  match createGateway1 req m with
  | (m, Err e) => (m, Err e, [])
  | (m, Ok o) =>
      match createGateway2 req o m with
      | (m, Some e, fx) => (m, Err e, fx)
      | (m, None, fx) => let '(m, r, fx') := createGateway3 req o m in (m, r, fx ++ fx')
      end
  end.

Definition ListGateways (m : Manager) : list GatewayInfo :=
  omap (fun kv => match gatewayInfo kv.1 m with Ok i => Some i | Err _ => None end) (mo_gateways od (mg_gateways m)).

Definition GetGateway (vlan : Z) (m : Manager) : result GatewayInfo := gatewayInfo vlan m.

(** [DeleteGateway] up to the unlock, and after it. *)
Definition deleteGateway1 (vlan : Z) (m : Manager) : Manager * result gatewayRecord :=
  match mg_gateways m !! vlan with
  | None => (m, Err (gatewayNotFound vlan))
  | Some rec => (set_gateways (delete vlan (mg_gateways m)) m, Ok rec)
  end.

Definition deleteGateway2 (rec : gatewayRecord) (m : Manager) : Manager * list mfx :=
  match mg_gws m !! gr_gw rec with
  | Some g => let '(sw, es) := RemovePort (ID g) (mg_sw m) in runEffects es (set_sw sw m)
  | None => (m, [])
  end.

Definition DeleteGateway (vlan : Z) (m : Manager) : Manager * option goerr * list mfx :=
  match deleteGateway1 vlan m with
  | (m, Err e) => (m, Some e, [])
  | (m, Ok rec) => let '(m, fx) := deleteGateway2 rec m in (m, None, fx)
  end.

(** ** Forwards *)

Definition fwdSpec (r : ForwardRequest) : ForwardSpec := mkSpec (fq_Type r) (fq_Network r) (fq_Bind r) (fq_Host r).

Definition forwardInfo (fr : ForwardRec) : ForwardInfo :=
  mkForwardInfo (fr_ID fr)
    (mkForwardRequest (f_Type (fr_spec fr)) (f_Network (fr_spec fr)) (f_Bind (fr_spec fr)) (f_Host (fr_spec fr))).

Definition set_fwds (o : nat) (g : Gateway) (f : forwardsT) (m : Manager) : Manager :=
  set_gw o (g_set_forwards (g_done g) f g) m.

Definition m_AddForward (vlan : Z) (req : ForwardRequest) (m : Manager) : Manager * result ForwardInfo * list mfx :=
  match gateway vlan m with
  | Err e => (m, Err e, [])
  | Ok (rec, g) =>
      let '(f, r, fx) := AddForward (w_NewFwdAddr w) (w_DynLocalForwardTCP w) (w_DynLocalForwardUDP w) (w_fwdTable_Add w)
                           (fwdSpec req) (g_forwards g) in
      (set_fwds (gr_gw rec) g f m, match r with Ok fr => Ok (forwardInfo fr) | Err e => Err e end, MForward <$> fx)
  end.

Definition m_ListForwards (vlan : Z) (m : Manager) : result (list ForwardInfo) :=
  x <-? gateway vlan m;
  Ok (forwardInfo <$> ListForwards (mo_fwd od) (g_forwards x.2)).

Definition m_DeleteForward (vlan : Z) (id : string) (m : Manager) : Manager * option goerr * list mfx :=
  match gateway vlan m with
  | Err e => (m, Some e, [])
  | Ok (rec, g) =>
      let '(f, e, fx) := DeleteForward id (g_forwards g) in
      (set_fwds (gr_gw rec) g f m, e, MForward <$> fx)
  end.

Definition m_ReplaceForwards (vlan : Z) (reqs : list ForwardRequest) (m : Manager)
    : Manager * (list ForwardInfo * option goerr) * list mfx :=
  match gateway vlan m with
  | Err e => (m, ([], Some e), [])
  | Ok (rec, g) =>
      let '(f, (frs, e), fx) := ReplaceForwards (w_NewFwdAddr w) (w_DynLocalForwardTCP w) (w_DynLocalForwardUDP w)
                                  (w_fwdTable_Add w) (mo_fwd od) (fwdSpec <$> reqs) (g_forwards g) in
      (set_fwds (gr_gw rec) g f m, (forwardInfo <$> frs, e), MForward <$> fx)
  end.

(** ** DHCP *)

(** The operations of one of the two servers. *)
Definition on_dhcp (family : Z) (vlan : Z) (m : Manager)
    (op4 op6 : GatewayT -> dhcpServer -> dhcpServer * option goerr) : Manager * option goerr :=
  match gateway vlan m with
  | Err e => (m, Some e)
  | Ok (rec, g) =>
      if family =? 4 then
        let '(s, e) := op4 (gw_of g) (g_dhcp4 g) in (set_gw (gr_gw rec) (g_set_dhcp4 s g) m, e)
      else
        let '(s, e) := op6 (gw_of g) (g_dhcp6 g) in (set_gw (gr_gw rec) (g_set_dhcp6 s g) m, e)
  end.

Fixpoint parseDNS (l : list string) : result (list bytes) :=
  match l with
  | [] => Ok []
  | d :: l' =>
      let ip := ParseIP d in
      if len ip =? 0 then Err (Errorf "bad dns address %q" [AStr d])
      else rest <-? parseDNS l'; Ok (ip :: rest)
  end.

Definition wrapErr {A} (msg : string) (r : result A) : result A :=
  match r with Ok a => Ok a | Err e => Err (Errorf msg [AErr e]) end.

(** The configuration a request describes; the pool and the servers are looked at
    only when DHCP is enabled. *)
Definition dhcpConfig (c : DHCP4Config) : result DHCPConfig :=
  let lease := seconds (dq_LeaseSeconds c) in
  if dq_Enabled c then
    start <-? wrapErr "bad pool_start: %w" (ParseAddr (dq_PoolStart c));
    end_ <-? wrapErr "bad pool_end: %w" (ParseAddr (dq_PoolEnd c));
    dns <-? parseDNS (dq_DNS c);
    Ok (mkCfg true start end_ lease dns)
  else Ok (mkCfg false AInvalid AInvalid lease []).

Definition setDHCP (family vlan : Z) (c : DHCP4Config) (m : Manager) : Manager * option goerr :=
  match gateway vlan m with
  | Err e => (m, Some e)
  | Ok _ =>
      match dhcpConfig c with
      | Err e => (m, Some e)
      | Ok gcfg => on_dhcp family vlan m (fun gw => dhcp4_SetConfig gw gcfg) (fun gw => dhcp6_SetConfig gw gcfg)
      end
  end.

Definition SetDHCP4 : Z -> DHCP4Config -> Manager -> Manager * option goerr := setDHCP 4.
Definition SetDHCP6 : Z -> DHCP6Config -> Manager -> Manager * option goerr := setDHCP 6.

Definition apiDHCP (c : DHCPConfig) : DHCP4Config :=
  let valid := IsValid (PoolStart c) in
  mkDHCPConfig (Enabled c) (if valid then addr_String (PoolStart c) else EmptyString)
    (if valid then addr_String (PoolEnd c) else EmptyString) (inSeconds (LeaseTime c)) (ip_String <$> DNS c).

Definition GetDHCP4 (vlan : Z) (m : Manager) : result DHCP4Config :=
  x <-? gateway vlan m;
  Ok (apiDHCP (cfg (g_dhcp4 x.2))).
Definition GetDHCP6 (vlan : Z) (m : Manager) : result DHCP6Config :=
  x <-? gateway vlan m;
  Ok (apiDHCP (cfg (g_dhcp6 x.2))).

Definition bindingMAC (b : DHCPStaticBinding) : result (option string) :=
  match ds_MAC b with
  | None => Ok None
  | Some s => badMac (fun hw => Ok (Some (hwString hw))) Err s
  end.

Definition staticToGateway (b : DHCPStaticBinding) : result StaticBinding :=
  mac <-? bindingMAC b;
  ip <-? wrapErr "bad ip: %w" (ParseAddr (ds_IP b));
  Ok (mkBinding (ds_ID b) (ds_Order b) (ds_PortIdentifier b) mac (ds_ClientID b) ip).

Definition staticToAPI (b : StaticBinding) : DHCPStaticBinding :=
  mkDHCPStatic (sb_ID b) (sb_Order b) (sb_PortID b) (sb_MAC b) (sb_ClientID b) (addr_String (sb_IP b)).

Fixpoint staticsToGateway (bs : list DHCPStaticBinding) : result (list StaticBinding) :=
  match bs with
  | [] => Ok []
  | b :: bs' =>
      match staticToGateway b with
      | Err e => Err (Errorf "binding %q: %w" [AStr (ds_ID b); AErr e])
      | Ok gb => rest <-? staticsToGateway bs'; Ok (gb :: rest)
      end
  end.

Definition ReplaceDHCPStatic (vlan family : Z) (bs : list DHCPStaticBinding) (m : Manager) : Manager * option goerr :=
  match gateway vlan m with
  | Err e => (m, Some e)
  | Ok _ =>
      match staticsToGateway bs with
      | Err e => (m, Some e)
      | Ok gbs => on_dhcp family vlan m (fun _ => dhcp4_ReplaceStatics gbs) (fun _ => dhcp6_ReplaceStatics gbs)
      end
  end.

Definition PutDHCPStatic (vlan family : Z) (b : DHCPStaticBinding) (m : Manager) : Manager * option goerr :=
  match gateway vlan m with
  | Err e => (m, Some e)
  | Ok _ =>
      match staticToGateway b with
      | Err e => (m, Some e)
      | Ok gb => on_dhcp family vlan m (fun _ => dhcp4_PutStatic gb) (fun _ => dhcp6_PutStatic gb)
      end
  end.

Definition static_le (a b : DHCPStaticBinding) : Prop := String.leb (ds_ID a) (ds_ID b) = true.
#[local] Instance static_le_dec : RelDecision static_le.
Proof. intros a b. unfold static_le. apply _. Defined.

Definition ListDHCPStatic (vlan family : Z) (m : Manager) : result (list DHCPStaticBinding) :=
  x <-? gateway vlan m;
  Ok (merge_sort static_le (staticToAPI <$> (if family =? 4 then ListStatic (mo_dhcp od) (g_dhcp4 x.2) else dhcp6_ListStatic (mo_dhcp od) (g_dhcp6 x.2)))).

Definition DeleteDHCPStatic (vlan family : Z) (id : string) (m : Manager) : Manager * option goerr :=
  on_dhcp family vlan m (fun _ => DeleteStatic id) (fun _ => dhcp6_DeleteStatic id).

Definition leaseInfo (l : Lease) : LeaseInfo :=
  mkLeaseInfo (addr_String (l_IP l)) (l_MAC l) (l_ClientID l) (l_PortID l) (l_Expiry l / Second) (l_Static l).

Definition ListDHCPLeases (now vlan family : Z) (m : Manager) : result (list LeaseInfo) :=
  x <-? gateway vlan m;
  Ok (leaseInfo <$> (if family =? 4 then Leases (mo_dhcp od) now (g_dhcp4 x.2) else dhcp6_Leases (mo_dhcp od) now (g_dhcp6 x.2))).

Definition DeleteDHCPLease (vlan family : Z) (ip : string) (m : Manager) : Manager * option goerr :=
  match gateway vlan m with
  | Err e => (m, Some e)
  | Ok _ =>
      match wrapErr "bad ip: %w" (ParseAddr ip) with
      | Err e => (m, Some e)
      | Ok addr => on_dhcp family vlan m (fun _ => ReleaseLease addr) (fun _ => dhcp6_ReleaseLease addr)
      end
  end.

(** ** Router advertisements *)

Fixpoint parsePrefixes (ps : list ApiTypes.RAPrefix) : result (list Gateway.RAPrefix) :=
  match ps with
  | [] => Ok []
  | p :: ps' =>
      match ParsePrefix (rq_Prefix p) with
      | Err e => Err (Errorf "bad ra prefix %q: %w" [AStr (rq_Prefix p); AErr e])
      | Ok prefix =>
          rest <-? parsePrefixes ps';
          Ok (Gateway.mkRAPrefix prefix (seconds (rq_ValidLifetime p)) (seconds (rq_PreferredLifetime p))
                (rq_OnLink p) (rq_Autonomous p) :: rest)
      end
  end.

Definition slaacConfig (c : ApiTypes.SLAACConfig) : result Gateway.SLAACConfig :=
  ps <-? parsePrefixes (sq_Prefixes c);
  Ok (mkSLAAC (sq_Enabled c) (seconds (sq_IntervalSeconds c)) (sq_Managed c) (sq_Other c)
        (seconds (sq_RouterLifetimeSeconds c)) ps).

Definition SetSLAAC (vlan : Z) (c : ApiTypes.SLAACConfig) (m : Manager) : Manager * option goerr :=
  match gateway vlan m with
  | Err e => (m, Some e)
  | Ok (rec, g) =>
      match slaacConfig c with
      | Err e => (m, Some e)
      | Ok gcfg => let '(s, e) := ra_SetConfig (gw_of g) gcfg (g_ra g) in (set_gw (gr_gw rec) (g_set_ra s g) m, e)
      end
  end.

Definition apiPrefix (p : Gateway.RAPrefix) : ApiTypes.RAPrefix :=
  ApiTypes.mkRAPrefix (prefix_String (rap_Prefix p)) (inSeconds (rap_ValidLifetime p))
    (inSeconds (rap_PreferredLifetime p)) (rap_OnLink p) (rap_Autonomous p).

Definition apiSLAAC (c : Gateway.SLAACConfig) : ApiTypes.SLAACConfig :=
  mkSLAACConfig (ra_Enabled c) (inSeconds (ra_Interval c)) (ra_Managed c) (ra_Other c)
    (inSeconds (ra_RouterLifetime c)) (apiPrefix <$> ra_Prefixes c).

Definition GetSLAAC (vlan : Z) (m : Manager) : result ApiTypes.SLAACConfig :=
  x <-? gateway vlan m;
  Ok (apiSLAAC (ra_Config (g_ra x.2))).

(** * config.go *)

Record GatewayConfig := mkGatewayConfig {
  gcf_Request : GatewayRequest;
  gcf_Forwards : list ForwardRequest;
  gcf_DHCP4 : option DHCP4Config;
  gcf_DHCP4Static : list DHCPStaticBinding;
  gcf_DHCP6 : option DHCP6Config;
  gcf_DHCP6Static : list DHCPStaticBinding;
  gcf_SLAAC : option ApiTypes.SLAACConfig
}.

Record Config := mkConfig {
  cf_STP : option STPRequest;
  cf_Ports : list PortRequest;
  cf_Gateways : list GatewayConfig
}.

Definition zeroGatewayConfig : GatewayConfig := mkGatewayConfig zeroGatewayRequest [] None [] None [] None.

(** The keys of the embedded request are keys of the whole. *)
Definition decGatewayConfig : decoder GatewayConfig := fun j c =>
  kvs <-? object false "manager.GatewayConfig" [] j;
  f1 <-? decGatewayRequestFields false kvs (gcf_Request c);
  f2 <-? field kvs "forwards" (dec_list zeroForwardRequest (decForwardRequest false)) (gcf_Forwards c);
  f3 <-? field kvs "dhcp4" (dec_ptr zeroDHCPConfig (decDHCPConfig false)) (gcf_DHCP4 c);
  f4 <-? field kvs "dhcp4_static" (dec_list zeroDHCPStaticBinding (decDHCPStaticBinding false)) (gcf_DHCP4Static c);
  f5 <-? field kvs "dhcp6" (dec_ptr zeroDHCPConfig (decDHCPConfig false)) (gcf_DHCP6 c);
  f6 <-? field kvs "dhcp6_static" (dec_list zeroDHCPStaticBinding (decDHCPStaticBinding false)) (gcf_DHCP6Static c);
  f7 <-? field kvs "slaac" (dec_ptr zeroSLAACConfig (decSLAACConfig false)) (gcf_SLAAC c);
  Ok (mkGatewayConfig f1 f2 f3 f4 f5 f6 f7).

Definition decConfig : decoder Config := fun j c =>
  kvs <-? object false "manager.Config" [] j;
  f1 <-? field kvs "stp" (dec_ptr zeroSTPRequest (decSTPRequest false)) (cf_STP c);
  f2 <-? field kvs "ports" (dec_list zeroPortRequest (decPortRequest false)) (cf_Ports c);
  f3 <-? field kvs "gateways" (dec_list zeroGatewayConfig decGatewayConfig) (cf_Gateways c);
  Ok (mkConfig f1 f2 f3).

(** A call of the replay; the rest is not run after an error. *)
Definition call : Type := Manager -> Manager * option goerr * list mfx.

Definition noCall : call := fun m => (m, None, []).
Definition quiet (f : Manager -> Manager * option goerr) : call := fun m => let '(m, e) := f m in (m, e, []).
Definition andThen (f g : call) : call := fun m =>
  match f m with
  | (m, Some e, fx) => (m, Some e, fx)
  | (m, None, fx) => let '(m, e, fx') := g m in (m, e, fx ++ fx')
  end.
Definition wrapCall (wrap : goerr -> goerr) (f : call) : call := fun m =>
  let '(m, e, fx) := f m in (m, wrap <$> e, fx).
Definition each {A} (f : A -> call) (l : list A) : call := foldr (fun a k => andThen (f a) k) noCall l.
Definition opt {A} (f : A -> call) (o : option A) : call := match o with Some a => f a | None => noCall end.

(** The error of a call that also returns a value. *)
Definition errOf {A} (f : Manager -> Manager * result A * list mfx) : call := fun m =>
  let '(m, r, fx) := f m in (m, match r with Ok _ => None | Err e => Some e end, fx).

Definition replayGateway (gw : GatewayConfig) : call :=
  let vlan := gq_VLAN (gcf_Request gw) in
  let err (what : string) (args : list earg) (e : goerr) : goerr :=
    Errorf ("gateway vlan %d" +:+ what +:+ ": %w") (AInt vlan :: args ++ [AErr e]) in
  andThen (wrapCall (err EmptyString []) (errOf (CreateGateway (gcf_Request gw))))
  (andThen (each (fun fwd => wrapCall (err " forward %s %s" [AStr (fq_Type fwd); AStr (fq_Bind fwd)])
                               (errOf (m_AddForward vlan fwd))) (gcf_Forwards gw))
  (andThen (opt (fun c => wrapCall (err " dhcp4" []) (quiet (SetDHCP4 vlan c))) (gcf_DHCP4 gw))
  (andThen (each (fun b => wrapCall (err " dhcp4 static %q" [AStr (ds_ID b)]) (quiet (PutDHCPStatic vlan 4 b)))
              (gcf_DHCP4Static gw))
  (andThen (opt (fun c => wrapCall (err " dhcp6" []) (quiet (SetDHCP6 vlan c))) (gcf_DHCP6 gw))
  (andThen (each (fun b => wrapCall (err " dhcp6 static %q" [AStr (ds_ID b)]) (quiet (PutDHCPStatic vlan 6 b)))
              (gcf_DHCP6Static gw))
           (opt (fun c => wrapCall (err " slaac" []) (quiet (SetSLAAC vlan c))) (gcf_SLAAC gw))))))).

Definition replay (c : Config) : call :=
  andThen (opt (fun r => wrapCall (fun e => Errorf "stp: %w" [AErr e]) (quiet (SetSTP r))) (cf_STP c))
  (andThen (each replayGateway (cf_Gateways c))
           (each (fun p => wrapCall (fun e => Errorf "port %q: %w" [AStr (pq_Identifier p); AErr e]) (errOf (CreatePort p)))
              (cf_Ports c))).

(** [ReplayConfig]: what reading the file gave, and its syntax tree. *)
Definition ReplayConfig (file : result (result json)) : call := fun m =>
  match file with
  | Err e => (m, Some e, [])
  | Ok doc =>
      match wrapErr "parse config: %w" (j <-? doc; decConfig j (mkConfig None [] [])) with
      | Err e => (m, Some e, [])
      | Ok c => replay c m
      end
  end.
End manager.
