(* ===== verification/System.v ===== *)
(** The running program: the manager, the goroutines of the transports, and the
    calls of the API that are under way.

    Every goroutine's section between two locks is a step, so a run is any
    interleaving of API calls, connections that come and go, exit callbacks,
    removals of offline ports and the work of switch and gateways.  Creating a
    port or a gateway is three steps, deleting one is two, and changing a port
    is one for the lookup, the policy read, the policy written, the server, each
    of its connections and the record; other calls may run in between. *)
From S2P Require Import Prelude Vlan Fdb Protect SwitchState Stp Switch SwitchProps Lease GoText Forwards Framing Ports Server Dhcp Gateway Json ApiTypes Manager.

#[local] Open Scope Z_scope.

(** * Goroutines of the transports *)

Section background.
Context (od : MgrOrders).

Definition notify (id : string) (m : Manager) : Manager * list mfx :=
  let '(sw, es) := NotifyDown id (mg_sw m) in runEffects od es (set_sw sw m).

(** A goroutine of a pump stops it: its connection failed. *)
Definition pumpFails (o : nat) (m : Manager) : Manager :=
  match mg_transports m !! o with
  | Some (MPump p) =>
      let '(p, _, exit) := pp_stop p in
      set_exits (mg_exits m ++ if (exit : bool) then [o] else []) (set_transport o (MPump p) m)
  | _ => m
  end.

(** The exit callback of a client or tap port. *)
Definition pumpExit (o : nat) (m : Manager) : Manager * list mfx :=
  match mg_transports m !! o with
  | Some (MPump p) => notify (pp_id p) (set_transport o (MPump (pp_exit p)) m)
  | _ => (m, [])
  end.

(** The interface of an AF_XDP port vanished. *)
Definition xdpLost (o : nat) (m : Manager) : Manager * list mfx :=
  match mg_transports m !! o with
  | Some (MXdp p) =>
      let '(p, fx, down) := linkGone p in
      let m := set_transport o (MXdp p) m in
      if (down : bool) then let '(m, fx') := notify (xp_id p) m in (m, (MKernel <$> fx) ++ fx') else (m, MKernel <$> fx)
  | _ => (m, [])
  end.

(** A vhost-user session reports its state. *)
Definition vhostReport (o n : nat) (up : bool) (m : Manager) : Manager * list mfx :=
  match mg_transports m !! o with
  | Some (MVhost p) =>
      let '(p, fx) := vp_State n up p in
      let m := set_transport o (MVhost p) m in
      match fx with
      | [] => (m, [])
      | _ => notify (vp_id p) m
      end
  | _ => (m, [])
  end.

(** [addSub] registers the connection as a port of its own. *)
Definition serverAdd (o : nat) (m : Manager) : Manager * list mfx :=
  match mg_transports m !! o with
  | Some (MStream s) =>
      match ss_accept s with
      | AcceptAdding subID anonID k attrs =>
          match addSub2 subID anonID k attrs s (mg_sw m) with
          | (s, sw, Adopted k, es) => runEffects od es (registered sw (OSub o k) (set_transport o (MStream s) m))
          | (s, sw, _, es) => runEffects od es (set_sw sw (set_transport o (MStream s) m))
          end
      | _ => (m, [])
      end
  | _ => (m, [])
  end.

(** The exit callback of connection [k]; [exits] are the callbacks left. *)
Definition serverExit (o k : nat) (exits : list nat) (m : Manager) : Manager * list mfx :=
  match mg_transports m !! o with
  | Some (MStream s) =>
      let '(s, sw, es) := runExit k (ss_set_live (ss_live s) exits s) (mg_sw m) in
      runEffects od es (set_sw sw (set_transport o (MStream s) m))
  | _ => (m, [])
  end.
End background.

(** * Runs *)

(** A call under way.  Creations: the transport or gateway is built, or
    registered.  Deletions: the record is gone.  PATCH: the record was found, the
    new policy is computed, the switch has it, or the server has it too and the
    listed connections are still to get it.  [o] is the object the record named. *)
Inductive pending : Type :=
  | PortBuilt (req : PortRequest) (o : nat) (attrs : PortAttrs)
  | PortAdded (req : PortRequest) (o : nat)
  | GatewayBuilt (req : GatewayRequest) (o : nat)
  | GatewayAdded (req : GatewayRequest) (o : nat)
  | PortDeleting (id : string) (o : nat)
  | GatewayDeleting (vlan : Z) (rec : gatewayRecord)
  | PatchFound (id : string) (patch : PortPatch) (o : nat)
  | PatchApplied (id : string) (o : nat) (attrs : PortAttrs)
  | PatchSet (id : string) (o : nat) (attrs : PortAttrs)
  | PatchSubs (id : string) (o : nat) (attrs : PortAttrs) (ids : list string).

(** What a deletion has still to do. *)
Definition deleting (id : string) (m : Manager) : list pending :=
  match mg_ports m !! id with Some rec => [PortDeleting id (pr_port rec)] | None => [] end.

Definition deletingGateway (vlan : Z) (m : Manager) : list pending :=
  match mg_gateways m !! vlan with Some rec => [GatewayDeleting vlan rec] | None => [] end.

(** [UpdateSubAttrs] up to the unlock, and the connections it then visits. *)
Definition patchServer (o : nat) (attrs : PortAttrs) (m : Manager) : Manager :=
  match mg_transports m !! o with
  | Some (MStream s) => set_transport o (MStream (ss_set_attrs attrs s)) m
  | _ => m
  end.

Definition subIDs (od : MgrOrders) (o : nat) (m : Manager) : list string :=
  match mg_transports m !! o with Some (MStream s) => (mo_subs od (ss_subs s)).*1 | _ => [] end.

Record System := mkSystem { sy_m : Manager; sy_pending : list pending }.

(** The state changes a transport makes on its own that reach neither the switch
    nor the manager. *)
Inductive transport_step : managedPort -> managedPort -> Prop :=
  | TPumpSend frame p : transport_step (MPump p) (MPump (pp_Send frame p).1)
  | TVhostAccept p : transport_step (MVhost p) (MVhost (vp_accept1 p).1.1)
  | TVhostAdopt p : transport_step (MVhost p) (MVhost (vp_adopt p))
  | TAccept a s s' r : ss_accept s = AcceptIdle -> acceptLoop a s = Some (s', r) -> transport_step (MStream s) (MStream s')
  | TKicked peer s : ss_accept s = AcceptKicked peer -> transport_step (MStream s) (MStream (adopt2 peer s).1)
  | TFail k s : (forall subID n attrs, ss_accept s <> AcceptAdding subID n k attrs) ->
      transport_step (MStream s) (MStream (stopPump k s))
  | TDatagram a d s s' r : ds_rx a d s = Ret (s', r) -> transport_step (MDgram s) (MDgram s').

(** The switch at work: a frame arrives, or one of its goroutines runs. *)
Inductive sw_work (s : Switch) : list effect -> Switch -> Prop :=
  | WorkDeliver env src frame s' fx : ranges_ok (rgs env) -> deliver env src frame s = Ret (s', fx) -> sw_work s fx s'
  | WorkAge now : sw_work s [] (ageTick now s)
  | WorkProbe rg : ranges_ok rg -> sw_work s (loopProbeRound rg s) s
  | WorkPortChanged rg : ranges_ok rg -> sw_work s [] (portChangedTask rg s)
  | WorkTick rg dt s' fx : ranges_ok rg -> runTick rg dt s = (s', fx) -> sw_work s fx s'.

(** The methods of the manager that are one step. *)
Inductive api_step (m : Manager) : Manager -> Prop :=
  | ApiDeleteFDB vlan mac : api_step m (m_DeleteFDBEntry vlan mac m).1
  | ApiFlushFDB req : api_step m (m_FlushFDB req m).1
  | ApiPutStaticFDB now req : api_step m (PutStaticFDB now req m).1
  | ApiDeleteStaticFDB vlan mac : api_step m (DeleteStaticFDB vlan mac m).1
  | ApiSetFDBConfig c : api_step m (SetFDBConfig c m).1
  | ApiSetSTP od req : ranges_ok (mo_sw od) -> api_step m (SetSTP od req m).1
  | ApiAddForward w vlan req : api_step m (m_AddForward w vlan req m).1.1
  | ApiDeleteForward vlan id : api_step m (m_DeleteForward vlan id m).1.1
  | ApiReplaceForwards w od vlan reqs : api_step m (m_ReplaceForwards w od vlan reqs m).1.1
  | ApiSetDHCP family vlan c : api_step m (setDHCP family vlan c m).1
  | ApiPutDHCPStatic vlan family b : api_step m (PutDHCPStatic vlan family b m).1
  | ApiReplaceDHCPStatic vlan family bs : api_step m (ReplaceDHCPStatic vlan family bs m).1
  | ApiDeleteDHCPStatic vlan family id : api_step m (DeleteDHCPStatic vlan family id m).1
  | ApiDeleteDHCPLease vlan family ip : api_step m (DeleteDHCPLease vlan family ip m).1
  | ApiSetSLAAC vlan c : api_step m (SetSLAAC vlan c m).1.

(** The goroutines. *)
Inductive bg_step (m : Manager) : Manager -> Prop :=
  | BgTransport o p p' : mg_transports m !! o = Some p -> transport_step p p' -> bg_step m (set_transport o p' m)
  | BgPumpFails o : bg_step m (pumpFails o m)
  | BgPumpExit od o l l' : mg_exits m = l ++ o :: l' -> bg_step m (pumpExit od o (set_exits (l ++ l') m)).1
  | BgXdpLost od o : bg_step m (xdpLost od o m).1
  | BgVhostReport od o n up : bg_step m (vhostReport od o n up m).1
  | BgServerAdd od o : bg_step m (serverAdd od o m).1
  | BgServerExit od o k s l l' :
      mg_transports m !! o = Some (MStream s) -> ss_exits s = l ++ k :: l' ->
      bg_step m (serverExit od o k (l ++ l') m).1
  | BgGateway o g g' : mg_gws m !! o = Some g -> g_cfg g' = g_cfg g -> bg_step m (set_gw o g' m)
  | BgSwitch fx sw' : sw_work (mg_sw m) fx sw' -> bg_step m (set_sw sw' m).

Inductive sys_step : System -> System -> Prop :=
  | SysApi m m' ps : api_step m m' -> sys_step (mkSystem m ps) (mkSystem m' ps)
  | SysBg m m' ps : bg_step m m' -> sys_step (mkSystem m ps) (mkSystem m' ps)
  | SysPortBuild w req m m' o attrs fx ps :
      createPort1 w req m = (m', Ok (o, attrs), fx) ->
      sys_step (mkSystem m ps) (mkSystem m' (ps ++ [PortBuilt req o attrs]))
  | SysPortAdd od req o attrs m m' fx ps ps' :
      createPort2 od (pq_Identifier req) o attrs m = (m', None, fx) ->
      sys_step (mkSystem m (ps ++ PortBuilt req o attrs :: ps')) (mkSystem m' (ps ++ PortAdded req o :: ps'))
  | SysPortFail od req o attrs m m' e fx ps ps' :
      createPort2 od (pq_Identifier req) o attrs m = (m', Some e, fx) ->
      sys_step (mkSystem m (ps ++ PortBuilt req o attrs :: ps')) (mkSystem m' (ps ++ ps'))
  | SysPortRecord od req o m ps ps' :
      sys_step (mkSystem m (ps ++ PortAdded req o :: ps')) (mkSystem (createPort3 od req o m).1 (ps ++ ps'))
  | SysGatewayBuild w req m m' o ps :
      createGateway1 w req m = (m', Ok o) ->
      sys_step (mkSystem m ps) (mkSystem m' (ps ++ [GatewayBuilt req o]))
  | SysGatewayAdd od req o m m' fx ps ps' :
      createGateway2 od req o m = (m', None, fx) ->
      sys_step (mkSystem m (ps ++ GatewayBuilt req o :: ps')) (mkSystem m' (ps ++ GatewayAdded req o :: ps'))
  | SysGatewayFail od req o m m' e fx ps ps' :
      createGateway2 od req o m = (m', Some e, fx) ->
      sys_step (mkSystem m (ps ++ GatewayBuilt req o :: ps')) (mkSystem m' (ps ++ ps'))
  | SysGatewayRecord od req o m ps ps' :
      sys_step (mkSystem m (ps ++ GatewayAdded req o :: ps')) (mkSystem (createGateway3 od req o m).1.1 (ps ++ ps'))
  | SysDelete id m ps : sys_step (mkSystem m ps) (mkSystem (deletePort1 id m).1 (ps ++ deleting id m))
  | SysAutoDelete id l l' m ps :
      mg_deletes m = l ++ id :: l' ->
      sys_step (mkSystem m ps) (mkSystem (deletePort1 id (set_deletes (l ++ l') m)).1 (ps ++ deleting id m))
  | SysDeleted od id o m ps ps' :
      sys_step (mkSystem m (ps ++ PortDeleting id o :: ps')) (mkSystem (deletePort2 od id m).1 (ps ++ ps'))
  | SysDeleteGateway vlan m ps :
      sys_step (mkSystem m ps) (mkSystem (deleteGateway1 vlan m).1 (ps ++ deletingGateway vlan m))
  | SysGatewayDeleted od vlan rec m ps ps' :
      sys_step (mkSystem m (ps ++ GatewayDeleting vlan rec :: ps')) (mkSystem (deleteGateway2 od rec m).1 (ps ++ ps'))
  | SysPatchFind id patch rec m ps :
      mg_ports m !! id = Some rec -> sys_step (mkSystem m ps) (mkSystem m (ps ++ [PatchFound id patch (pr_port rec)]))
  | SysPatchApply id patch o attrs m ps ps' :
      patchAttrs id patch m = Ok attrs ->
      sys_step (mkSystem m (ps ++ PatchFound id patch o :: ps')) (mkSystem m (ps ++ PatchApplied id o attrs :: ps'))
  | SysPatchRefuse id patch o e m ps ps' :
      patchAttrs id patch m = Err e ->
      sys_step (mkSystem m (ps ++ PatchFound id patch o :: ps')) (mkSystem m (ps ++ ps'))
  | SysPatchSwitch id o attrs m m' ps ps' :
      patchSwitch id attrs m = (m', None) ->
      sys_step (mkSystem m (ps ++ PatchApplied id o attrs :: ps')) (mkSystem m' (ps ++ PatchSet id o attrs :: ps'))
  | SysPatchFail id o attrs e m m' ps ps' :
      patchSwitch id attrs m = (m', Some e) ->
      sys_step (mkSystem m (ps ++ PatchApplied id o attrs :: ps')) (mkSystem m' (ps ++ ps'))
  | SysPatchServer od id o attrs m ps ps' :
      range_order (mo_subs od) ->
      sys_step (mkSystem m (ps ++ PatchSet id o attrs :: ps'))
        (mkSystem (patchServer o attrs m) (ps ++ PatchSubs id o attrs (subIDs od o m) :: ps'))
  | SysPatchSub id o attrs i ids m ps ps' :
      sys_step (mkSystem m (ps ++ PatchSubs id o attrs (i :: ids) :: ps'))
        (mkSystem (patchSwitch i attrs m).1 (ps ++ PatchSubs id o attrs ids :: ps'))
  | SysPatchRecord id o attrs m ps ps' :
      sys_step (mkSystem m (ps ++ PatchSubs id o attrs [] :: ps')) (mkSystem (patchRecord id o attrs m) (ps ++ ps'))
  | SysClose od m ps : ranges_ok (mo_sw od) -> sys_step (mkSystem m ps) (mkSystem (m_Close od m).1 ps).

Inductive sys_reachable : System -> Prop :=
  | SysNew random : sys_reachable (mkSystem (m_New random) [])
  | SysStep s s' : sys_reachable s -> sys_step s s' -> sys_reachable s'.
