(* ===== verification/SystemProps.v ===== *)
(** The registries of the running program agree: theorems over every
    interleaving of [System.sys_step]. *)
From S2P Require Import Prelude Vlan Fdb Protect SwitchState Stp StpFacts Switch SwitchInv Deliver SwitchProps Lease GoText Forwards Framing Ports Server ServerProps Dhcp Gateway Json ApiTypes Manager System.
From Stdlib Require Import Ascii.
From stdpp Require Import pretty.

#[local] Open Scope Z_scope.

(** * Names *)

Definition has_at (id : string) : bool := has_byte id "@"%char.

Lemma has_at_app a b : has_at (a +:+ "@" +:+ b) = true.
Proof.
  unfold has_at, has_byte. induction a as [|c a IH]; [done|].
  change (String c a +:+ "@" +:+ b) with (String c (a +:+ "@" +:+ b)). cbn [IndexByte].
  destruct (Ascii.eqb c "@"); [done|]. by destruct (IndexByte (a +:+ "@" +:+ b) "@").
Qed.

Lemma identifier_no_at id : allChars identifierChar id = true -> has_at id = false.
Proof.
  unfold has_at, has_byte. induction id as [|c id IH]; [done|]. cbn [allChars IndexByte]. intros [Hc Hid]%andb_prop.
  destruct (Ascii.eqb_spec c "@") as [->|]; [done|]. specialize (IH Hid). by destruct (IndexByte id "@").
Qed.

Lemma valid_no_at id : ValidateIdentifier id = None -> has_at id = false.
Proof.
  unfold ValidateIdentifier. destruct (negb (is_empty id) && allChars identifierChar id) eqn:E; [|done].
  intros _. apply andb_prop in E as [_ E]. by apply identifier_no_at.
Qed.

(** The names of the gateways' ports are identifiers. *)
Lemma gatewayPortID_no_at vlan : 0 <= vlan <= 4094 -> has_at (gatewayPortID vlan) = false.
Proof.
  intros Hv. assert (H : forallb (fun v => negb (has_at (gatewayPortID v))) (Z.of_nat <$> seq 0 4095) = true)
    by (vm_compute; reflexivity).
  rewrite forallb_forall in H. specialize (H vlan).
  destruct (has_at (gatewayPortID vlan)); [|done]. exfalso. refine (diff_false_true (H _)).
  apply List.in_map_iff. exists (Z.to_nat vlan). split; [lia|]. apply List.in_seq. lia.
Qed.

(** * Transports keep their name, and servers the names of their connections *)

Record sub_ok (s : streamServer) : Prop := {
  sub_cbs : forall k cb, ss_callbacks s !! k = Some cb -> (k < ss_next s)%nat;
  sub_names : forall k id n, ss_callbacks s !! k = Some (ExitSub id n) -> has_at id = true;
  sub_adding : forall id n k a, ss_accept s = AcceptAdding id n k a -> ss_callbacks s !! k = Some (ExitSub id n);
  sub_keys : forall id k, ss_subs s !! id = Some k -> has_at id = true
}.

Definition tp_ok (p : managedPort) : Prop := match p with MStream s => sub_ok s | _ => True end.

(** [p'] is the transport [p] later on. *)
Definition tp_le (p p' : managedPort) : Prop :=
  portID p' = portID p /\
  match p with
  | MStream s => exists s', p' = MStream s' /\ ss_callbacks s ⊆ ss_callbacks s'
  | _ => True
  end.

Lemma tp_le_refl p : tp_le p p.
Proof. split; [done|]. destruct p; eauto. Qed.

Lemma tp_le_trans p q r : tp_le p q -> tp_le q r -> tp_le p r.
Proof.
  intros [E1 H1] [E2 H2]. split; [congruence|]. destruct p; try done.
  destruct H1 as (s' & -> & Hs). destruct H2 as (s'' & -> & Hs'). exists s''. split; [done|]. by etrans.
Qed.

Definition srv_le (s s' : streamServer) : Prop := ss_id s' = ss_id s /\ ss_callbacks s ⊆ ss_callbacks s' /\ (sub_ok s -> sub_ok s').

Lemma srv_le_refl s : srv_le s s.
Proof. done. Qed.

Lemma srv_le_trans s s' s'' : srv_le s s' -> srv_le s' s'' -> srv_le s s''.
Proof. intros (? & ? & ?) (? & ? & ?). split_and!; [congruence | by etrans | auto]. Qed.

Lemma srv_le_tp s s' : srv_le s s' -> tp_le (MStream s) (MStream s') /\ (tp_ok (MStream s) -> tp_ok (MStream s')).
Proof. intros (? & ? & ?). split; [|done]. split; eauto. Qed.

(** An update of anything but name, callbacks and accept loop, which adds no connection. *)
Lemma srv_le_same s s' :
  ss_id s' = ss_id s -> ss_callbacks s' = ss_callbacks s -> ss_next s' = ss_next s ->
  (forall id k, ss_subs s' !! id = Some k -> ss_subs s !! id = Some k) ->
  (ss_accept s' = ss_accept s \/ forall id n k a, ss_accept s' <> AcceptAdding id n k a) -> srv_le s s'.
Proof.
  intros E1 E2 E3 Hsub E4. split_and!; [done | by rewrite E2|]. intros []. split; rewrite ?E2, ?E3; [done..| |eauto].
  intros id n k a Ha. destruct E4 as [E4|E4]; [rewrite E4 in Ha; eauto | by apply E4 in Ha].
Qed.

Lemma srv_le_stop k s : srv_le s (stopPump k s).
Proof.
  destruct (stopPump_fields k s) as (_ & E0 & _ & E & _ & E2 & E3 & E4 & _). apply srv_le_same; auto. by rewrite E0.
Qed.

Lemma srv_le_Close order s : srv_le s (ss_Close order s).
Proof.
  unfold ss_Close. destruct (ss_closed s); [done|].
  set (s1 := match ss_pump s with Some k => stopPump k (ss_set_closed s) | None => ss_set_closed s end).
  assert (srv_le s s1).
  { eapply (srv_le_trans _ (ss_set_closed s)); [by apply srv_le_same; auto|]. unfold s1.
    destruct (ss_pump s); [apply srv_le_stop | done]. }
  destruct (stopAll_fields (order (ss_subs s)) s1) as (_ & E0 & _ & E & _ & E2 & E3 & E4 & _).
  eapply srv_le_trans; [done|]. apply srv_le_same; auto. by rewrite E0.
Qed.

(** A new pump whose callback has a proper name. *)
Lemma srv_le_newPump cb s :
  sub_ok s -> (forall id n, cb = ExitSub id n -> has_at id = true) ->
  (forall id n k a, ss_accept s = AcceptAdding id n k a -> ss_callbacks s !! k = Some (ExitSub id n)) ->
  ss_callbacks s ⊆ <[ss_next s := cb]> (ss_callbacks s) /\ sub_ok (ss_newPump cb s).
Proof.
  intros [] Hcb Ha.
  assert (Hn : ss_callbacks s !! ss_next s = None).
  { destruct (ss_callbacks s !! ss_next s) eqn:E; [|done]. apply sub_cbs0 in E. lia. }
  split; [by apply insert_subseteq|]. split; cbn.
  - intros k cb'. rewrite lookup_insert_Some. intros [[<- _]|[_ H]]; [lia|]. apply sub_cbs0 in H. lia.
  - intros k id n. rewrite lookup_insert_Some. intros [[_ E]|[_ H]]; eauto.
  - intros id n k a H. apply Ha in H. rewrite lookup_insert_ne; [done|]. intros <-. congruence.
  - done.
Qed.

Lemma srv_le_install peer s : sub_ok s -> srv_le s (install peer s).1.
Proof.
  intros Hs. destruct (srv_le_newPump ExitAdopted s Hs) as [Hsub Hok]; [done | by apply Hs|].
  split_and!; [done | done|]. intros _. destruct Hok. by split.
Qed.

Lemma srv_le_accept a s s' r :
  sub_ok s -> acceptLoop a s = Some (s', r) -> srv_le s s'.
Proof.
  intros Hs. unfold acceptLoop.
  assert (H1 : forall kick, srv_le s (adopt1 (peerString a) kick s).1).
  { intros kick. unfold adopt1. destruct (ss_closed s); [done|]. destruct (ss_pump s) as [old|]; [|by apply srv_le_install].
    destruct kick; cbn; [|done]. eapply srv_le_trans; [apply (srv_le_same s (ss_port None (ss_peer s) s)); auto|].
    eapply srv_le_trans; [apply (srv_le_stop old)|]. apply srv_le_same; auto. }
  assert (H3 : forall kick, Some (adopt1 (peerString a) kick s) = Some (s', r) -> srv_le s s').
  { intros kick E. injection E as E. specialize (H1 kick). by rewrite E in H1. }
  case_bool_decide; [apply H3|]. case_bool_decide; [apply H3|]. case_bool_decide.
  - unfold addSub1. destruct (ss_closed s); [by intros [= <- _]|].
    assert (Hnamed : forall n p anon x, match ss_subs s !! (ss_id s +:+ "@" +:+ p) with
        | Some _ => (s, Refused)
        | None => (ss_set_accept (AcceptAdding (ss_id s +:+ "@" +:+ p) n (ss_next s) (ss_attrs s))
            (ss_set_subs (<[ss_id s +:+ "@" +:+ p:=ss_next s]> (ss_subs s)) anon
              (ss_newPump (ExitSub (ss_id s +:+ "@" +:+ p) n) s)), Pending) end = x -> srv_le s x.1).
    { intros n p anon x <-. destruct (ss_subs s !! _); [done|]. cbn [fst].
      destruct (srv_le_newPump (ExitSub (ss_id s +:+ "@" +:+ p) n) s Hs) as [Hsub []];
        [intros ? ? [= <- _]; apply has_at_app | by apply Hs|].
      split_and!; [done | done|]. intros _. split; [done | done| |]; cbn.
      - intros id n' k a' [= <- <- <- _]. by rewrite lookup_insert_eq.
      - intros id k. rewrite lookup_insert_Some. intros [[<- _]|[_ Hk]]; [apply has_at_app | by eapply sub_keys]. }
    destruct (is_empty (peerString a)).
    + destruct (allocAnon (ss_anon s)) as [n|]; [|done]. cbn [mbind option_bind]. intros [= E]. apply Hnamed in E. exact E.
    + intros [= E]. apply Hnamed in E. exact E.
  - intros [= <- _]. done.
Qed.

Lemma srv_le_adopt2 peer s : sub_ok s -> srv_le s (adopt2 peer s).1.
Proof.
  intros Hs. unfold adopt2. destruct (_ || _); [|by apply srv_le_install]. apply srv_le_same; auto.
Qed.

Lemma srv_le_addSub2 subID n k a s sw : srv_le s (addSub2 subID n k a s sw).1.1.1.
Proof.
  unfold addSub2. destruct (AddPort subID a sw) as [[sw' [e|]] fx]; cbn; apply srv_le_same; auto.
  intros id k'. cbn. rewrite lookup_delete_Some. tauto.
Qed.

Lemma srv_le_runExit k s sw : srv_le s (runExit k s sw).1.1.
Proof.
  unfold runExit. destruct (ss_callbacks s !! k) as [[|id n]|]; [| |done].
  2:{ destruct (RemovePort id sw). apply srv_le_same; auto. intros i j. cbn. rewrite lookup_delete_Some. tauto. }
  destruct (ss_pump s) as [j|]; [|done]. destruct (negb _); [|done]. destruct (NotifyDown _ sw). apply srv_le_same; auto.
Qed.

Lemma srv_le_attrs attrs s : srv_le s (ss_set_attrs attrs s).
Proof. apply srv_le_same; auto. Qed.

(** Steps a transport takes on its own. *)
Lemma transport_step_le p p' : tp_ok p -> transport_step p p' -> tp_le p p' /\ tp_ok p'.
Proof.
  intros Hp Hs. destruct Hs as [frame p|p|p|a s s' r Hi Ha|peer s Hk|k s Hk|a d s s' r Hr].
  - split; [|done]. split; [|done]. unfold pp_Send. destruct (pp_attached p); [|done]. by destruct (send frame (pp_pump p)).
  - split; [|done]. split; [|done]. unfold vp_accept1. destruct (vp_closed p); [done|]. destruct (vp_dev p); [|done].
    by destruct (bool_decide _).
  - done.
  - destruct (srv_le_tp s s') as [? Hok]; [by eapply srv_le_accept|]. split; [done|]. by apply Hok.
  - destruct (srv_le_tp s (adopt2 peer s).1) as [? Hok]; [by apply srv_le_adopt2|]. split; [done|]. by apply Hok.
  - destruct (srv_le_tp s (stopPump k s)) as [? Hok]; [by apply srv_le_stop|]. split; [done|]. by apply Hok.
  - split; [|done]. split; [|done]. unfold ds_rx in Hr. destruct (ds_peer s), a; [destruct (negb _); [destruct (bool_decide _)|]|..]; by simplify_eq.
Qed.

Lemma portClose_le od p : tp_le p (portClose od p).1.1 /\ (tp_ok p -> tp_ok (portClose od p).1.1).
Proof.
  destruct p as [p|p|p|s|s]; cbn [portClose].
  - split; [|destruct (pp_Close p) as [[? ?] ?]; done]. split; [|done]. rewrite pp_Close_eq. destruct (pp_attached p); [|done].
    unfold pp_stop. by destruct (stop (pp_pump p)).
  - unfold xp_Close. by destruct (xp_closed p).
  - unfold vp_Close. by destruct (vp_closed p).
  - apply srv_le_tp, srv_le_Close.
  - unfold ds_Close. by destruct (ds_closed s).
Qed.

(** * Steps that leave the registries alone *)

(** What a record is about: its object and its name. *)
Definition rec_key (r : portRecord) : nat * string := (pr_port r, pq_Identifier (pr_req r)).

(** The policy the switch enforces on a port. *)
Definition policy_of (id : string) (sw : Switch) : option (Z * bool * option bytes) := policy <$> PortAttrs_of id sw.

Lemma policy_of_heap id sw sw' :
  SwitchState.ports sw' = SwitchState.ports sw -> (forall l, (policy ∘ pe_attrs) <$> heap sw' !! l = (policy ∘ pe_attrs) <$> heap sw !! l) ->
  policy_of id sw' = policy_of id sw.
Proof.
  intros Hp Hh. unfold policy_of, PortAttrs_of, entry_of. rewrite Hp. destruct (SwitchState.ports sw !! id) as [l|]; [|done]. cbn.
  specialize (Hh l). destruct (heap sw' !! l), (heap sw !! l); cbn in *; congruence.
Qed.

(** What a step leaves alone; [T] says which ports it may configure. *)
Record mframe_by (T : string -> Prop) (m m' : Manager) : Prop := {
  mf_ports : SwitchState.ports (mg_sw m') = SwitchState.ports (mg_sw m);
  mf_next : nextLoc (mg_sw m') = nextLoc (mg_sw m);
  mf_stopped : SwitchState.stopped (mg_sw m') = SwitchState.stopped (mg_sw m);
  mf_down : downCB (mg_sw m') = downCB (mg_sw m);
  mf_sw : switch_ok (mg_sw m) -> switch_ok (mg_sw m');
  mf_of : mg_of m' = mg_of m;
  mf_recs : rec_key <$> mg_ports m' = rec_key <$> mg_ports m;
  mf_gateways : mg_gateways m' = mg_gateways m;
  mf_nextobj : (mg_next m <= mg_next m')%nat;
  mf_fresh : forall o, is_Some (mg_transports m' !! o) \/ is_Some (mg_gws m' !! o) ->
    is_Some (mg_transports m !! o) \/ is_Some (mg_gws m !! o) \/ (mg_next m <= o < mg_next m')%nat;
  mf_tp : forall o p, mg_transports m !! o = Some p -> exists p', mg_transports m' !! o = Some p' /\ tp_le p p';
  mf_tp_ok : (forall o p, mg_transports m !! o = Some p -> tp_ok p) -> forall o p, mg_transports m' !! o = Some p -> tp_ok p;
  mf_gw : forall o g, mg_gws m !! o = Some g -> exists g', mg_gws m' !! o = Some g' /\ g_cfg g' = g_cfg g;
  mf_policy : forall id, ~ T id -> policy_of id (mg_sw m') = policy_of id (mg_sw m) /\ mg_ports m' !! id = mg_ports m !! id
}.
Arguments mf_ports {T} _ _ _.
Arguments mf_next {T} _ _ _.
Arguments mf_stopped {T} _ _ _.
Arguments mf_down {T} _ _ _.
Arguments mf_sw {T} _ _ _ _.
Arguments mf_of {T} _ _ _.
Arguments mf_recs {T} _ _ _.
Arguments mf_gateways {T} _ _ _.
Arguments mf_nextobj {T} _ _ _.
Arguments mf_fresh {T} _ _ _ _ _.
Arguments mf_tp {T} _ _ _ _ _ _.
Arguments mf_tp_ok {T} _ _ _ _ _ _ _.
Arguments mf_gw {T} _ _ _ _ _ _.
Arguments mf_policy {T} _ _ _ _ _.

Abbreviation mframe := (mframe_by (fun _ => False)).

Lemma mframe_refl {T} m : mframe_by T m m.
Proof. split; eauto using tp_le_refl. tauto. Qed.

Lemma mframe_trans {T} m1 m2 m3 : mframe_by T m1 m2 -> mframe_by T m2 m3 -> mframe_by T m1 m3.
Proof.
  intros [] []. split; try congruence; try lia; auto.
  - intros o Ho. destruct (mf_fresh1 o Ho) as [H|[H|H]]; [| |lia].
    + destruct (mf_fresh0 o) as [?|[?|?]]; auto. lia.
    + destruct (mf_fresh0 o) as [?|[?|?]]; auto. lia.
  - intros o p Hp. destruct (mf_tp0 o p Hp) as (p' & Hp' & ?). destruct (mf_tp1 o p' Hp') as (p'' & ? & ?).
    eauto using tp_le_trans.
  - intros H. apply mf_tp_ok1, mf_tp_ok0, H.
  - intros o g Hg. destruct (mf_gw0 o g Hg) as (g' & Hg' & ?). destruct (mf_gw1 o g' Hg') as (g'' & ? & ?).
    exists g''. split; congruence.
  - intros id Hid. destruct (mf_policy0 id Hid), (mf_policy1 id Hid). split; congruence.
Qed.

Lemma mframe_transport o p p' m :
  mg_transports m !! o = Some p -> tp_le p p' -> (tp_ok p -> tp_ok p') -> mframe m (set_transport o p' m).
Proof.
  intros Hp Hle Hok. split; cbn; auto.
  - intros o'. rewrite lookup_insert. case_decide; subst; [eauto|]. tauto.
  - intros o' q Hq. rewrite lookup_insert. case_decide; subst; [|eauto using tp_le_refl]. simplify_eq. eauto.
  - intros H o' q. rewrite lookup_insert. case_decide; subst; [|eauto]. intros [= <-]. eauto.
  - eauto.
Qed.

Lemma mframe_gw o g g' m : mg_gws m !! o = Some g -> g_cfg g' = g_cfg g -> mframe m (set_gw o g' m).
Proof.
  intros Hg Hc. split; cbn; eauto using tp_le_refl.
  - intros o'. rewrite (lookup_insert _ o o'). case_decide; subst; [eauto|]. tauto.
  - intros o' h Hh. rewrite lookup_insert. case_decide; subst; [|eauto]. simplify_eq. eauto.
Qed.

Lemma mframe_sw sw m :
  SwitchState.ports sw = SwitchState.ports (mg_sw m) -> nextLoc sw = nextLoc (mg_sw m) ->
  SwitchState.stopped sw = SwitchState.stopped (mg_sw m) -> downCB sw = downCB (mg_sw m) ->
  (switch_ok (mg_sw m) -> switch_ok sw) -> (forall id, policy_of id sw = policy_of id (mg_sw m)) -> mframe m (set_sw sw m).
Proof. intros. split; cbn; eauto using tp_le_refl. tauto. Qed.

Lemma mframe_exits ex m : mframe m (set_exits ex m).
Proof. split; cbn; eauto using tp_le_refl. tauto. Qed.

Lemma mframe_deletes ds m : mframe m (set_deletes ds m).
Proof. split; cbn; eauto using tp_le_refl. tauto. Qed.

Definition objects_fresh (m : Manager) : Prop :=
  forall o, is_Some (mg_transports m !! o) \/ is_Some (mg_gws m !! o) -> (o < mg_next m)%nat.

Lemma objects_fresh_transport m : objects_fresh m -> mg_transports m !! mg_next m = None.
Proof. intros H. apply eq_None_not_Some. intros Hs. specialize (H (mg_next m) (or_introl Hs)). lia. Qed.

Lemma objects_fresh_gw m : objects_fresh m -> mg_gws m !! mg_next m = None.
Proof. intros H. apply eq_None_not_Some. intros Hs. specialize (H (mg_next m) (or_intror Hs)). lia. Qed.

Lemma mframe_alloc_transport p m : objects_fresh m -> tp_ok p -> mframe m (alloc_transport p m).
Proof.
  intros Hf Hp. pose proof (objects_fresh_transport m Hf). split; cbn; eauto.
  - intros o. rewrite lookup_insert. case_decide; [lia|]. tauto.
  - intros o q Hq. exists q. rewrite lookup_insert_ne; [eauto using tp_le_refl | congruence].
  - intros H' o q. rewrite lookup_insert. case_decide; [by intros [= <-]|]. eauto.
Qed.

Lemma mframe_alloc_gw g m : objects_fresh m -> mframe m (alloc_gw g m).
Proof.
  intros Hf. pose proof (objects_fresh_gw m Hf). split; cbn; eauto using tp_le_refl.
  - intros o. rewrite (lookup_insert _ (mg_next m) o). case_decide; [lia|]. tauto.
  - intros o h Hh. exists h. rewrite lookup_insert_ne; [done | congruence].
Qed.

(** ** What effects do *)

Section effects.
Context (od : MgrOrders).

Lemma mframe_closeTransport o m : mframe m (closeTransport od o m).1.
Proof.
  unfold closeTransport. destruct (mg_transports m !! o) as [p|] eqn:E; [|apply mframe_refl].
  destruct (portClose_le od p) as [Hle Hok]. destruct (portClose od p) as [[p' fx] exit]. cbn in *.
  eapply mframe_trans; [by eapply mframe_transport|]. apply mframe_exits.
Qed.

Lemma mframe_closeSub o k m : mframe m (closeSub o k m).
Proof.
  unfold closeSub. destruct (mg_transports m !! o) as [[| | |s|]|] eqn:E; try apply mframe_refl.
  eapply mframe_transport; [done|..]; apply srv_le_tp, srv_le_stop.
Qed.

Lemma mframe_closeGateway o m : mframe m (closeGateway od o m).1.
Proof.
  unfold closeGateway. destruct (mg_gws m !! o) as [g|] eqn:E; [|apply mframe_refl].
  unfold g_Close. destruct (g_done g); cbn; [by eapply mframe_gw|].
  destruct (closeForwards (mo_fwd od) (g_forwards g)). cbn. by eapply mframe_gw.
Qed.

Lemma mframe_closeObj l m : mframe m (closeObj od l m).1.
Proof.
  unfold closeObj. destruct (mg_of m !! l) as [[o|o k|o]|]; cbn [fst];
    auto using mframe_refl, mframe_closeTransport, mframe_closeSub, mframe_closeGateway.
Qed.

Lemma mframe_gatewaysDown id m : mframe m (gatewaysDown od id m).
Proof.
  unfold gatewaysDown. generalize (mo_gateways od (mg_gateways m)). intros l. revert m.
  induction l as [|kv l IH]; intros m; cbn [foldl]; [apply mframe_refl|].
  eapply mframe_trans; [|apply IH]. destruct (mg_gws m !! gr_gw kv.2) eqn:E; [|apply mframe_refl]. by eapply mframe_gw.
Qed.

Lemma mframe_downHook id m : mframe m (downHook od id m).
Proof.
  unfold downHook. eapply mframe_trans; [apply (mframe_gatewaysDown id)|].
  case_match; [apply mframe_deletes | apply mframe_refl].
Qed.

Lemma mframe_runEffects es : forall m, mframe m (runEffects od es m).1.
Proof.
  induction es as [|e es IH]; intros m; cbn [runEffects]; [apply mframe_refl|].
  assert (H : mframe m (runEffect od e m).1).
  { destruct e; cbn; auto using mframe_refl, mframe_closeObj, mframe_downHook. }
  destruct (runEffect od e m) as [m1 fx]. cbn in H. specialize (IH m1). destruct (runEffects od es m1) as [m2 fx']. cbn in *.
  by eapply mframe_trans.
Qed.

Lemma mframe_notify id m : mframe m (notify od id m).1.
Proof.
  unfold notify. cbn [NotifyDown portDown]. eapply mframe_trans; [|apply mframe_runEffects].
  apply mframe_sw; try done. intros Hok. eapply (switch_ok_step _ _ _ Hok). by eapply (step_NotifyDown _ id).
Qed.

(** ** Goroutines *)

Lemma mframe_pumpFails o m : mframe m (pumpFails o m).
Proof.
  unfold pumpFails. destruct (mg_transports m !! o) as [[p| | | |]|] eqn:E; try apply mframe_refl.
  unfold pp_stop. destruct (stop (pp_pump p)). eapply mframe_trans; [|apply mframe_exits]. by eapply mframe_transport.
Qed.

Lemma mframe_pumpExit o m : mframe m (pumpExit od o m).1.
Proof.
  unfold pumpExit. destruct (mg_transports m !! o) as [[p| | | |]|] eqn:E; try apply mframe_refl.
  eapply mframe_trans; [|apply mframe_notify]. by eapply mframe_transport.
Qed.

Lemma mframe_xdpLost o m : mframe m (xdpLost od o m).1.
Proof.
  unfold xdpLost. destruct (mg_transports m !! o) as [[|p| | |]|] eqn:E; try apply mframe_refl.
  assert (Hid : xp_id (linkGone p).1.1 = xp_id p).
  { unfold linkGone. destruct (xp_closed p) eqn:Ec; [done|]. unfold xp_Close. by rewrite Ec. }
  destruct (linkGone p) as [[p' fx] down]. cbn in Hid.
  assert (Hf : mframe m (set_transport o (MXdp p') m)) by by eapply mframe_transport.
  destruct down; [|done]. pose proof (mframe_notify (xp_id p') (set_transport o (MXdp p') m)) as Hn.
  destruct (notify od (xp_id p') (set_transport o (MXdp p') m)). cbn in *. by eapply mframe_trans.
Qed.

Lemma mframe_vhostReport o n up m : mframe m (vhostReport od o n up m).1.
Proof.
  unfold vhostReport. destruct (mg_transports m !! o) as [[| |p| |]|] eqn:E; try apply mframe_refl.
  assert (Hid : vp_id (vp_State n up p).1 = vp_id p) by (unfold vp_State; by destruct (negb _)).
  destruct (vp_State n up p) as [p' fx]. cbn in Hid.
  assert (Hf : mframe m (set_transport o (MVhost p') m)) by by eapply mframe_transport.
  destruct fx; [done|]. eapply mframe_trans; [done|]. apply mframe_notify.
Qed.

(** ** Methods *)

Lemma mframe_on_sw x m :
  (exists fx, sw_step (mg_sw m) fx x.1) -> SwitchState.ports x.1 = SwitchState.ports (mg_sw m) ->
  nextLoc x.1 = nextLoc (mg_sw m) -> SwitchState.stopped x.1 = SwitchState.stopped (mg_sw m) -> downCB x.1 = downCB (mg_sw m) ->
  heap x.1 = heap (mg_sw m) -> mframe m (on_sw x m).1.
Proof.
  intros [fx Hs] ? ? ? ? Hh. apply mframe_sw; try done; [intros Hok; by eapply switch_ok_step|].
  intros id. apply policy_of_heap; [done|]. by rewrite Hh.
Qed.

Lemma mframe_badMac (k : bytes -> Manager * option goerr) mac m :
  (forall hw, mframe m (k hw).1) -> mframe m (badMac k (fun e => (m, Some e)) mac).1.
Proof. intros H. unfold badMac. destruct (ParseMAC mac); [apply H | apply mframe_refl]. Qed.

Lemma gateway_Ok vlan m rec g :
  gateway vlan m = Ok (rec, g) <-> mg_gateways m !! vlan = Some rec /\ mg_gws m !! gr_gw rec = Some g.
Proof.
  unfold gateway. destruct (mg_gateways m !! vlan) as [r|]; [|by split; [|intros [? ?]]].
  destruct (mg_gws m !! gr_gw r) as [h|] eqn:E.
  - split; [by intros [= <- <-]|]. intros [[= ->] E2]. congruence.
  - split; [done|]. intros [[= ->] E2]. congruence.
Qed.

Lemma mframe_on_dhcp family vlan m op4 op6 : mframe m (on_dhcp family vlan m op4 op6).1.
Proof.
  unfold on_dhcp. destruct (gateway vlan m) as [[rec g]|] eqn:E; [|apply mframe_refl].
  apply gateway_Ok in E as [_ E]. destruct (family =? 4).
  - destruct (op4 _ _). by eapply mframe_gw.
  - destruct (op6 _ _). by eapply mframe_gw.
Qed.

Lemma mframe_setDHCP family vlan c m : mframe m (setDHCP family vlan c m).1.
Proof.
  unfold setDHCP. destruct (gateway vlan m); [|apply mframe_refl].
  destruct (dhcpConfig c); [apply mframe_on_dhcp | apply mframe_refl].
Qed.
End effects.

Lemma UpdatePortAttrs_fields id attrs sw :
  let sw' := (UpdatePortAttrs id attrs sw).1.1 in
  SwitchState.ports sw' = SwitchState.ports sw /\ nextLoc sw' = nextLoc sw /\ SwitchState.stopped sw' = SwitchState.stopped sw /\
  downCB sw' = downCB sw.
Proof.
  unfold UpdatePortAttrs. destruct (validate attrs); [done|]. destruct (SwitchState.ports sw !! id); [|done]. cbn.
  by destruct (negb _), (_ && _).
Qed.

Lemma UpdatePortAttrs_at id attrs sw id' :
  switch_ok sw -> validate attrs = None ->
  PortAttrs_of id' (UpdatePortAttrs id attrs sw).1.1 =
    (if bool_decide (id' = id) then (fun _ => attrs) <$> PortAttrs_of id' sw else PortAttrs_of id' sw).
Proof.
  intros Hok Hv. unfold UpdatePortAttrs. rewrite Hv. destruct (SwitchState.ports sw !! id) as [l|] eqn:Hl.
  2: { cbn. case_bool_decide; [subst|done]. unfold PortAttrs_of. by rewrite Hl. }
  cbv zeta. cbn [fst]. unfold PortAttrs_of. set (sw1 := if Disabled _ && _ then upd l _ sw else sw).
  assert (H1 : SwitchState.ports sw1 = SwitchState.ports sw /\ forall l', pe_attrs <$> heap sw1 !! l' = pe_attrs <$> heap sw !! l').
  { subst sw1. destruct (_ && _); [|done]. split; [done|]. intros l'. cbn. rewrite lookup_alter. case_decide; [subst|done].
    by destruct (heap sw !! _). }
  assert (H2 : forall b : bool, let s := if b then with_fdb (flushPort (sfdb (upd l (set_attrs attrs) sw1)) id) (upd l (set_attrs attrs) sw1)
      else upd l (set_attrs attrs) sw1 in
    SwitchState.ports s = SwitchState.ports sw /\
    forall l', pe_attrs <$> heap s !! l' = if bool_decide (l' = l) then (fun _ => attrs) <$> heap sw !! l' else pe_attrs <$> heap sw !! l').
  { destruct H1 as [Hp Hh]. intros b. assert (forall l', pe_attrs <$> alter (set_attrs attrs) l (heap sw1) !! l' =
      if bool_decide (l' = l) then (fun _ => attrs) <$> heap sw !! l' else pe_attrs <$> heap sw !! l').
    { intros l'. specialize (Hh l'). rewrite lookup_alter. case_decide; subst.
      - rewrite bool_decide_true by done. destruct (heap sw1 !! l') as [x|], (heap sw !! l') as [y|]; by cbn in *.
      - by rewrite bool_decide_false. }
    by destruct b; cbn. }
  specialize (H2 (negb (VLAN (pe_attrs (entry_of sw l)) =? VLAN attrs))). destruct H2 as [-> Hh].
  unfold entry_of. destruct (SwitchState.ports sw !! id') as [l'|] eqn:Hl'; [|by case_bool_decide]. cbn.
  destruct (ok_reg _ Hok _ _ Hl) as (e & He & Hid & _). destruct (ok_reg _ Hok _ _ Hl') as (e' & He' & Hid' & _).
  specialize (Hh l'). rewrite He' in Hh |- *. destruct (heap _ !! l') as [x|]; [|by destruct (bool_decide _)]. cbn in *.
  case_bool_decide; case_bool_decide; cbn in *; congruence.
Qed.

Lemma UpdatePortAttrs_other id attrs sw id' :
  switch_ok sw -> id' <> id -> policy_of id' (UpdatePortAttrs id attrs sw).1.1 = policy_of id' sw.
Proof.
  intros Hok Hne. destruct (validate attrs) eqn:Hv; [unfold UpdatePortAttrs; by rewrite Hv|].
  unfold policy_of. by rewrite (UpdatePortAttrs_at id attrs sw id' Hok Hv), bool_decide_false.
Qed.

Lemma mframe_UpdatePortAttrs id attrs m : switch_ok (mg_sw m) -> mframe_by (eq id) m (set_sw (UpdatePortAttrs id attrs (mg_sw m)).1.1 m).
Proof.
  intros Hok. destruct (UpdatePortAttrs_fields id attrs (mg_sw m)) as (? & ? & ? & ?). split; cbn; eauto using tp_le_refl; try tauto.
  - apply switch_ok_UpdatePortAttrs.
  - intros id' Hne. split; [|done]. apply UpdatePortAttrs_other; [done | congruence].
Qed.

Lemma mframe_patchSwitch id attrs m : switch_ok (mg_sw m) -> mframe_by (eq id) m (patchSwitch id attrs m).1.
Proof.
  intros Hok. pose proof (mframe_UpdatePortAttrs id attrs m Hok) as H. unfold patchSwitch.
  by destruct (UpdatePortAttrs id attrs (mg_sw m)) as [[sw e] fx].
Qed.

Lemma mframe_patchServer o attrs m : mframe m (patchServer o attrs m).
Proof.
  unfold patchServer. destruct (mg_transports m !! o) as [[| | |s|]|] eqn:E; try apply mframe_refl.
  eapply mframe_transport; [done|..]; apply srv_le_tp, srv_le_attrs.
Qed.

Lemma mframe_set_ports id rec req m :
  mg_ports m !! id = Some rec -> pq_Identifier req = pq_Identifier (pr_req rec) ->
  mframe_by (eq id) m (set_ports (<[id := mkPortRecord req (pr_port rec)]> (mg_ports m)) m).
Proof.
  intros Hr Hi. split; cbn; eauto using tp_le_refl; try tauto.
  - rewrite fmap_insert. apply insert_id. rewrite lookup_fmap, Hr. cbn. unfold rec_key. cbn. by rewrite Hi.
  - intros id' Hne. by rewrite lookup_insert_ne.
Qed.

Lemma mframe_patchRecord id o attrs m : mframe_by (eq id) m (patchRecord id o attrs m).
Proof.
  unfold patchRecord. destruct (mg_ports m !! id) as [rec|] eqn:E; [|apply mframe_refl].
  case_bool_decide; [subst o | apply mframe_refl]. by apply mframe_set_ports.
Qed.

(** The methods that are one step. *)
Lemma frame_api_step m m' : api_step m m' -> mframe m m'.
Proof.
  destruct 1.
  - apply mframe_badMac. intros hw. apply mframe_on_sw; [eexists; eapply step_DeleteFDBEntry, surjective_pairing|..];
      unfold DeleteFDBEntry; destruct (macKey hw); try done; by destruct (removeDynamic _ _ _).
  - unfold m_FlushFDB. destruct (FlushFDB (fl_Port req) (fl_VLAN req) (mg_sw m)) as [sw n] eqn:E. cbn [fst].
    unfold FlushFDB in E. destruct (flush _ _ _) as [f k] eqn:Ef. injection E as <- <-. apply mframe_sw; try done.
    intros Hok. eapply switch_ok_step; [done|]. eapply (step_FlushFDB _ (fl_Port req) (fl_VLAN req)). unfold FlushFDB. by rewrite Ef.
  - apply mframe_badMac. intros hw. apply mframe_on_sw; [eexists; eapply step_AddStaticFDB, surjective_pairing|..];
      unfold AddStaticFDB; repeat case_match; done.
  - apply mframe_badMac. intros hw. apply mframe_on_sw; [eexists; eapply step_RemoveStaticFDB, surjective_pairing|..];
      unfold RemoveStaticFDB; destruct (macKey hw); try done; by destruct (removeStatic _ _ _).
  - apply mframe_on_sw; [eexists; eapply step_SetFDBMaxAge, surjective_pairing|..]; unfold SetFDBMaxAge; by case_match.
  - unfold SetSTP. cbn [fst]. match goal with |- mframe m (set_sw (SetSTPConfig ?rg ?c _) m) =>
      pose proof (switch_ok_SetSTPConfig rg c (mg_sw m)) as Hs; pose proof (evolves_SetSTPConfig rg c (mg_sw m) H) as [] end.
    apply mframe_sw; auto. intros id. apply policy_of_heap; [done|]. intros l.
    destruct (ev_heap l) as [e e' (_ & _ & _ & Hp)|]; cbn; congruence.
  - unfold m_AddForward. destruct (gateway vlan m) as [[rec g]|] eqn:E; [|apply mframe_refl]. apply gateway_Ok in E as [_ E].
    destruct (AddForward _ _ _ _ _ _) as [[? ?] ?]. by eapply mframe_gw.
  - unfold m_DeleteForward. destruct (gateway vlan m) as [[rec g]|] eqn:E; [|apply mframe_refl]. apply gateway_Ok in E as [_ E].
    destruct (DeleteForward _ _) as [[? ?] ?]. by eapply mframe_gw.
  - unfold m_ReplaceForwards. destruct (gateway vlan m) as [[rec g]|] eqn:E; [|apply mframe_refl]. apply gateway_Ok in E as [_ E].
    destruct (ReplaceForwards _ _ _ _ _ _) as [[? [? ?]] ?]. by eapply mframe_gw.
  - apply mframe_setDHCP.
  - unfold PutDHCPStatic. destruct (gateway vlan m); [|apply mframe_refl].
    destruct (staticToGateway b); [apply mframe_on_dhcp | apply mframe_refl].
  - unfold ReplaceDHCPStatic. destruct (gateway vlan m); [|apply mframe_refl].
    destruct (staticsToGateway bs); [apply mframe_on_dhcp | apply mframe_refl].
  - apply mframe_on_dhcp.
  - unfold DeleteDHCPLease. destruct (gateway vlan m); [|apply mframe_refl].
    destruct (wrapErr _ _); [apply mframe_on_dhcp | apply mframe_refl].
  - unfold SetSLAAC. destruct (gateway vlan m) as [[rec g]|] eqn:E; [|apply mframe_refl]. apply gateway_Ok in E as [_ E].
    destruct (slaacConfig c); [|apply mframe_refl]. destruct (ra_SetConfig _ _ _). by eapply mframe_gw.
Qed.

(** * The invariant *)

Definition open (m : Manager) : Prop := SwitchState.stopped (mg_sw m) = false.

(** Port [id] of the switch is the object [x]. *)
Definition reg (m : Manager) (id : string) (x : portObj) : Prop :=
  exists l, SwitchState.ports (mg_sw m) !! id = Some l /\ mg_of m !! l = Some x.

(** The object is there and has that name. *)
Definition named (m : Manager) (id : string) (x : portObj) : Prop :=
  match x with
  | OPort o => exists p, mg_transports m !! o = Some p /\ portID p = id
  | OSub o k => exists s n, mg_transports m !! o = Some (MStream s) /\ ss_callbacks s !! k = Some (ExitSub id n)
  | OGateway o => exists g, mg_gws m !! o = Some g /\ ID g = id
  end.

(** The records name object [x] under [id]. *)
Definition recorded (m : Manager) (id : string) (x : portObj) : Prop :=
  match x with
  | OPort o => exists rec, mg_ports m !! id = Some rec /\ pr_port rec = o
  | OSub _ _ => False
  | OGateway o => exists vlan rec, mg_gateways m !! vlan = Some rec /\ gr_gw rec = o /\ id = gatewayPortID vlan
  end.

(** No record has the name [id]. *)
Definition unrecorded (m : Manager) (id : string) : Prop :=
  mg_ports m !! id = None /\ forall vlan, gatewayPortID vlan = id -> mg_gateways m !! vlan = None.

(** The object a call under way will register, or has registered, or will
    unregister, with its name. *)
Definition pend_obj (p : pending) : option (string * portObj) :=
  match p with
  | PortBuilt req o _ | PortAdded req o => Some (pq_Identifier req, OPort o)
  | GatewayBuilt req o | GatewayAdded req o => Some (gatewayPortID (gq_VLAN req), OGateway o)
  | PortDeleting id o => Some (id, OPort o)
  | GatewayDeleting vlan rec => Some (gatewayPortID vlan, OGateway (gr_gw rec))
  | _ => None
  end.

(** The object a call under way answers for: registered, and not recorded. *)
Definition pend_holds (p : pending) : option (string * portObj) :=
  match p with PortBuilt _ _ _ | GatewayBuilt _ _ => None | _ => pend_obj p end.

Lemma holds_obj p y : pend_holds p = Some y -> pend_obj p = Some y.
Proof. by destruct p. Qed.

Definition pend_name (p : pending) : option string := fst <$> pend_holds p.

Definition answered (ps : list pending) (id : string) (x : portObj) : Prop :=
  exists p, p ∈ ps /\ pend_holds p = Some (id, x).

(** Who answers for a registered port: a record, a creation or deletion under
    way, or the server of a connection. *)
Definition accounted (s : System) (id : string) (x : portObj) : Prop :=
  match x with
  | OSub _ _ => has_at id = true
  | _ => recorded (sy_m s) id x \/ answered (sy_pending s) id x
  end.

Definition valid_vlan (vlan : Z) : Prop := 0 <= vlan <= 4094.

Definition port_named (m : Manager) (id : string) (o : nat) : Prop :=
  ValidateIdentifier id = None /\ named m id (OPort o) /\ id <> EmptyString.

Definition valid_name (id : string) (x : portObj) : Prop :=
  match x with
  | OPort _ => ValidateIdentifier id = None /\ id <> EmptyString
  | OSub _ _ => False
  | OGateway _ => exists vlan, valid_vlan vlan /\ id = gatewayPortID vlan
  end.

Record pend_ok (m : Manager) (p : pending) : Prop := {
  po_named : forall id x, pend_obj p = Some (id, x) -> valid_name id x /\ named m id x;
  po_reg : forall id x, pend_holds p = Some (id, x) -> open m -> reg m id x /\ unrecorded m id
}.

Record sys_ok (s : System) : Prop := {
  sy_sw : switch_ok (mg_sw (sy_m s));
  sy_down : downCB (mg_sw (sy_m s)) = [0%nat];
  sy_fresh : objects_fresh (sy_m s);
  sy_tp : forall o p, mg_transports (sy_m s) !! o = Some p -> tp_ok p;
  sy_of : forall l x, mg_of (sy_m s) !! l = Some x -> (l < nextLoc (mg_sw (sy_m s)))%nat;
  sy_dom : forall id l, SwitchState.ports (mg_sw (sy_m s)) !! id = Some l -> is_Some (mg_of (sy_m s) !! l);
  sy_named : forall id x, reg (sy_m s) id x -> named (sy_m s) id x;
  sy_recs : forall id rec, mg_ports (sy_m s) !! id = Some rec ->
    pq_Identifier (pr_req rec) = id /\ port_named (sy_m s) id (pr_port rec) /\ (open (sy_m s) -> reg (sy_m s) id (OPort (pr_port rec)));
  sy_gws : forall vlan rec, mg_gateways (sy_m s) !! vlan = Some rec ->
    gq_VLAN (gr_req rec) = vlan /\ valid_vlan vlan /\ named (sy_m s) (gatewayPortID vlan) (OGateway (gr_gw rec)) /\
    (open (sy_m s) -> reg (sy_m s) (gatewayPortID vlan) (OGateway (gr_gw rec)));
  sy_pend : forall p, p ∈ sy_pending s -> pend_ok (sy_m s) p;
  sy_nodup : open (sy_m s) -> NoDup (omap pend_name (sy_pending s));
  sy_acc : open (sy_m s) -> forall id x, reg (sy_m s) id x -> accounted s id x
}.

Lemma reg_fun m id x y : reg m id x -> reg m id y -> x = y.
Proof. intros (l & Hl & Hx) (l' & Hl' & Hy). congruence. Qed.

Lemma gatewayPortID_inj v v' : gatewayPortID v = gatewayPortID v' -> v = v'.
Proof. unfold gatewayPortID, Itoa. by intros ?%(inj (String.append _))%(inj pretty). Qed.

Lemma mframe_reg {T} m m' id x : mframe_by T m m' -> reg m' id x <-> reg m id x.
Proof. intros []. unfold reg. by rewrite mf_ports0, mf_of0. Qed.

Lemma mframe_named {T} m m' id x : mframe_by T m m' -> named m id x -> named m' id x.
Proof.
  intros [] H. destruct x as [o|o k|o]; cbn in *.
  - destruct H as (p & Hp & <-). destruct (mf_tp0 _ _ Hp) as (p' & Hp' & [E _]). eauto.
  - destruct H as (s & n & Hs & Hk). destruct (mf_tp0 _ _ Hs) as (p' & Hp' & [_ (s' & -> & Hsub)]).
    exists s', n. split; [done|]. by eapply lookup_weaken.
  - destruct H as (g & Hg & <-). destruct (mf_gw0 _ _ Hg) as (g' & Hg' & E). exists g'. split; [done|]. unfold ID. by rewrite E.
Qed.

Lemma mframe_rec {T} m m' id : mframe_by T m m' ->
  (forall rec, mg_ports m' !! id = Some rec -> exists rec0, mg_ports m !! id = Some rec0 /\ rec_key rec0 = rec_key rec) /\
  (forall rec0, mg_ports m !! id = Some rec0 -> exists rec, mg_ports m' !! id = Some rec /\ rec_key rec0 = rec_key rec) /\
  (mg_ports m !! id = None -> mg_ports m' !! id = None).
Proof.
  intros []. assert (E : rec_key <$> mg_ports m' !! id = rec_key <$> mg_ports m !! id) by by rewrite <- !lookup_fmap, mf_recs0.
  destruct (mg_ports m' !! id) as [r'|], (mg_ports m !! id) as [r|]; cbn in E; try done.
  apply (inj Some) in E. split_and!; [intros rec [= <-]; by exists r | intros rec [= <-]; by exists r' | done].
Qed.

Lemma mframe_unrecorded {T} m m' id : mframe_by T m m' -> unrecorded m id -> unrecorded m' id.
Proof. intros Hf [H1 H2]. split; [by apply (mframe_rec _ _ id Hf) | by rewrite (mf_gateways _ _ Hf)]. Qed.

Lemma mframe_recorded {T} m m' id x : mframe_by T m m' -> recorded m id x -> recorded m' id x.
Proof.
  intros Hf. destruct x as [o|o k|o]; cbn [recorded]; [|done | by rewrite (mf_gateways _ _ Hf)].
  intros (rec & Hrec & <-). destruct (mframe_rec _ _ id Hf) as (_ & H2 & _). destruct (H2 _ Hrec) as (rec' & ? & E).
  exists rec'. split; [done|]. by injection E.
Qed.

Lemma sys_ok_frame {T} m m' ps : sys_ok (mkSystem m ps) -> mframe_by T m m' -> sys_ok (mkSystem m' ps).
Proof.
  intros Hok Hf. pose proof (fun id => mframe_rec _ _ id Hf) as Hrec.
  assert (Hopen : open m' <-> open m) by (unfold open; by rewrite (mf_stopped _ _ Hf)).
  assert (Hpn : forall id o, port_named m id o -> port_named m' id o).
  { intros id o (? & ? & ?). split_and!; eauto using mframe_named. }
  destruct Hok; cbn [sy_m sy_pending] in *. split; cbn [sy_m sy_pending].
  - by apply Hf.
  - by rewrite (mf_down _ _ Hf).
  - intros o Ho. destruct (mf_fresh _ _ Hf o Ho) as [H|[H|H]]; pose proof (mf_nextobj _ _ Hf); [| |lia];
      assert (o < mg_next m)%nat by auto; lia.
  - by apply Hf.
  - rewrite (mf_of _ _ Hf), (mf_next _ _ Hf). done.
  - rewrite (mf_of _ _ Hf), (mf_ports _ _ Hf). done.
  - intros id x Hr%(mframe_reg _ _ _ _ Hf). eauto using mframe_named.
  - intros id rec Hr. destruct (Hrec id) as (H1 & _ & _). destruct (H1 _ Hr) as (rec0 & Hr0 & E). unfold rec_key in E.
    injection E as E1 E2. destruct (sy_recs0 _ _ Hr0) as (? & ? & Hreg). rewrite <- E1, <- E2, Hopen.
    split_and!; auto. intros Ho. apply (mframe_reg _ _ _ _ Hf). auto.
  - intros vlan rec. rewrite (mf_gateways _ _ Hf). intros Hr. destruct (sy_gws0 _ _ Hr) as (? & ? & ? & Hreg).
    split_and!; eauto using mframe_named; try apply H0. rewrite Hopen. intros Ho. apply (mframe_reg _ _ _ _ Hf). auto.
  - intros p Hp. destruct (sy_pend0 p Hp) as [Hn Hr]. split.
    + intros id x Hx. destruct (Hn _ _ Hx). eauto using mframe_named.
    + intros id x Hx Ho. apply Hopen in Ho. destruct (Hr _ _ Hx Ho).
      split; [by apply (mframe_reg _ _ _ _ Hf) | by eapply mframe_unrecorded].
  - rewrite Hopen. done.
  - rewrite Hopen. intros Ho id x Hr%(mframe_reg _ _ _ _ Hf). specialize (sy_acc0 Ho id x Hr).
    destruct x; cbn [accounted sy_m sy_pending] in *; [|done|]; destruct sy_acc0; eauto using mframe_recorded.
Qed.

(** Records are registered, so a name that is free in the switch is in no record. *)
Lemma recorded_reg m ps id x : sys_ok (mkSystem m ps) -> open m -> recorded m id x -> reg m id x.
Proof.
  intros Hok Ho. destruct x as [o|o k|o]; [|done|].
  - intros (rec & Hr & <-). destruct (sy_recs _ Hok _ _ Hr) as (_ & _ & H). auto.
  - intros (vlan & rec & Hr & <- & ->). destruct (sy_gws _ Hok _ _ Hr) as (_ & _ & _ & H). auto.
Qed.

Lemma not_recorded m id : (forall x, ~ recorded m id x) -> unrecorded m id.
Proof.
  intros H. split; [|intros vlan Hv]; apply eq_None_not_Some; intros [rec Hr].
  - apply (H (OPort (pr_port rec))). by exists rec.
  - apply (H (OGateway (gr_gw rec))). by exists vlan, rec.
Qed.

Lemma free_unrecorded m ps id :
  sys_ok (mkSystem m ps) -> open m -> SwitchState.ports (mg_sw m) !! id = None -> unrecorded m id.
Proof.
  intros Hok Ho Hno. apply not_recorded. intros x Hx. destruct (recorded_reg _ _ _ _ Hok Ho Hx) as (l & Hl & _). congruence.
Qed.

(** ** Registering and unregistering a port *)

Lemma AddPort_ok id attrs sw sw' es :
  AddPort id attrs sw = (sw', None, es) ->
  SwitchState.ports sw !! id = None /\ SwitchState.ports sw' = <[id := nextLoc sw]> (SwitchState.ports sw) /\
  nextLoc sw' = S (nextLoc sw) /\ SwitchState.stopped sw' = SwitchState.stopped sw /\ (switch_ok sw -> switch_ok sw') /\
  es = [ESpawnPortChanged] /\ downCB sw' = downCB sw.
Proof.
  intros E. pose proof (switch_ok_AddPort id attrs sw) as Hok. rewrite E in Hok. unfold AddPort in E.
  destruct (validate attrs); [done|]. case_bool_decide; [done|]. destruct (SwitchState.ports sw !! id) eqn:Hid; [done|].
  simplify_eq. by split_and!.
Qed.

Lemma AddPort_err id attrs sw sw' e es : AddPort id attrs sw = (sw', Some e, es) -> sw' = sw.
Proof.
  unfold AddPort. destruct (validate attrs); [by intros [= <-]|]. case_bool_decide; [by intros [= <-]|].
  destruct (SwitchState.ports sw !! id); [by intros [= <-]|]. done.
Qed.

Lemma RemovePort_fields id sw :
  SwitchState.ports (RemovePort id sw).1 = delete id (SwitchState.ports sw) /\ nextLoc (RemovePort id sw).1 = nextLoc sw /\
  SwitchState.stopped (RemovePort id sw).1 = SwitchState.stopped sw /\ downCB (RemovePort id sw).1 = downCB sw.
Proof.
  unfold RemovePort. destruct (SwitchState.ports sw !! id) eqn:E; cbn; [done|]. split_and!; try done.
  symmetry. by apply delete_id.
Qed.

Lemma named_registered sw x m id y : named (registered sw x m) id y <-> named m id y.
Proof. by destruct y. Qed.

Lemma reg_registered m ps id attrs sw' es x id' y :
  sys_ok (mkSystem m ps) -> AddPort id attrs (mg_sw m) = (sw', None, es) ->
  reg (registered sw' x m) id' y <-> (id' = id /\ y = x) \/ (id' <> id /\ reg m id' y).
Proof.
  intros Hok (Hno & Hp & _)%AddPort_ok. unfold reg, registered. cbn [mg_sw mg_of]. rewrite Hp.
  assert (Hold : forall i l, SwitchState.ports (mg_sw m) !! i = Some l -> l <> nextLoc (mg_sw m)).
  { intros i l Hl. destruct (sy_dom _ Hok i l Hl) as [z Hz]. apply (sy_of _ Hok) in Hz. cbn in Hz. lia. }
  split.
  - intros (l & Hl & Hy). rewrite lookup_insert in Hl. case_decide; simplify_eq.
    + rewrite lookup_insert_eq in Hy. simplify_eq. by left.
    + right. split; [done|]. exists l. rewrite lookup_insert_ne in Hy; [done|]. intros <-. by eapply Hold.
  - intros [[-> ->]|[Hne (l & Hl & Hy)]].
    + exists (nextLoc (mg_sw m)). by rewrite !lookup_insert_eq.
    + exists l. rewrite lookup_insert_ne by done. split; [done|]. rewrite lookup_insert_ne; [done|]. intros <-. by eapply Hold.
Qed.

Lemma sys_ok_register m ps ps' id attrs sw' es x :
  sys_ok (mkSystem m ps) -> AddPort id attrs (mg_sw m) = (sw', None, es) -> named m id x ->
  (forall p, p ∈ ps' -> p ∈ ps \/ pend_ok (registered sw' x m) p) ->
  (open m -> NoDup (omap pend_name ps')) ->
  (forall p, p ∈ ps -> is_Some (pend_holds p) -> p ∈ ps') ->
  (open m -> accounted (mkSystem m ps') id x) ->
  sys_ok (mkSystem (registered sw' x m) ps').
Proof.
  intros Hok HA Hx Hps Hnd Hkeep Hacc.
  pose proof (fun i y => reg_registered _ _ _ _ _ _ x i y Hok HA) as Hreg.
  pose proof (AddPort_ok _ _ _ _ _ HA) as (Hno & Hp & Hn & Hst & Hswok & _ & Hdn).
  assert (Hopen : open (registered sw' x m) <-> open m) by (unfold open, registered; cbn; by rewrite Hst).
  assert (Hup : forall i y, reg m i y -> reg (registered sw' x m) i y).
  { intros i y Hr. apply Hreg. right. split; [|done]. intros ->. destruct Hr as (l & Hl & _). congruence. }
  assert (Hpend : forall p, pend_ok m p -> pend_ok (registered sw' x m) p).
  { intros p [H1 H2]. split; [intros i y; rewrite named_registered; apply H1|].
    intros i y Hy Ho. apply Hopen in Ho. destruct (H2 _ _ Hy Ho). auto. }
  destruct Hok; cbn [sy_m sy_pending] in *. split; cbn [sy_m sy_pending].
  - cbn. auto.
  - cbn. by rewrite Hdn.
  - exact sy_fresh0.
  - exact sy_tp0.
  - intros l y. cbn. rewrite lookup_insert, Hn. case_decide; [lia|]. intros ?%sy_of0. lia.
  - intros i l. cbn. rewrite Hp, lookup_insert. case_decide; [|intros Hl; rewrite lookup_insert_ne; [by eapply sy_dom0|]].
    + intros [= <-]. rewrite lookup_insert_eq. eauto.
    + intros <-. destruct (sy_dom0 _ _ Hl) as [z Hz]. apply sy_of0 in Hz. lia.
  - intros i y Hr. apply named_registered. apply Hreg in Hr as [[-> ->]|[_ Hr]]; auto.
  - intros i rec Hr. destruct (sy_recs0 i rec Hr) as (? & Hpn & H). rewrite Hopen. unfold port_named. rewrite named_registered. auto.
  - intros vlan rec Hr. destruct (sy_gws0 vlan rec Hr) as (? & ? & ? & H). rewrite Hopen, named_registered.
    do 3 (split; [done|]). auto.
  - intros p Hp'. destruct (Hps p Hp'); auto.
  - rewrite Hopen. done.
  - rewrite Hopen. intros Ho i y Hr. apply Hreg in Hr as [[-> ->]|[_ Hr]]; [exact (Hacc Ho)|].
    specialize (sy_acc0 Ho i y Hr).
    destruct y; cbn [accounted sy_m sy_pending] in *; [|done|]; (destruct sy_acc0 as [?|(p & Hin & ?)]; [by left | right; exists p; eauto]).
Qed.

(** The manager without port [id] of the switch. *)
Definition unregistered (id : string) (m : Manager) : Manager := set_sw (RemovePort id (mg_sw m)).1 m.

Lemma reg_unregistered id m i y : reg (unregistered id m) i y <-> i <> id /\ reg m i y.
Proof.
  unfold reg, unregistered. cbn [mg_sw mg_of set_sw].
  destruct (RemovePort_fields id (mg_sw m)) as (-> & _). split.
  - intros (l & [Hne Hl]%lookup_delete_Some & Hy). eauto.
  - intros [Hne (l & Hl & Hy)]. exists l. split; [|done]. by apply lookup_delete_Some.
Qed.

(** A port no record and none of the calls [ps'] answers for is removed. *)
Lemma sys_ok_unregister m ps ps' id :
  sys_ok (mkSystem m ps) -> ps' ⊆ ps ->
  (open m -> unrecorded m id /\ NoDup (omap pend_name ps') /\ (forall p, p ∈ ps' -> pend_name p <> Some id) /\
    (forall p i x, p ∈ ps -> pend_holds p = Some (i, x) -> i <> id -> p ∈ ps')) ->
  sys_ok (mkSystem (unregistered id m) ps').
Proof.
  intros Hok Hsub Hrest. pose proof (reg_unregistered id m) as Hreg.
  destruct (RemovePort_fields id (mg_sw m)) as (Hp & Hn & Hst & Hdn).
  assert (Hopen : open (unregistered id m) <-> open m) by (unfold open, unregistered; cbn; by rewrite Hst).
  assert (Hnamed : forall i y, named (unregistered id m) i y <-> named m i y) by by intros i [].
  destruct Hok; cbn [sy_m sy_pending] in *. split; cbn [sy_m sy_pending].
  - cbn. by apply switch_ok_RemovePort.
  - cbn. by rewrite Hdn.
  - exact sy_fresh0.
  - exact sy_tp0.
  - cbn. rewrite Hn. exact sy_of0.
  - cbn. rewrite Hp. intros i l [_ Hl]%lookup_delete_Some. eauto.
  - intros i y [_ Hr]%Hreg. apply Hnamed. auto.
  - intros i rec Hr. destruct (sy_recs0 i rec Hr) as (? & Hpn & H).
    unfold port_named. rewrite Hnamed, Hopen. split_and!; try done; try apply Hpn. intros Ho. apply Hreg. split; [|auto].
    intros ->. destruct (Hrest Ho) as ((Hnone & _) & _). cbn in Hr. congruence.
  - intros vlan rec Hr. destruct (sy_gws0 vlan rec Hr) as (? & ? & ? & H).
    rewrite Hnamed, Hopen. split_and!; try done. intros Ho. apply Hreg. split; [|auto].
    intros Hid. destruct (Hrest Ho) as ((_ & Hg) & _). specialize (Hg _ Hid). cbn in Hr. congruence.
  - intros p Hin. destruct (sy_pend0 p (Hsub p Hin)) as [H1 H2]. split; [intros i y; rewrite Hnamed; apply H1|].
    intros i y Hy Ho. apply Hopen in Ho. destruct (H2 _ _ Hy Ho). split; [|done]. apply Hreg. split; [|done].
    intros ->. destruct (Hrest Ho) as (_ & _ & Hpn & _). apply (Hpn p Hin). unfold pend_name. by rewrite Hy.
  - rewrite Hopen. intros Ho. by destruct (Hrest Ho) as (_ & ? & _).
  - rewrite Hopen. intros Ho i y [Hne Hr]%Hreg. specialize (sy_acc0 Ho i y Hr). destruct (Hrest Ho) as (_ & _ & _ & Hk).
    destruct y; cbn [accounted sy_m sy_pending] in *; [|done|];
      (destruct sy_acc0 as [?|(p & Hin & ?)]; [by left | right; exists p; eauto]).
Qed.

(** ** The steps that change a registry *)

Lemma sys_ok_removed od id es sw m ps :
  RemovePort id (mg_sw m) = (sw, es) -> sys_ok (mkSystem (unregistered id m) ps) ->
  sys_ok (mkSystem (runEffects od es (set_sw sw m)).1 ps).
Proof.
  intros Er Hok. eapply sys_ok_frame; [|apply mframe_runEffects]. unfold unregistered in Hok. by rewrite Er in Hok.
Qed.

Lemma pend_unique {B} (f : pending -> option B) p ps ps' q id :
  NoDup (omap f (ps ++ p :: ps')) -> f p = Some id -> q ∈ ps ++ ps' -> f q <> Some id.
Proof.
  intros Hnd Hp Hq Hqn. rewrite omap_app in Hnd. cbn in Hnd. rewrite Hp in Hnd.
  rewrite <- Permutation_middle in Hnd. apply NoDup_cons in Hnd as [Hni _]. apply Hni. rewrite <- omap_app.
  apply list_elem_of_omap. eauto.
Qed.

Lemma pend_nodup_drop p ps ps' : NoDup (omap pend_name (ps ++ p :: ps')) -> NoDup (omap pend_name (ps ++ ps')).
Proof.
  rewrite !omap_app. cbn. destruct (pend_name p); [|done]. rewrite <- Permutation_middle. by intros [_ ?]%NoDup_cons.
Qed.

(** The call that answers for a port removes it. *)
Lemma sys_ok_remove_held od p id x m ps ps' sw es :
  sys_ok (mkSystem m (ps ++ p :: ps')) -> pend_holds p = Some (id, x) -> RemovePort id (mg_sw m) = (sw, es) ->
  sys_ok (mkSystem (runEffects od es (set_sw sw m)).1 (ps ++ ps')).
Proof.
  intros Hok Hp Er. apply (sys_ok_removed od id); [done|]. assert (Hpn : pend_name p = Some id) by (unfold pend_name; by rewrite Hp).
  eapply sys_ok_unregister; [done | intros q; set_solver|]. intros Ho. pose proof (sy_nodup _ Hok Ho) as Hnd. cbn [sy_pending] in Hnd. split_and!.
  - eapply (po_reg m p); [|done..]. apply (sy_pend _ Hok). set_solver.
  - by eapply pend_nodup_drop.
  - intros q Hq. by eapply pend_unique.
  - intros q i y [?|[->|?]%elem_of_cons]%elem_of_app Hq Hne; [set_solver | congruence | set_solver].
Qed.

(** The first half of a deletion: the call [q] answers for the port instead of
    its record. *)
Lemma sys_ok_unrecord m m' q id x ps :
  sys_ok (mkSystem m ps) -> mg_ports m' ⊆ mg_ports m -> mg_gateways m' ⊆ mg_gateways m ->
  m' = set_ports (mg_ports m') (set_gateways (mg_gateways m') m) ->
  pend_obj q = Some (id, x) -> pend_holds q = Some (id, x) -> valid_name id x -> recorded m id x ->
  (open m -> forall y, ~ recorded m' id y) -> (forall i y, i <> id -> recorded m i y -> recorded m' i y) ->
  sys_ok (mkSystem m' (ps ++ [q])).
Proof.
  intros Hok HR HG Em Hq Hq' Hv Hrec Hno Hkeep. pose proof (fun Ho => recorded_reg _ _ _ _ Hok Ho Hrec) as Hrr.
  assert (Hsw : mg_sw m' = mg_sw m) by by rewrite Em. assert (Hmof : mg_of m' = mg_of m) by by rewrite Em.
  assert (Htps : mg_transports m' = mg_transports m) by by rewrite Em. assert (Hgws : mg_gws m' = mg_gws m) by by rewrite Em.
  assert (Hnx : mg_next m' = mg_next m) by by rewrite Em. clear Em.
  assert (Hnamed : forall i y, named m' i y <-> named m i y) by (intros i []; cbn; by rewrite ?Htps, ?Hgws).
  assert (Hr : forall i y, reg m' i y <-> reg m i y) by (intros; unfold reg; by rewrite Hsw, Hmof).
  assert (Hopen : open m' <-> open m) by (unfold open; by rewrite Hsw).
  assert (Hun : forall i, unrecorded m i -> unrecorded m' i).
  { intros i [H1 H2]. split; [by eapply lookup_weaken_None | intros vlan Hvl; eapply lookup_weaken_None; eauto]. }
  assert (Hx : named m id x).
  { destruct x as [o|o k|o]; [|done|].
    - destruct Hrec as (rec & Hrec & <-). apply (sy_recs _ Hok) in Hrec as (_ & (_ & ? & _) & _). done.
    - destruct Hrec as (vlan & rec & Hrec & <- & ->). by apply (sy_gws _ Hok) in Hrec as (_ & _ & ? & _). }
  destruct Hok; cbn [sy_m sy_pending] in *. split; cbn [sy_m sy_pending]; rewrite ?Hsw, ?Htps, ?Hmof; try done.
  - unfold objects_fresh in *. by rewrite Htps, Hgws, Hnx.
  - intros i y. rewrite Hr, Hnamed. auto.
  - intros i rec Hi. rewrite Hopen, Hr. destruct (sy_recs0 i rec) as (? & ? & ?); [by eapply lookup_weaken|].
    unfold port_named. rewrite Hnamed. auto.
  - intros vlan rec Hi. rewrite Hopen, Hr, Hnamed. apply sy_gws0. by eapply lookup_weaken.
  - intros p [Hp|Hp]%elem_of_app.
    + destruct (sy_pend0 p Hp) as [H1 H2]. split; [intros i y; rewrite Hnamed; apply H1|]. intros i y Hy Ho%Hopen.
      rewrite Hr. destruct (H2 _ _ Hy Ho). auto.
    + apply list_elem_of_singleton in Hp as ->. split; intros i y.
      * rewrite Hq, Hnamed. by intros [= <- <-].
      * rewrite Hq', Hr. intros [= <- <-] Ho%Hopen. split; [auto|]. apply not_recorded; auto.
  - rewrite Hopen. intros Ho. rewrite omap_app. cbn. unfold pend_name at 2. rewrite Hq'. cbn.
    apply NoDup_app. split_and!; [auto | | apply NoDup_singleton]. intros i (p & Hp & Hpn)%list_elem_of_omap ->%list_elem_of_singleton.
    unfold pend_name in Hpn. destruct (pend_holds p) as [[j y]|] eqn:Ey; [|done]. cbn in Hpn. apply (inj Some) in Hpn as ->.
    destruct (po_reg _ _ (sy_pend0 p Hp) _ _ Ey Ho) as [_ [H1 H2]]. destruct x as [o|o k|o]; [|done|].
    + destruct Hrec as (rec & Hrec & _). congruence.
    + destruct Hrec as (vlan & rec & Hrec & _ & ->). rewrite (H2 _ eq_refl) in Hrec. done.
  - rewrite Hopen. intros Ho i y Hiy%Hr. specialize (sy_acc0 Ho i y Hiy). destruct (decide (i = id)) as [->|Hne].
    + assert (y = x) as -> by exact (reg_fun _ _ _ _ Hiy (Hrr Ho)). assert (H : answered (ps ++ [q]) id x) by (exists q; split; [set_solver | done]).
      destruct x; cbn [accounted]; [by right | done | by right].
    + destruct y; cbn [accounted sy_m sy_pending] in *; [|done|];
        (destruct sy_acc0 as [?|(p & Hin & ?)]; [left; auto | right; exists p; split; [set_solver | done]]).
Qed.

Lemma sys_ok_deletePort1 id m ps : sys_ok (mkSystem m ps) -> sys_ok (mkSystem (deletePort1 id m).1 (ps ++ deleting id m)).
Proof.
  intros Hok. unfold deletePort1, deleting. destruct (mg_ports m !! id) as [rec|] eqn:E; [|by rewrite app_nil_r].
  destruct (sy_recs _ Hok id rec E) as (_ & (Hv & _ & Hne) & Hreg).
  apply (sys_ok_unrecord m _ _ id (OPort (pr_port rec))); cbn [fst mg_ports mg_gateways set_ports]; try done.
  - apply delete_subseteq.
  - by exists rec.
  - intros Ho [o|o k|o]; cbn [recorded mg_ports mg_gateways set_ports]; [|tauto|].
    + intros (r & Hr & _). by rewrite lookup_delete_eq in Hr.
    + intros (vlan & r & Hr & _ & ->). destruct (sy_gws _ Hok vlan r Hr) as (_ & _ & _ & Hg).
      by pose proof (reg_fun _ _ _ _ (Hg Ho) (Hreg Ho)).
  - intros i [o|o k|o] Hi; cbn [recorded mg_ports mg_gateways set_ports]; try done.
    intros (r & Hr & <-). exists r. by rewrite lookup_delete_ne.
Qed.

Lemma sys_ok_deleteGateway1 vlan m ps :
  sys_ok (mkSystem m ps) -> sys_ok (mkSystem (deleteGateway1 vlan m).1 (ps ++ deletingGateway vlan m)).
Proof.
  intros Hok. unfold deleteGateway1, deletingGateway. destruct (mg_gateways m !! vlan) as [rec|] eqn:E; [|by rewrite app_nil_r].
  destruct (sy_gws _ Hok vlan rec E) as (_ & Hv & _ & Hreg).
  apply (sys_ok_unrecord m _ _ (gatewayPortID vlan) (OGateway (gr_gw rec))); cbn [fst mg_ports mg_gateways set_gateways]; try done.
  - apply delete_subseteq.
  - by exists vlan.
  - by exists vlan, rec.
  - intros Ho [o|o k|o]; cbn [recorded mg_ports mg_gateways set_gateways]; [|tauto|].
    + intros (r & Hr & _). destruct (sy_recs _ Hok _ r Hr) as (_ & _ & Hg). by pose proof (reg_fun _ _ _ _ (Hg Ho) (Hreg Ho)).
    + intros (v & r & [Hne _]%lookup_delete_Some & _ & Heq). by apply gatewayPortID_inj in Heq.
  - intros i [o|o k|o] Hi; cbn [recorded mg_ports mg_gateways set_gateways]; try done.
    intros (v & r & Hr & <- & ->). exists v, r. rewrite lookup_delete_ne; [done|]. congruence.
Qed.

Lemma sys_ok_deletePort2 od id o m ps ps' :
  sys_ok (mkSystem m (ps ++ PortDeleting id o :: ps')) -> sys_ok (mkSystem (deletePort2 od id m).1 (ps ++ ps')).
Proof.
  intros Hok. unfold deletePort2. destruct (RemovePort id (mg_sw m)) as [sw es] eqn:Er. by eapply sys_ok_remove_held.
Qed.

Lemma sys_ok_deleteGateway2 od vlan rec m ps ps' :
  sys_ok (mkSystem m (ps ++ GatewayDeleting vlan rec :: ps')) -> sys_ok (mkSystem (deleteGateway2 od rec m).1 (ps ++ ps')).
Proof.
  intros Hok. assert (Hp : pend_ok m (GatewayDeleting vlan rec)) by (apply (sy_pend _ Hok); set_solver).
  destruct (po_named _ _ Hp _ _ eq_refl) as (_ & g & Hg & Hid). unfold deleteGateway2. rewrite Hg, Hid.
  destruct (RemovePort (gatewayPortID vlan) (mg_sw m)) as [sw es] eqn:Er. by eapply sys_ok_remove_held.
Qed.

(** No record and no call under way has the name of a connection. *)
Lemma valid_name_no_at id x : valid_name id x -> has_at id = false.
Proof.
  destruct x; [intros [? _]; by apply valid_no_at | done | intros (vlan & Hv & ->); by apply gatewayPortID_no_at].
Qed.

Lemma sub_unrecorded m ps id :
  sys_ok (mkSystem m ps) -> has_at id = true -> unrecorded m id /\ (forall p, p ∈ ps -> pend_name p <> Some id).
Proof.
  intros Hok Hat. split.
  - apply not_recorded. intros [o|o k|o]; [|by intros []|].
    + intros (r & Hr & _). destruct (sy_recs _ Hok _ r Hr) as (_ & (Hv & _) & _). apply valid_no_at in Hv. congruence.
    + intros (vlan & r & Hr & _ & ->). destruct (sy_gws _ Hok _ r Hr) as (_ & Hv & _). apply gatewayPortID_no_at in Hv. congruence.
  - intros p Hp Hn. unfold pend_name in Hn. destruct (pend_holds p) as [[i x]|] eqn:Ey; [|done]. cbn in Hn. apply (inj Some) in Hn as ->.
    pose proof (holds_obj _ _ Ey) as Ho.
    destruct (po_named _ _ (sy_pend _ Hok p Hp) _ _ Ho) as [Hv _]. apply valid_name_no_at in Hv. congruence.
Qed.

Lemma sys_ok_serverExit od o k exits m ps : sys_ok (mkSystem m ps) -> sys_ok (mkSystem (serverExit od o k exits m).1 ps).
Proof.
  intros Hok. unfold serverExit. destruct (mg_transports m !! o) as [[| | |s|]|] eqn:E; try done.
  set (s0 := ss_set_live (ss_live s) exits s).
  assert (Hle : srv_le s (runExit k s0 (mg_sw m)).1.1).
  { eapply (srv_le_trans _ s0); [by apply srv_le_same; auto | apply srv_le_runExit]. }
  destruct (srv_le_tp _ _ Hle) as [Hle' Htp]. assert (Hsub : sub_ok s) by apply (sy_tp _ Hok o _ E).
  assert (Hsame : mframe m (set_sw (mg_sw m) (set_transport o (MStream s0) m))).
  { change (set_sw (mg_sw m) (set_transport o (MStream s0) m)) with (set_transport o (MStream s0) m).
    eapply mframe_transport; [done|..]; apply srv_le_tp, srv_le_same; auto. }
  unfold runExit in *. destruct (ss_callbacks s0 !! k) as [[|subID n]|] eqn:Ecb.
  - eapply sys_ok_frame; [done|].
    destruct (ss_pump s0) as [j|]; [|by cbn]. destruct (negb (bool_decide (j ∈ ss_live s0))); [|by cbn].
    eapply mframe_trans; [exact (mframe_transport o _ _ _ E Hle' Htp)|].
    cbn [NotifyDown portDown]. eapply mframe_trans; [|apply mframe_runEffects].
    apply mframe_sw; try done. intros Hs. eapply (switch_ok_step _ _ _ Hs). by eapply (step_NotifyDown _ (ss_id s0)).
  - assert (Hat : has_at subID = true) by by eapply (sub_names _ Hsub k).
    destruct (RemovePort subID (mg_sw m)) as [sw es] eqn:Er. cbn [fst] in *.
    set (m1 := set_transport o _ m). assert (Hok1 : sys_ok (mkSystem m1 ps)).
    { eapply sys_ok_frame; [done|]. exact (mframe_transport o _ _ _ E Hle' Htp). }
    destruct (sub_unrecorded _ _ _ Hok1 Hat) as (H1 & H2).
    apply (sys_ok_removed od subID es sw m1 ps); [done|]. eapply sys_ok_unregister; [done..|].
    intros Ho. split_and!; eauto. by apply (sy_nodup _ Hok1).
  - by eapply sys_ok_frame.
Qed.

Lemma sys_ok_serverAdd od o m ps : sys_ok (mkSystem m ps) -> sys_ok (mkSystem (serverAdd od o m).1 ps).
Proof.
  intros Hok. unfold serverAdd. destruct (mg_transports m !! o) as [[| | |s|]|] eqn:E; try done.
  destruct (ss_accept s) as [| |subID n k a] eqn:Ea; try done.
  assert (Hsub : sub_ok s) by apply (sy_tp _ Hok o _ E). pose proof (sub_adding _ Hsub _ _ _ _ Ea) as Hcb.
  pose proof (sub_names _ Hsub _ _ _ Hcb) as Hat.
  destruct (srv_le_tp _ _ (srv_le_addSub2 subID n k a s (mg_sw m))) as [Hle Htp].
  pose proof (mframe_transport o _ _ _ E Hle Htp) as Hf. unfold addSub2 in *.
  destruct (AddPort subID a (mg_sw m)) as [[sw [e|]] es] eqn:EA; cbn [fst] in *.
  - apply AddPort_err in EA as ->. eapply sys_ok_frame; [done|]. eapply mframe_trans; [exact Hf|].
    eapply mframe_trans; [|apply mframe_runEffects]. apply mframe_sw; done.
  - set (m1 := set_transport o _ m) in *. assert (Hok1 : sys_ok (mkSystem m1 ps)) by by eapply sys_ok_frame.
    eapply sys_ok_frame; [|apply mframe_runEffects]. change (mg_sw m) with (mg_sw m1) in EA.
    eapply (sys_ok_register m1 ps ps); [done | exact EA|..].
    + exists (ss_set_accept AcceptIdle s), n. split; [apply lookup_insert_eq | done].
    + auto.
    + apply Hok1.
    + auto.
    + done.
Qed.

(** ** Creating *)

Lemma buildPort_ok w req attrs p fx : buildPort w req attrs = (Ok p, fx) -> portID p = pq_Identifier req /\ tp_ok p.
Proof.
  unfold buildPort, as_port. case_bool_decide.
  { set (path := if bool_decide _ then _ else _). unfold NewVhostUser. repeat case_match; intros; by simplify_eq/=. }
  case_bool_decide.
  { destruct (_ || _).
    { unfold NewTap. repeat case_match; intros; by simplify_eq/=. }
    case_bool_decide.
    { unfold NewAFXDP, afxdpAttach. repeat case_match; intros; by simplify_eq/=. }
    unfold NewClient. repeat case_match; intros; by simplify_eq/=. }
  case_bool_decide; [|done]. unfold NewServer.
  destruct (validateTransport _); [done|]. destruct (checkMode _ _); [|done].
  set (x := if isDgramTransport _ then listenPacket _ _ _ else listenStream _ _ _). destruct x as [[e|] fx0]; [done|].
  destruct (isDgramTransport _); intros; simplify_eq/=; [done|]. split; [done|]. by split.
Qed.

Lemma NewGateway_cfg w req c g :
  gatewayConfig req = Ok c -> NewGateway (w_IPPortRange_Set w) (w_ResolveLinkLocalV6 w) (w_CreateNIC w) c = Ok g ->
  ID g = gatewayPortID (gq_VLAN req).
Proof.
  unfold gatewayConfig. destruct (configMAC req); [|done]. destruct (configIPv4 req); [|done]. destruct (configIPv6 req); [|done].
  cbn. intros [= <-]. unfold NewGateway. destruct (firstErr _); [done|]. destruct (w_ResolveLinkLocalV6 _ _ _); [|done].
  destruct (w_CreateNIC w); [done|]. by intros [= <-].
Qed.

(** Names of calls under way are registered. *)
Lemma pend_registered m ps p id :
  sys_ok (mkSystem m ps) -> open m -> p ∈ ps -> pend_name p = Some id -> exists x, reg m id x.
Proof.
  intros Hok Ho Hp Hn. unfold pend_name in Hn. destruct (pend_holds p) as [[i x]|] eqn:E; [|done]. cbn in Hn. apply (inj Some) in Hn as ->.
  exists x. by apply (po_reg _ _ (sy_pend _ Hok p Hp)).
Qed.

(** A call that answers for nothing is replaced by others of its kind. *)
Lemma sys_ok_replace m p qs ps ps' :
  sys_ok (mkSystem m (ps ++ p :: ps')) -> pend_holds p = None -> Forall (fun q => pend_holds q = None /\ pend_ok m q) qs ->
  sys_ok (mkSystem m (ps ++ qs ++ ps')).
Proof.
  intros [] Hp Hqs. cbn [sy_m sy_pending] in *. rewrite Forall_forall in Hqs.
  assert (Hq : forall q, q ∈ qs -> pend_holds q = None) by (intros q Hq; by apply Hqs).
  split; cbn [sy_m sy_pending]; try done.
  - intros q Hin. apply elem_of_app in Hin as [?|[?|?]%elem_of_app]; [|by apply Hqs|]; apply sy_pend0; set_solver.
  - intros Ho. specialize (sy_nodup0 Ho). rewrite !omap_app in *. cbn in sy_nodup0. unfold pend_name at 2 in sy_nodup0. rewrite Hp in sy_nodup0.
    cbn in sy_nodup0. replace (omap pend_name qs) with (@nil string); [done|]. clear -Hq. induction qs as [|q qs IH]; [done|]. cbn.
    unfold pend_name at 1. rewrite Hq by set_solver. apply IH. intros; apply Hq; set_solver.
  - intros Ho id x Hr. specialize (sy_acc0 Ho id x Hr).
    assert (Hh : answered (ps ++ p :: ps') id x -> answered (ps ++ qs ++ ps') id x).
    { intros (r & Hin & Hrx). exists r. split; [|done]. assert (r <> p) by congruence. set_solver. }
    destruct x; cbn [accounted sy_m sy_pending] in *; [|done|]; destruct sy_acc0; auto.
Qed.

Lemma sys_ok_drop p m ps ps' : pend_holds p = None -> sys_ok (mkSystem m (ps ++ p :: ps')) -> sys_ok (mkSystem m (ps ++ ps')).
Proof. intros Hp Hok. by apply (sys_ok_replace m p [] ps ps'). Qed.

Lemma sys_ok_become p q m ps ps' :
  pend_holds p = None -> pend_obj q = None -> sys_ok (mkSystem m (ps ++ p :: ps')) -> sys_ok (mkSystem m (ps ++ q :: ps')).
Proof.
  intros Hp Hq Hok. assert (Hh : pend_holds q = None) by by destruct q.
  apply (sys_ok_replace m p [q] ps ps'); try done. constructor; [|done]. split; [done|]. split; congruence.
Qed.

Lemma sys_ok_pend p m ps : sys_ok (mkSystem m ps) -> pend_holds p = None -> pend_ok m p -> sys_ok (mkSystem m (ps ++ [p])).
Proof.
  intros [] Hn Hp. cbn [sy_m sy_pending] in *. split; cbn [sy_m sy_pending]; try done.
  - intros q [Hq| ->%list_elem_of_singleton]%elem_of_app; auto.
  - intros Ho. rewrite omap_app. cbn. unfold pend_name at 2. rewrite Hn. cbn. rewrite app_nil_r. auto.
  - intros Ho id x Hr. specialize (sy_acc0 Ho id x Hr). assert (Hh : answered ps id x -> answered (ps ++ [p]) id x).
    { intros (r & Hin & Hrx). exists r. split; [set_solver | done]. }
    destruct x; cbn [accounted sy_m sy_pending] in *; [|done|]; destruct sy_acc0; auto.
Qed.

(** Registering what a creation built. *)
Lemma sys_ok_added m ps ps' p q id attrs sw es x :
  sys_ok (mkSystem m (ps ++ p :: ps')) -> pend_holds p = None -> pend_obj p = Some (id, x) ->
  pend_obj q = Some (id, x) -> pend_holds q = Some (id, x) ->
  AddPort id attrs (mg_sw m) = (sw, None, es) ->
  sys_ok (mkSystem (registered sw x m) (ps ++ q :: ps')).
Proof.
  intros Hok Hp Hpo Hqo Hq HA. assert (Hpok : pend_ok m p) by (apply (sy_pend _ Hok); set_solver).
  destruct (po_named _ _ Hpok _ _ Hpo) as [Hv Hx]. pose proof (AddPort_ok _ _ _ _ _ HA) as (Hno & _ & _ & Hst & _).
  assert (Hqn : pend_name q = Some id) by (unfold pend_name; by rewrite Hq).
  eapply (sys_ok_register m (ps ++ p :: ps')); try done.
  - intros r [?|[->|?]%elem_of_cons]%elem_of_app; [left; set_solver | right | left; set_solver]. split; intros i y.
    + rewrite Hqo, named_registered. by intros [= <- <-].
    + rewrite Hq. intros [= <- <-] Ho. split; [by eapply (reg_registered _ _ _ _ _ _ _ _ _ Hok HA); left|].
      eapply (free_unrecorded m); [done | | done]. unfold open in *. cbn in Ho. congruence.
  - intros Ho. pose proof (sy_nodup _ Hok Ho) as Hnd. cbn [sy_pending] in Hnd. apply pend_nodup_drop in Hnd. rewrite omap_app in *. cbn.
    rewrite Hqn. rewrite <- Permutation_middle. constructor; [|done]. rewrite <- omap_app. intros (r & Hr & Hrn)%list_elem_of_omap.
    assert (Hin : r ∈ ps ++ p :: ps') by set_solver.
    destruct (pend_registered _ _ _ _ Hok Ho Hin Hrn) as (y & l & Hl & _). congruence.
  - intros r [?|[->|?]%elem_of_cons]%elem_of_app [z Hz]; [set_solver | congruence | set_solver].
  - intros _. assert (H : answered (ps ++ q :: ps') id x) by (exists q; split; [set_solver | done]).
    destruct x; cbn [accounted]; [by right | done | by right].
Qed.

Lemma sys_ok_createPort1 w req m m' o attrs fx ps :
  sys_ok (mkSystem m ps) -> createPort1 w req m = (m', Ok (o, attrs), fx) ->
  sys_ok (mkSystem m' (ps ++ [PortBuilt req o attrs])).
Proof.
  intros Hok. unfold createPort1. destruct (ValidateIdentifier _) eqn:Hv; [done|]. destruct (Attrs req); [|done].
  destruct (mg_ports m !! _); [done|]. destruct (buildPort w req a) as [[p|] fx'] eqn:Hb; [|done]. intros [= <- <- <- <-].
  apply buildPort_ok in Hb as [Hid Htp]. apply sys_ok_pend; [|done|].
  - eapply sys_ok_frame; [done|]. apply mframe_alloc_transport; [apply Hok | done].
  - split; [|done]. intros i x [= <- <-]. split; [split; [done | intros E; by rewrite E in Hv]|].
    exists p. split; [apply lookup_insert_eq | done].
Qed.

Lemma sys_ok_createPort2 od req o attrs m m' e fx ps ps' :
  sys_ok (mkSystem m (ps ++ PortBuilt req o attrs :: ps')) ->
  createPort2 od (pq_Identifier req) o attrs m = (m', e, fx) ->
  sys_ok (mkSystem m' (match e with None => ps ++ PortAdded req o :: ps' | Some _ => ps ++ ps' end)).
Proof.
  intros Hok. unfold createPort2. destruct (AddPort _ attrs (mg_sw m)) as [[sw [e'|]] es] eqn:EA.
  - apply AddPort_err in EA as ->. pose proof (mframe_closeTransport od o (set_sw (mg_sw m) m)) as Hf.
    destruct (closeTransport od o _) as [m1 fx']. intros [= <- <- <-]. apply (sys_ok_drop (PortBuilt req o attrs)); [done|].
    eapply sys_ok_frame; [|exact Hf]. by destruct m.
  - pose proof (mframe_runEffects od es (registered sw (OPort o) m)) as Hf. destruct (runEffects od es _) as [m1 fx'].
    intros [= <- <- <-]. eapply sys_ok_frame; [|exact Hf].
    by eapply (sys_ok_added _ _ _ (PortBuilt req o attrs)).
Qed.

Lemma sys_ok_createGateway1 w req m m' o ps :
  sys_ok (mkSystem m ps) -> createGateway1 w req m = (m', Ok o) -> sys_ok (mkSystem m' (ps ++ [GatewayBuilt req o])).
Proof.
  intros Hok. unfold createGateway1. destruct (_ || _) eqn:Hv; [done|]. apply orb_false_elim in Hv as [? ?].
  destruct (mg_gateways m !! _); [done|]. destruct (gatewayConfig req) as [c|] eqn:Hc; [|done]. cbn [rbind].
  destruct (NewGateway _ _ _ c) as [g|] eqn:Hg; [|done]. intros [= <- <-]. apply sys_ok_pend; [|done|].
  - eapply sys_ok_frame; [done|]. apply mframe_alloc_gw, Hok.
  - split; [|done]. intros i x [= <- <-]. split; [exists (gq_VLAN req); unfold valid_vlan; split; [lia | done]|].
    exists g. split; [apply lookup_insert_eq | by eapply NewGateway_cfg].
Qed.

Lemma sys_ok_createGateway2 od req o m m' e fx ps ps' :
  sys_ok (mkSystem m (ps ++ GatewayBuilt req o :: ps')) -> createGateway2 od req o m = (m', e, fx) ->
  sys_ok (mkSystem m' (match e with None => ps ++ GatewayAdded req o :: ps' | Some _ => ps ++ ps' end)).
Proof.
  intros Hok. unfold createGateway2. destruct (AddPort _ _ (mg_sw m)) as [[sw [e'|]] es] eqn:EA.
  - apply AddPort_err in EA as ->. pose proof (mframe_closeGateway od o (set_sw (mg_sw m) m)) as Hf.
    destruct (closeGateway od o _) as [m1 fx']. intros [= <- <- <-]. apply (sys_ok_drop (GatewayBuilt req o)); [done|].
    eapply sys_ok_frame; [|exact Hf]. by destruct m.
  - pose proof (mframe_runEffects od es (registered sw (OGateway o) m)) as Hf. destruct (runEffects od es _) as [m1 fx'].
    intros [= <- <- <-]. eapply sys_ok_frame; [|exact Hf].
    by eapply (sys_ok_added _ _ _ (GatewayBuilt req o)).
Qed.

(** A creation ends: its record answers for the port. *)
Lemma sys_ok_recorded m m' p id x ps ps' :
  sys_ok (mkSystem m (ps ++ p :: ps')) -> pend_holds p = Some (id, x) ->
  m' = set_ports (mg_ports m') (set_gateways (mg_gateways m') m) ->
  recorded m' id x -> (open m -> forall i y, recorded m i y -> recorded m' i y) ->
  (forall i rec, mg_ports m' !! i = Some rec -> mg_ports m !! i = Some rec \/
    i = id /\ x = OPort (pr_port rec) /\ pq_Identifier (pr_req rec) = i) ->
  (forall vlan rec, mg_gateways m' !! vlan = Some rec -> mg_gateways m !! vlan = Some rec \/
    valid_vlan vlan /\ gatewayPortID vlan = id /\ x = OGateway (gr_gw rec) /\ gq_VLAN (gr_req rec) = vlan) ->
  sys_ok (mkSystem m' (ps ++ ps')).
Proof.
  intros Hok Hp Em Hrec Hkeep HR HG. pose proof (holds_obj _ _ Hp) as Hpo.
  assert (Hpk : pend_ok m p) by (apply (sy_pend _ Hok); set_solver). destruct Hpk as [Hpn Hpr].
  destruct (Hpn _ _ Hpo) as [Hv Hx]. specialize (Hpr _ _ Hp).
  assert (Hsw : mg_sw m' = mg_sw m) by by rewrite Em. assert (Hmof : mg_of m' = mg_of m) by by rewrite Em.
  assert (Htps : mg_transports m' = mg_transports m) by by rewrite Em. assert (Hgws : mg_gws m' = mg_gws m) by by rewrite Em.
  assert (Hnx : mg_next m' = mg_next m) by by rewrite Em. clear Em.
  assert (Hnamed : forall i y, named m' i y <-> named m i y) by (intros i []; cbn; by rewrite ?Htps, ?Hgws).
  assert (Hr : forall i y, reg m' i y <-> reg m i y) by (intros; unfold reg; by rewrite Hsw, Hmof).
  assert (Hopen : open m' <-> open m) by (unfold open; by rewrite Hsw).
  assert (Hpid : pend_name p = Some id) by (unfold pend_name; by rewrite Hp).
  destruct Hok; cbn [sy_m sy_pending] in *. split; cbn [sy_m sy_pending]; rewrite ?Hsw, ?Htps, ?Hmof; try done.
  - unfold objects_fresh in *. by rewrite Htps, Hgws, Hnx.
  - intros i y. rewrite Hr, Hnamed. auto.
  - intros i rec Hi. rewrite Hopen, Hr. unfold port_named. rewrite Hnamed. destruct (HR i rec Hi) as [Hi'|(-> & -> & Hid)].
    + by apply sy_recs0.
    + destruct Hv. split_and!; try done. by intros []%Hpr.
  - intros vlan rec Hi. rewrite Hopen, Hr, Hnamed. destruct (HG vlan rec Hi) as [Hi'|(? & <- & -> & ?)]; [by apply sy_gws0|].
    split_and!; try done; try apply H. by intros []%Hpr.
  - intros q Hq. assert (Hq' : q ∈ ps ++ p :: ps') by set_solver. destruct (sy_pend0 q Hq') as [H1 H2].
    split; [intros i y; rewrite Hnamed; apply H1|]. intros i y Hy Ho%Hopen. rewrite Hr. destruct (H2 _ _ Hy Ho) as [? [Hu1 Hu2]].
    assert (Hne : i <> id). { intros ->. eapply (pend_unique _ _ _ _ _ _ (sy_nodup0 Ho) Hpid Hq). unfold pend_name. by rewrite Hy. }
    split; [done|]. split; [|intros vlan Hvl]; apply eq_None_not_Some; intros [rec Hrc].
    + destruct (HR _ _ Hrc) as [?|(? & _)]; congruence.
    + destruct (HG _ _ Hrc) as [?|(_ & ? & _)]; [rewrite Hu2 in * by done; done | congruence].
  - rewrite Hopen. intros Ho. eapply pend_nodup_drop. eauto.
  - rewrite Hopen. intros Ho i y Hiy%Hr. specialize (sy_acc0 Ho i y Hiy).
    assert (Hh : answered (ps ++ p :: ps') i y -> recorded m' i y \/ answered (ps ++ ps') i y).
    { intros (q & [?|[->|?]%elem_of_cons]%elem_of_app & Hq); [right; exists q; set_solver | left | right; exists q; set_solver].
      rewrite Hp in Hq. by injection Hq as <- <-. }
    destruct y; cbn [accounted sy_m sy_pending] in *; [|done|]; destruct sy_acc0; auto.
Qed.

Lemma sys_ok_createPort3 od req o m ps ps' :
  sys_ok (mkSystem m (ps ++ PortAdded req o :: ps')) -> sys_ok (mkSystem (createPort3 od req o m).1 (ps ++ ps')).
Proof.
  intros Hok. assert (Hb : pend_ok m (PortAdded req o)) by (apply (sy_pend _ Hok); set_solver).
  destruct Hb as [_ Hb]. specialize (Hb _ _ eq_refl). unfold createPort3. cbn [fst].
  eapply (sys_ok_recorded m _ (PortAdded req o)); cbn [mg_ports mg_gateways set_ports]; try done.
  - exists (mkPortRecord req o). split; [apply lookup_insert_eq | done].
  - intros Ho i [o'|o' k|o']; cbn [recorded mg_ports mg_gateways set_ports]; try done.
    intros (rec & Hr & <-). exists rec. destruct (Hb Ho) as [_ [Hno _]]. rewrite lookup_insert_ne; [done | congruence].
  - intros i rec. rewrite lookup_insert. case_decide; [intros [= <-]; subst i; by right | by left].
  - by left.
Qed.

Lemma sys_ok_createGateway3 od req o m ps ps' :
  sys_ok (mkSystem m (ps ++ GatewayAdded req o :: ps')) -> sys_ok (mkSystem (createGateway3 od req o m).1.1 (ps ++ ps')).
Proof.
  intros Hok. assert (Hb : pend_ok m (GatewayAdded req o)) by (apply (sy_pend _ Hok); set_solver).
  destruct Hb as [Hn Hb]. specialize (Hb _ _ eq_refl). unfold createGateway3.
  destruct (mg_gateways m !! gq_VLAN req) as [grec|] eqn:Eg.
  { destruct (RemovePort _ (mg_sw m)) as [sw es] eqn:Er.
    pose proof (sys_ok_remove_held od _ _ _ _ _ _ _ _ Hok eq_refl Er) as H. by destruct (runEffects od es (set_sw sw m)). }
  cbn [fst]. eapply (sys_ok_recorded m _ (GatewayAdded req o)); cbn [mg_ports mg_gateways set_gateways]; try done.
  - exists (gq_VLAN req), (mkGatewayRecord req o). split; [apply lookup_insert_eq | done].
  - intros Ho i [o'|o' k|o']; cbn [recorded mg_ports mg_gateways set_gateways]; try done.
    intros (vlan & rec & Hr & <- & ->). exists vlan, rec. rewrite lookup_insert_ne; [done | congruence].
  - by left.
  - intros vlan rec. rewrite lookup_insert. case_decide; [intros [= <-]; subst vlan | by left]. right. split_and!; try done.
    all: destruct (Hn _ _ eq_refl) as [(v & Hv & ->%gatewayPortID_inj) _]; apply Hv.
Qed.

(** ** All steps *)

Lemma sys_ok_Close od m ps : ranges_ok (mo_sw od) -> sys_ok (mkSystem m ps) -> sys_ok (mkSystem (m_Close od m).1 ps).
Proof.
  intros Hrg Hok. unfold m_Close. destruct (Switch.Close (mo_sw od) (mg_sw m)) as [sw es] eqn:Ec.
  eapply sys_ok_frame; [|apply mframe_runEffects].
  assert (Hsw : switch_ok sw) by (eapply switch_ok_step; [apply Hok | by eapply step_Close]).
  unfold Switch.Close in Ec. injection Ec as <- _. set (sw := mkSwitch _ _ _ _ _ _ _ _ _ _) in *.
  assert (Hnamed : forall i y, named (set_sw sw m) i y <-> named m i y) by by intros i [].
  assert (Hclosed : open (set_sw sw m) -> False) by (unfold open; done).
  destruct Hok; cbn [sy_m sy_pending] in *. split; cbn [sy_m sy_pending]; try done.
  - intros i y (l & Hl & _). cbn in Hl. by rewrite lookup_empty in Hl.
  - intros i rec Hi. destruct (sy_recs0 i rec Hi) as (? & ? & ?). split_and!; try done; try apply H0; intros []%Hclosed.
  - intros v rec Hv. destruct (sy_gws0 v rec Hv) as (? & ? & ? & ?). split_and!; try done; try apply H0.
  - intros p Hp. destruct (sy_pend0 p Hp) as [H _]. split; [intros i y; rewrite Hnamed; apply H | by intros i y _ []%Hclosed].
Qed.

Lemma switch_ok_work s fx s' : switch_ok s -> sw_work s fx s' -> switch_ok s'.
Proof.
  intros Hok [env src frame s1 fx1 Hr E|now|rg Hr|rg Hr|rg dt s1 fx1 Hr E]; (eapply switch_ok_step; [done|]).
  - by eapply step_deliver.
  - apply step_ageTick.
  - by apply step_loopProbe.
  - by apply step_portChanged.
  - by eapply step_runTick.
Qed.

(** It changes neither the registry nor the policy of a port. *)
Lemma work_fields s fx s' :
  sw_work s fx s' ->
  SwitchState.ports s' = SwitchState.ports s /\ nextLoc s' = nextLoc s /\ downCB s' = downCB s /\
  SwitchState.stopped s' = SwitchState.stopped s /\
  forall l, (policy ∘ pe_attrs) <$> heap s' !! l = (policy ∘ pe_attrs) <$> heap s !! l.
Proof.
  assert (Hev : forall s s', evolves s s' -> SwitchState.ports s' = SwitchState.ports s /\ nextLoc s' = nextLoc s /\
    downCB s' = downCB s /\ SwitchState.stopped s' = SwitchState.stopped s /\
    forall l, (policy ∘ pe_attrs) <$> heap s' !! l = (policy ∘ pe_attrs) <$> heap s !! l).
  { clear. intros s s' []. split_and!; try done. intros l. destruct (ev_heap l) as [e e' (_ & _ & _ & Hp)|]; cbn; congruence. }
  intros [env src frame s1 fx1 Hr E|now|rg Hr|rg Hr|rg dt s1 fx1 Hr E]; [| |done|..].
  - apply deliver_inv in E as [s2 Hs|s2 p _ Hs _|f key s2 fx2 _ _ _ _ _ _ _ s3 _ Hs _]; [by apply Hev | by apply Hev|].
    apply Hev in Hs as (H1 & H2 & H3 & H4 & H5). destruct (Hev _ _ (evolves_received src frame s)) as (R1 & R2 & R3 & R4 & R5).
    assert (Hl : SwitchState.ports s3 = SwitchState.ports (received src frame s) /\ nextLoc s3 = nextLoc (received src frame s) /\
      downCB s3 = downCB (received src frame s) /\ SwitchState.stopped s3 = SwitchState.stopped (received src frame s) /\
      heap s3 = heap (received src frame s)) by (unfold s3, learned; by destruct (negb _)).
    destruct Hl as (L1 & L2 & L3 & L4 & L5). split_and!; congruence.
  - apply Hev, evolves_frame, frame_delete_if.
    unfold expire_test. by intros k e ->.
  - by apply Hev, evolves_frame, frame_portChangedTask.
  - apply Hev, evolves_frame. pose proof (frame_runTick rg dt s Hr). by rewrite E in *.
Qed.

Lemma sys_ok_bg m m' ps : sys_ok (mkSystem m ps) -> bg_step m m' -> sys_ok (mkSystem m' ps).
Proof.
  intros Hok Hb. assert (Hfr : forall m', mframe m m' -> sys_ok (mkSystem m' ps)) by (intros; by eapply sys_ok_frame).
  destruct Hb as [o p p' Hp Hs|o|od o l l' Hl|od o|od o n up|od o|od o k s l l' Hs Hl|o g g' Hg Hc|fx sw' Hw].
  - destruct (transport_step_le p p') as [? ?]; [by apply (sy_tp _ Hok o) | done|]. apply Hfr. by eapply mframe_transport.
  - apply Hfr, mframe_pumpFails.
  - eapply sys_ok_frame; [|apply mframe_pumpExit]. apply Hfr, mframe_exits.
  - apply Hfr, mframe_xdpLost.
  - apply Hfr, mframe_vhostReport.
  - by apply sys_ok_serverAdd.
  - by apply sys_ok_serverExit.
  - apply Hfr. by eapply mframe_gw.
  - destruct (work_fields _ _ _ Hw) as (? & ? & ? & ? & ?). apply Hfr, mframe_sw; try done.
    + intros Hsw. by eapply switch_ok_work.
    + intros id. by apply policy_of_heap.
Qed.

Lemma sys_ok_step s s' : sys_ok s -> sys_step s s' -> sys_ok s'.
Proof.
  intros Hok Hs. destruct Hs.
  - eapply sys_ok_frame; [done|]. by apply frame_api_step.
  - by eapply sys_ok_bg.
  - by eapply sys_ok_createPort1.
  - exact (sys_ok_createPort2 _ _ _ _ _ _ _ _ _ _ Hok H).
  - exact (sys_ok_createPort2 _ _ _ _ _ _ _ _ _ _ Hok H).
  - by apply sys_ok_createPort3.
  - by eapply sys_ok_createGateway1.
  - exact (sys_ok_createGateway2 _ _ _ _ _ _ _ _ _ Hok H).
  - exact (sys_ok_createGateway2 _ _ _ _ _ _ _ _ _ Hok H).
  - by apply sys_ok_createGateway3.
  - by apply sys_ok_deletePort1.
  - apply (sys_ok_deletePort1 id (set_deletes (l ++ l') m)). eapply sys_ok_frame; [done | apply mframe_deletes].
  - by eapply sys_ok_deletePort2.
  - by apply sys_ok_deleteGateway1.
  - by eapply sys_ok_deleteGateway2.
  - apply sys_ok_pend; [done..|]. by split.
  - by apply (sys_ok_become (PatchFound id patch o)).
  - by apply (sys_ok_drop (PatchFound id patch o)).
  - eapply (sys_ok_become (PatchApplied id o attrs)); try done. eapply sys_ok_frame; [done|].
    pose proof (mframe_patchSwitch id attrs m (sy_sw _ Hok)) as Hf. by rewrite H in Hf.
  - eapply (sys_ok_drop (PatchApplied id o attrs)); try done. eapply sys_ok_frame; [done|].
    pose proof (mframe_patchSwitch id attrs m (sy_sw _ Hok)) as Hf. by rewrite H in Hf.
  - eapply (sys_ok_become (PatchSet id o attrs)); try done. eapply sys_ok_frame; [done | apply mframe_patchServer].
  - eapply (sys_ok_become (PatchSubs id o attrs (i :: ids))); try done. eapply sys_ok_frame; [done | apply mframe_patchSwitch, Hok].
  - eapply (sys_ok_drop (PatchSubs id o attrs [])); try done. eapply sys_ok_frame; [done | apply mframe_patchRecord].
  - by apply sys_ok_Close.
Qed.

Lemma sys_reachable_ok s : sys_reachable s -> sys_ok s.
Proof.
  induction 1 as [random|s s' _ IH Hs]; [|by eapply sys_ok_step].
  assert (Hsw : switch_ok (mg_sw (m_New random))).
  { eapply switch_ok_step; [apply (switch_ok_New random) | apply step_OnPortDown]. }
  assert (Hno : forall id x, ~ reg (m_New random) id x).
  { intros id x (l & Hl & _). cbn in Hl. by rewrite lookup_empty in Hl. }
  split; cbn [sy_m sy_pending]; try done.
  - intros o [[? H]|[? H]]; cbn in H; by rewrite lookup_empty in H.
  - intros i y H. by apply Hno in H.
  - intros p Hp. by apply elem_of_nil in Hp.
  - intros _. constructor.
  - intros _ i y H. by apply Hno in H.
Qed.

(** C6: the three registries of the program agree.  In every state that some
    interleaving of API calls, connections and goroutines reaches before
    shutdown: a recorded port has a valid identifier and is registered in the
    switch under it, with the recorded transport, which has that identifier; a
    recorded gateway is registered under the name of its VLAN with the recorded
    gateway; and every port of the switch has an object of its own name that
    somebody answers for: the record of a port or gateway, a creation or deletion
    still under way, or the server whose connection it is. *)
Theorem registries_agree s :
  let m := sy_m s in
  sys_reachable s -> open m ->
  (forall id rec, mg_ports m !! id = Some rec ->
     ValidateIdentifier id = None /\ pq_Identifier (pr_req rec) = id /\
     reg m id (OPort (pr_port rec)) /\ named m id (OPort (pr_port rec))) /\
  (forall vlan rec, mg_gateways m !! vlan = Some rec ->
     valid_vlan vlan /\ gq_VLAN (gr_req rec) = vlan /\
     reg m (gatewayPortID vlan) (OGateway (gr_gw rec)) /\ named m (gatewayPortID vlan) (OGateway (gr_gw rec))) /\
  (forall id l, SwitchState.ports (mg_sw m) !! id = Some l ->
     exists x, mg_of m !! l = Some x /\ named m id x /\ accounted s id x).
Proof.
  intros m Hok%sys_reachable_ok Ho. split_and!.
  - intros id rec Hr. destruct (sy_recs _ Hok _ _ Hr) as (? & (? & ? & _) & ?). auto.
  - intros vlan rec Hr. destruct (sy_gws _ Hok _ _ Hr) as (? & ? & ? & ?). auto.
  - intros id l Hl. destruct (sy_dom _ Hok _ _ Hl) as [x Hx]. assert (Hreg : reg m id x) by by exists l.
    exists x. split; [done|]. split; [by apply (sy_named _ Hok) | by apply (sy_acc _ Hok)].
Qed.
