(* ===== verification/ManagerProps.v ===== *)
(** Theorems about the manager's methods. *)
From S2P Require Import Prelude Vlan Fdb Protect SwitchState Stp Switch SwitchInv SwitchProps Lease GoText Forwards Framing Ports Server ServerProps Dhcp Gateway Json ApiTypes Manager System SystemProps.

#[local] Open Scope Z_scope.

(** * Creating *)

Lemma kernel_app a b : kernel (a ++ b) = kernel a ++ kernel b.
Proof. apply omap_app. Qed.

Lemma kernel_MKernel l : kernel (MKernel <$> l) = l.
Proof. induction l as [|x l IH]; [done|]. unfold kernel in *. cbn. by rewrite IH. Qed.

Lemma kernel_MDevice l : kernel (MDevice <$> l) = [].
Proof. induction l as [|x l IH]; [done|]. exact IH. Qed.

(** What a new transport holds, its [Close] gives back. *)
Lemma built_port_closes w od req attrs p fx :
  tapFds (w_netlink w) = 1%nat -> buildPort w req attrs = (Ok p, fx) -> held (fx ++ kernel (portClose od p).1.2) = [].
Proof.
  intros Hfds. unfold buildPort, as_port. case_bool_decide.
  { set (path := if bool_decide _ then _ else _). unfold NewVhostUser. case_bool_decide.
    { destruct (DialUnix _ _ _ _); [|done]. intros [= <- <-]. cbn. by rewrite bool_decide_true. }
    case_bool_decide; [|done]. destruct (_ || _); [|done]. unfold removeStaleSocket.
    destruct (Listen _ _ _ _); [done|]. destruct (isSocketFile _ _); intros [= <- <-]; cbn; by rewrite bool_decide_true. }
  case_bool_decide.
  { destruct (_ || _).
    { unfold NewTap. destruct (is_empty _); [done|]. destruct (_ && _); [done|]. destruct (LinkAdd _); [done|].
      rewrite Hfds. cbn [Nat.eqb]. destruct (if bool_decide _ then _ else _); [done|]. destruct (LinkSetUp _); [done|].
      intros [= <- <-]. unfold tapAcquired. rewrite Hfds. cbn.
      rewrite (bool_decide_true (RFd 0 = RFd 0)) by done. cbn. by rewrite bool_decide_true. }
    case_bool_decide.
    { destruct (NewAFXDP _ _ _ _) as [[x|e] fx'] eqn:E; [|done]. intros [= <- <-]. apply xdp_closed_holds_nothing in E.
      cbn [portClose]. destruct (xp_Close x) as [x' fx'']. cbn [fst snd] in *. by rewrite kernel_MKernel. }
    unfold NewClient. destruct (validateTransport _); [done|].
    destruct (if isStreamTransport _ then _ else _) as [[a|e] fx'] eqn:E; [|done]. intros [= <- <-]. apply dial_holds in E.
    rewrite held_app, E. cbn. by rewrite bool_decide_true. }
  case_bool_decide; [|done]. unfold NewServer. destruct (validateTransport _); [done|]. destruct (checkMode _ _); [|done].
  destruct (if isDgramTransport _ then listenPacket _ _ _ else _) as [[e|] fx'] eqn:E; [done|]. apply listen_held in E.
  destruct (isDgramTransport _); intros [= <- <-]; rewrite held_app, E; cbn; by rewrite bool_decide_true.
Qed.

Lemma failed_build_clean w req attrs e fx : buildPort w req attrs = (Err e, fx) -> held fx = [].
Proof.
  unfold buildPort, as_port.
  destruct (failed_port_leaks_nothing (w_net w) (w_netlink w) (w_xdp w) (pq_Identifier req)) as (H1 & H2 & H3 & H4 & H5).
  case_bool_decide.
  { destruct (NewVhostUser _ _ _ _ _) as [[x|e'] fx'] eqn:E; [done|]. intros [= <- <-]. by eapply H3. }
  case_bool_decide.
  { destruct (_ || _).
    { destruct (NewTap _ _ _ _ _) as [[x|e'] fx'] eqn:E; [done|]. intros [= <- <-]. by eapply H4. }
    case_bool_decide.
    { destruct (NewAFXDP _ _ _ _) as [[x|e'] fx'] eqn:E; [done|]. intros [= <- <-]. by eapply H5. }
    destruct (NewClient _ _ _ _ _) as [[x|e'] fx'] eqn:E; [done|]. intros [= <- <-]. by eapply H1. }
  case_bool_decide; [|by intros [= <- <-]].
  destruct (NewServer _ _ _ _ _ _) as [[x|e'] fx'] eqn:E; [done|]. intros [= <- <-]. by eapply H2.
Qed.

(** What a failed call leaves untouched: the switch, the records, and every
    object that was there before. *)
Record untouched (m m' : Manager) : Prop := {
  un_sw : mg_sw m' = mg_sw m;
  un_ports : mg_ports m' = mg_ports m;
  un_gateways : mg_gateways m' = mg_gateways m;
  un_of : mg_of m' = mg_of m;
  un_transports : forall o, (o < mg_next m)%nat -> mg_transports m' !! o = mg_transports m !! o;
  un_gws : forall o, (o < mg_next m)%nat -> mg_gws m' !! o = mg_gws m !! o;
  un_deletes : mg_deletes m' = mg_deletes m
}.

Lemma portInfo_ok od id rec p m :
  mg_ports m !! id = Some rec -> mg_transports m !! pr_port rec = Some p -> exists i, portInfoLocked od id m = Ok i.
Proof.
  intros Hr Hp. unfold portInfoLocked. rewrite Hr, Hp. destruct (STPPortStatusOf (mg_sw m) id) as [st b]. eauto.
Qed.

(** The record a successful call leaves. *)
Lemma CreatePort_records w od req m m' i fx :
  CreatePort w od req m = (m', Ok i, fx) -> exists o, mg_ports m' !! pq_Identifier req = Some (mkPortRecord req o).
Proof.
  unfold CreatePort. destruct (createPort1 w req m) as [[m1 [[o attrs]|e]] fx1]; [|done].
  destruct (createPort2 od _ o attrs m1) as [[m2 [e|]] fx2]; [done|]. unfold createPort3. intros [= <- _ _].
  exists o. cbn. apply lookup_insert_eq.
Qed.

Lemma failed_createPort1 w req m m' e fx : createPort1 w req m = (m', Err e, fx) -> m' = m /\ held (kernel fx) = [].
Proof.
  unfold createPort1. destruct (ValidateIdentifier _); [by intros [= <- _ <-]|]. destruct (Attrs req); [|by intros [= <- _ <-]].
  destruct (mg_ports m !! _); [by intros [= <- _ <-]|]. destruct (buildPort w req a) as [[p|e'] fx'] eqn:Hb; [done|].
  intros [= <- _ <-]. split; [done|]. rewrite kernel_MKernel. by eapply failed_build_clean.
Qed.

(** A creation that fails because the name is taken closes what it opened. *)
Lemma failed_createPort2 w od req m m1 m' o attrs e fx fx' :
  tapFds (w_netlink w) = 1%nat -> createPort1 w req m = (m1, Ok (o, attrs), fx) ->
  createPort2 od (pq_Identifier req) o attrs m1 = (m', Some e, fx') ->
  untouched m m' /\ held (kernel (fx ++ fx')) = [] /\
  (mg_exits m' = mg_exits m \/ mg_exits m' = mg_exits m ++ [mg_next m]).
Proof.
  intros Hfds. unfold createPort1. destruct (ValidateIdentifier _); [done|]. destruct (Attrs req); [|done].
  destruct (mg_ports m !! _); [done|]. destruct (buildPort w req a) as [[p|e'] fx0] eqn:Hb; [|done]. intros [= <- <- <- <-].
  unfold createPort2. destruct (AddPort _ a (mg_sw _)) as [[sw [e'|]] es] eqn:EA; [|by destruct (runEffects od es _)].
  apply AddPort_err in EA as ->. unfold closeTransport. rewrite (lookup_insert_eq (mg_transports m) (mg_next m) p : mg_transports (set_sw _ (alloc_transport p m)) !! _ = _).
  apply (built_port_closes w od) in Hb; [|done]. destruct (portClose od p) as [[p' fx1] exit]. intros [= <- _ <-]. split_and!.
  - split; cbn; try done. intros o Ho. rewrite !lookup_insert_ne by lia. done.
  - by rewrite kernel_app, kernel_MKernel.
  - cbn. destruct exit; [by right | left; apply app_nil_r].
Qed.

Lemma createPort_done w od req m m1 m2 o attrs fx fx' :
  createPort1 w req m = (m1, Ok (o, attrs), fx) -> createPort2 od (pq_Identifier req) o attrs m1 = (m2, None, fx') ->
  exists sw es p, AddPort (pq_Identifier req) attrs (mg_sw m) = (sw, None, es) /\ o = mg_next m /\
    m2 = registered sw (OPort o) m1 /\ m1 = alloc_transport p m /\ Attrs req = Ok attrs /\
    mg_ports m !! pq_Identifier req = None.
Proof.
  unfold createPort1. destruct (ValidateIdentifier _); [done|]. destruct (Attrs req); [|done].
  destruct (mg_ports m !! _) eqn:Hno; [done|]. destruct (buildPort w req a) as [[p|e'] fx0] eqn:Hb; [|done].
  intros [= <- <- <- <-]. unfold createPort2. destruct (AddPort _ a (mg_sw _)) as [[sw [e'|]] es] eqn:EA.
  { by destruct (closeTransport _ _ _). }
  pose proof (AddPort_ok _ _ _ _ _ EA) as (_ & _ & _ & _ & _ & -> & _). intros [= <- <-]. cbn in EA.
  exists sw, [ESpawnPortChanged], p. by split_and!.
Qed.

Lemma AddPort_attrs id attrs sw sw' es : AddPort id attrs sw = (sw', None, es) -> PortAttrs_of id sw' = Some attrs.
Proof.
  unfold AddPort. destruct (validate attrs); [done|]. case_bool_decide; [done|]. destruct (SwitchState.ports sw !! id); [done|].
  intros [= <- _]. unfold PortAttrs_of, entry_of. cbn. rewrite lookup_insert_eq. cbn. by rewrite lookup_insert_eq.
Qed.


(** * Changing *)

Lemma UpdateSubs_at attrs subs id sw :
  switch_ok sw -> validate attrs = None ->
  PortAttrs_of id (foldl (fun acc (kv : string * nat) =>
      let '(sw, _, fx) := UpdatePortAttrs kv.1 attrs acc.1 in (sw, acc.2 ++ fx)) (sw, []) subs).1 =
    (if bool_decide (id ∈ subs.*1) then (fun _ => attrs) <$> PortAttrs_of id sw else PortAttrs_of id sw).
Proof.
  intros Hok Hv. generalize (@nil effect) as fx. revert sw Hok. induction subs as [|[k c] subs IH]; intros sw Hok fx; [done|].
  cbn [foldl fmap list_fmap fst snd]. pose proof (UpdatePortAttrs_at k attrs sw id Hok Hv) as Hk.
  pose proof (switch_ok_UpdatePortAttrs k attrs sw Hok) as Hok'. destruct (UpdatePortAttrs k attrs sw) as [[sw' e] fx'].
  cbn [fst snd] in *. rewrite IH by done. rewrite Hk. clear Hk. destruct (decide (id = k)) as [->|Hne].
  - rewrite (bool_decide_true (k = k)), (bool_decide_true (k ∈ k :: _)) by set_solver. case_bool_decide; [|done].
    by destruct (PortAttrs_of k sw).
  - rewrite (bool_decide_false (id = k)) by done. case_bool_decide; case_bool_decide; set_solver.
Qed.

(** The connection [id] of a multiplexing server. *)
Definition connection_of (o : nat) (m : Manager) (id : string) : bool :=
  match mg_transports m !! o with Some (MStream s) => bool_decide (is_Some (ss_subs s !! id)) | _ => false end.

(** What GET shows of a policy. *)
Definition shows (i : PortInfo) (a : PortAttrs) : Prop :=
  pi_VLAN i = VLAN a /\ pi_Isolated i = Isolated a /\ pi_PortSecurity i = hwString <$> SecurityMAC a /\
  pi_Enabled i = negb (Disabled a) /\ pi_BPDUGuard i = BPDUGuard a /\ pi_LoopDetect i = LoopDetect a /\
  pi_StormPPS i = StormPPS a /\ pi_STP i = STP a /\ pi_STPCost i = STPCost a /\ pi_STPPriority i = STPPriority a.

Lemma range_order_keys {A} (range : gmap string A -> list (string * A)) (x : gmap string A) k :
  range_order range -> bool_decide (k ∈ (range x).*1) = bool_decide (is_Some (x !! k)).
Proof.
  intros Hr. apply bool_decide_ext. rewrite (Hr x). rewrite list_elem_of_fmap. split.
  - intros ([k' v] & -> & H%elem_of_map_to_list). by exists v.
  - intros [v H]. exists (k, v). by rewrite elem_of_map_to_list.
Qed.

Lemma updateSubs_at od o attrs m id :
  switch_ok (mg_sw m) -> validate attrs = None -> range_order (mo_subs od) ->
  PortAttrs_of id (mg_sw (updateSubs od o attrs m)) =
    (if connection_of o m id then (fun _ => attrs) <$> PortAttrs_of id (mg_sw m) else PortAttrs_of id (mg_sw m)).
Proof.
  intros Hok Hv Hr. unfold updateSubs, connection_of. destruct (mg_transports m !! o) as [[| | |s|]|]; try done.
  unfold UpdateSubAttrs. pose proof (UpdateSubs_at attrs (mo_subs od (ss_subs s)) id (mg_sw m) Hok Hv) as H.
  destruct (foldl _ _ _) as [sw fx]. cbn in *. by rewrite H, range_order_keys.
Qed.

Lemma updateSubs_transports od o attrs m :
  mg_ports (updateSubs od o attrs m) = mg_ports m /\
  forall p, mg_transports m !! o = Some p ->
    mg_transports (updateSubs od o attrs m) !! o = Some (match p with MStream s => MStream (ss_set_attrs attrs s) | _ => p end).
Proof.
  unfold updateSubs. destruct (mg_transports m !! o) as [p|] eqn:Ho; [|done].
  destruct p as [| | |s|]; try (split; [done|]; by intros ? [= <-]).
  unfold UpdateSubAttrs. destruct (foldl _ _ _) as [sw fx]. split; [done|]. intros ? [= <-]. apply lookup_insert_eq.
Qed.

Lemma UpdatePortAttrs_inv id attrs sw sw' e fx :
  UpdatePortAttrs id attrs sw = (sw', e, fx) ->
  match e with
  | Some _ => sw' = sw
  | None => validate attrs = None
  end.
Proof.
  unfold UpdatePortAttrs. destruct (validate attrs); [by intros [= <- <-]|].
  destruct (SwitchState.ports sw !! id); by intros [= <- <-].
Qed.

Lemma patched_shows od id rec attrs req p m i :
  mg_ports m !! id = Some (mkPortRecord (reflect attrs req) rec) -> mg_transports m !! rec = Some p ->
  PortAttrs_of id (mg_sw m) = Some attrs -> portInfoLocked od id m = Ok i -> shows i attrs.
Proof.
  intros Hr Hp Ha. unfold portInfoLocked. rewrite Hr. cbn [pr_port pr_req]. rewrite Hp, Ha.
  destruct (STPPortStatusOf (mg_sw m) id) as [st b]. by intros [= <-].
Qed.

(** C32: PATCH of a port.  In every reachable state, a PATCH that fails changes
    nothing.  One that succeeds turned the port's policy [attrs] into the patch
    applied to it; the switch enforces exactly that policy, GET shows it, every
    live connection of the port, when it is a multiplexing server, is under it,
    and so will be each connection the server accepts from now on.  No other
    port's policy changes. *)
Theorem patch_port_applied od s id patch m' r :
  let m := sy_m s in
  sys_reachable s -> range_order (mo_subs od) -> PatchPort od id patch m = (m', r) ->
  match r with
  | Err _ => m' = m
  | Ok i => exists rec attrs attrs',
      mg_ports m !! id = Some rec /\ PortAttrs_of id (mg_sw m) = Some attrs /\ Apply patch attrs = Ok attrs' /\
      PortAttrs_of id (mg_sw m') = Some attrs' /\ GetPort od id m' = Ok i /\ shows i attrs' /\
      (forall id', id' <> id -> PortAttrs_of id' (mg_sw m') =
         if connection_of (pr_port rec) m id' then (fun _ => attrs') <$> PortAttrs_of id' (mg_sw m)
         else PortAttrs_of id' (mg_sw m)) /\
      (forall srv, mg_transports m' !! pr_port rec = Some (MStream srv) -> ss_attrs srv = attrs')
  end.
Proof.
  intros m Hs%sys_reachable_ok Hr. unfold PatchPort. destruct (mg_ports m !! id) as [rec|] eqn:Hrec; [|by intros [= <- <-]].
  unfold patchAttrs. destruct (PortAttrs_of id (mg_sw m)) as [attrs|] eqn:Ha; [|by intros [= <- <-]].
  destruct (Apply patch attrs) as [attrs'|] eqn:Happ; [|by intros [= <- <-]]. unfold patchSwitch.
  pose proof (UpdatePortAttrs_at id attrs' (mg_sw m)) as Hat.
  pose proof (switch_ok_UpdatePortAttrs id attrs' (mg_sw m) (sy_sw _ Hs)) as Hok'.
  destruct (UpdatePortAttrs id attrs' (mg_sw m)) as [[sw e] fx] eqn:EU. apply UpdatePortAttrs_inv in EU.
  destruct e as [e|]; [intros [= <- <-]; subst sw; by destruct m|]. cbn [fst] in *.
  destruct (sy_recs _ Hs _ _ Hrec) as (_ & (_ & (p & Hp & _) & _) & _).
  destruct (updateSubs_transports od (pr_port rec) attrs' (set_sw sw m)) as [_ Htp]. specialize (Htp p Hp).
  pose proof (fun id' => updateSubs_at od (pr_port rec) attrs' (set_sw sw m) id' Hok' EU Hr) as Hnew.
  assert (Hrec2 : mg_ports (updateSubs od (pr_port rec) attrs' (set_sw sw m)) !! id = Some rec) 
    by by rewrite (proj1 (updateSubs_transports _ _ _ _)).
  set (m2 := updateSubs od (pr_port rec) attrs' (set_sw sw m)) in *. unfold patchRecord. rewrite Hrec2, bool_decide_true by done.
  set (m3 := set_ports _ m2).
  assert (Hid : PortAttrs_of id (mg_sw m3) = Some attrs').
  { change (mg_sw m3) with (mg_sw m2). rewrite Hnew. cbn [mg_sw set_sw]. rewrite Hat by (done || apply Hs).
    rewrite bool_decide_true, Ha by done. by destruct (connection_of _ _ _). }
  destruct (portInfo_ok od id (mkPortRecord (reflect attrs' (pr_req rec)) (pr_port rec)) _ m3 (lookup_insert_eq _ _ _) Htp) as [i Hi].
  rewrite Hi. intros [= <- <-]. exists rec, attrs, attrs'. split_and!; try done.
  - by eapply (patched_shows od id (pr_port rec) attrs' (pr_req rec) _ m3); [apply lookup_insert_eq | exact Htp |..].
  - intros id' Hne. change (mg_sw m3) with (mg_sw m2). rewrite Hnew. cbn [mg_sw set_sw].
    rewrite Hat, bool_decide_false by (done || apply Hs). done.
  - intros srv. change (mg_transports m3) with (mg_transports m2). rewrite Htp. destruct p; by intros [= <-].
Qed.

(** * Ports that go away *)

(** No gateway lease and no learned address is tied to port [id]. *)
Definition lease_free (id : string) (g : Gateway) : Prop :=
  (forall ip l, leases (g_dhcp4 g) !! ip = Some l -> l_PortID l <> id) /\
  (forall ip l, leases (g_dhcp6 g) !! ip = Some l -> l_PortID l <> id).

Record forgotten (id : string) (m : Manager) : Prop := {
  fg_fdb : forall k e, fdb_m (sfdb (mg_sw m)) !! k = Some e -> fe_static e = false -> fe_portID e <> id;
  fg_leases : forall vlan rec g, mg_gateways m !! vlan = Some rec -> mg_gws m !! gr_gw rec = Some g -> lease_free id g
}.

Lemma lease_free_PortDown id id' g : lease_free id g \/ id' = id -> lease_free id (g_PortDown id' g).
Proof.
  intros H. split; intros ip l; cbn; unfold releaseByPort; rewrite map_lookup_filter_Some; cbn; intros [Hl Hne];
    (destruct H as [[H1 H2]| ->]; [eauto | done]).
Qed.

Lemma gatewaysDown_fold id l : forall m o g,
  mg_gws (foldl (fun m (kv : Z * gatewayRecord) =>
    match mg_gws m !! gr_gw kv.2 with
    | Some g => set_gw (gr_gw kv.2) (g_PortDown id g) m
    | None => m
    end) m l) !! o = Some g ->
  o ∈ (gr_gw <$> l.*2) \/ (exists g0, mg_gws m !! o = Some g0 /\ lease_free id g0) -> lease_free id g.
Proof.
  induction l as [|[v rec] l IH]; intros m o g; cbn [foldl fmap list_fmap snd].
  - intros Hg [H|(g0 & Hg0 & Hf)]; [by apply elem_of_nil in H | congruence].
  - intros Hg H. eapply (IH _ o g Hg). destruct (decide (o ∈ gr_gw <$> l.*2)) as [|Hno]; [by left|]. right.
    destruct (decide (o = gr_gw rec)) as [->|Hne].
    + destruct (mg_gws m !! gr_gw rec) as [g0|] eqn:E.
      * exists (g_PortDown id g0). split; [apply lookup_insert_eq|]. apply lease_free_PortDown. by right.
      * exfalso. clear IH H. revert m Hg E. induction l as [|[v' rec'] l IH']; intros m Hg E; [cbn in Hg; congruence|].
        cbn in Hg. apply not_elem_of_cons in Hno as [Hn1 Hn2]. destruct (mg_gws m !! gr_gw rec') eqn:E'; [|by eapply IH'].
        eapply (IH' Hn2); [exact Hg|]. cbn. by rewrite lookup_insert_ne.
    + destruct H as [H|(g0 & Hg0 & Hf)]; [set_solver|]. exists g0. split; [|done].
      destruct (mg_gws m !! gr_gw rec); [|done]. cbn. by rewrite lookup_insert_ne.
Qed.

Lemma gatewaysDown_forgets od id m vlan rec g :
  range_order (mo_gateways od) -> mg_gateways m !! vlan = Some rec ->
  mg_gws (gatewaysDown od id m) !! gr_gw rec = Some g -> lease_free id g.
Proof.
  intros Hr Hrec Hg. eapply gatewaysDown_fold; [exact Hg|]. left. apply list_elem_of_fmap. exists rec. split; [done|].
  apply list_elem_of_fmap. exists (vlan, rec). split; [done|]. rewrite (Hr (mg_gateways m)). by apply elem_of_map_to_list.
Qed.

(** The callback, and the switch that calls it. *)
Lemma flushed_forgets id f k e : fdb_m (flushPort f id) !! k = Some e -> fe_static e = false -> fe_portID e <> id.
Proof.
  cbn. unfold delete_if. rewrite map_lookup_filter_Some. unfold flushPort_test. cbn. intros [_ H] Hs.
  rewrite Hs in H. cbn in H. by apply bool_decide_eq_false in H.
Qed.

Lemma gatewaysDown_fields od id m :
  let m' := gatewaysDown od id m in
  mg_sw m' = mg_sw m /\ mg_ports m' = mg_ports m /\ mg_gateways m' = mg_gateways m /\ mg_transports m' = mg_transports m /\
  mg_of m' = mg_of m /\ mg_exits m' = mg_exits m /\ mg_deletes m' = mg_deletes m.
Proof.
  unfold gatewaysDown. generalize (mo_gateways od (mg_gateways m)) as l. intros l. revert m.
  induction l as [|kv l IH]; intros m; cbn [foldl]; [done|].
  destruct (mg_gws m !! gr_gw kv.2); [|apply IH]. exact (IH (set_gw _ _ m)).
Qed.

Lemma downHook_fields od id m :
  let m' := downHook od id m in
  mg_sw m' = mg_sw m /\ mg_ports m' = mg_ports m /\ mg_gateways m' = mg_gateways m /\ mg_transports m' = mg_transports m /\
  mg_gws m' = mg_gws (gatewaysDown od id m) /\ mg_of m' = mg_of m.
Proof.
  pose proof (gatewaysDown_fields od id m) as (? & ? & ? & ? & ? & _). unfold downHook. cbv zeta. by case_match.
Qed.

(** A port that is down is forgotten, and queued for removal when it opted in
    and is offline. *)
Lemma notify_ok od id m :
  downCB (mg_sw m) = [0%nat] -> range_order (mo_gateways od) ->
  let m' := (notify od id m).1 in
  forgotten id m' /\ SwitchState.ports (mg_sw m') = SwitchState.ports (mg_sw m) /\ downCB (mg_sw m') = [0%nat] /\
  mg_ports m' = mg_ports m /\ mg_transports m' = mg_transports m /\ mg_of m' = mg_of m /\
  forall rec p, mg_ports m !! id = Some rec -> autoRemove (pr_req rec) = true ->
    mg_transports m !! pr_port rec = Some p -> st_Online (portStatusOf od p) = false -> mg_deletes m' = mg_deletes m ++ [id].
Proof.
  intros Hd Hr. unfold notify, NotifyDown, portDown. cbn [runEffects fmap list_fmap]. rewrite Hd. cbn [fmap list_fmap runEffects runEffect].
  set (m0 := set_sw _ m). cbn [fst]. destruct (downHook_fields od id m0) as (Hsw & Hp & Hg & Ht & Hgw & Ho).
  split; [split|split_and!].
  - intros k e. rewrite Hsw. apply flushed_forgets.
  - intros vlan rec g. rewrite Hg, Hgw. by apply gatewaysDown_forgets.
  - by rewrite Hsw.
  - by rewrite Hsw.
  - by rewrite Hp.
  - by rewrite Ht.
  - by rewrite Ho.
  - intros rec p Hrec Ha Htp Hoff. unfold downHook. cbn [mg_ports mg_transports m0 set_sw]. rewrite Hrec, Ha, Htp, Hoff. cbn.
    destruct (gatewaysDown_fields od id m0) as (_ & _ & _ & _ & _ & _ & ->). done.
Qed.

Lemma closeObj_fields od l m :
  let m' := (closeObj od l m).1 in
  mg_sw m' = mg_sw m /\ mg_ports m' = mg_ports m /\ mg_gateways m' = mg_gateways m /\ mg_deletes m' = mg_deletes m.
Proof.
  unfold closeObj, closeTransport, closeSub, closeGateway. destruct (mg_of m !! l) as [[o|o k|o]|]; [| | |done].
  - destruct (mg_transports m !! o); [|done]. by destruct (portClose od m0) as [[? ?] ?].
  - by destruct (mg_transports m !! o) as [[]|].
  - destruct (mg_gws m !! o); [|done]. by destruct (g_Close (mo_fwd od) g).
Qed.

Lemma deletePort2_removes od id m :
  downCB (mg_sw m) = [0%nat] -> range_order (mo_gateways od) ->
  mg_ports m !! id = None -> is_Some (SwitchState.ports (mg_sw m) !! id) ->
  let m' := (deletePort2 od id m).1 in
  forgotten id m' /\ mg_ports m' = mg_ports m /\
  SwitchState.ports (mg_sw m') = delete id (SwitchState.ports (mg_sw m)) /\ mg_deletes m' = mg_deletes m.
Proof.
  intros Hd Hr Hrec [l Hl]. unfold deletePort2, RemovePort. rewrite Hl.
  unfold portDown. cbn [downCB upd with_heap with_ports]. rewrite Hd. cbn [fmap list_fmap runEffects runEffect].
  set (m0 := set_sw _ _). destruct (closeObj_fields od l m0) as (Hsw & Hp & Hg & Hdel).
  destruct (closeObj od l m0) as [m1 fx]. cbn [fst] in *.
  destruct (downHook_fields od id m1) as (Hsw' & Hp' & Hg' & _ & Hgw' & _). cbn [fst snd]. split_and!.
  - split.
    + intros k e. rewrite Hsw', Hsw. apply flushed_forgets.
    + intros vlan r g. rewrite Hg', Hgw'. by apply gatewaysDown_forgets.
  - by rewrite Hp', Hp.
  - by rewrite Hsw', Hsw.
  - unfold downHook. rewrite Hp. cbn [mg_ports m0 set_sw]. rewrite Hrec.
    destruct (gatewaysDown_fields od id m1) as (_ & _ & _ & _ & _ & _ & ->). by rewrite Hdel.
Qed.

