(* ===== verification/Policy.v ===== *)
(** The policy GET shows and the policy the switch enforces
    (src/internal/manager/manager.go, [PatchPort] and [portInfoLocked]).

    GET takes VLAN, guards and limits from the switch, and the isolation and the
    security MAC from the stored request, which a PATCH rewrites after the switch
    has the new policy.  [serial_reachable] are the runs in which the creation,
    PATCH and deletion of one port do not overlap; in them the two agree for
    every port no PATCH is under way on. *)
From S2P Require Import Prelude Vlan Fdb Protect SwitchState Stp Switch SwitchInv Lease GoText NetText Forwards Server Json ApiTypes Manager System SystemProps ManagerProps.

#[local] Open Scope Z_scope.

(** The port a call under way works on. *)
Definition patching (p : pending) : option string :=
  match p with
  | PatchFound id _ _ | PatchApplied id _ _ | PatchSet id _ _ | PatchSubs id _ _ _ => Some id
  | _ => None
  end.

Definition busy (p : pending) : option string :=
  match p with
  | PortAdded req _ => Some (pq_Identifier req)
  | PortDeleting id _ => Some id
  | _ => patching p
  end.

Definition serial (ps : list pending) : Prop := NoDup (omap busy ps).

(** The runs in which at most one call works on a port. *)
Inductive serial_reachable : System -> Prop :=
  | SerialNew random : serial_reachable (mkSystem (m_New random) [])
  | SerialStep s s' : serial_reachable s -> sys_step s s' -> serial (sy_pending s') -> serial_reachable s'.

Lemma serial_is_run s : serial_reachable s -> sys_reachable s /\ serial (sy_pending s).
Proof. induction 1 as [|s s' _ [IH _] Hs]; [split; constructor|]. split; [by econstructor | done]. Qed.

(** * What the stored request says *)

(** The request asks for the policy that is enforced. *)
Definition shown (m : Manager) (id : string) (req : PortRequest) : Prop :=
  exists a, Attrs req = Ok a /\ policy_of id (mg_sw m) = Some (policy a).

(** A hardware address that survives being printed. *)
Definition canonical (mac : option bytes) : Prop := forall b, mac = Some b -> ParseMAC (hwString b) = Ok b.

Lemma canonical_parsed s b : ParseMAC s = Ok b -> canonical (Some b).
Proof. intros [Hb Hs]%ParseMAC_ok b' [= <-]. by apply ParseMAC_hwString. Qed.

Lemma Attrs_canonical req a : Attrs req = Ok a -> canonical (SecurityMAC a).
Proof.
  unfold Attrs. destruct (pq_PortSecurity req) as [s|]; [|by intros [= <-]].
  destruct (ParseMAC s) as [b|] eqn:E; [|done]. intros [= <-]. by eapply canonical_parsed.
Qed.

Lemma Apply_canonical patch a a' : canonical (SecurityMAC a) -> Apply patch a = Ok a' -> canonical (SecurityMAC a').
Proof.
  intros Hc. unfold Apply. destruct (patchMAC patch (SecurityMAC a)) as [mac|] eqn:E; [|done]. intros [= <-]. cbn.
  unfold patchMAC in E. destruct (pp_PortSecurity patch) as [raw|]; [|by injection E as <-].
  destruct (dec_ptr _ _ raw None) as [[s|]|]; [|by injection E as <-|done].
  destruct (ParseMAC s) as [b|] eqn:Hs; [|done]. injection E as <-. by eapply canonical_parsed.
Qed.

Lemma reflect_shows attrs req : canonical (SecurityMAC attrs) -> exists a, Attrs (reflect attrs req) = Ok a /\ policy a = policy attrs.
Proof.
  intros Hc. unfold Attrs, reflect, policy. cbn. destruct (SecurityMAC attrs) as [b|]; cbn; [|by eexists].
  rewrite (Hc b eq_refl). by eexists.
Qed.

(** * The invariant *)

(** The record the call looked up is still that of the port. *)
Definition holds_rec (m : Manager) (id : string) (o : nat) (P : PortRequest -> Prop) : Prop :=
  exists rec, mg_ports m !! id = Some rec /\ pr_port rec = o /\ P (pr_req rec).

(** The switch has the policy, the record does not yet. *)
Definition enforced (m : Manager) (id : string) (o : nat) (attrs : PortAttrs) : Prop :=
  holds_rec m id o (fun _ => True) /\ policy_of id (mg_sw m) = Some (policy attrs) /\ canonical (SecurityMAC attrs).

Definition pol_ok (m : Manager) (p : pending) : Prop :=
  match p with
  | PortBuilt req _ attrs => Attrs req = Ok attrs
  | PortAdded req _ => shown m (pq_Identifier req) req
  | PatchFound id _ o => holds_rec m id o (shown m id)
  | PatchApplied id o attrs => holds_rec m id o (shown m id) /\ canonical (SecurityMAC attrs)
  | PatchSet id o attrs => enforced m id o attrs
  | PatchSubs id o attrs ids => enforced m id o attrs /\ Forall (fun i => has_at i = true) ids
  | _ => True
  end.

Record pol_inv (s : System) : Prop := {
  pv_rec : forall id rec, mg_ports (sy_m s) !! id = Some rec ->
    (forall p, p ∈ sy_pending s -> patching p <> Some id) -> shown (sy_m s) id (pr_req rec);
  pv_pend : forall p, p ∈ sy_pending s -> pol_ok (sy_m s) p
}.

(** A step that changes policy and record of port [t] at most. *)
Definition touches (t : option string) (m m' : Manager) : Prop :=
  SwitchState.stopped (mg_sw m') = SwitchState.stopped (mg_sw m) /\
  forall id, has_at id = false -> t <> Some id ->
    policy_of id (mg_sw m') = policy_of id (mg_sw m) /\ mg_ports m' !! id = mg_ports m !! id.

Lemma touches_frame m m' : mframe m m' -> touches None m m'.
Proof. intros H. split; [apply H|]. intros id _ _. apply (mf_policy _ _ H). tauto. Qed.

Lemma touches_frame_at id m m' : mframe_by (eq id) m m' -> touches (Some id) m m'.
Proof. intros H. split; [apply H|]. intros i _ Hi. apply (mf_policy _ _ H). congruence. Qed.

Lemma touches_sub id m m' : has_at id = true -> touches (Some id) m m' -> touches None m m'.
Proof. intros Hat [E H]. split; [done|]. intros i Hi _. apply H; [done | congruence]. Qed.

Lemma touches_trans t m m' m'' : touches t m m' -> touches t m' m'' -> touches t m m''.
Proof.
  intros [E1 H1] [E2 H2]. split; [congruence|]. intros id Hat Hid. destruct (H1 id Hat Hid), (H2 id Hat Hid). split; congruence.
Qed.

Lemma touches_weaken t m m' : touches None m m' -> touches t m m'.
Proof. intros [E H]. split; [done|]. intros id Hat _. by apply H. Qed.

Lemma touches_open t m m' : touches t m m' -> open m' -> open m.
Proof. intros [E _]. unfold open. by rewrite E. Qed.

Lemma pol_ok_frame m m' p :
  (forall id, busy p = Some id -> policy_of id (mg_sw m') = policy_of id (mg_sw m) /\ mg_ports m' !! id = mg_ports m !! id) ->
  pol_ok m p -> pol_ok m' p.
Proof.
  intros H. destruct p; cbn; try done; destruct (H _ eq_refl) as [H1 H2]; unfold enforced, holds_rec, shown; by rewrite ?H1, ?H2.
Qed.

(** The port a call works on is registered under a valid name. *)
Lemma patching_rec m p id : pol_ok m p -> patching p = Some id -> is_Some (mg_ports m !! id).
Proof.
  destruct p; cbn; intros Hp [= <-].
  - destruct Hp as (rec & -> & _). eauto.
  - destruct Hp as [(rec & -> & _) _]. eauto.
  - destruct Hp as [(rec & -> & _) _]. eauto.
  - destruct Hp as [[(rec & -> & _) _] _]. eauto.
Qed.

Lemma busy_name m ps p id :
  sys_ok (mkSystem m ps) -> pol_inv (mkSystem m ps) -> p ∈ ps -> busy p = Some id ->
  has_at id = false /\ (open m -> exists x, reg m id x).
Proof.
  intros Hok [_ Hpv] Hp Hb. assert (Hcase : patching p = Some id \/ exists o, pend_holds p = Some (id, OPort o)).
  { destruct p; cbn in *; eauto; injection Hb as <-; eauto. }
  destruct Hcase as [Hpt|(o & Ho)].
  - destruct (patching_rec m p id (Hpv p Hp) Hpt) as [rec Hr]. destruct (sy_recs _ Hok _ _ Hr) as (_ & (Hv & _) & Hreg).
    split; [by apply valid_no_at | eauto].
  - destruct (sy_pend _ Hok p Hp) as [Hn Hreg]. destruct (Hn _ _ (holds_obj _ _ Ho)) as [Hv _]. split; [by eapply valid_name_no_at|].
    intros Hop. exists (OPort o). by apply Hreg.
Qed.

(** The step touches [t]: no other call works on it, and its record is right
    unless a PATCH is still under way. *)
Lemma pol_inv_step t m m' ps ps' :
  sys_ok (mkSystem m ps) -> sys_ok (mkSystem m' ps') -> pol_inv (mkSystem m ps) -> touches t m m' ->
  (forall p, p ∈ ps' -> pol_ok m' p \/ p ∈ ps /\ (busy p = None \/ busy p <> t)) ->
  (forall id rec, t = Some id -> mg_ports m' !! id = Some rec -> (forall p, p ∈ ps' -> patching p <> Some id) -> shown m' id (pr_req rec)) ->
  (forall p id, p ∈ ps -> patching p = Some id -> t <> Some id -> exists p', p' ∈ ps' /\ patching p' = Some id) ->
  pol_inv (mkSystem m' ps').
Proof.
  intros Hok Hok' Hinv [_ Ht] Hps Hrec Hkeep. pose proof Hinv as [Hr Hp]. cbn [sy_m sy_pending] in *. split; cbn [sy_m sy_pending].
  - intros id rec Hid Hno. destruct (decide (t = Some id)) as [E|Hne]; [eauto|].
    destruct (sy_recs _ Hok' _ _ Hid) as (_ & (Hv & _) & _). destruct (Ht id (valid_no_at _ Hv) Hne) as [E1 E2].
    unfold shown. rewrite E1. apply Hr; [by rewrite <- E2|]. intros p Hin Hpt. destruct (Hkeep p id Hin Hpt Hne) as (p' & Hin' & Hpt').
    by eapply Hno.
  - intros p Hin. destruct (Hps p Hin) as [?|[Hin' Hb]]; [done|]. apply (pol_ok_frame m); [|by apply Hp].
    intros id Hid. apply Ht; [by eapply (busy_name m ps)|]. destruct Hb; congruence.
Qed.

(** A call goes on as [qs], or ends. *)
Lemma pol_replace t p qs m m' ps ps' :
  sys_ok (mkSystem m (ps ++ p :: ps')) -> sys_ok (mkSystem m' (ps ++ qs ++ ps')) -> pol_inv (mkSystem m (ps ++ p :: ps')) ->
  touches t m m' -> (forall r, r ∈ ps ++ ps' -> busy r = None \/ busy r <> t) -> Forall (pol_ok m') qs ->
  (forall id rec, t = Some id -> mg_ports m' !! id = Some rec -> (forall r, r ∈ qs -> patching r <> Some id) -> shown m' id (pr_req rec)) ->
  (patching p = None \/ patching p = t \/ exists q, q ∈ qs /\ patching q = patching p) ->
  pol_inv (mkSystem m' (ps ++ qs ++ ps')).
Proof.
  intros Hok Hok' Hinv Ht Hidle Hqs Hrec Hpt. eapply (pol_inv_step t m m'); try done.
  - intros r Hr. rewrite !elem_of_app in Hr. destruct Hr as [Hr|[Hr|Hr]].
    + right. split; [|apply Hidle]; set_solver.
    + left. by eapply Forall_forall.
    + right. split; [|apply Hidle]; set_solver.
  - intros id rec -> Hid Hno. apply (Hrec id rec); [done..|]. intros r Hr. apply Hno. set_solver.
  - intros r id Hr Hrp Hne. rewrite elem_of_app, elem_of_cons in Hr. destruct Hr as [Hr|[->|Hr]]; [exists r; set_solver | | exists r; set_solver].
    destruct Hpt as [?|[?|(q & Hq & Eq)]]; [congruence..|]. exists q. split; [set_solver | congruence].
Qed.

(** A call begins. *)
Lemma pol_append t qs m m' ps :
  sys_ok (mkSystem m ps) -> sys_ok (mkSystem m' (ps ++ qs)) -> pol_inv (mkSystem m ps) ->
  touches t m m' -> (forall r, r ∈ ps -> busy r = None \/ busy r <> t) -> Forall (pol_ok m') qs ->
  (forall id rec, t = Some id -> mg_ports m' !! id = Some rec -> shown m' id (pr_req rec)) ->
  pol_inv (mkSystem m' (ps ++ qs)).
Proof.
  intros Hok Hok' Hinv Ht Hidle Hqs Hrec. eapply (pol_inv_step t m m'); try done.
  - intros r Hr. rewrite elem_of_app in Hr. destruct Hr as [Hr|Hr]; [right; auto | left; by eapply Forall_forall].
  - eauto.
  - intros r id Hr Hrp _. exists r. set_solver.
Qed.

Lemma pol_same m m' ps :
  sys_ok (mkSystem m ps) -> sys_ok (mkSystem m' ps) -> pol_inv (mkSystem m ps) -> touches None m m' -> pol_inv (mkSystem m' ps).
Proof.
  intros Hok Hok' Hinv Ht. pose proof (pol_append None [] m m' ps) as H. rewrite app_nil_r in H. apply H; try done.
  intros r _. destruct (busy r); [by right | by left].
Qed.

Lemma serial_others p ps ps' r : serial (ps ++ p :: ps') -> r ∈ ps ++ ps' -> busy r = None \/ busy r <> busy p.
Proof.
  intros Hs Hr. destruct (busy r) as [id|] eqn:E; [right | by left]. intros Ep.
  exact (pend_unique busy p ps ps' r id Hs (eq_sym Ep) Hr E).
Qed.

(** No call works on a name the switch does not have. *)
Lemma free_idle m ps id r :
  sys_ok (mkSystem m ps) -> pol_inv (mkSystem m ps) -> open m -> SwitchState.ports (mg_sw m) !! id = None -> r ∈ ps -> busy r <> Some id.
Proof.
  intros Hok Hinv Ho Hno Hr Hb. destruct (busy_name _ _ _ _ Hok Hinv Hr Hb) as [_ H]. destruct (H Ho) as (x & l & Hl & _). congruence.
Qed.

(** * Registering and unregistering *)

Lemma AddPort_policy id attrs sw sw' es :
  switch_ok sw -> AddPort id attrs sw = (sw', None, es) ->
  policy_of id sw' = Some (policy attrs) /\ forall id', id' <> id -> policy_of id' sw' = policy_of id' sw.
Proof.
  intros Hok HA. split; [unfold policy_of; by rewrite (AddPort_attrs _ _ _ _ _ HA)|]. intros id' Hne. revert HA.
  unfold AddPort. destruct (validate attrs); [done|]. case_bool_decide; [done|]. destruct (SwitchState.ports sw !! id); [done|].
  intros [= <- _]. unfold policy_of, PortAttrs_of, entry_of. cbn. rewrite lookup_insert_ne by done.
  destruct (SwitchState.ports sw !! id') as [l|] eqn:Hl; [|done]. cbn. destruct (ok_reg _ Hok _ _ Hl) as (e & He & _).
  rewrite lookup_insert_ne; [done|]. intros <-. pose proof (ok_entry _ Hok _ _ He). lia.
Qed.

Lemma RemovePort_policy id sw id' : id' <> id -> policy_of id' (RemovePort id sw).1 = policy_of id' sw.
Proof.
  intros Hne. unfold RemovePort. destruct (SwitchState.ports sw !! id) as [l|]; [|done]. unfold policy_of, PortAttrs_of, entry_of. cbn.
  rewrite lookup_delete_ne by done. destruct (SwitchState.ports sw !! id') as [l'|]; [|done]. cbn.
  rewrite lookup_alter. case_decide; [subst|done]. by destruct (heap sw !! _).
Qed.

Lemma touches_registered od id attrs sw es x m :
  switch_ok (mg_sw m) -> AddPort id attrs (mg_sw m) = (sw, None, es) -> touches (Some id) m (runEffects od es (registered sw x m)).1.
Proof.
  intros Hok HA. destruct (AddPort_policy _ _ _ _ _ Hok HA) as [_ H].
  eapply touches_trans; [|apply touches_weaken, touches_frame, mframe_runEffects]. split; [cbn; by eapply AddPort_ok|].
  intros i _ Hi. split; [|done]. apply H. congruence.
Qed.

Lemma touches_removed od id m : touches (Some id) m (deletePort2 od id m).1.
Proof.
  unfold deletePort2. destruct (RemovePort id (mg_sw m)) as [sw es] eqn:E.
  eapply touches_trans; [|apply touches_weaken, touches_frame, mframe_runEffects].
  split; [pose proof (RemovePort_fields id (mg_sw m)) as H; rewrite E in H; apply H|]. intros i _ Hi. split; [|done].
  cbn. rewrite <- (RemovePort_policy id (mg_sw m) i), E; [done | congruence].
Qed.

Lemma deletePort2_rec od id m i : mg_ports (deletePort2 od id m).1 !! i = mg_ports m !! i.
Proof.
  unfold deletePort2. destruct (RemovePort id (mg_sw m)) as [sw es].
  destruct (mf_policy _ _ (mframe_runEffects od es (set_sw sw m)) i) as [_ ->]; [tauto | done].
Qed.

(** The calls under way answer for no recorded port. *)
Lemma held_unrecorded m ps p id x :
  sys_ok (mkSystem m ps) -> open m -> p ∈ ps -> pend_holds p = Some (id, x) -> mg_ports m !! id = None.
Proof. intros Hok Ho Hp Hh. by apply (po_reg _ _ (sy_pend _ Hok p Hp) _ _ Hh Ho). Qed.

(** * The goroutines *)

Lemma touches_serverAdd od o m ps : sys_ok (mkSystem m ps) -> touches None m (serverAdd od o m).1.
Proof.
  intros Hok. unfold serverAdd. destruct (mg_transports m !! o) as [[| | |s|]|] eqn:E; try done.
  destruct (ss_accept s) as [| |subID n k a] eqn:Ea; try done.
  assert (Hsub : sub_ok s) by apply (sy_tp _ Hok o _ E). pose proof (sub_names _ Hsub _ _ _ (sub_adding _ Hsub _ _ _ _ Ea)) as Hat.
  unfold addSub2. destruct (AddPort subID a (mg_sw m)) as [[sw [e|]] es] eqn:EA; cbn [fst].
  - apply AddPort_err in EA as ->. eapply touches_trans; [|apply touches_frame, mframe_runEffects]. done.
  - apply (touches_sub subID); [done|]. apply (touches_registered od subID a sw es (OSub o k) (set_transport o _ m)); [apply Hok | done].
Qed.

Lemma touches_serverExit od o k exits m ps : sys_ok (mkSystem m ps) -> touches None m (serverExit od o k exits m).1.
Proof.
  intros Hok. unfold serverExit. destruct (mg_transports m !! o) as [[| | |s|]|] eqn:E; try done.
  assert (Hsub : sub_ok s) by apply (sy_tp _ Hok o _ E). unfold runExit. cbn [ss_callbacks ss_set_live].
  destruct (ss_callbacks s !! k) as [[|subID n]|] eqn:Ecb.
  - cbn [ss_pump ss_set_live ss_live]. destruct (ss_pump s) as [j|]; [|done]. destruct (negb _); [|done].
    cbn [NotifyDown portDown fst]. eapply touches_trans; [|apply touches_frame, mframe_runEffects]. done.
  - apply (touches_sub subID); [by eapply (sub_names _ Hsub k)|].
    pose proof (touches_removed od subID (set_transport o (MStream (ss_set_subs (delete subID (ss_subs s)) (free_anon n (ss_anon s))
      (ss_set_live (ss_live s) exits s))) m)) as H. unfold deletePort2 in H. cbn [mg_sw set_transport] in H.
    cbn [ss_subs ss_anon ss_set_live]. destruct (RemovePort subID (mg_sw m)) as [sw es]. exact H.
  - eapply touches_trans; [|apply touches_frame, mframe_runEffects]. done.
Qed.

Lemma touches_bg m m' ps : sys_ok (mkSystem m ps) -> bg_step m m' -> touches None m m'.
Proof.
  intros Hok Hb.
  destruct Hb as [o p p' Hp Hs|o|od o l l' Hl|od o|od o n up|od o|od o k s l l' Hs Hl|o g g' Hg Hc|fx sw' Hw].
  - done.
  - apply touches_frame, mframe_pumpFails.
  - apply touches_frame. eapply mframe_trans; [apply mframe_exits | apply mframe_pumpExit].
  - apply touches_frame, mframe_xdpLost.
  - apply touches_frame, mframe_vhostReport.
  - by eapply touches_serverAdd.
  - by eapply touches_serverExit.
  - done.
  - destruct (work_fields _ _ _ Hw) as (? & ? & ? & ? & ?). split; [done|]. intros id _ _. split; [by apply policy_of_heap | done].
Qed.

(** * The calls *)

(** The invariant across a step, while the program runs. *)
Definition kept (s s' : System) : Prop :=
  serial (sy_pending s) -> serial (sy_pending s') -> (open (sy_m s) -> pol_inv s) -> open (sy_m s') -> pol_inv s'.

Section calls.
Context (m : Manager).

Lemma kept_same m' ps :
  sys_ok (mkSystem m ps) -> sys_ok (mkSystem m' ps) -> touches None m m' -> kept (mkSystem m ps) (mkSystem m' ps).
Proof. intros Hok Hok' Ht _ _ Hinv Ho. apply (pol_same m); try done. apply Hinv. by eapply touches_open. Qed.

(** A call that works on no port begins or ends. *)
Lemma kept_append q m' ps :
  sys_ok (mkSystem m ps) -> sys_ok (mkSystem m' (ps ++ [q])) -> touches None m m' -> pol_ok m' q ->
  kept (mkSystem m ps) (mkSystem m' (ps ++ [q])).
Proof.
  intros Hok Hok' Ht Hq _ _ Hinv Ho. apply (pol_append None _ m); try done.
  - apply Hinv. by eapply touches_open.
  - intros r _. destruct (busy r); [by right | by left].
  - by repeat constructor.
Qed.

Lemma kept_drop p m' ps ps' :
  sys_ok (mkSystem m (ps ++ p :: ps')) -> sys_ok (mkSystem m' (ps ++ ps')) -> touches None m m' -> patching p = None ->
  kept (mkSystem m (ps ++ p :: ps')) (mkSystem m' (ps ++ ps')).
Proof.
  intros Hok Hok' Ht Hq _ _ Hinv Ho. apply (pol_replace None p [] m); try done.
  - apply Hinv. by eapply touches_open.
  - intros r _. destruct (busy r); [by right | by left].
  - by left.
Qed.

(** The call [p] works on its own port, and goes on as [qs]. *)
Lemma kept_own p qs m' ps ps' :
  sys_ok (mkSystem m (ps ++ p :: ps')) -> sys_ok (mkSystem m' (ps ++ qs ++ ps')) -> touches (busy p) m m' ->
  (open m -> pol_ok m p -> Forall (pol_ok m') qs /\
    forall id rec, busy p = Some id -> mg_ports m' !! id = Some rec -> (forall r, r ∈ qs -> patching r <> Some id) -> shown m' id (pr_req rec)) ->
  kept (mkSystem m (ps ++ p :: ps')) (mkSystem m' (ps ++ qs ++ ps')).
Proof.
  intros Hok Hok' Ht Hq Hs _ Hinv Ho. assert (Ho' : open m) by by eapply touches_open. specialize (Hinv Ho').
  destruct (Hq Ho') as [Hqs Hrec]; [apply (pv_pend _ Hinv); set_solver|]. apply (pol_replace (busy p) p qs m); try done.
  - intros r Hr. by eapply serial_others.
  - destruct p; cbn; auto.
Qed.

(** A port is registered: nobody worked on its name. *)
Lemma kept_add od p q id attrs sw es x ps ps' :
  sys_ok (mkSystem m (ps ++ p :: ps')) -> AddPort id attrs (mg_sw m) = (sw, None, es) ->
  sys_ok (mkSystem (runEffects od es (registered sw x m)).1 (ps ++ [q] ++ ps')) -> patching p = None ->
  (pol_ok m p -> policy_of id (mg_sw (runEffects od es (registered sw x m)).1) = Some (policy attrs) ->
    pol_ok (runEffects od es (registered sw x m)).1 q) ->
  kept (mkSystem m (ps ++ p :: ps')) (mkSystem (runEffects od es (registered sw x m)).1 (ps ++ [q] ++ ps')).
Proof.
  intros Hok HA Hok' Hp Hq _ _ Hinv Ho. pose proof (touches_registered od id attrs sw es x m (sy_sw _ Hok) HA) as Ht.
  assert (Ho' : open m) by by eapply touches_open. specialize (Hinv Ho').
  destruct (AddPort_policy _ _ _ _ _ (sy_sw _ Hok) HA) as [Hpol _]. pose proof (AddPort_ok _ _ _ _ _ HA) as (Hno & _).
  destruct (mf_policy _ _ (mframe_runEffects od es (registered sw x m)) id) as [E1 E2]; [tauto|].
  apply (pol_replace (Some id) p [q] m); try done.
  - intros r Hr. right. eapply free_idle; [exact Hok | done..|]. set_solver.
  - constructor; [|done]. apply Hq; [apply (pv_pend _ Hinv); set_solver | by rewrite E1].
  - intros i rec [= <-]. rewrite E2. cbn. by rewrite (proj1 (free_unrecorded _ _ _ Hok Ho' Hno)).
  - by left.
Qed.

(** The call that answers for a port removes it. *)
Lemma kept_remove od p id x ps ps' :
  sys_ok (mkSystem m (ps ++ p :: ps')) -> sys_ok (mkSystem (deletePort2 od id m).1 (ps ++ ps')) ->
  pend_holds p = Some (id, x) -> kept (mkSystem m (ps ++ p :: ps')) (mkSystem (deletePort2 od id m).1 (ps ++ ps')).
Proof.
  intros Hok Hok' Hp _ _ Hinv Ho. pose proof (touches_removed od id m) as Ht.
  assert (Ho' : open m) by by eapply touches_open. specialize (Hinv Ho').
  assert (Hno : mg_ports m !! id = None) by (eapply held_unrecorded; [exact Hok | done | | exact Hp]; set_solver).
  apply (pol_replace (Some id) p [] m); try done.
  - intros r Hr. right. intros Hb. assert (Hin : r ∈ ps ++ p :: ps') by set_solver.
    assert (Hcase : patching r = Some id \/ pend_name r = Some id) by (destruct r; cbn in *; auto).
    destruct Hcase as [Hpt|Hn].
    + destruct (patching_rec _ _ _ (pv_pend _ Hinv r Hin) Hpt) as [? Hr']. cbn in Hr'. congruence.
    + eapply (pend_unique pend_name p ps ps' r id); try done; [apply (sy_nodup _ Hok Ho')|]. unfold pend_name. by rewrite Hp.
  - intros i rec [= <-]. by rewrite deletePort2_rec, Hno.
  - left. by destruct p.
Qed.

Lemma set_deletes_id : set_deletes (mg_deletes m) m = m.
Proof. by destruct m. Qed.

(** The record goes: the call that deletes works on the port. *)
Lemma kept_delete ds ps id :
  sys_ok (mkSystem m ps) -> sys_ok (mkSystem (deletePort1 id (set_deletes ds m)).1 (ps ++ deleting id m)) ->
  kept (mkSystem m ps) (mkSystem (deletePort1 id (set_deletes ds m)).1 (ps ++ deleting id m)).
Proof.
  unfold deletePort1, deleting. cbn [mg_ports set_deletes]. destruct (mg_ports m !! id) as [rec|] eqn:E; cbn [fst].
  - intros Hok Hok' _ Hs Hinv Ho. apply (pol_append (Some id) _ m); try done.
    + by apply Hinv.
    + split; [done|]. intros i _ Hi. split; [done|]. cbn. rewrite lookup_delete_ne; [done | congruence].
    + intros r Hr. apply (serial_others (PortDeleting id (pr_port rec)) ps []); [done|]. by rewrite app_nil_r.
    + by repeat constructor.
    + intros i r [= <-]. cbn. by rewrite lookup_delete_eq.
  - rewrite app_nil_r. intros Hok Hok'. by apply kept_same.
Qed.
End calls.

Lemma shown_reflect m id o attrs rec :
  enforced m id o attrs -> mg_ports (patchRecord id o attrs m) !! id = Some rec -> shown (patchRecord id o attrs m) id (pr_req rec).
Proof.
  intros [(r & Hr & Ho & _) [Hpol Hc]]. unfold patchRecord. rewrite Hr, bool_decide_true by done. cbn.
  rewrite lookup_insert_eq. intros [= <-]. cbn. destruct (reflect_shows attrs (pr_req r) Hc) as (a & Ha & Hp).
  exists a. split; [done|]. cbn. by rewrite Hp.
Qed.

(** The patch, computed from the policy that is enforced. *)
Lemma patchAttrs_canonical id patch o m attrs :
  holds_rec m id o (shown m id) -> patchAttrs id patch m = Ok attrs -> canonical (SecurityMAC attrs).
Proof.
  intros (rec & _ & _ & a & Ha & Hp). unfold patchAttrs, policy_of in *. destruct (PortAttrs_of id (mg_sw m)) as [c|]; [|done].
  cbn in Hp. assert (SecurityMAC c = SecurityMAC a) as E by (unfold policy in Hp; congruence).
  apply Apply_canonical. rewrite E. by eapply Attrs_canonical.
Qed.

(** The switch has the patched policy. *)
Lemma patchSwitch_enforced m m' ps id o attrs :
  sys_ok (mkSystem m ps) -> open m -> holds_rec m id o (shown m id) -> canonical (SecurityMAC attrs) ->
  patchSwitch id attrs m = (m', None) -> enforced m' id o attrs.
Proof.
  intros Hok Ho (rec & Hr & <- & a & _ & Hp) Hc. unfold patchSwitch.
  destruct (UpdatePortAttrs id attrs (mg_sw m)) as [[sw e] fx] eqn:E. intros [= <- ->].
  assert (Hv : validate attrs = None). { unfold UpdatePortAttrs in E. by destruct (validate attrs). }
  pose proof (UpdatePortAttrs_at id attrs (mg_sw m) id (sy_sw _ Hok) Hv) as Hat. rewrite E, bool_decide_true in Hat by done.
  split_and!; [by exists rec | | done]. unfold policy_of in *. cbn in *. rewrite Hat.
  destruct (PortAttrs_of id (mg_sw m)); [done | done].
Qed.

Lemma patchSwitch_refused m m' id attrs e : patchSwitch id attrs m = (m', Some e) -> m' = m.
Proof.
  unfold patchSwitch, UpdatePortAttrs. destruct (validate attrs); [intros [= <- _]; by destruct m|].
  destruct (SwitchState.ports (mg_sw m) !! id); [done|]. intros [= <- _]. by destruct m.
Qed.

(** * Every step *)

Lemma kept_createPort2 od req o attrs m m' fx ps ps' :
  sys_ok (mkSystem m (ps ++ PortBuilt req o attrs :: ps')) -> createPort2 od (pq_Identifier req) o attrs m = (m', None, fx) ->
  kept (mkSystem m (ps ++ PortBuilt req o attrs :: ps')) (mkSystem m' (ps ++ PortAdded req o :: ps')).
Proof.
  intros Hok H2. pose proof (sys_ok_createPort2 _ _ _ _ _ _ _ _ _ _ Hok H2) as Hok'. unfold createPort2 in H2.
  destruct (AddPort _ attrs (mg_sw m)) as [[sw [e|]] es] eqn:EA; [by destruct (closeTransport od o _)|].
  destruct (runEffects od es (registered sw (OPort o) m)) as [m1 fx'] eqn:Er. injection H2 as <- <-.
  assert (E1 : m1 = (runEffects od es (registered sw (OPort o) m)).1) by by rewrite Er. subst m1.
  eapply (kept_add m od _ (PortAdded req o)); try done. cbn. intros Ha Hpol. by exists attrs.
Qed.

Lemma kept_createPort2_fails od req o attrs m m' e fx ps ps' :
  sys_ok (mkSystem m (ps ++ PortBuilt req o attrs :: ps')) -> createPort2 od (pq_Identifier req) o attrs m = (m', Some e, fx) ->
  kept (mkSystem m (ps ++ PortBuilt req o attrs :: ps')) (mkSystem m' (ps ++ ps')).
Proof.
  intros Hok H2. pose proof (sys_ok_createPort2 _ _ _ _ _ _ _ _ _ _ Hok H2) as Hok'. apply kept_drop; try done. unfold createPort2 in H2.
  destruct (AddPort _ attrs (mg_sw m)) as [[sw [e'|]] es] eqn:EA; [|by destruct (runEffects od es _)].
  apply AddPort_err in EA as ->. pose proof (mframe_closeTransport od o (set_sw (mg_sw m) m)) as Hf.
  destruct (closeTransport od o _) as [m1 fx']. injection H2 as <- _ _. exact (touches_frame _ _ Hf).
Qed.

Lemma kept_createGateway2 od req o m m' e fx ps ps' :
  sys_ok (mkSystem m (ps ++ GatewayBuilt req o :: ps')) -> createGateway2 od req o m = (m', e, fx) ->
  kept (mkSystem m (ps ++ GatewayBuilt req o :: ps'))
    (mkSystem m' (match e with None => ps ++ GatewayAdded req o :: ps' | Some _ => ps ++ ps' end)).
Proof.
  intros Hok H2. pose proof (sys_ok_createGateway2 _ _ _ _ _ _ _ _ _ Hok H2) as Hok'. unfold createGateway2 in H2.
  destruct (AddPort _ _ (mg_sw m)) as [[sw [e'|]] es] eqn:EA.
  - apply AddPort_err in EA as ->. pose proof (mframe_closeGateway od o (set_sw (mg_sw m) m)) as Hf.
    destruct (closeGateway od o _) as [m1 fx']. injection H2 as <- <- _. apply kept_drop; try done. exact (touches_frame _ _ Hf).
  - destruct (runEffects od es (registered sw (OGateway o) m)) as [m1 fx'] eqn:Er. injection H2 as <- <- <-.
    assert (E1 : m1 = (runEffects od es (registered sw (OGateway o) m)).1) by by rewrite Er. subst m1.
    by eapply (kept_add m od _ (GatewayAdded req o)).
Qed.

Lemma kept_createGateway3 od req o m ps ps' :
  sys_ok (mkSystem m (ps ++ GatewayAdded req o :: ps')) ->
  kept (mkSystem m (ps ++ GatewayAdded req o :: ps')) (mkSystem (createGateway3 od req o m).1.1 (ps ++ ps')).
Proof.
  intros Hok. pose proof (sys_ok_createGateway3 od _ _ _ _ _ Hok) as Hok'. unfold createGateway3 in *.
  destruct (mg_gateways m !! gq_VLAN req) as [grec|]; [|by apply kept_drop].
  assert (E : (let '(sw, es) := RemovePort (gatewayPortID (gq_VLAN req)) (mg_sw m) in
    let '(m, fx) := runEffects od es (set_sw sw m) in (m, Err (A := GatewayInfo) (gatewayExists (gq_VLAN req)), fx)).1.1 =
    (deletePort2 od (gatewayPortID (gq_VLAN req)) m).1).
  { unfold deletePort2. destruct (RemovePort _ _). by destruct (runEffects _ _ _). }
  rewrite E in *. by eapply kept_remove.
Qed.

Lemma kept_deleteGateway2 od vlan rec m ps ps' :
  sys_ok (mkSystem m (ps ++ GatewayDeleting vlan rec :: ps')) ->
  kept (mkSystem m (ps ++ GatewayDeleting vlan rec :: ps')) (mkSystem (deleteGateway2 od rec m).1 (ps ++ ps')).
Proof.
  intros Hok. pose proof (sys_ok_deleteGateway2 od _ _ _ _ _ Hok) as Hok'.
  assert (Hp : pend_ok m (GatewayDeleting vlan rec)) by (apply (sy_pend _ Hok); set_solver).
  destruct (po_named _ _ Hp _ _ eq_refl) as [_ (g & Hg & Hid)]. unfold deleteGateway2 in *. rewrite Hg, Hid in *.
  exact (kept_remove m od _ _ _ ps ps' Hok Hok' eq_refl).
Qed.

Lemma subIDs_at od o m ps : sys_ok (mkSystem m ps) -> range_order (mo_subs od) -> Forall (fun i => has_at i = true) (subIDs od o m).
Proof.
  intros Hok Hrg. unfold subIDs. destruct (mg_transports m !! o) as [[| | |s|]|] eqn:E; try constructor.
  apply Forall_forall. intros i ([i' k] & -> & Hin)%list_elem_of_fmap. rewrite (Hrg (ss_subs s)), elem_of_map_to_list in Hin.
  assert (Hsub : sub_ok s) by apply (sy_tp _ Hok o _ E). by eapply (sub_keys _ Hsub).
Qed.

(** A call on a port goes on as another call on it; the record is rewritten at
    the end. *)
Lemma kept_becomes p q m m' ps ps' :
  sys_ok (mkSystem m (ps ++ p :: ps')) -> sys_ok (mkSystem m' (ps ++ q :: ps')) -> touches (busy p) m m' ->
  is_Some (patching p) -> patching q = patching p -> (open m -> pol_ok m p -> pol_ok m' q) ->
  kept (mkSystem m (ps ++ p :: ps')) (mkSystem m' (ps ++ q :: ps')).
Proof.
  intros Hok Hok' Ht [i Hp] Hpq Hq. apply (kept_own m p [q]); try done. intros Ho Hpo. split; [by constructor; [apply Hq|]|].
  intros id rec Hb _ Hno. destruct (Hno q); [by apply list_elem_of_singleton|]. rewrite Hpq. by destruct p.
Qed.

Lemma touches_patchSwitch m m' ps id attrs e :
  sys_ok (mkSystem m ps) -> patchSwitch id attrs m = (m', e) -> touches (Some id) m m'.
Proof. intros Hok E. apply touches_frame_at. pose proof (mframe_patchSwitch id attrs m (sy_sw _ Hok)) as H. by rewrite E in H. Qed.

(** The methods that lead to a step of a PATCH. *)
Lemma kept_patchFind id patch rec m ps :
  mg_ports m !! id = Some rec -> sys_ok (mkSystem m ps) -> sys_ok (mkSystem m (ps ++ [PatchFound id patch (pr_port rec)])) ->
  kept (mkSystem m ps) (mkSystem m (ps ++ [PatchFound id patch (pr_port rec)])).
Proof.
  intros Hr Hok Hok' _ Hser Hinv Ho. specialize (Hinv Ho). apply (pol_append None _ m); try done.
  - intros r _. destruct (busy r); [by right | by left].
  - constructor; [|done]. exists rec. split_and!; try done. apply (pv_rec _ Hinv); [done|]. cbn. intros p Hp Hpt.
    eapply (pend_unique busy (PatchFound id patch (pr_port rec)) ps [] p id); [done..| |by destruct p]. by rewrite app_nil_r.
Qed.

Lemma kept_patchSub id o attrs i ids m ps ps' :
  sys_ok (mkSystem m (ps ++ PatchSubs id o attrs (i :: ids) :: ps')) ->
  sys_ok (mkSystem (patchSwitch i attrs m).1 (ps ++ PatchSubs id o attrs ids :: ps')) ->
  kept (mkSystem m (ps ++ PatchSubs id o attrs (i :: ids) :: ps')) (mkSystem (patchSwitch i attrs m).1 (ps ++ PatchSubs id o attrs ids :: ps')).
Proof.
  intros Hok Hok' Hs1 Hs2 Hinv Ho. pose proof (mframe_patchSwitch i attrs m (sy_sw _ Hok)) as Hf.
  assert (Ho' : open m) by exact (touches_open _ _ _ (touches_frame_at _ _ _ Hf) Ho).
  assert (Hp : pol_ok m (PatchSubs id o attrs (i :: ids))) by (apply (pv_pend _ (Hinv Ho')); set_solver).
  destruct Hp as [He [Hi Hids]%Forall_cons]. pose proof (touches_sub i _ _ Hi (touches_frame_at _ _ _ Hf)) as Ht.
  assert (Hat : has_at id = false) by (eapply (busy_name m _ (PatchSubs id o attrs (i :: ids))); [exact Hok | auto | set_solver | done]).
  refine (kept_becomes _ _ _ _ _ _ Hok Hok' (touches_weaken _ _ _ Ht) _ eq_refl _ Hs1 Hs2 Hinv Ho); [by eexists|].
  intros _ _. split; [|done]. apply (pol_ok_frame m _ (PatchSet id o attrs)); [|done]. intros i' [= <-]. by apply Ht.
Qed.

Lemma kept_Close od m ps : kept (mkSystem m ps) (mkSystem (m_Close od m).1 ps).
Proof.
  intros _ _ _ Ho. exfalso. unfold open, m_Close in Ho. cbn [sy_m] in Ho.
  destruct (Switch.Close (mo_sw od) (mg_sw m)) as [sw es] eqn:Ec. rewrite (mf_stopped _ _ (mframe_runEffects od es (set_sw sw m))) in Ho.
  unfold Switch.Close in Ec. by injection Ec as <- _.
Qed.

Lemma kept_step s s' : sys_ok s -> sys_step s s' -> kept s s'.
Proof.
  intros Hok Hs. pose proof (sys_ok_step _ _ Hok Hs) as Hok'. destruct Hs.
  - apply kept_same; try done. by apply touches_frame, frame_api_step.
  - apply kept_same; try done. by eapply touches_bg.
  - unfold createPort1 in H. destruct (ValidateIdentifier _); [done|]. destruct (Attrs req) as [a|] eqn:Ha; [|done].
    destruct (mg_ports m !! _); [done|]. destruct (buildPort w req a) as [[p|] fx']; [|done]. simplify_eq. by apply kept_append.
  - by eapply kept_createPort2.
  - by eapply kept_createPort2_fails.
  - apply (kept_own m (PortAdded req o) []); try done.
    + split; [done|]. intros id _ Hne. cbn in Hne. split; [done|]. cbn. rewrite lookup_insert_ne; [done | congruence].
    + intros _ Hp. split; [done|]. intros id rec [= <-]. cbn. rewrite lookup_insert_eq. by intros [= <-] _.
  - unfold createGateway1 in H. destruct (_ || _); [done|]. destruct (mg_gateways m !! _); [done|].
    destruct (rbind _ _); [|done]. simplify_eq. by apply kept_append.
  - exact (kept_createGateway2 _ _ _ _ _ _ _ _ _ Hok H).
  - exact (kept_createGateway2 _ _ _ _ _ _ _ _ _ Hok H).
  - by apply kept_createGateway3.
  - pose proof (kept_delete m (mg_deletes m) ps id Hok) as H. rewrite set_deletes_id in H. auto.
  - by apply kept_delete.
  - by eapply kept_remove.
  - unfold deleteGateway1, deletingGateway in *. destruct (mg_gateways m !! vlan); cbn [fst] in *; [by apply kept_append|].
    rewrite app_nil_r in *. by apply kept_same.
  - by apply kept_deleteGateway2.
  - by apply kept_patchFind.
  - apply (kept_becomes (PatchFound id patch o)); try done. cbn. intros _ Hp. split; [done|]. by eapply patchAttrs_canonical.
  - apply (kept_own m (PatchFound id patch o) []); try done. intros _ (rec & Hr & _ & Hsh). split; [done|].
    cbn. intros i r [= <-] Hr' _. by simplify_eq.
  - eapply (kept_becomes (PatchApplied id o attrs)); try done; [by eapply touches_patchSwitch|].
    intros Ho [Hp Hc]. exact (patchSwitch_enforced _ _ _ _ _ _ Hok Ho Hp Hc H).
  - apply (kept_own m (PatchApplied id o attrs) []); try done; [by eapply touches_patchSwitch|].
    apply patchSwitch_refused in H as ->. intros _ [(rec & Hr & _ & Hsh) _]. split; [done|]. cbn. intros i r [= <-] Hr' _. by simplify_eq.
  - apply (kept_becomes (PatchSet id o attrs)); try done; [apply touches_weaken, touches_frame, mframe_patchServer|].
    cbn. intros _ Hp. split; [|by eapply subIDs_at].
    apply (pol_ok_frame m _ (PatchSet id o attrs)); [|done]. intros i _. apply (mf_policy _ _ (mframe_patchServer o attrs m)). tauto.
  - by apply kept_patchSub.
  - apply (kept_own m (PatchSubs id o attrs []) []); try done; [apply touches_frame_at, mframe_patchRecord|].
    intros _ [Hp _]. split; [done|]. intros i rec [= <-] Hr _. by apply shown_reflect.
  - apply kept_Close.
Qed.

Lemma serial_policy s : serial_reachable s -> open (sy_m s) -> pol_inv s.
Proof.
  induction 1 as [random|s s' Hr IH Hs Hser].
  - intros _. split; cbn; [intros id rec H; by rewrite lookup_empty in H | intros p Hp; by apply elem_of_nil in Hp].
  - destruct (serial_is_run _ Hr) as [Hreach Hser0]. apply (kept_step s s'); try done. by apply sys_reachable_ok.
Qed.

(** C8: GET tells the truth about a port's policy.  In every run in which
    creation, PATCH and deletion of one port do not overlap (whatever the frames,
    connections, goroutines and calls on other ports do meanwhile), GET of a
    port no PATCH is under way on shows the VLAN, the isolation and the security
    MAC that the switch enforces on it, and whether it is disabled. *)
Theorem get_shows_policy od s id i :
  serial_reachable s -> open (sy_m s) -> (forall p, p ∈ sy_pending s -> patching p <> Some id) ->
  GetPort od id (sy_m s) = Ok i ->
  exists a, PortAttrs_of id (mg_sw (sy_m s)) = Some a /\
    pi_VLAN i = VLAN a /\ pi_Isolated i = Isolated a /\ pi_Enabled i = negb (Disabled a) /\
    match pi_PortSecurity i with
    | None => SecurityMAC a = None
    | Some text => exists mac, ParseMAC text = Ok mac /\ SecurityMAC a = Some mac
    end.
Proof.
  intros Hr Ho Hno Hget. pose proof (serial_policy s Hr Ho) as Hinv. unfold GetPort, portInfoLocked in Hget.
  destruct (mg_ports (sy_m s) !! id) as [rec|] eqn:Erec; [|done].
  destruct (pv_rec _ Hinv id rec Erec Hno) as (a & Ha & Hpol). unfold policy_of in Hpol.
  destruct (mg_transports (sy_m s) !! pr_port rec); [|done]. destruct (PortAttrs_of id (mg_sw (sy_m s))) as [c|]; [|done].
  cbn in Hpol. destruct (STPPortStatusOf (mg_sw (sy_m s)) id) as [st pt]. injection Hget as <-. exists c. split; [done|].
  cbn. assert (E : Isolated c = Isolated a /\ SecurityMAC c = SecurityMAC a) by (unfold policy in Hpol; split; congruence).
  destruct E as [-> ->]. unfold Attrs in Ha. destruct (pq_PortSecurity (pr_req rec)) as [text|].
  - destruct (ParseMAC text) as [mac|]; [|done]. injection Ha as <-. cbn. eauto 8.
  - injection Ha as <-. by split_and!.
Qed.
