(* ===== verification/Api.v ===== *)
(** The REST control plane: src/internal/api/server.go and the handlers of
    src/internal/api/gateway.go.

    The handlers work against an interface, the class [Backend] with the
    gateways' part [GatewayBackend]; the manager implements it (section
    [manager]).  A request is what net/http hands to the
    route table: a clean path as its decoded segments (a trailing slash is an
    empty last one), and the first JSON value of the body or the error of reading
    it.  A response is its code and the value that is encoded; net/http drops the
    body of an answer to HEAD. *)
From S2P Require Import Prelude SwitchState Lease GoText Ports Json ApiTypes Manager.

#[local] Open Scope Z_scope.

(** * The interface the handlers need *)

(** The gateways' part. *)
Class GatewayBackend (S : Type) := {
  b_CreateGateway : GatewayRequest -> S -> S * result GatewayInfo;
  b_ListGateways : S -> list GatewayInfo;
  b_GetGateway : Z -> S -> result GatewayInfo;
  b_DeleteGateway : Z -> S -> S * option goerr;

  b_AddForward : Z -> ForwardRequest -> S -> S * result ForwardInfo;
  b_ListForwards : Z -> S -> result (list ForwardInfo);
  b_DeleteForward : Z -> string -> S -> S * option goerr;
  b_ReplaceForwards : Z -> list ForwardRequest -> S -> S * (list ForwardInfo * option goerr);

  b_SetDHCP4 : Z -> DHCP4Config -> S -> S * option goerr;
  b_GetDHCP4 : Z -> S -> result DHCP4Config;
  b_PutDHCPStatic : Z -> Z -> DHCPStaticBinding -> S -> S * option goerr;
  b_ReplaceDHCPStatic : Z -> Z -> list DHCPStaticBinding -> S -> S * option goerr;
  b_ListDHCPStatic : Z -> Z -> S -> result (list DHCPStaticBinding);
  b_DeleteDHCPStatic : Z -> Z -> string -> S -> S * option goerr;
  b_ListDHCPLeases : Z -> Z -> S -> result (list LeaseInfo);
  b_DeleteDHCPLease : Z -> Z -> string -> S -> S * option goerr;
  b_SetDHCP6 : Z -> DHCP6Config -> S -> S * option goerr;
  b_GetDHCP6 : Z -> S -> result DHCP6Config;

  b_SetSLAAC : Z -> ApiTypes.SLAACConfig -> S -> S * option goerr;
  b_GetSLAAC : Z -> S -> result ApiTypes.SLAACConfig
}.

Class Backend (S : Type) := {
  b_CreatePort : PortRequest -> S -> S * result PortInfo;
  b_GetPort : string -> S -> result PortInfo;
  b_ListPorts : S -> list PortInfo;
  b_PatchPort : string -> PortPatch -> S -> S * result PortInfo;
  b_DeletePort : string -> S -> S * option goerr;

  b_FDB : S -> list FDBRow;
  b_DeleteFDBEntry : Z -> string -> S -> S * option goerr;
  b_FlushFDB : FDBFlushRequest -> S -> S * Z;
  b_PutStaticFDB : StaticFDBRequest -> S -> S * option goerr;
  b_DeleteStaticFDB : Z -> string -> S -> S * option goerr;
  b_GetFDBConfig : S -> FDBConfig;
  b_SetFDBConfig : FDBConfig -> S -> S * option goerr;

  b_SetSTP : STPRequest -> S -> S * option goerr;
  b_GetSTP : S -> STPResponse;

  b_gateways :: GatewayBackend S
}.

(** * Requests and responses *)

Record Request := mkRequest {
  rq_Method : string;
  rq_Path : list string;
  rq_Query : list (string * string);
  rq_Authorization : string;
  rq_Body : result json
}.

Inductive payload : Type :=
  | PNone
  | PText (s : string)
  | PError (msg : string)
  | PPort (i : PortInfo)
  | PPorts (l : list PortInfo)
  | PFDB (l : list FDBRow)
  | PFlushed (n : Z)
  | PStaticFDB (r : StaticFDBRequest)
  | PFDBConfig (c : FDBConfig)
  | PSTP (r : STPResponse)
  | PGateway (i : GatewayInfo)
  | PGateways (l : list GatewayInfo)
  | PForward (i : ForwardInfo)
  | PForwards (l : list ForwardInfo)
  | PDHCP (c : DHCP4Config)
  | PStatic (b : DHCPStaticBinding)
  | PStatics (l : list DHCPStaticBinding)
  | PLeases (l : list LeaseInfo)
  | PSLAAC (c : ApiTypes.SLAACConfig).

Record Response := mkResponse { rs_Code : Z; rs_Payload : payload }.

Definition StatusOK : Z := 200.
Definition StatusCreated : Z := 201.
Definition StatusNoContent : Z := 204.
Definition StatusBadRequest : Z := 400.
Definition StatusUnauthorized : Z := 401.
Definition StatusNotFound : Z := 404.
Definition StatusMethodNotAllowed : Z := 405.
Definition StatusConflict : Z := 409.

Definition writeJSON (code : Z) (v : payload) : Response := mkResponse code v.
Definition noContent : Response := mkResponse StatusNoContent PNone.
Definition writeErr (code : Z) (e : goerr) : Response := writeJSON code (PError (Error e)).

Definition errCode (e : goerr) : Z :=
  let msg := Error e in
  if Contains msg "not found" then StatusNotFound
  else if Contains msg "already exists" then StatusConflict
  else StatusBadRequest.

(** The path parameters of a matched route, and [q.Get]. *)
Definition values : Type := list (string * string).

Fixpoint Get (vs : values) (name : string) : string :=
  match vs with
  | [] => EmptyString
  | (k, v) :: vs' => if bool_decide (k = name) then v else Get vs' name
  end.

(** * Handlers *)

Section handlers.
Context {S : Type} `{!Backend S}.

Definition handler : Type := Request -> values -> S -> S * Response.

(** [decodeBody]: a body that does not decode is answered here. *)
Definition decodeBody {T} (dec : bool -> decoder T) (zero : T) (r : Request) (s : S) (k : T -> S * Response) : S * Response :=
  match (j <-? rq_Body r; dec true j zero) with
  | Err e => (s, writeErr StatusBadRequest (Errorf "bad request body: %w" [AErr e]))
  | Ok v => k v
  end.

(** The three ways a handler ends after a call of the backend. *)
Definition answer {A} (code : Z) (f : A -> payload) (x : S * result A) : S * Response :=
  match x with
  | (s, Ok a) => (s, writeJSON code (f a))
  | (s, Err e) => (s, writeErr (errCode e) e)
  end.
Definition answerDone (ok : Response) (x : S * option goerr) : S * Response :=
  match x with
  | (s, None) => (s, ok)
  | (s, Some e) => (s, writeErr (errCode e) e)
  end.

Definition createPort : handler := fun r _ s =>
  decodeBody decPortRequest zeroPortRequest r s (fun req => answer StatusCreated PPort (b_CreatePort req s)).

Definition listPorts : handler := fun _ _ s => (s, writeJSON StatusOK (PPorts (b_ListPorts s))).

Definition getPort : handler := fun _ pv s => answer StatusOK PPort (s, b_GetPort (Get pv "id") s).

Definition patchPort : handler := fun r pv s =>
  decodeBody decPortPatch zeroPortPatch r s (fun patch => answer StatusOK PPort (b_PatchPort (Get pv "id") patch s)).

Definition deletePort : handler := fun _ pv s => answerDone noContent (b_DeletePort (Get pv "id") s).

Definition inDomain (v : option Z) : option Z :=
  match v with Some v => if (v <? 0) || (4094 <? v) then None else Some v | None => None end.

Definition parseVLANSelector (s : string) : result Z :=
  match inDomain (Atoi s) with
  | None => Err (Errorf "bad vlan %q (0 = untagged domain, 1-4094)" [AStr s])
  | Some v => Ok v
  end.

(** The rows a query selects. *)
Definition fdbFilter (vlanFilter : Z) (port mac : string) (row : FDBRow) : bool :=
  negb ((0 <=? vlanFilter) && negb (ar_VLAN row =? vlanFilter)) &&
  negb (negb (is_empty port) && negb (bool_decide (ar_Port row = port))) &&
  negb (negb (is_empty mac) && negb (bool_decide (ar_MAC row = mac))).

Definition fdb : handler := fun r _ s =>
  let rows := b_FDB s in
  let q := rq_Query r in
  match (if is_empty (Get q "vlan") then Ok (-1) else parseVLANSelector (Get q "vlan")) with
  | Err e => (s, writeErr StatusBadRequest e)
  | Ok vlanFilter =>
      (s, writeJSON StatusOK (PFDB (List.filter (fdbFilter vlanFilter (Get q "port") (ToLower (Get q "mac"))) rows)))
  end.

Definition deleteFDBEntry : handler := fun _ pv s =>
  match parseVLANSelector (Get pv "vlan") with
  | Err e => (s, writeErr StatusBadRequest e)
  | Ok vlan => answerDone noContent (b_DeleteFDBEntry vlan (Get pv "mac") s)
  end.

Definition flushFDB : handler := fun r _ s =>
  decodeBody decFDBFlushRequest zeroFDBFlushRequest r s (fun req =>
    let '(s, n) := b_FlushFDB req s in (s, writeJSON StatusOK (PFlushed n))).

Definition listStaticFDB : handler := fun _ _ s =>
  (s, writeJSON StatusOK (PFDB (List.filter ar_Static (b_FDB s)))).

Definition putStaticFDB : handler := fun r _ s =>
  decodeBody decStaticFDBRequest zeroStaticFDBRequest r s (fun req =>
    answerDone (writeJSON StatusOK (PStaticFDB req)) (b_PutStaticFDB req s)).

Definition deleteStaticFDB : handler := fun _ pv s =>
  match parseVLANSelector (Get pv "vlan") with
  | Err e => (s, writeErr StatusBadRequest e)
  | Ok vlan => answerDone noContent (b_DeleteStaticFDB vlan (Get pv "mac") s)
  end.

Definition getSTP : handler := fun _ _ s => (s, writeJSON StatusOK (PSTP (b_GetSTP s))).

Definition setSTP : handler := fun r _ s =>
  decodeBody decSTPRequest zeroSTPRequest r s (fun req =>
    let '(s, e) := b_SetSTP req s in answerDone (writeJSON StatusOK (PSTP (b_GetSTP s))) (s, e)).

Definition getFDBConfig : handler := fun _ _ s => (s, writeJSON StatusOK (PFDBConfig (b_GetFDBConfig s))).

Definition setFDBConfig : handler := fun r _ s =>
  decodeBody decFDBConfig zeroFDBConfig r s (fun cfg => answerDone noContent (b_SetFDBConfig cfg s)).

(** ** Gateways *)

(** [gw]: the path parameter every handler below has. *)
Definition gw (fn : Request -> values -> Z -> S -> S * Response) : handler := fun r pv s =>
  match inDomain (Atoi (Get pv "vlan")) with
  | None =>
      (s, writeErr StatusBadRequest
            (Errorf "bad vlan %q (0 = untagged domain, 1-4094 = access vlan)" [AStr (Get pv "vlan")]))
  | Some vlan => fn r pv vlan s
  end.

Definition createGateway : handler := fun r _ s =>
  decodeBody decGatewayRequest zeroGatewayRequest r s (fun req => answer StatusCreated PGateway (b_CreateGateway req s)).

Definition listGateways : handler := fun _ _ s => (s, writeJSON StatusOK (PGateways (b_ListGateways s))).

Definition getGateway (r : Request) (pv : values) (vlan : Z) (s : S) : S * Response :=
  answer StatusOK PGateway (s, b_GetGateway vlan s).

Definition deleteGateway (r : Request) (pv : values) (vlan : Z) (s : S) : S * Response :=
  answerDone noContent (b_DeleteGateway vlan s).

Definition addForward (r : Request) (pv : values) (vlan : Z) (s : S) : S * Response :=
  decodeBody decForwardRequest zeroForwardRequest r s (fun req => answer StatusCreated PForward (b_AddForward vlan req s)).

Definition replaceForwards (r : Request) (pv : values) (vlan : Z) (s : S) : S * Response :=
  decodeBody (fun strict => dec_list zeroForwardRequest (decForwardRequest strict)) [] r s (fun reqs =>
    let '(s, (infos, e)) := b_ReplaceForwards vlan reqs s in answerDone (writeJSON StatusOK (PForwards infos)) (s, e)).

Definition listForwards (r : Request) (pv : values) (vlan : Z) (s : S) : S * Response :=
  answer StatusOK PForwards (s, b_ListForwards vlan s).

Definition deleteForward (r : Request) (pv : values) (vlan : Z) (s : S) : S * Response :=
  answerDone noContent (b_DeleteForward vlan (Get pv "id") s).

Definition setDHCP (family : Z) (r : Request) (pv : values) (vlan : Z) (s : S) : S * Response :=
  decodeBody decDHCPConfig zeroDHCPConfig r s (fun cfg =>
    answerDone noContent (if family =? 4 then b_SetDHCP4 vlan cfg s else b_SetDHCP6 vlan cfg s)).

Definition getDHCP (family : Z) (r : Request) (pv : values) (vlan : Z) (s : S) : S * Response :=
  answer StatusOK PDHCP (s, if family =? 4 then b_GetDHCP4 vlan s else b_GetDHCP6 vlan s).

Definition withID (id : string) (b : DHCPStaticBinding) : DHCPStaticBinding :=
  mkDHCPStatic id (ds_Order b) (ds_PortIdentifier b) (ds_MAC b) (ds_ClientID b) (ds_IP b).

Definition putDHCPStatic (family : Z) (r : Request) (pv : values) (vlan : Z) (s : S) : S * Response :=
  decodeBody decDHCPStaticBinding zeroDHCPStaticBinding r s (fun b =>
    let b := withID (Get pv "id") b in
    answerDone (writeJSON StatusOK (PStatic b)) (b_PutDHCPStatic vlan family b s)).

Definition replaceDHCPStatic (family : Z) (r : Request) (pv : values) (vlan : Z) (s : S) : S * Response :=
  decodeBody (fun strict => dec_list zeroDHCPStaticBinding (decDHCPStaticBinding strict)) [] r s (fun bs =>
    answerDone (writeJSON StatusOK (PStatics bs)) (b_ReplaceDHCPStatic vlan family bs s)).

Definition listDHCPStatic (family : Z) (r : Request) (pv : values) (vlan : Z) (s : S) : S * Response :=
  answer StatusOK PStatics (s, b_ListDHCPStatic vlan family s).

Definition deleteDHCPStatic (family : Z) (r : Request) (pv : values) (vlan : Z) (s : S) : S * Response :=
  answerDone noContent (b_DeleteDHCPStatic vlan family (Get pv "id") s).

Definition listDHCPLeases (family : Z) (r : Request) (pv : values) (vlan : Z) (s : S) : S * Response :=
  answer StatusOK PLeases (s, b_ListDHCPLeases vlan family s).

Definition deleteDHCPLease (family : Z) (r : Request) (pv : values) (vlan : Z) (s : S) : S * Response :=
  answerDone noContent (b_DeleteDHCPLease vlan family (Get pv "ip") s).

Definition setSLAAC (r : Request) (pv : values) (vlan : Z) (s : S) : S * Response :=
  decodeBody decSLAACConfig zeroSLAACConfig r s (fun cfg => answerDone noContent (b_SetSLAAC vlan cfg s)).

Definition getSLAAC (r : Request) (pv : values) (vlan : Z) (s : S) : S * Response :=
  answer StatusOK PSLAAC (s, b_GetSLAAC vlan s).

(** * The route table *)

(** A segment of a pattern: a word, or a parameter in braces. *)
Inductive segment : Type := Lit (s : string) | Wild (name : string).

Record route := mkRoute { rt_Method : string; rt_Pattern : list segment; rt_Handler : handler }.

Definition api : list segment := [Lit "api"; Lit "v1"].
Definition gateways : list segment := api ++ [Lit "gateways"].
Definition gatewayAt : list segment := gateways ++ [Wild "vlan"].

(** The routes of one DHCP family. *)
Definition familyRoutes (kv : Z * string) : list route :=
  let '(family, name) := kv in
  let at_ (rest : list segment) : list segment := gatewayAt ++ Lit name :: rest in
  [ mkRoute "PUT" (at_ []) (gw (setDHCP family));
    mkRoute "GET" (at_ []) (gw (getDHCP family));
    mkRoute "PUT" (at_ [Lit "static"; Wild "id"]) (gw (putDHCPStatic family));
    mkRoute "PUT" (at_ [Lit "static"]) (gw (replaceDHCPStatic family));
    mkRoute "GET" (at_ [Lit "static"]) (gw (listDHCPStatic family));
    mkRoute "DELETE" (at_ [Lit "static"; Wild "id"]) (gw (deleteDHCPStatic family));
    mkRoute "GET" (at_ [Lit "leases"]) (gw (listDHCPLeases family));
    mkRoute "DELETE" (at_ [Lit "leases"; Wild "ip"]) (gw (deleteDHCPLease family)) ].

(** [families] is the map in the order it is ranged over. *)
Definition gatewayRoutes (families : list (Z * string)) : list route :=
  [ mkRoute "POST" gateways createGateway;
    mkRoute "GET" gateways listGateways;
    mkRoute "GET" gatewayAt (gw getGateway);
    mkRoute "DELETE" gatewayAt (gw deleteGateway);
    mkRoute "POST" (gatewayAt ++ [Lit "forwards"]) (gw addForward);
    mkRoute "PUT" (gatewayAt ++ [Lit "forwards"]) (gw replaceForwards);
    mkRoute "GET" (gatewayAt ++ [Lit "forwards"]) (gw listForwards);
    mkRoute "DELETE" (gatewayAt ++ [Lit "forwards"; Wild "id"]) (gw deleteForward) ] ++
  concat (familyRoutes <$> families) ++
  [ mkRoute "PUT" (gatewayAt ++ [Lit "slaac"]) (gw setSLAAC);
    mkRoute "GET" (gatewayAt ++ [Lit "slaac"]) (gw getSLAAC) ].

Definition routes (families : list (Z * string)) : list route :=
  [ mkRoute "POST" (api ++ [Lit "ports"]) createPort;
    mkRoute "GET" (api ++ [Lit "ports"]) listPorts;
    mkRoute "GET" (api ++ [Lit "ports"; Wild "id"]) getPort;
    mkRoute "PATCH" (api ++ [Lit "ports"; Wild "id"]) patchPort;
    mkRoute "DELETE" (api ++ [Lit "ports"; Wild "id"]) deletePort;
    mkRoute "GET" (api ++ [Lit "fdb"]) fdb;
    mkRoute "DELETE" (api ++ [Lit "fdb"; Wild "vlan"; Wild "mac"]) deleteFDBEntry;
    mkRoute "POST" (api ++ [Lit "fdb"; Lit "flush"]) flushFDB;
    mkRoute "GET" (api ++ [Lit "fdb"; Lit "static"]) listStaticFDB;
    mkRoute "PUT" (api ++ [Lit "fdb"; Lit "static"]) putStaticFDB;
    mkRoute "DELETE" (api ++ [Lit "fdb"; Lit "static"; Wild "vlan"; Wild "mac"]) deleteStaticFDB;
    mkRoute "GET" (api ++ [Lit "fdb"; Lit "config"]) getFDBConfig;
    mkRoute "PUT" (api ++ [Lit "fdb"; Lit "config"]) setFDBConfig;
    mkRoute "GET" (api ++ [Lit "stp"]) getSTP;
    mkRoute "PUT" (api ++ [Lit "stp"]) setSTP ] ++
  gatewayRoutes families.

(** A pattern against a path; a parameter takes one segment that is not empty. *)
Fixpoint matchPath (pat : list segment) (path : list string) : option values :=
  match pat, path with
  | [], [] => Some []
  | Lit w :: pat, x :: path => if bool_decide (x = w) then matchPath pat path else None
  | Wild n :: pat, x :: path =>
      if is_empty x then None else match matchPath pat path with Some vs => Some ((n, x) :: vs) | None => None end
  | _, _ => None
  end.

(** A pattern for GET also takes HEAD. *)
Definition matchMethod (pat method : string) : bool :=
  bool_decide (method = pat) || (bool_decide (pat = "GET") && bool_decide (method = "HEAD")).

(** [ServeMux.ServeHTTP]: the first route that matches; no two do. *)
Fixpoint findRoute (rts : list route) (r : Request) : option (handler * values) :=
  match rts with
  | [] => None
  | rt :: rts' =>
      match (if matchMethod (rt_Method rt) (rq_Method r) then matchPath (rt_Pattern rt) (rq_Path r) else None) with
      | Some vs => Some (rt_Handler rt, vs)
      | None => findRoute rts' r
      end
  end.

(** Whether some other method has this path. *)
Definition otherMethod (rts : list route) (r : Request) : bool :=
  existsb (fun rt => match matchPath (rt_Pattern rt) (rq_Path r) with Some _ => true | None => false end) rts.

Definition serveMux (rts : list route) (r : Request) (s : S) : S * Response :=
  match findRoute rts r with
  | Some (h, vs) => h r vs s
  | None =>
      (s, if otherMethod rts r then mkResponse StatusMethodNotAllowed (PText "Method Not Allowed")
          else mkResponse StatusNotFound (PText "404 page not found"))
  end.

Definition NewHandler (families : list (Z * string)) : Request -> S -> S * Response := serveMux (routes families).

(** [ConstantTimeCompare] of equal lengths. *)
Definition WithAuth (token : string) (next : Request -> S -> S * Response) (r : Request) (s : S) : S * Response :=
  if is_empty token then next r s
  else if bool_decide (rq_Authorization r = "Bearer " +:+ token) then next r s
  else (s, writeErr StatusUnauthorized (Errorf "unauthorized" [])).
End handlers.

#[global] Arguments route : clear implicits.
#[global] Arguments handler : clear implicits.

(** * The control socket *)

Definition HasPrefix (s p : string) : bool := String.prefix p s.

Definition ParseListen (s : string) : string * string :=
  match SplitHostPort s with
  | Err _ => ("unix", s)
  | Ok (host, _) => if HasPrefix s "[" || Contains host ":" then ("tcp6", s) else ("tcp4", s)
  end.

(** [Listen], before it serves: a stale socket file is removed. *)
Definition api_Listen (net : Net) (listen : string) : result string * list rfx :=
  let '(network, addr) := ParseListen listen in
  let fx := if bool_decide (network = "unix") then removeStaleSocket net addr else [] in
  match Listen net true network addr with
  | Some e => (Err (Errorf "control socket %s %s: %w" [AStr network; AStr addr; AErr e]), fx)
  | None => (Ok addr, fx ++ [Acquire RSocket])
  end.

(** * The manager is a backend *)

(** Its state, and what it asked of the kernel, the devices and the forwards. *)
Definition Logged : Type := Manager * list mfx.

Section manager.
Context (w : World) (od : MgrOrders) (now ovf : Z).

Definition logged {A} (f : Manager -> Manager * A * list mfx) (s : Logged) : Logged * A :=
  let '(m, a, fx) := f s.1 in ((m, s.2 ++ fx), a).
Definition silent {A} (f : Manager -> Manager * A) (s : Logged) : Logged * A :=
  let '(m, a) := f s.1 in ((m, s.2), a).

#[export] Instance manager_gateways : GatewayBackend Logged := {
  b_CreateGateway req := logged (CreateGateway w od req);
  b_ListGateways s := ListGateways od s.1;
  b_GetGateway vlan s := GetGateway vlan s.1;
  b_DeleteGateway vlan := logged (DeleteGateway od vlan);
  b_AddForward vlan req := logged (m_AddForward w vlan req);
  b_ListForwards vlan s := m_ListForwards od vlan s.1;
  b_DeleteForward vlan id := logged (m_DeleteForward vlan id);
  b_ReplaceForwards vlan reqs := logged (m_ReplaceForwards w od vlan reqs);
  b_SetDHCP4 vlan c := silent (SetDHCP4 vlan c);
  b_GetDHCP4 vlan s := GetDHCP4 vlan s.1;
  b_PutDHCPStatic vlan family b := silent (PutDHCPStatic vlan family b);
  b_ReplaceDHCPStatic vlan family bs := silent (ReplaceDHCPStatic vlan family bs);
  b_ListDHCPStatic vlan family s := ListDHCPStatic od vlan family s.1;
  b_DeleteDHCPStatic vlan family id := silent (DeleteDHCPStatic vlan family id);
  b_ListDHCPLeases vlan family s := ListDHCPLeases od now vlan family s.1;
  b_DeleteDHCPLease vlan family ip := silent (DeleteDHCPLease vlan family ip);
  b_SetDHCP6 vlan c := silent (SetDHCP6 vlan c);
  b_GetDHCP6 vlan s := GetDHCP6 vlan s.1;
  b_SetSLAAC vlan c := silent (SetSLAAC vlan c);
  b_GetSLAAC vlan s := GetSLAAC vlan s.1
}.

#[export] Instance manager_backend : Backend Logged := {
  b_CreatePort req := logged (CreatePort w od req);
  b_GetPort id s := GetPort od id s.1;
  b_ListPorts s := ListPorts od s.1;
  b_PatchPort id patch := silent (PatchPort od id patch);
  b_DeletePort id := logged (DeletePort od id);
  b_FDB s := m_FDB od now ovf s.1;
  b_DeleteFDBEntry vlan mac := silent (m_DeleteFDBEntry vlan mac);
  b_FlushFDB req := silent (m_FlushFDB req);
  b_PutStaticFDB req := silent (PutStaticFDB now req);
  b_DeleteStaticFDB vlan mac := silent (DeleteStaticFDB vlan mac);
  b_GetFDBConfig s := GetFDBConfig s.1;
  b_SetFDBConfig c := silent (SetFDBConfig c);
  b_SetSTP req := silent (SetSTP od req);
  b_GetSTP s := GetSTP s.1;
  b_gateways := manager_gateways
}.
End manager.
