(* ===== verification/ApiProps.v ===== *)
(** Theorems about the REST interface: its route table, what requests can
    change, and that requests are steps of the program's transition system. *)
From S2P Require Import Prelude Vlan Fdb Protect SwitchState Stp Switch SwitchInv SwitchProps Lease GoText Forwards Ports Server Dhcp Gateway Json ApiTypes Manager System SystemProps ManagerProps Api.
From Stdlib Require Import Ascii.

#[local] Open Scope Z_scope.

(** * Routes *)

Section routing.
Context {S : Type} `{!Backend S}.

Definition rmatch (rt : route S) (r : Request) : option values :=
  if matchMethod (rt_Method rt) (rq_Method r) then matchPath (rt_Pattern rt) (rq_Path r) else None.

Lemma findRoute_Some rts r h vs :
  findRoute rts r = Some (h, vs) -> exists rt, rt ∈ rts /\ rmatch rt r = Some vs /\ h = rt_Handler rt.
Proof.
  induction rts as [|rt rts IH]; cbn; [done|]. change (if matchMethod _ _ then _ else _) with (rmatch rt r).
  destruct (rmatch rt r) eqn:E; [intros [= <- <-]; exists rt; set_solver|].
  intros (rt' & ? & ? & ?)%IH. exists rt'. set_solver.
Qed.

Lemma findRoute_None rts r rt : findRoute rts r = None -> rt ∈ rts -> rmatch rt r = None.
Proof.
  induction rts as [|rt' rts IH]; cbn; [set_solver|]. change (if matchMethod _ _ then _ else _) with (rmatch rt' r).
  destruct (rmatch rt' r) eqn:E; [done|]. intros H [->|Hin]%elem_of_cons; auto.
Qed.

(** Two patterns some path matches. *)
Fixpoint overlap (p q : list segment) : bool :=
  match p, q with
  | [], [] => true
  | Lit a :: p, Lit b :: q => bool_decide (a = b) && overlap p q
  | _ :: p, _ :: q => overlap p q
  | _, _ => false
  end.

Lemma matchPath_overlap p q path vs ws : matchPath p path = Some vs -> matchPath q path = Some ws -> overlap p q = true.
Proof.
  revert q path vs ws. induction p as [|a p IH]; intros [|b q] [|x path] vs ws; try done; try (by destruct a); try (by destruct b).
  destruct a as [a|a], b as [b|b]; cbn.
  - destruct (decide (x = a)) as [<-|]; [|by rewrite bool_decide_false]. rewrite (bool_decide_true (x = x)) by done.
    intros H. case_bool_decide; [apply (IH _ _ _ _ H) | done].
  - case_bool_decide; [|done]. intros Hp. destruct (is_empty x); [done|]. destruct (matchPath q path) eqn:E; [|done].
    intros _. by eapply IH.
  - destruct (is_empty x); [done|]. destruct (matchPath p path) eqn:E; [|done]. intros _. case_bool_decide; [|done].
    intros Hq. by eapply IH.
  - destruct (is_empty x); [done|]. destruct (matchPath p path) eqn:E; [|done]. destruct (matchPath q path) eqn:E'; [|done].
    intros _ _. by eapply IH.
Qed.

(** Methods and patterns are pairwise apart. *)
Fixpoint apart (l : list (string * list segment)) : bool :=
  match l with
  | [] => true
  | x :: l' => forallb (fun y => negb (bool_decide (x.1 = y.1) && overlap x.2 y.2)) l' && apart l'
  end.

Definition key (rt : route S) : string * list segment := (rt_Method rt, rt_Pattern rt).

Definition known (l : list (string * list segment)) : bool :=
  forallb (fun x => bool_decide (x.1 ∈ ["GET"; "POST"; "PUT"; "PATCH"; "DELETE"])) l.

Lemma matchMethod_eq a b m :
  a ∈ ["GET"; "POST"; "PUT"; "PATCH"; "DELETE"] -> b ∈ ["GET"; "POST"; "PUT"; "PATCH"; "DELETE"] ->
  matchMethod a m = true -> matchMethod b m = true -> a = b.
Proof.
  assert (Hhead : "HEAD" ∉ ["GET"; "POST"; "PUT"; "PATCH"; "DELETE"]) by (apply (bool_decide_unpack _); vm_compute; exact I).
  unfold matchMethod. rewrite !orb_true_iff, !andb_true_iff, !bool_decide_eq_true.
  intros Ha Hb [->|[-> ->]] [E|[-> E]]; [done | by subst | by subst | done].
Qed.

Lemma rmatch_unique rts r rt rt' vs vs' :
  apart (key <$> rts) = true -> known (key <$> rts) = true ->
  rt ∈ rts -> rt' ∈ rts -> rmatch rt r = Some vs -> rmatch rt' r = Some vs' -> rt = rt'.
Proof.
  intros Ha Hk Hin Hin' Hm Hm'.
  assert (Hkn : forall rt, rt ∈ rts -> rt_Method rt ∈ ["GET"; "POST"; "PUT"; "PATCH"; "DELETE"]).
  { intros x Hx. unfold known in Hk. rewrite forallb_forall in Hk. specialize (Hk (key x)).
    rewrite bool_decide_eq_true in Hk. apply Hk. apply list_elem_of_In, list_elem_of_fmap. eauto. }
  assert (Hov : forall a b va vb, a ∈ rts -> b ∈ rts -> rmatch a r = Some va -> rmatch b r = Some vb ->
    bool_decide ((key a).1 = (key b).1) && overlap (key a).2 (key b).2 = true).
  { intros a b va vb Hia Hib. unfold rmatch. destruct (matchMethod (rt_Method a) _) eqn:E1; [|done].
    destruct (matchMethod (rt_Method b) _) eqn:E2; [|done]. intros. apply andb_true_iff. split.
    - apply bool_decide_eq_true. by apply (matchMethod_eq _ _ (rq_Method r)); try apply Hkn.
    - by eapply matchPath_overlap. }
  clear Hk Hkn. revert Ha Hin Hin' Hov. induction rts as [|x rts IH]; [set_solver|].
  cbn. intros [Hx Ha]%andb_true_iff Hin Hin' Hov. rewrite forallb_forall in Hx.
  assert (Hno : forall a b va vb, a = x -> b ∈ rts -> rmatch a r = Some va -> rmatch b r = Some vb -> False).
  { intros a b va vb -> Hb Hma Hmb. assert (Hk : key b ∈ key <$> rts) by (apply list_elem_of_fmap; eauto).
    apply list_elem_of_In, Hx in Hk. pose proof (Hov x b va vb (list_elem_of_here _ _) (list_elem_of_further _ _ _ Hb) Hma Hmb) as H.
    cbn in H, Hk. by rewrite H in Hk. }
  apply elem_of_cons in Hin as [->|Hin], Hin' as [->|Hin']; [done| | |].
  - exfalso. by eapply Hno.
  - exfalso. by eapply (Hno x rt).
  - apply IH; try done. intros. eapply (Hov a b); eauto using list_elem_of_further.
Qed.
End routing.

Definition families : list (Z * string) := [(4, "dhcp4"); (6, "dhcp6")].

Section mux.
Context {S : Type} `{!Backend S}.

Lemma routes_apart : apart (key <$> @routes S _ families) = true /\ known (key <$> @routes S _ families) = true.
Proof. split; vm_compute; reflexivity. Qed.

Lemma routes_perm fams : fams ≡ₚ families -> @routes S _ fams ≡ₚ routes families.
Proof.
  intros H. unfold routes, gatewayRoutes. do 2 apply Permutation_app_head. apply Permutation_app_tail.
  by rewrite H.
Qed.

Lemma findRoute_perm (rts : list (route S)) r : rts ≡ₚ routes families -> findRoute rts r = findRoute (routes families) r.
Proof.
  intros Hp. assert (Hin : forall rt, rt ∈ rts <-> rt ∈ @routes S _ families) by (intros rt; by rewrite Hp).
  destruct routes_apart as [Ha Hk].
  destruct (findRoute rts r) as [[h vs]|] eqn:E1, (findRoute (routes families) r) as [[h' vs']|] eqn:E2.
  - apply findRoute_Some in E1 as (rt & H1 & M1 & ->), E2 as (rt' & H2 & M2 & ->). apply Hin in H1.
    assert (rt = rt') as -> by by eapply rmatch_unique. by rewrite M1 in M2; injection M2 as ->.
  - apply findRoute_Some in E1 as (rt & H1 & M1 & _). apply Hin in H1. by rewrite (findRoute_None _ _ _ E2 H1) in M1.
  - apply findRoute_Some in E2 as (rt & H1 & M1 & _). apply Hin in H1. by rewrite (findRoute_None _ _ _ E1 H1) in M1.
  - reflexivity.
Qed.

Lemma otherMethod_perm (rts rts' : list (route S)) r : rts ≡ₚ rts' -> otherMethod rts r = otherMethod rts' r.
Proof.
  intros Hp. apply eq_true_iff_eq. unfold otherMethod. rewrite !existsb_exists.
  by split; intros (rt & Hin & H); exists rt; (split; [|done]); apply list_elem_of_In; apply list_elem_of_In in Hin;
    [rewrite <- Hp | rewrite Hp].
Qed.

(** C34: the answer to a request does not depend on how the route table was
    built.  The two DHCP families are registered in the order Go ranges over a
    map, which varies from run to run; with any order of the families, and for
    any order of the whole table, every request is served by the same handler
    with the same path parameters, because no two routes match one request. *)
Theorem registration_order_irrelevant fams (rts : list (route S)) r s :
  fams ≡ₚ families -> rts ≡ₚ routes fams -> serveMux rts r s = NewHandler families r s.
Proof.
  intros Hf Hr. rewrite (routes_perm fams Hf) in Hr. unfold NewHandler, serveMux.
  by rewrite (findRoute_perm rts r Hr), (otherMethod_perm rts _ r Hr).
Qed.

(** * What a request can change *)

Definition writeMethods : list string := ["POST"; "PUT"; "PATCH"; "DELETE"].

(** A handler for GET leaves the state alone, and every answer has one of these
    codes. *)
Definition codes : list Z :=
  [StatusOK; StatusCreated; StatusNoContent; StatusBadRequest; StatusUnauthorized; StatusNotFound; StatusMethodNotAllowed;
   StatusConflict].

Definition pure (h : handler S) : Prop := forall r vs s, (h r vs s).1 = s.
Definition coded (h : handler S) : Prop := forall r vs s, rs_Code (h r vs s).2 ∈ codes.

Ltac code_in :=
  match goal with
  | |- ?c ∈ codes => is_const c; apply (bool_decide_unpack _); vm_compute; exact I
  end.

Lemma errCode_coded e : errCode e ∈ codes.
Proof. unfold errCode. repeat case_match; code_in. Qed.

Lemma answer_coded {A} code (f : A -> payload) (x : S * result A) : code ∈ codes -> rs_Code (answer code f x).2 ∈ codes.
Proof. destruct x as [s [a|e]]; cbn; [done|]. intros _. apply errCode_coded. Qed.

Lemma answerDone_coded ok (x : S * option goerr) : rs_Code ok ∈ codes -> rs_Code (answerDone ok x).2 ∈ codes.
Proof. destruct x as [s [e|]]; cbn; [|done]. intros _. apply errCode_coded. Qed.

Lemma decodeBody_coded {T} (dec : bool -> decoder T) zero r (s : S) k :
  (forall v, rs_Code (k v).2 ∈ codes) -> rs_Code (decodeBody dec zero r s k).2 ∈ codes.
Proof. intros H. unfold decodeBody. case_match; [apply H|]. cbn. code_in. Qed.

Lemma gw_coded fn : (forall r vs vlan s, rs_Code (fn r vs vlan s).2 ∈ codes) -> coded (gw fn).
Proof. intros H r vs s. unfold gw. case_match; [apply H|]. cbn. code_in. Qed.

Lemma gw_pure (fn : Request -> values -> Z -> S -> S * Response) : (forall r vs vlan s, (fn r vs vlan s).1 = s) -> pure (gw fn).
Proof. intros H r vs s. unfold gw. case_match; [apply H | done]. Qed.

Lemma answer_pure {A} code (f : A -> payload) (s : S) (x : result A) : (answer code f (s, x)).1 = s.
Proof. by destruct x. Qed.

Ltac coded_tac :=
  try apply gw_coded; repeat intro;
  repeat first [apply decodeBody_coded; intro | apply answer_coded | apply answerDone_coded]; cbn; try code_in.

Lemma routes_coded : Forall (fun rt => coded (rt_Handler rt)) (@routes S _ families).
Proof.
  unfold routes, gatewayRoutes, families. cbn [fmap list_fmap concat familyRoutes app].
  repeat (apply Forall_cons; split); try apply Forall_nil_2; cbn [rt_Handler];
    unfold createPort, listPorts, getPort, patchPort, deletePort, putStaticFDB, createGateway, listGateways,
      getGateway, deleteGateway, addForward, listForwards, deleteForward, setDHCP, getDHCP, putDHCPStatic,
      replaceDHCPStatic, listDHCPStatic, deleteDHCPStatic, listDHCPLeases, deleteDHCPLease, setSLAAC, getSLAAC,
      getSTP, getFDBConfig, setFDBConfig, listStaticFDB; coded_tac.
  - unfold fdb. case_match; cbn; code_in.
  - unfold deleteFDBEntry. case_match; [apply answerDone_coded|]; cbn; code_in.
  - unfold flushFDB. coded_tac. destruct (b_FlushFDB _ _). cbn. code_in.
  - unfold deleteStaticFDB. case_match; [apply answerDone_coded|]; cbn; code_in.
  - unfold setSTP. coded_tac. destruct (b_SetSTP _ _) as [s' e]. exact (answerDone_coded (writeJSON StatusOK _) (s', e) ltac:(cbn; code_in)).
  - unfold replaceForwards. coded_tac. destruct (b_ReplaceForwards _ _ _) as [s' [infos e]].
    exact (answerDone_coded (writeJSON StatusOK _) (s', e) ltac:(cbn; code_in)).
Qed.

Lemma routes_get_pure : Forall (fun rt => rt_Method rt = "GET" -> pure (rt_Handler rt)) (@routes S _ families).
Proof.
  unfold routes, gatewayRoutes, families. cbn [fmap list_fmap concat familyRoutes app].
  repeat (apply Forall_cons; split); try apply Forall_nil_2; cbn [rt_Handler rt_Method]; try done; intros _;
    try (apply gw_pure); repeat intro; try reflexivity; try apply answer_pure.
  unfold fdb. by case_match.
Qed.

Lemma serve_route rts r (s : S) :
  serveMux rts r s = (s, (serveMux rts r s).2) /\ findRoute rts r = None \/
  exists rt vs, rt ∈ rts /\ rmatch rt r = Some vs /\ findRoute rts r = Some (rt_Handler rt, vs) /\
    serveMux rts r s = rt_Handler rt r vs s.
Proof.
  unfold serveMux. destruct (findRoute rts r) as [[h vs]|] eqn:E; [|by left]. right.
  destruct (findRoute_Some _ _ _ _ E) as (rt & Hin & Hm & ->). by exists rt, vs.
Qed.

(** C10: what a request can change.  Whatever the backend: the state is the same
    after a request unless it carries the token (when one is configured), its
    method is one of the four that write, and it has a route; in particular no
    GET and no HEAD changes anything.  And every answer has one of eight codes. *)
Theorem only_authorised_writes token r (s : S) :
  let x := WithAuth token (NewHandler families) r s in
  rs_Code x.2 ∈ codes /\
  (x.1 <> s ->
     (token = EmptyString \/ rq_Authorization r = "Bearer " +:+ token) /\ rq_Method r ∈ writeMethods /\
     is_Some (findRoute (@routes S _ families) r)).
Proof.
  assert (Hserve : rs_Code (NewHandler families r s).2 ∈ codes /\
    ((NewHandler families r s).1 <> s -> rq_Method r ∈ writeMethods /\ is_Some (findRoute (@routes S _ families) r))).
  { unfold NewHandler. destruct (serve_route (routes families) r s) as [[E _]|(rt & vs & Hin & Hm & Hf & E)].
    - split; [|by rewrite E]. unfold serveMux. case_match; [|case_match; cbn; code_in].
      destruct p as [h vs]. destruct (findRoute_Some _ _ _ _ H) as (rt & Hin & _ & ->).
      exact (proj1 (Forall_forall _ _) routes_coded rt Hin r vs s).
    - rewrite E. split; [exact (proj1 (Forall_forall _ _) routes_coded rt Hin r vs s)|]. intros Hne. split; [|by rewrite Hf].
      pose proof (proj1 (Forall_forall _ _) routes_get_pure rt Hin) as Hget.
      assert (Hng : rt_Method rt <> "GET") by (intros Hg; apply Hne, (Hget Hg)).
      assert (Hk : rt_Method rt ∈ ["GET"; "POST"; "PUT"; "PATCH"; "DELETE"]).
      { destruct routes_apart as [_ Hk]. unfold known in Hk. rewrite forallb_forall in Hk.
        specialize (Hk (key rt)). rewrite bool_decide_eq_true in Hk. apply Hk. apply list_elem_of_In, list_elem_of_fmap. eauto. }
      unfold rmatch in Hm. destruct (matchMethod _ _) eqn:EM; [|done]. unfold matchMethod in EM.
      rewrite orb_true_iff, andb_true_iff, !bool_decide_eq_true in EM. destruct EM as [->|[? _]]; [|done].
      apply elem_of_cons in Hk as [?|?]; [done | exact H]. }
  unfold WithAuth. destruct (is_empty token) eqn:Et.
  - destruct Hserve as [Hc Hn]. split; [done|]. intros Hne. split; [|auto]. left. by destruct token.
  - case_bool_decide; [|cbn; split; [code_in | done]]. destruct Hserve as [Hc Hn]. split; [done|]. intros Hne. auto.
Qed.

(** * Requests are steps of the program *)

(** An invariant of the backend, as the interface sees it. *)
Class BackendInv (P : S -> Prop) := {
  inv_CreatePort : forall req s, P s -> P (b_CreatePort req s).1;
  inv_PatchPort : forall id patch s, P s -> P (b_PatchPort id patch s).1;
  inv_DeletePort : forall id s, P s -> P (b_DeletePort id s).1;
  inv_DeleteFDBEntry : forall vlan mac s, P s -> P (b_DeleteFDBEntry vlan mac s).1;
  inv_FlushFDB : forall req s, P s -> P (b_FlushFDB req s).1;
  inv_PutStaticFDB : forall req s, P s -> P (b_PutStaticFDB req s).1;
  inv_DeleteStaticFDB : forall vlan mac s, P s -> P (b_DeleteStaticFDB vlan mac s).1;
  inv_SetFDBConfig : forall c s, P s -> P (b_SetFDBConfig c s).1;
  inv_SetSTP : forall req s, P s -> P (b_SetSTP req s).1;
  inv_CreateGateway : forall req s, P s -> P (b_CreateGateway req s).1;
  inv_DeleteGateway : forall vlan s, P s -> P (b_DeleteGateway vlan s).1;
  inv_AddForward : forall vlan req s, P s -> P (b_AddForward vlan req s).1;
  inv_DeleteForward : forall vlan id s, P s -> P (b_DeleteForward vlan id s).1;
  inv_ReplaceForwards : forall vlan reqs s, P s -> P (b_ReplaceForwards vlan reqs s).1;
  inv_SetDHCP4 : forall vlan c s, P s -> P (b_SetDHCP4 vlan c s).1;
  inv_SetDHCP6 : forall vlan c s, P s -> P (b_SetDHCP6 vlan c s).1;
  inv_PutDHCPStatic : forall vlan family b s, P s -> P (b_PutDHCPStatic vlan family b s).1;
  inv_ReplaceDHCPStatic : forall vlan family bs s, P s -> P (b_ReplaceDHCPStatic vlan family bs s).1;
  inv_DeleteDHCPStatic : forall vlan family id s, P s -> P (b_DeleteDHCPStatic vlan family id s).1;
  inv_DeleteDHCPLease : forall vlan family ip s, P s -> P (b_DeleteDHCPLease vlan family ip s).1;
  inv_SetSLAAC : forall vlan c s, P s -> P (b_SetSLAAC vlan c s).1
}.

Context (P : S -> Prop) `{!BackendInv P}.

Definition keeps (h : handler S) : Prop := forall r vs s, P s -> P (h r vs s).1.

Lemma decodeBody_inv {T} (dec : bool -> decoder T) zero r (s : S) k :
  P s -> (forall v, P (k v).1) -> P (decodeBody dec zero r s k).1.
Proof. intros Hs H. unfold decodeBody. case_match; [apply H | done]. Qed.

Lemma answer_inv {A} code (f : A -> payload) (x : S * result A) : P x.1 -> P (answer code f x).1.
Proof. by destruct x as [s [a|e]]. Qed.

Lemma answerDone_inv ok (x : S * option goerr) : P x.1 -> P (answerDone ok x).1.
Proof. by destruct x as [s [e|]]. Qed.

Lemma gw_inv fn : (forall r vs vlan s, P s -> P (fn r vs vlan s).1) -> keeps (gw fn).
Proof. intros H r vs s Hs. unfold gw. case_match; [by apply H | done]. Qed.

Ltac inv_tac :=
  first [done | by apply inv_CreatePort | by apply inv_PatchPort | by apply inv_DeletePort | by apply inv_DeleteFDBEntry
    | by apply inv_PutStaticFDB | by apply inv_DeleteStaticFDB | by apply inv_SetFDBConfig | by apply inv_CreateGateway
    | by apply inv_DeleteGateway | by apply inv_AddForward | by apply inv_DeleteForward | by apply inv_SetDHCP4
    | by apply inv_SetDHCP6 | by apply inv_PutDHCPStatic | by apply inv_ReplaceDHCPStatic | by apply inv_DeleteDHCPStatic
    | by apply inv_DeleteDHCPLease | by apply inv_SetSLAAC].

Ltac keeps_tac :=
  try apply gw_inv; intros;
  repeat first [apply decodeBody_inv; [done | intros] | apply answer_inv | apply answerDone_inv]; cbn [fst Z.eqb Pos.eqb]; try inv_tac.

Lemma routes_keep : Forall (fun rt => keeps (rt_Handler rt)) (@routes S _ families).
Proof.
  unfold routes, gatewayRoutes, families. cbn [fmap list_fmap concat familyRoutes app].
  repeat (apply Forall_cons; split); try apply Forall_nil_2; cbn [rt_Handler]; unfold keeps;
    unfold createPort, listPorts, getPort, patchPort, deletePort, putStaticFDB, createGateway, listGateways,
      getGateway, deleteGateway, addForward, listForwards, deleteForward, setDHCP, getDHCP, putDHCPStatic,
      replaceDHCPStatic, listDHCPStatic, deleteDHCPStatic, listDHCPLeases, deleteDHCPLease, setSLAAC, getSLAAC,
      getSTP, getFDBConfig, setFDBConfig, listStaticFDB; keeps_tac.
  - unfold fdb. by case_match.
  - unfold deleteFDBEntry. case_match; keeps_tac.
  - unfold flushFDB. keeps_tac. pose proof (inv_FlushFDB v s H). by destruct (b_FlushFDB v s).
  - unfold deleteStaticFDB. case_match; keeps_tac.
  - unfold setSTP. keeps_tac. pose proof (inv_SetSTP v s H). destruct (b_SetSTP v s). by apply answerDone_inv.
  - unfold replaceForwards. keeps_tac. pose proof (inv_ReplaceForwards vlan v s H).
    destruct (b_ReplaceForwards vlan v s) as [? [? ?]]. by apply answerDone_inv.
Qed.

(** Serving a request keeps what every method of the backend keeps. *)
Lemma serve_inv token r s : P s -> P (WithAuth token (NewHandler families) r s).1.
Proof.
  intros Hs. assert (H : P (NewHandler families r s).1).
  { unfold NewHandler. destruct (serve_route (routes families) r s) as [[-> _]|(rt & vs & Hin & _ & _ & ->)]; [done|].
    by apply (proj1 (Forall_forall _ _) routes_keep rt Hin). }
  unfold WithAuth. repeat case_match; done.
Qed.
End mux.

(** The manager keeps reachability: each of its methods is a sequence of steps. *)
Section refinement.
Context (w : World) (od : MgrOrders) (now ovf : Z) (ps : list pending).
Hypothesis Hrg : ranges_ok (mo_sw od).
Hypothesis Hsubs : range_order (mo_subs od).

#[local] Instance manager_b : Backend Logged := manager_backend w od now ovf.

Definition reach (s : Logged) : Prop := sys_reachable (mkSystem s.1 ps).

Lemma reach_api m m' : sys_reachable (mkSystem m ps) -> api_step m m' -> sys_reachable (mkSystem m' ps).
Proof. intros Hr Hs. eapply SysStep; [done|]. by constructor. Qed.

Lemma CreatePort_steps req m : sys_reachable (mkSystem m ps) -> sys_reachable (mkSystem (CreatePort w od req m).1.1 ps).
Proof.
  intros Hr. unfold CreatePort. destruct (createPort1 w req m) as [[m1 [[o attrs]|e]] fx1] eqn:E1.
  - assert (Hr1 := SysStep _ _ Hr (SysPortBuild _ _ _ _ _ _ _ ps E1)).
    destruct (createPort2 od _ o attrs m1) as [[m2 [e|]] fx2] eqn:E2.
    + pose proof (SysStep _ _ Hr1 (SysPortFail _ _ _ _ _ _ _ _ ps [] E2)) as H. by rewrite app_nil_r in H.
    + assert (Hr2 := SysStep _ _ Hr1 (SysPortAdd _ _ _ _ _ _ _ ps [] E2)).
      pose proof (SysStep _ _ Hr2 (SysPortRecord od _ _ _ ps [])) as H. rewrite app_nil_r in H.
      by destruct (createPort3 od req o m2).
  - by apply failed_createPort1 in E1 as [-> _].
Qed.

Lemma CreateGateway_steps req m :
  sys_reachable (mkSystem m ps) -> sys_reachable (mkSystem (CreateGateway w od req m).1.1 ps).
Proof.
  intros Hr. unfold CreateGateway. destruct (createGateway1 w req m) as [m1 [o|e]] eqn:E1.
  - assert (Hr1 := SysStep _ _ Hr (SysGatewayBuild _ _ _ _ _ ps E1)).
    destruct (createGateway2 od req o m1) as [[m2 [e|]] fx2] eqn:E2.
    + pose proof (SysStep _ _ Hr1 (SysGatewayFail _ _ _ _ _ _ _ ps [] E2)) as H. by rewrite app_nil_r in H.
    + assert (Hr2 := SysStep _ _ Hr1 (SysGatewayAdd _ _ _ _ _ _ ps [] E2)).
      pose proof (SysStep _ _ Hr2 (SysGatewayRecord od _ _ _ ps [])) as H. rewrite app_nil_r in H.
      by destruct (createGateway3 od req o m2) as [[? ?] ?].
  - unfold createGateway1 in E1. destruct (_ || _); [by injection E1 as <- _|].
    destruct (mg_gateways m !! _); [by injection E1 as <- _|].
    destruct (rbind _ _); [done | by injection E1 as <- _].
Qed.

Lemma DeletePort_steps id m : sys_reachable (mkSystem m ps) -> sys_reachable (mkSystem (DeletePort od id m).1.1 ps).
Proof.
  intros Hr. unfold DeletePort. pose proof (SysStep _ _ Hr (SysDelete id m ps)) as Hr1. revert Hr1. unfold deletePort1, deleting.
  destruct (mg_ports m !! id) as [rec|]; cbn [fst]; [|done]. intros Hr1.
  pose proof (SysStep _ _ Hr1 (SysDeleted od _ _ _ ps [])) as H. rewrite app_nil_r in H. by destruct (deletePort2 od id _).
Qed.

Lemma DeleteGateway_steps vlan m : sys_reachable (mkSystem m ps) -> sys_reachable (mkSystem (DeleteGateway od vlan m).1.1 ps).
Proof.
  intros Hr. unfold DeleteGateway. pose proof (SysStep _ _ Hr (SysDeleteGateway vlan m ps)) as Hr1. revert Hr1.
  unfold deleteGateway1, deletingGateway. destruct (mg_gateways m !! vlan) as [rec|]; cbn [fst]; [|done]. intros Hr1.
  pose proof (SysStep _ _ Hr1 (SysGatewayDeleted od _ _ _ ps [])) as H. rewrite app_nil_r in H. by destruct (deleteGateway2 od rec _).
Qed.

(** [UpdateSubAttrs] visits the connections one by one. *)
Lemma updateSubs_foldl o attrs m :
  updateSubs od o attrs m = foldl (fun m i => (patchSwitch i attrs m).1) (patchServer o attrs m) (subIDs od o m).
Proof.
  unfold updateSubs, patchServer, subIDs. destruct (mg_transports m !! o) as [[| | |s|]|]; try done.
  unfold UpdateSubAttrs. set (m0 := set_transport o (MStream (ss_set_attrs attrs s)) m).
  assert (H : forall (l : list (string * nat)) acc,
    (let '(sw, _) := foldl (fun acc (kv : string * nat) => let '(sw, _, fx) := UpdatePortAttrs kv.1 attrs acc.1 in (sw, acc.2 ++ fx)) acc l in
     set_sw sw m0) = foldl (fun m i => (patchSwitch i attrs m).1) (set_sw acc.1 m0) l.*1).
  { induction l as [|kv l IH]; intros [sw fx]; [done|]. cbn [foldl fmap list_fmap]. rewrite IH. f_equal. unfold patchSwitch.
    cbn [mg_sw set_sw fst snd]. by destruct (UpdatePortAttrs kv.1 attrs sw) as [[? ?] ?]. }
  specialize (H (mo_subs od (ss_subs s)) (mg_sw m, [])). destruct (foldl _ (mg_sw m, []) _) as [sw fx]. cbn [fst] in H.
  change (set_sw (mg_sw m) m0) with m0 in H. exact H.
Qed.

Lemma patch_subs_steps id o attrs ids : forall m,
  sys_reachable (mkSystem m (ps ++ [PatchSubs id o attrs ids])) ->
  sys_reachable (mkSystem (foldl (fun m i => (patchSwitch i attrs m).1) m ids) (ps ++ [PatchSubs id o attrs []])).
Proof.
  induction ids as [|i ids IH]; intros m Hr; [done|]. apply IH. exact (SysStep _ _ Hr (SysPatchSub _ _ _ _ _ _ ps [])).
Qed.

Lemma PatchPort_steps id patch m : sys_reachable (mkSystem m ps) -> sys_reachable (mkSystem (PatchPort od id patch m).1 ps).
Proof.
  intros Hr. unfold PatchPort. destruct (mg_ports m !! id) as [rec|] eqn:E; [|done].
  assert (Hr1 := SysStep _ _ Hr (SysPatchFind id patch rec m ps E)).
  destruct (patchAttrs id patch m) as [attrs|e] eqn:Ea; [|done].
  assert (Hr2 := SysStep _ _ Hr1 (SysPatchApply id patch _ attrs m ps [] Ea)).
  destruct (patchSwitch id attrs m) as [m' [e|]] eqn:Es.
  - pose proof (SysStep _ _ Hr2 (SysPatchFail _ _ _ _ _ _ ps [] Es)) as H. by rewrite app_nil_r in H.
  - assert (Hr3 := SysStep _ _ Hr2 (SysPatchSwitch _ _ _ _ _ ps [] Es)).
    assert (Hr4 := SysStep _ _ Hr3 (SysPatchServer od _ _ _ _ ps [] Hsubs)).
    apply patch_subs_steps in Hr4. rewrite <- updateSubs_foldl in Hr4.
    pose proof (SysStep _ _ Hr4 (SysPatchRecord _ _ _ _ ps [])) as H. by rewrite app_nil_r in H.
Qed.

Lemma reach_logged {A} (f : Manager -> Manager * A * list mfx) s :
  sys_reachable (mkSystem (f s.1).1.1 ps) -> reach (logged f s).1.
Proof. unfold reach, logged. by destruct (f s.1) as [[m a] fx]. Qed.

Lemma reach_silent {A} (f : Manager -> Manager * A) s : sys_reachable (mkSystem (f s.1).1 ps) -> reach (silent f s).1.
Proof. unfold reach, silent. by destruct (f s.1) as [m a]. Qed.

#[local] Instance manager_reach : BackendInv reach.
Proof.
  split; intros; cbn [manager_b manager_backend b_CreatePort b_PatchPort b_DeletePort b_DeleteFDBEntry b_FlushFDB
    b_PutStaticFDB b_DeleteStaticFDB b_SetFDBConfig b_SetSTP b_CreateGateway b_DeleteGateway b_AddForward b_DeleteForward
    b_ReplaceForwards b_SetDHCP4 b_SetDHCP6 b_PutDHCPStatic b_ReplaceDHCPStatic b_DeleteDHCPStatic b_DeleteDHCPLease b_SetSLAAC];
    first [apply reach_logged | apply reach_silent];
    first [by apply CreatePort_steps | by apply CreateGateway_steps | by apply DeletePort_steps | by apply DeleteGateway_steps
      | by apply PatchPort_steps | apply (reach_api s.1); [done | constructor]]; done.
Qed.
End refinement.

(** C9: every HTTP request is a run of the program's transition system.  Serving
    a request, with or without the token, whatever its method, path and body,
    takes a reachable state of the program to a reachable one, with the
    calls that other requests have under way still under way; so every
    invariant of the reachable states, such as the agreement of the registries,
    holds between requests. *)
Theorem requests_are_steps w od now ovf token ps r (s : Logged) :
  ranges_ok (mo_sw od) -> range_order (mo_subs od) -> sys_reachable (mkSystem s.1 ps) ->
  sys_reachable (mkSystem (@WithAuth Logged token (@NewHandler Logged (manager_backend w od now ovf) families) r s).1.1 ps).
Proof.
  intros Hrg Hsubs Hs. exact (@serve_inv Logged (manager_backend w od now ovf) (reach ps) (manager_reach w od now ovf ps Hrg Hsubs) token r s Hs).
Qed.
