(* ===== verification/ApiDecode.v ===== *)
(** The numbers of decoded requests fit the Go types of their fields. *)
From S2P Require Import Prelude GoText Json ApiTypes Manager.

#[local] Open Scope Z_scope.

Definition is_int (n : Z) : Prop := minInt64 <= n <= maxInt64.
Definition is_uint (bits n : Z) : Prop := 0 <= n < 2 ^ bits.
Definition opt_all {A} (P : A -> Prop) (o : option A) : Prop := from_option P True o.

Record PortRequest_typed (r : PortRequest) : Prop := {
  pt_VLAN : opt_all is_int (pq_VLAN r);
  pt_QueueID : is_int (pq_QueueID r);
  pt_StormPPS : is_uint 32 (pq_StormPPS r);
  pt_STPCost : is_uint 32 (pq_STPCost r);
  pt_STPPriority : is_uint 8 (pq_STPPriority r)
}.

Record PortPatch_typed (p : PortPatch) : Prop := {
  ptp_VLAN : opt_all is_int (pp_VLAN p);
  ptp_StormPPS : opt_all (is_uint 32) (pp_StormPPS p);
  ptp_STPCost : opt_all (is_uint 32) (pp_STPCost p);
  ptp_STPPriority : opt_all (is_uint 8) (pp_STPPriority p)
}.

Record GatewayRequest_typed (r : GatewayRequest) : Prop := {
  gt_VLAN : is_int (gq_VLAN r);
  gt_MTU : is_int (gq_MTU r);
  gt_IPv4 : opt_all (fun v => is_int (g4_PrefixLen v)) (gq_IPv4 r);
  gt_IPv6 : opt_all (fun v => is_int (g6_PrefixLen v)) (gq_IPv6 r)
}.

Definition DHCP_typed (c : DHCP4Config) : Prop := is_int (dq_LeaseSeconds c).
Definition Static_typed (b : DHCPStaticBinding) : Prop := is_int (ds_Order b).
Definition RAPrefix_typed (p : ApiTypes.RAPrefix) : Prop := is_int (rq_ValidLifetime p) /\ is_int (rq_PreferredLifetime p).
Definition SLAAC_typed (c : ApiTypes.SLAACConfig) : Prop :=
  is_int (sq_IntervalSeconds c) /\ is_int (sq_RouterLifetimeSeconds c) /\ Forall RAPrefix_typed (sq_Prefixes c).
Definition STPRequest_typed (r : STPRequest) : Prop :=
  is_uint 16 (tq_Priority r) /\ is_int (tq_HelloSeconds r) /\ is_int (tq_MaxAgeSeconds r) /\ is_int (tq_ForwardDelaySeconds r).

(** A decoder keeps [P]. *)
Definition decodes {A} (d : decoder A) (P : A -> Prop) : Prop := forall j c y, P c -> d j c = Ok y -> P y.

Lemma rbind_Ok {A B} (m : result A) (k : A -> result B) y : rbind m k = Ok y -> exists x, m = Ok x /\ k x = Ok y.
Proof. destruct m; [eauto | done]. Qed.

Lemma field_typed {A} (d : decoder A) (P : A -> Prop) kvs name c x :
  decodes d P -> P c -> field kvs name d c = Ok x -> P x.
Proof. intros Hd. by apply field_ind. Qed.

Lemma decodes_int : decodes dec_int is_int.
Proof. intros j c y Hc H. by eapply dec_int_range. Qed.

Lemma decodes_uint bits : decodes (dec_uint bits) (is_uint bits).
Proof. intros j c y Hc H. by eapply dec_uint_range. Qed.

Lemma decodes_ptr {A} zero (d : decoder A) P : P zero -> decodes d P -> decodes (dec_ptr zero d) (opt_all P).
Proof. intros Hz Hd j c y. by apply dec_ptr_ind. Qed.

Lemma decodes_list {A} zero (d : decoder A) P : P zero -> decodes d P -> decodes (dec_list zero d) (Forall P).
Proof. intros Hz Hd j c y. by apply dec_list_ind. Qed.

Create HintDb decode.
#[local] Hint Resolve decodes_int decodes_uint decodes_ptr decodes_list Forall_nil_2 : decode.
#[local] Hint Extern 1 (is_int 0) => split; done : decode.
#[local] Hint Extern 1 (is_uint _ 0) => split; done : decode.
#[local] Hint Extern 1 (opt_all _ None) => exact I : decode.

(** A numeric field of the struct a decoder builds. *)
Ltac dec_field :=
  match goal with
  | H : field _ _ ?d ?c = Ok ?x |- ?P ?x => eapply (field_typed d P); [auto with decode | | exact H]; assumption
  end.

(** The decoder of a struct: take its fields apart one by one. *)
Ltac dec_struct H :=
  repeat (apply rbind_Ok in H as (? & ? & H)); injection H as <-.

Ltac dec_fields := cbn -[opt_all]; dec_field.

Lemma decodes_PortRequest strict : decodes (decPortRequest strict) PortRequest_typed.
Proof. intros j c y [] H. unfold decPortRequest in H. dec_struct H. split; dec_fields. Qed.

Lemma decodes_PortPatch strict : decodes (decPortPatch strict) PortPatch_typed.
Proof. intros j c y [] H. unfold decPortPatch in H. dec_struct H. split; dec_fields. Qed.

Lemma decodes_StaticFDB strict : decodes (decStaticFDBRequest strict) (fun r => is_int (sf_VLAN r)).
Proof. intros j c y Hc H. unfold decStaticFDBRequest in H. dec_struct H. dec_fields. Qed.

Lemma decodes_Flush strict : decodes (decFDBFlushRequest strict) (fun r => opt_all is_int (fl_VLAN r)).
Proof. intros j c y Hc H. unfold decFDBFlushRequest in H. dec_struct H. dec_fields. Qed.

Lemma decodes_FDBConfig strict : decodes (decFDBConfig strict) (fun r => is_int (fc_AgingSeconds r)).
Proof. intros j c y Hc H. unfold decFDBConfig in H. dec_struct H. dec_fields. Qed.

Lemma decodes_GatewayV4 strict : decodes (decGatewayV4 strict) (fun v => is_int (g4_PrefixLen v)).
Proof. intros j c y Hc H. unfold decGatewayV4 in H. dec_struct H. dec_fields. Qed.

Lemma decodes_GatewayV6 strict : decodes (decGatewayV6 strict) (fun v => is_int (g6_PrefixLen v)).
Proof. intros j c y Hc H. unfold decGatewayV6 in H. dec_struct H. dec_fields. Qed.
#[local] Hint Resolve decodes_GatewayV4 decodes_GatewayV6 : decode.

Lemma decodes_GatewayFields strict kvs c y :
  GatewayRequest_typed c -> decGatewayRequestFields strict kvs c = Ok y -> GatewayRequest_typed y.
Proof.
  intros [] H. unfold decGatewayRequestFields in H. dec_struct H. split; [dec_fields | dec_fields | |];
    (cbn -[opt_all]; eapply field_typed; [|eassumption|eassumption]); apply decodes_ptr; auto with decode; done.
Qed.

Lemma decodes_GatewayRequest strict : decodes (decGatewayRequest strict) GatewayRequest_typed.
Proof.
  intros j c y Hc H. unfold decGatewayRequest in H. apply rbind_Ok in H as (kvs & _ & H). by eapply decodes_GatewayFields.
Qed.

Lemma decodes_DHCP strict : decodes (decDHCPConfig strict) DHCP_typed.
Proof. intros j c y Hc H. unfold decDHCPConfig in H. dec_struct H. unfold DHCP_typed in *. dec_fields. Qed.

Lemma decodes_Static strict : decodes (decDHCPStaticBinding strict) Static_typed.
Proof. intros j c y Hc H. unfold decDHCPStaticBinding in H. dec_struct H. unfold Static_typed in *. dec_fields. Qed.

Lemma decodes_RAPrefix strict : decodes (decRAPrefix strict) RAPrefix_typed.
Proof. intros j c y [? ?] E. unfold decRAPrefix in E. dec_struct E. split; dec_fields. Qed.

Lemma zero_typed :
  PortRequest_typed zeroPortRequest /\ PortPatch_typed zeroPortPatch /\ GatewayRequest_typed zeroGatewayRequest /\
  DHCP_typed zeroDHCPConfig /\ Static_typed zeroDHCPStaticBinding /\ RAPrefix_typed zeroRAPrefix /\
  SLAAC_typed zeroSLAACConfig /\ STPRequest_typed zeroSTPRequest.
Proof. split_and!; try split; try split; try split; try split; cbn; try done; try lia. Qed.

Lemma decodes_SLAAC strict : decodes (decSLAACConfig strict) SLAAC_typed.
Proof.
  intros j c y (? & ? & ?) E. unfold decSLAACConfig in E. dec_struct E. split_and!; [dec_fields | dec_fields |].
  cbn. eapply field_typed; [|eassumption|eassumption]. apply decodes_list; [apply zero_typed | apply decodes_RAPrefix].
Qed.

Lemma decodes_STP strict : decodes (decSTPRequest strict) STPRequest_typed.
Proof. intros j c y (? & ? & ? & ?) E. unfold decSTPRequest in E. dec_struct E. split_and!; dec_fields. Qed.

Definition GatewayConfig_typed (g : GatewayConfig) : Prop :=
  GatewayRequest_typed (gcf_Request g) /\ opt_all DHCP_typed (gcf_DHCP4 g) /\ opt_all DHCP_typed (gcf_DHCP6 g) /\
  Forall Static_typed (gcf_DHCP4Static g) /\ Forall Static_typed (gcf_DHCP6Static g) /\ opt_all SLAAC_typed (gcf_SLAAC g).

Record Config_typed (c : Config) : Prop := {
  ct_STP : opt_all STPRequest_typed (cf_STP c);
  ct_Ports : Forall PortRequest_typed (cf_Ports c);
  ct_Gateways : Forall GatewayConfig_typed (cf_Gateways c)
}.

#[local] Hint Resolve decodes_PortRequest decodes_DHCP decodes_Static decodes_SLAAC decodes_STP : decode.
#[local] Hint Extern 1 (PortRequest_typed zeroPortRequest) => apply zero_typed : decode.
#[local] Hint Extern 1 (DHCP_typed zeroDHCPConfig) => apply zero_typed : decode.
#[local] Hint Extern 1 (Static_typed zeroDHCPStaticBinding) => apply zero_typed : decode.
#[local] Hint Extern 1 (SLAAC_typed zeroSLAACConfig) => apply zero_typed : decode.
#[local] Hint Extern 1 (STPRequest_typed zeroSTPRequest) => apply zero_typed : decode.

Lemma decodes_GatewayConfig : decodes decGatewayConfig GatewayConfig_typed.
Proof.
  intros j c y (Hg & H4 & H6 & Hs4 & Hs6 & Hs) E. unfold decGatewayConfig in E. dec_struct E.
  split_and!; [cbn; by eapply decodes_GatewayFields | dec_fields ..].
Qed.

Lemma decodes_Config : decodes decConfig Config_typed.
Proof.
  intros j c y [] E. unfold decConfig in E. dec_struct E. split; [dec_fields | dec_fields |].
  cbn. eapply field_typed; [|eassumption|eassumption]. apply decodes_list; [|apply decodes_GatewayConfig].
  split_and!; try apply zero_typed; try apply Forall_nil_2; done.
Qed.

