(* ===== verification/ApiStatus.v ===== *)
(** Which status codes the REST interface answers with, when the manager is
    behind it. *)
From S2P Require Import Prelude Vlan SwitchState Lease GoText NetText Dhcp Gateway Json ApiTypes Manager System SystemProps Api ApiProps.
From Stdlib Require Import Ascii.

#[local] Open Scope Z_scope.

(** * Substrings of messages *)

Lemma Contains_cons c s sub : Contains (String c s) sub = String.prefix sub (String c s) || Contains s sub.
Proof.
  unfold Contains. cbn [String.index]. destruct (String.prefix sub (String c s)); [done|].
  by destruct (String.index 0 sub s).
Qed.

Lemma Contains_app_r a b sub : Contains b sub = true -> Contains (a +:+ b) sub = true.
Proof.
  intros H. induction a as [|c a IH]; [done|]. rewrite str_app_cons. by rewrite Contains_cons, IH, orb_true_r.
Qed.

(** Quoting leaves an identifier as it is. *)
Lemma quote_identifier id : allChars identifierChar id = true -> quoteFrom id = id +:+ String (ascii_of_nat 34) EmptyString.
Proof.
  induction id as [|c id IH]; [done|]. cbn. intros [Hc Hid]%andb_true_iff. rewrite IH by done.
  destruct c as [[] [] [] [] [] [] [] []]; vm_compute in Hc; try discriminate Hc; reflexivity.
Qed.

(** "not found" has a blank, an identifier has none. *)
Lemma not_found_identifier id tail :
  allChars identifierChar id = true -> String.prefix "not found" (id +:+ String (ascii_of_nat 34) tail) = false.
Proof.
  intros H.
  assert (Hsp : forall c s, allChars identifierChar (String c s) = true -> c <> " "%char).
  { intros c s Hc ->. by apply andb_true_iff in Hc as [Hc _]. }
  destruct id as [|c1 id]; [done|]. apply andb_true_iff in H as [_ H]. rewrite str_app_cons. cbn [String.prefix]. case_match; [|done].
  destruct id as [|c2 id]; [done|]. apply andb_true_iff in H as [_ H]. rewrite str_app_cons. cbn [String.prefix]. case_match; [|done].
  destruct id as [|c3 id]; [done|]. apply andb_true_iff in H as [_ H]. rewrite str_app_cons. cbn [String.prefix]. case_match; [|done].
  destruct id as [|c4 id]; [done|]. apply Hsp in H. rewrite str_app_cons. cbn [String.prefix]. case_match; [congruence | done].
Qed.

Lemma Contains_identifier id tail :
  allChars identifierChar id = true -> Contains (String (ascii_of_nat 34) tail) "not found" = false ->
  Contains (id +:+ String (ascii_of_nat 34) tail) "not found" = false.
Proof.
  intros H Ht. induction id as [|c id IH]; [done|].
  change (String c id +:+ String (ascii_of_nat 34) tail) with (String c (id +:+ String (ascii_of_nat 34) tail)).
  pose proof (not_found_identifier (String c id) tail H) as Hp. apply andb_true_iff in H as [_ H].
  rewrite Contains_cons, (IH H). by rewrite orb_false_r.
Qed.

(** A number has no letters. *)
Definition no_n (c : ascii) : bool := negb (Ascii.eqb c "n"%char).

Lemma Contains_number s tail :
  allChars no_n s = true -> Contains tail "not found" = false -> Contains (s +:+ tail) "not found" = false.
Proof.
  intros H Ht. induction s as [|c s IH]; [done|]. change (String c s +:+ tail) with (String c (s +:+ tail)).
  apply andb_true_iff in H as [Hc H]. rewrite Contains_cons, (IH H), orb_false_r. cbn [String.prefix].
  case_match; [subst c; by vm_compute in Hc | done].
Qed.

(** What the VLANs print as, checked one by one. *)
Lemma vlan_texts z : valid_vlan z -> allChars no_n (Itoa z) = true /\ Atoi (Itoa z) = Some z /\ is_empty (Itoa z) = false.
Proof.
  intros Hz.
  assert (H : forallb (fun n => let z := Z.of_nat n in
    allChars no_n (Itoa z) && bool_decide (Atoi (Itoa z) = Some z) && negb (is_empty (Itoa z))) (seq 0 4095) = true)
    by (vm_compute; reflexivity).
  rewrite forallb_forall in H. specialize (H (Z.to_nat z)). rewrite Z2Nat.id in H by (destruct Hz; lia).
  destruct (andb_prop _ _ (H ltac:(apply in_seq; destruct Hz; lia))) as [[H1 H2]%andb_prop H3].
  split_and!; [done | by apply bool_decide_eq_true in H2 | by apply negb_true_iff in H3].
Qed.

(** * Codes of the manager's errors *)

Lemma code_portNotFound id : errCode (portNotFound id) = StatusNotFound.
Proof.
  unfold errCode. assert (H : Contains (Error (portNotFound id)) "not found" = true); [|by rewrite H].
  change (Error (portNotFound id)) with ("port " +:+ (Quote id +:+ " not found")). by apply Contains_app_r, Contains_app_r.
Qed.

Lemma code_portExists id :
  ValidateIdentifier id = None -> errCode (Errorf "port %q already exists" [AStr id]) = StatusConflict.
Proof.
  unfold ValidateIdentifier. destruct (negb _ && _) eqn:E; [|done]. intros _. apply andb_true_iff in E as [_ E].
  unfold errCode. set (msg := Error _).
  assert (Em : msg = "port " +:+ String (ascii_of_nat 34) (id +:+ String (ascii_of_nat 34) " already exists")).
  { unfold msg. change (Error _) with ("port " +:+ (String (ascii_of_nat 34) (quoteFrom id) +:+ " already exists")).
    rewrite quote_identifier by done. clear. apply (f_equal (String.append _)). rewrite str_app_cons. apply (f_equal (String _)).
     induction id as [|c id IH]; [done|].
    by rewrite !str_app_cons, IH. }
  assert (Hn : Contains msg "not found" = false).
  { rewrite Em. clear Em msg.
    assert (Hx : Contains (String (ascii_of_nat 34) (id +:+ String (ascii_of_nat 34) " already exists")) "not found" = false).
    { rewrite Contains_cons. by rewrite (Contains_identifier id " already exists"). }
    revert Hx. generalize (String (ascii_of_nat 34) (id +:+ String (ascii_of_nat 34) " already exists")) as x. intros x Hx.
    unfold String.append. rewrite !Contains_cons, Hx. reflexivity. }
  assert (Hy : Contains msg "already exists" = true).
  { rewrite Em. apply Contains_app_r. change (String (ascii_of_nat 34) ?x) with (String (ascii_of_nat 34) EmptyString +:+ x).
    by apply Contains_app_r, Contains_app_r. }
  by rewrite Hn, Hy.
Qed.

Lemma code_gatewayNotFound vlan : errCode (gatewayNotFound vlan) = StatusNotFound.
Proof.
  unfold errCode. assert (H : Contains (Error (gatewayNotFound vlan)) "not found" = true); [|by rewrite H].
  change (Error (gatewayNotFound vlan)) with ("gateway for vlan " +:+ (Itoa vlan +:+ " not found")).
  by apply Contains_app_r, Contains_app_r.
Qed.

Lemma code_gatewayExists vlan : valid_vlan vlan -> errCode (gatewayExists vlan) = StatusConflict.
Proof.
  intros (Hd & _)%vlan_texts. unfold errCode. set (msg := Error _).
  assert (Em : msg = "gateway for vlan " +:+ (Itoa vlan +:+ " already exists")) by done.
  assert (Hn : Contains msg "not found" = false).
  { rewrite Em. clear Em msg. apply (Contains_number _ " already exists") in Hd; [|done]. revert Hd.
    generalize (Itoa vlan +:+ " already exists") as x. intros x Hx. unfold String.append. rewrite !Contains_cons, Hx. reflexivity. }
  assert (Hy : Contains msg "already exists" = true) by (rewrite Em; by apply Contains_app_r, Contains_app_r).
  by rewrite Hn, Hy.
Qed.

(** * Answers *)

Definition serve (w : World) (od : MgrOrders) (now ovf : Z) (method : string) (path : list string) (body : result json)
    (s : Logged) : Logged * Response :=
  @NewHandler Logged (manager_backend w od now ovf) families (mkRequest method path [] EmptyString body) s.

Section answers.
Context (w : World) (od : MgrOrders) (now ovf : Z).
#[local] Notation mb := (manager_backend w od now ovf).

Lemma serve_with method path body s h vs :
  findRoute (@routes Logged (manager_backend w od now ovf) families) (mkRequest method path [] EmptyString body) = Some (h, vs) ->
  serve w od now ovf method path body s = h (mkRequest method path [] EmptyString body) vs s.
Proof. intros H. unfold serve, NewHandler, serveMux. by rewrite H. Qed.

Lemma missing_port m log id body :
  is_empty id = false -> mg_ports m !! id = None ->
  let miss := ((m, log), writeErr StatusNotFound (portNotFound id)) in
  serve w od now ovf "GET" ["api"; "v1"; "ports"; id] body (m, log) = miss /\
  serve w od now ovf "DELETE" ["api"; "v1"; "ports"; id] body (m, log) = miss /\
  ((exists p, (j <-? body; decPortPatch true j zeroPortPatch) = Ok p) ->
   serve w od now ovf "PATCH" ["api"; "v1"; "ports"; id] body (m, log) = miss).
Proof.
  intros Hid Hno miss. destruct id as [|c id]; [done|]. set (id' := String c id) in *. split_and!.
  - erewrite serve_with by reflexivity.
    change (answer StatusOK PPort ((m, log), GetPort od id' m) = miss). unfold GetPort, portInfoLocked. rewrite Hno.
    unfold answer. by rewrite code_portNotFound.
  - erewrite serve_with by reflexivity.
    change (answerDone noContent (logged (DeletePort od id') (m, log)) = miss). unfold logged, DeletePort, deletePort1. cbn [fst snd].
    rewrite Hno, app_nil_r. unfold answerDone. by rewrite code_portNotFound.
  - intros [p Hp]. rewrite (serve_with _ _ _ _ (@patchPort Logged mb) [("id", id')]) by reflexivity. unfold patchPort, decodeBody. cbn [rq_Body]. rewrite Hp.
    change (answer StatusOK PPort (silent (PatchPort od id' p) (m, log)) = miss). unfold silent, PatchPort. cbn [fst snd].
    rewrite Hno. unfold answer. by rewrite code_portNotFound.
Qed.

Lemma taken_port m log ps id rec req attrs j :
  sys_reachable (mkSystem m ps) -> mg_ports m !! id = Some rec ->
  decPortRequest true j zeroPortRequest = Ok req -> pq_Identifier req = id -> Attrs req = Ok attrs ->
  serve w od now ovf "POST" ["api"; "v1"; "ports"] (Ok j) (m, log) =
    ((m, log), writeErr StatusConflict (Errorf "port %q already exists" [AStr id])).
Proof.
  intros Hs%sys_reachable_ok Hrec Hj Hid Ha. destruct (sy_recs _ Hs _ _ Hrec) as (_ & (Hv & _) & _).
  rewrite (serve_with _ _ _ _ (@createPort Logged mb) []) by reflexivity. unfold createPort, decodeBody. cbn [rq_Body rbind]. rewrite Hj.
  change (answer StatusCreated PPort (logged (CreatePort w od req) (m, log)) =
    ((m, log), writeErr StatusConflict (Errorf "port %q already exists" [AStr id]))).
  unfold logged, CreatePort, createPort1. cbn [fst snd]. rewrite Hid, Hv, Ha, Hrec. cbn [fst snd]. rewrite app_nil_r.
  unfold answer. by rewrite code_portExists.
Qed.

Lemma missing_gateway m log vlan body :
  valid_vlan vlan -> mg_gateways m !! vlan = None ->
  let miss := ((m, log), writeErr StatusNotFound (gatewayNotFound vlan)) in
  serve w od now ovf "GET" ["api"; "v1"; "gateways"; Itoa vlan] body (m, log) = miss /\
  serve w od now ovf "DELETE" ["api"; "v1"; "gateways"; Itoa vlan] body (m, log) = miss.
Proof.
  intros Hv Hno miss. destruct (vlan_texts vlan Hv) as (_ & Hat & Hne). revert Hat Hne. generalize (Itoa vlan). intros t Hat Hne.
  assert (Hdom : inDomain (Atoi t) = Some vlan).
  { rewrite Hat. unfold inDomain. destruct Hv. destruct (Z.ltb_spec vlan 0), (Z.ltb_spec 4094 vlan); try lia; done. }
  assert (Hg : gateway vlan m = Err (gatewayNotFound vlan)) by (unfold gateway; by rewrite Hno).
  destruct t as [|c t]; [done|]. split.
  - rewrite (serve_with _ _ _ _ (gw (@getGateway Logged mb)) [("vlan", String c t)]) by reflexivity. unfold gw.
    change (Get [("vlan", String c t)] "vlan") with (String c t). rewrite Hdom.
    change (answer StatusOK PGateway ((m, log), GetGateway vlan m) = miss). unfold GetGateway, gatewayInfo. rewrite Hg.
    cbn [rbind]. unfold answer. by rewrite code_gatewayNotFound.
  - rewrite (serve_with _ _ _ _ (gw (@deleteGateway Logged mb)) [("vlan", String c t)]) by reflexivity. unfold gw.
    change (Get [("vlan", String c t)] "vlan") with (String c t). rewrite Hdom.
    change (answerDone noContent (logged (DeleteGateway od vlan) (m, log)) = miss). unfold logged, DeleteGateway, deleteGateway1. cbn [fst snd].
    rewrite Hno, app_nil_r. unfold answerDone. by rewrite code_gatewayNotFound.
Qed.

Lemma taken_gateway m log ps vlan rec req j :
  sys_reachable (mkSystem m ps) -> mg_gateways m !! vlan = Some rec ->
  decGatewayRequest true j zeroGatewayRequest = Ok req -> gq_VLAN req = vlan ->
  serve w od now ovf "POST" ["api"; "v1"; "gateways"] (Ok j) (m, log) = ((m, log), writeErr StatusConflict (gatewayExists vlan)).
Proof.
  intros Hs%sys_reachable_ok Hrec Hj Hvl. destruct (sy_gws _ Hs _ _ Hrec) as (_ & Hv & _).
  rewrite (serve_with _ _ _ _ (@createGateway Logged mb) []) by reflexivity. unfold createGateway, decodeBody. cbn [rq_Body rbind]. rewrite Hj.
  change (answer StatusCreated PGateway (logged (CreateGateway w od req) (m, log)) =
    ((m, log), writeErr StatusConflict (gatewayExists vlan))).
  unfold logged, CreateGateway, createGateway1. cbn [fst snd]. rewrite Hvl.
  destruct (Z.ltb_spec vlan 0), (Z.ltb_spec 4094 vlan); try (destruct Hv; lia). cbn [orb]. rewrite Hrec. cbn [fst snd].
  rewrite app_nil_r. unfold answer. by rewrite code_gatewayExists.
Qed.
End answers.

(** C36: unknown and taken names.  In every reachable state of the program: GET,
    PATCH (with a body that decodes) and DELETE of a port that is not recorded,
    whatever its name, and GET and DELETE of a gateway of a VLAN that has none,
    answer 404; POST of a port or gateway that exists answers 409; and none of
    them changes the manager or causes any effect.  The code is chosen by the
    text of the error, which quotes the name: no valid identifier can make it
    read differently. *)
Theorem status_codes w od now ovf m log ps :
  let call := fun method path body => serve w od now ovf method ("api" :: "v1" :: path) body (m, log) in
  let fails := fun code e => ((m, log), writeErr code e) in
  sys_reachable (mkSystem m ps) ->
  (forall id body, is_empty id = false -> mg_ports m !! id = None ->
     call "GET" ["ports"; id] body = fails StatusNotFound (portNotFound id) /\
     call "DELETE" ["ports"; id] body = fails StatusNotFound (portNotFound id) /\
     ((exists p, (j <-? body; decPortPatch true j zeroPortPatch) = Ok p) ->
      call "PATCH" ["ports"; id] body = fails StatusNotFound (portNotFound id))) /\
  (forall id rec j req attrs, mg_ports m !! id = Some rec ->
     decPortRequest true j zeroPortRequest = Ok req -> pq_Identifier req = id -> Attrs req = Ok attrs ->
     call "POST" ["ports"] (Ok j) = fails StatusConflict (Errorf "port %q already exists" [AStr id])) /\
  (forall vlan body, valid_vlan vlan -> mg_gateways m !! vlan = None ->
     call "GET" ["gateways"; Itoa vlan] body = fails StatusNotFound (gatewayNotFound vlan) /\
     call "DELETE" ["gateways"; Itoa vlan] body = fails StatusNotFound (gatewayNotFound vlan)) /\
  (forall vlan rec j req, mg_gateways m !! vlan = Some rec ->
     decGatewayRequest true j zeroGatewayRequest = Ok req -> gq_VLAN req = vlan ->
     call "POST" ["gateways"] (Ok j) = fails StatusConflict (gatewayExists vlan)).
Proof.
  intros call fails Hs. split_and!.
  - intros id body Hid Hno. by apply missing_port.
  - intros id rec j req attrs Hrec Hj Hid Ha. by eapply taken_port.
  - intros vlan body Hv Hno. by apply missing_gateway.
  - intros vlan rec j req Hrec Hj Hv. by eapply taken_gateway.
Qed.
