(* ===== verification/Command.v ===== *)
(** The command: src/cmd/gvswitch/main.go, from parsed flags to the exit code. *)
From S2P Require Import Prelude SwitchState Stp Switch Lease GoText Ports Json ApiTypes Manager Api.

#[local] Open Scope Z_scope.

(** What [flag.Parse] leaves in the variables; [stpPriority] is a 64-bit [uint]. *)
Record Flags := mkFlags {
  fg_listen : string;
  fg_configPath : string;
  fg_authToken : string;
  fg_stpEnable : bool;
  fg_stpPriority : Z
}.

(** How far [run] got: it returned this code, with the manager it closed, or it
    serves requests and waits for a signal. *)
Inductive outcome : Type :=
  | Exit (code : Z) (m : option Manager) (fx : list mfx)
  | Serving (m : Manager) (fx : list mfx).

Section run.
Context (w : World) (od : MgrOrders).
(** The content of files. *)
Context (ReadFile : string -> result (result json)).

(** The deferred [m.Close]. *)
Definition closing (code : Z) (m : Manager) (fx : list mfx) : outcome :=
  let '(m, fx') := m_Close od m in Exit code (Some m) (fx ++ fx').

(** Up to the signal. *)
Definition start (random : bytes) (f : Flags) : outcome :=
  if is_empty (fg_listen f) then Exit 2 None []
  else
    let m := m_New random in
    let '(m, e) := if fg_stpEnable f then SetSTP od (mkSTPRequest true (u16 (fg_stpPriority f)) 0 0 0) m else (m, None) in
    match e with
    | Some _ => closing 1 m []
    | None =>
        let '(m, e, fx) := if is_empty (fg_configPath f) then (m, None, [])
                           else ReplayConfig w od (ReadFile (fg_configPath f)) m in
        match e with
        | Some _ => closing 1 m fx
        | None =>
            match api_Listen (w_net w) (fg_listen f) with
            | (Err _, fx') => closing 1 m (fx ++ (MKernel <$> fx'))
            | (Ok _, fx') => Serving m (fx ++ (MKernel <$> fx'))
            end
        end
    end.

(** After it: [srv.Close], then [m.Close]. *)
Definition finish (m : Manager) (fx : list mfx) : outcome := closing 0 m (fx ++ [MKernel (Release RSocket)]).
End run.
