(* ===== verification/CommandProps.v ===== *)
(** Theorems about the command: what it has set up when it serves, and what is
    closed when it exits. *)
From S2P Require Import Prelude Vlan Fdb Protect SwitchState Stp Switch SwitchInv SwitchProps Lease GoText Forwards Framing Ports Server Dhcp Gateway Json ApiTypes Manager System SystemProps ManagerProps Api ApiProps Command.

#[local] Open Scope Z_scope.

(** * Shutdown *)

(** A transport after its [Close]. *)
Definition tp_closed (p : managedPort) : Prop :=
  match p with
  | MPump p => pp_attached p = true -> p_done (pp_pump p) = true
  | MXdp p => xp_closed p = true
  | MVhost p => vp_closed p = true
  | MStream s => ss_closed s = true
  | MDgram s => ds_closed s = true
  end.

Definition obj_closed (m : Manager) (x : portObj) : Prop :=
  match x with
  | OPort o => forall p, mg_transports m !! o = Some p -> tp_closed p
  | OSub _ _ => True
  | OGateway o => forall g, mg_gws m !! o = Some g -> g_done g = true
  end.

Lemma stopPump_closed k s : ss_closed (stopPump k s) = ss_closed s.
Proof. unfold stopPump. by case_bool_decide. Qed.

Section shutdown.
Context (od : MgrOrders).

Lemma ss_Close_closed s : ss_closed (ss_Close (mo_subs od) s) = true.
Proof.
  unfold ss_Close. destruct (ss_closed s) eqn:E; [done|].
  assert (H : forall l s0, ss_closed s0 = true -> ss_closed (foldl (fun s (kv : string * nat) => stopPump kv.2 s) s0 l) = true).
  { induction l as [|kv l IH]; intros s0 H0; [done|]. cbn. apply IH. by rewrite stopPump_closed. }
  apply H. case_match; [by rewrite stopPump_closed | done].
Qed.

Lemma portClose_closed p : tp_closed (portClose od p).1.1.
Proof.
  destruct p as [p|p|p|s|s]; cbn.
  - rewrite pp_Close_eq. unfold pp_stop, stop. destruct (pp_attached p) eqn:Ea; cbn; [|congruence].
    destruct (p_done (pp_pump p)) eqn:Ed; cbn; congruence.
  - unfold xp_Close. destruct (xp_closed p) eqn:E; done.
  - unfold vp_Close. destruct (vp_closed p) eqn:E; done.
  - apply ss_Close_closed.
  - unfold ds_Close. destruct (ds_closed s) eqn:E; done.
Qed.

Lemma g_Close_done g : g_done (g_Close (mo_fwd od) g).1 = true.
Proof. unfold g_Close. destruct (g_done g) eqn:E; [done|]. by destruct (closeForwards _ _). Qed.

(** Closing an object closes it, and leaves closed what was. *)
Lemma closeObj_closes l m x : mg_of m !! l = Some x -> obj_closed (closeObj od l m).1 x.
Proof.
  intros H. unfold closeObj. rewrite H. destruct x as [o|o k|o]; cbn; [| done |].
  - unfold closeTransport. destruct (mg_transports m !! o) as [p|] eqn:E; [|cbn; congruence].
    pose proof (portClose_closed p) as Hc. destruct (portClose od p) as [[p' fx] exit]. cbn in *. rewrite lookup_insert_eq.
    by intros ? [= <-].
  - unfold closeGateway. destruct (mg_gws m !! o) as [g|] eqn:E; [|cbn; congruence].
    pose proof (g_Close_done g) as Hc. destruct (g_Close (mo_fwd od) g) as [g' fx]. cbn in *. rewrite lookup_insert_eq.
    by intros ? [= <-].
Qed.

Lemma closeObj_keeps l m x : obj_closed m x -> obj_closed (closeObj od l m).1 x.
Proof.
  intros H. unfold closeObj, closeTransport, closeSub, closeGateway. destruct (mg_of m !! l) as [[o|o k|o]|]; [| | |done].
  - destruct (mg_transports m !! o) as [p|]; [|done]. pose proof (portClose_closed p) as Hc.
    destruct (portClose od p) as [[p' fx] exit]. destruct x as [o'|o' k'|o']; cbn in *; [|done|done].
    intros q. rewrite lookup_insert. case_decide; [by intros [= <-] | apply H].
  - destruct (mg_transports m !! o) as [[p|p|p|s|s]|] eqn:E; try done. destruct x as [o'|o' k'|o']; cbn in *; [|done|done].
    intros q. rewrite lookup_insert. case_decide; [|apply H]. subst. intros [= <-]. cbn. rewrite stopPump_closed. by apply (H _ E).
  - destruct (mg_gws m !! o) as [g|]; [|done]. pose proof (g_Close_done g) as Hc.
    destruct (g_Close (mo_fwd od) g) as [g' fx]. destruct x as [o'|o' k'|o']; cbn in *; [done|done|].
    intros q. rewrite lookup_insert. case_decide; [by intros [= <-] | apply H].
Qed.

Lemma closeAll_closes ls : forall m,
  let m' := (runEffects od (EClose <$> ls) m).1 in
  mg_of m' = mg_of m /\ (forall x, obj_closed m x -> obj_closed m' x) /\
  (forall l x, l ∈ ls -> mg_of m !! l = Some x -> obj_closed m' x).
Proof.
  induction ls as [|l ls IH]; intros m; cbn [fmap list_fmap runEffects runEffect].
  - split_and!; [done | done | by intros l x []%elem_of_nil].
  - pose proof (mf_of _ _ (mframe_closeObj od l m)) as Hof.
    pose proof (fun x => closeObj_closes l m x) as Hc. pose proof (fun x => closeObj_keeps l m x) as Hk.
    destruct (closeObj od l m) as [m1 fx]. cbn [fst] in *. destruct (IH m1) as (IH1 & IH2 & IH3).
    change (list_fmap loc effect EClose ls) with (EClose <$> ls) in *.
    destruct (runEffects od (EClose <$> ls) m1) as [m2 fx']. cbn [fst] in *. split_and!; [congruence | by auto |].
    intros l' x [->|Hin]%elem_of_cons Hx; [by apply IH2, Hc | apply (IH3 l'); [done | congruence]].
Qed.
End shutdown.

(** C38: shutdown.  Whenever the program leaves [run] with a manager, at the
    signal or after an error, from any reachable state, the switch is stopped
    and has no ports left, the transport of every recorded port has been closed
    and so has every recorded gateway, whatever order the ports are closed in. *)
Theorem shutdown_closes_all od m ps code fx :
  sys_reachable (mkSystem m ps) -> open m -> ranges_ok (mo_sw od) ->
  exists m' fx', closing od code m fx = Exit code (Some m') (fx ++ fx') /\
    SwitchState.stopped (mg_sw m') = true /\ SwitchState.ports (mg_sw m') = ∅ /\
    (forall id rec, mg_ports m !! id = Some rec -> exists p, mg_transports m' !! pr_port rec = Some p /\ tp_closed p) /\
    (forall vlan rec, mg_gateways m !! vlan = Some rec -> exists g, mg_gws m' !! gr_gw rec = Some g /\ g_done g = true).
Proof.
  intros Hs%sys_reachable_ok Ho Hrg. unfold closing, m_Close, Switch.Close.
  set (sw := mkSwitch _ _ _ _ _ _ _ _ _ _). set (ps' := r_close (mo_sw od) _).
  change ((fun kv : string * loc => EClose kv.2) <$> ps') with ((EClose ∘ snd) <$> ps'). rewrite list_fmap_compose.
  destruct (closeAll_closes od ps'.*2 (set_sw sw m)) as (_ & _ & Hcl).
  pose proof (mframe_runEffects od (EClose <$> ps'.*2) (set_sw sw m)) as Hf.
  destruct (runEffects od (EClose <$> ps'.*2) (set_sw sw m)) as [m' fx'] eqn:Er. cbn [fst] in *. exists m', fx'.
  assert (Hin : forall id l, SwitchState.ports (mg_sw m) !! id = Some l -> l ∈ ps'.*2).
  { intros id l Hl. apply list_elem_of_fmap. exists (id, l). split; [done|]. unfold ps'.
    rewrite (ok_close _ Hrg (SwitchState.ports (mg_sw m))). by apply elem_of_map_to_list. }
  split_and!; [done | by rewrite (mf_stopped _ _ Hf) | by rewrite (mf_ports _ _ Hf) | |].
  - intros id rec Hr. destruct (sy_recs _ Hs _ _ Hr) as (_ & (_ & (p & Hp & _) & _) & Hreg). destruct (Hreg Ho) as (l & Hl & Hx).
    destruct (mf_tp _ _ Hf _ _ Hp) as (p' & Hp' & _). exists p'. split; [done|].
    exact (Hcl l (OPort (pr_port rec)) (Hin _ _ Hl) Hx p' Hp').
  - intros vlan rec Hr. destruct (sy_gws _ Hs _ _ Hr) as (_ & _ & (g & Hg & _) & Hreg). destruct (Hreg Ho) as (l & Hl & Hx).
    destruct (mf_gw _ _ Hf _ _ Hg) as (g' & Hg' & _). exists g'. split; [done|].
    exact (Hcl l (OGateway (gr_gw rec)) (Hin _ _ Hl) Hx g' Hg').
Qed.

(** * Startup *)

(** A call of the replay: it keeps [I]; and after its success [D] holds. *)
Definition achieves (I D : Manager -> Prop) (f : call) : Prop :=
  forall m m' e fx, I m -> f m = (m', e, fx) -> I m' /\ (e = None -> D m').

(** [D] survives the success of a call. *)
Definition survives (I D : Manager -> Prop) (f : call) : Prop :=
  forall m m' fx, I m -> D m -> f m = (m', None, fx) -> D m'.

Section calls.
Context (I : Manager -> Prop).

Lemma achieves_noCall : achieves I (fun _ => True) noCall.
Proof. intros m m' e fx Hm [= <- _ _]. done. Qed.

Lemma achieves_andThen D1 D2 f g :
  achieves I D1 f -> achieves I D2 g -> survives I D1 g -> achieves I (fun m => D1 m /\ D2 m) (andThen f g).
Proof.
  intros Hf Hg Hs m m' e fx Hm. unfold andThen. destruct (f m) as [[m1 [e1|]] fx1] eqn:E1.
  - intros [= <- <- _]. destruct (Hf _ _ _ _ Hm E1) as [H1 _]. done.
  - destruct (Hf _ _ _ _ Hm E1) as [H1 H2]. destruct (g m1) as [[m2 e2] fx2] eqn:E2. intros [= <- <- _].
    destruct (Hg _ _ _ _ H1 E2) as [H3 H4]. split; [done|]. intros ->. split; [|auto]. by eapply Hs; [..|exact E2]; auto.
Qed.

Lemma achieves_wrap D wrap f : achieves I D f -> achieves I D (wrapCall wrap f).
Proof.
  intros Hf m m' e fx Hm. unfold wrapCall. destruct (f m) as [[m1 e1] fx1] eqn:E. intros [= <- <- _].
  destruct (Hf _ _ _ _ Hm E) as [H1 H2]. split; [done|]. destruct e1; [done | auto].
Qed.

Lemma survives_wrap D wrap f : survives I D f -> survives I D (wrapCall wrap f).
Proof.
  intros Hf m m' fx Hm Hd. unfold wrapCall. destruct (f m) as [[m1 [e1|]] fx1] eqn:E; [done|]. intros [= <- _]. by eapply Hf.
Qed.

Lemma survives_andThen D f g : (forall m m' fx, I m -> f m = (m', None, fx) -> I m') ->
  survives I D f -> survives I D g -> survives I D (andThen f g).
Proof.
  intros Hi Hf Hg m m' fx Hm Hd. unfold andThen. destruct (f m) as [[m1 [e1|]] fx1] eqn:E; [done|].
  destruct (g m1) as [[m2 e2] fx2] eqn:E2. intros [= <- -> _]. eapply (Hg m1); [by eapply Hi | by eapply Hf | exact E2].
Qed.

Lemma achieves_each {A} (f : A -> call) (D : A -> Manager -> Prop) l :
  (forall a, a ∈ l -> achieves I (D a) (f a)) -> (forall a b, a ∈ l -> b ∈ l -> survives I (D a) (f b)) ->
  achieves I (fun m => forall a, a ∈ l -> D a m) (each f l) /\ forall P, (forall b, b ∈ l -> survives I P (f b)) -> survives I P (each f l).
Proof.
  induction l as [|a l IH]; intros Hf Hs.
  - split; [|by intros P _ m m' fx _ Hp [= <- _]]. intros m m' e fx Hm [= <- _ _]. split; [done|]. by intros _ a []%elem_of_nil.
  - destruct IH as [IH1 IH2]; [by intros; apply Hf; right | by intros; apply Hs; right |]. split.
    + assert (H : achieves I (fun m => D a m /\ forall b, b ∈ l -> D b m) (andThen (f a) (each f l))).
      { apply achieves_andThen; [apply Hf; left | done |]. apply IH2. intros b Hb. apply Hs; [left | by right]. }
      intros m m' e fx Hm E. destruct (H m m' e fx Hm E) as [H1 H2]. split; [done|].
      intros He b [->|Hb]%elem_of_cons; destruct (H2 He) as [Ha Hl]; [done | by apply Hl].
    + intros P HP. apply survives_andThen; [|apply HP; left|].
      * intros m m' fx Hm E. by apply (Hf a ltac:(left) m m' None fx Hm E).
      * apply IH2. intros b Hb. apply HP. by right.
Qed.
End calls.

Section replay.
Context (w : World) (od : MgrOrders).
Hypothesis Hrg : ranges_ok (mo_sw od).

Definition running (m : Manager) : Prop := sys_reachable (mkSystem m []) /\ open m.

Definition gateway_recorded (g : GatewayConfig) (m : Manager) : Prop :=
  exists rec, mg_gateways m !! gq_VLAN (gcf_Request g) = Some rec /\ gr_req rec = gcf_Request g.
Definition port_recorded (p : PortRequest) (m : Manager) : Prop :=
  exists o, mg_ports m !! pq_Identifier p = Some (mkPortRecord p o).

(** A method that is one step and leaves switch and records alone. *)
Definition mild (f : call) : Prop :=
  forall m, api_step m (f m).1.1 /\ mg_sw (f m).1.1 = mg_sw m /\ mg_gateways (f m).1.1 = mg_gateways m.

Lemma mild_achieves f : mild f -> achieves running (fun _ => True) f.
Proof.
  intros Hf m m' e fx [Hr Ho] E. destruct (Hf m) as (Hs & Hsw & _). rewrite E in Hs, Hsw. cbn in Hs, Hsw. split; [|done].
  split; [by eapply reach_api | unfold open; by rewrite Hsw].
Qed.

Lemma mild_survives f g : mild f -> survives running (gateway_recorded g) f.
Proof. intros Hf m m' fx _ (rec & Hr & Hq) E. destruct (Hf m) as (_ & _ & Hg). rewrite E in Hg. cbn in Hg. exists rec. by rewrite Hg. Qed.

Lemma mild_on_dhcp family vlan m op4 op6 :
  mg_sw (on_dhcp family vlan m op4 op6).1 = mg_sw m /\ mg_gateways (on_dhcp family vlan m op4 op6).1 = mg_gateways m.
Proof.
  unfold on_dhcp. destruct (gateway vlan m) as [[rec g]|]; [|done]. destruct (family =? 4); [by destruct (op4 _ _) | by destruct (op6 _ _)].
Qed.

Lemma mild_AddForward vlan fwd : mild (errOf (m_AddForward w vlan fwd)).
Proof.
  intros m. pose proof (ApiAddForward m w vlan fwd) as Hs.
  assert (H : mg_sw (m_AddForward w vlan fwd m).1.1 = mg_sw m /\ mg_gateways (m_AddForward w vlan fwd m).1.1 = mg_gateways m).
  { unfold m_AddForward. destruct (gateway vlan m) as [[rec g]|]; [|done]. by destruct (AddForward _ _ _ _ _ _) as [[? ?] ?]. }
  unfold errOf. by destruct (m_AddForward w vlan fwd m) as [[m' r] fx].
Qed.

Lemma mild_quiet (f : Manager -> Manager * option goerr) :
  (forall m, api_step m (f m).1 /\ mg_sw (f m).1 = mg_sw m /\ mg_gateways (f m).1 = mg_gateways m) -> mild (quiet f).
Proof. intros H m. specialize (H m). unfold quiet. by destruct (f m). Qed.

Lemma mild_setDHCP family vlan c : mild (quiet (Manager.setDHCP family vlan c)).
Proof.
  apply mild_quiet. intros m. split; [constructor|]. unfold Manager.setDHCP. destruct (gateway vlan m); [|done].
  destruct (dhcpConfig c); [apply mild_on_dhcp | done].
Qed.

Lemma mild_PutDHCPStatic vlan family b : mild (quiet (PutDHCPStatic vlan family b)).
Proof.
  apply mild_quiet. intros m. split; [constructor|]. unfold PutDHCPStatic. destruct (gateway vlan m); [|done].
  destruct (staticToGateway b); [apply mild_on_dhcp | done].
Qed.

Lemma mild_SetSLAAC vlan c : mild (quiet (SetSLAAC vlan c)).
Proof.
  apply mild_quiet. intros m. split; [constructor|]. unfold SetSLAAC. destruct (gateway vlan m) as [[rec g]|]; [|done].
  destruct (slaacConfig c); [|done]. by destruct (ra_SetConfig _ _ _).
Qed.

(** Combinations of such calls. *)
Definition harmless (f : call) : Prop :=
  achieves running (fun _ => True) f /\ forall g, survives running (gateway_recorded g) f.

Lemma harmless_mild wrap f : mild f -> harmless (wrapCall wrap f).
Proof.
  intros Hf. split; [apply achieves_wrap, mild_achieves, Hf|]. intros g. by apply survives_wrap, mild_survives.
Qed.

Lemma harmless_noCall : harmless noCall.
Proof. split; [apply achieves_noCall|]. by intros g m m' fx _ Hg [= <- _]. Qed.

Lemma harmless_andThen f g : harmless f -> harmless g -> harmless (andThen f g).
Proof.
  intros [Hf1 Hf2] [Hg1 Hg2]. split.
  - intros m m' e fx Hm E. split; [|done].
    by apply (achieves_andThen running (fun _ => True) (fun _ => True) f g Hf1 Hg1) in E; [apply E | | ].
  - intros c. apply survives_andThen; [|done|done]. intros m m' fx Hm E. by apply (Hf1 m m' None fx Hm E).
Qed.

Lemma harmless_each {A} (f : A -> call) l : (forall a, harmless (f a)) -> harmless (each f l).
Proof. intros H. induction l as [|a l IH]; [apply harmless_noCall | by apply harmless_andThen]. Qed.

Lemma harmless_opt {A} (f : A -> call) o : (forall a, harmless (f a)) -> harmless (opt f o).
Proof. intros H. destruct o; [apply H | apply harmless_noCall]. Qed.

Lemma CreateGateway_ok req m m' i fx :
  CreateGateway w od req m = (m', Ok i, fx) ->
  mg_gateways m' = <[gq_VLAN req := mkGatewayRecord req (mg_next m)]> (mg_gateways m) /\ mg_gateways m !! gq_VLAN req = None.
Proof.
  unfold CreateGateway, createGateway1. destruct (_ || _); [done|]. destruct (mg_gateways m !! _) eqn:Hno; [done|].
  destruct (rbind _ _) as [g|]; [|done]. set (m1 := alloc_gw g m). unfold createGateway2.
  destruct (AddPort _ _ (mg_sw m1)) as [[sw [e|]] es]; [by destruct (closeGateway od _ _)|].
  pose proof (mf_gateways _ _ (mframe_runEffects od es (registered sw (OGateway (mg_next m)) m1))) as Hg.
  destruct (runEffects od es _) as [m2 fx2]. cbn [fst] in Hg. unfold createGateway3. rewrite Hg. cbn. rewrite Hno.
  destruct (gatewayInfo _ _); [|done]. intros [= <- _ _]. done.
Qed.

Lemma CreateGateway_open req m : open m -> open (CreateGateway w od req m).1.1.
Proof.
  intros Ho. unfold CreateGateway, createGateway1. destruct (_ || _); [done|]. destruct (mg_gateways m !! _) eqn:Hno; [done|].
  destruct (rbind _ _) as [g|]; [|done]. set (m1 := alloc_gw g m). unfold createGateway2.
  destruct (AddPort _ _ (mg_sw m1)) as [[sw [e|]] es] eqn:EA.
  - apply AddPort_err in EA as ->. pose proof (mf_stopped _ _ (mframe_closeGateway od (mg_next m) (set_sw (mg_sw m1) m1))) as Hst.
    destruct (closeGateway od _ _). cbn in *. unfold open. by rewrite Hst.
  - apply AddPort_ok in EA as (_ & _ & _ & Hst & _).
    pose proof (mframe_runEffects od es (registered sw (OGateway (mg_next m)) m1)) as Hf.
    destruct (runEffects od es _) as [m2 fx2]. cbn [fst] in Hf. unfold createGateway3. rewrite (mf_gateways _ _ Hf). cbn. rewrite Hno.
    cbn. unfold open. cbn. rewrite (mf_stopped _ _ Hf). cbn. by rewrite Hst.
Qed.

Lemma CreatePort_open req m : open m -> open (CreatePort w od req m).1.1.
Proof.
  intros Ho. unfold CreatePort. destruct (createPort1 w req m) as [[m1 [[o attrs]|e]] fx1] eqn:E1.
  2: { by apply failed_createPort1 in E1 as [-> _]. }
  assert (H1 : mg_sw m1 = mg_sw m).
  { unfold createPort1 in E1. destruct (ValidateIdentifier _); [done|]. destruct (Attrs req); [|done].
    destruct (mg_ports m !! _); [done|]. destruct (buildPort w req _) as [[p|] ?]; [|done]. by injection E1 as <- _ _ _. }
  unfold createPort2. destruct (AddPort _ attrs (mg_sw m1)) as [[sw [e|]] es] eqn:EA.
  - apply AddPort_err in EA as ->. pose proof (mf_stopped _ _ (mframe_closeTransport od o (set_sw (mg_sw m1) m1))) as Hst.
    destruct (closeTransport od _ _). cbn in *. unfold open. by rewrite Hst, H1.
  - apply AddPort_ok in EA as (_ & _ & _ & Hst & _).
    pose proof (mf_stopped _ _ (mframe_runEffects od es (registered sw (OPort o) m1))) as Hf.
    destruct (runEffects od es _) as [m2 fx2]. cbn in *. unfold open. cbn. by rewrite Hf, Hst, H1.
Qed.

Lemma CreatePort_gateways req m m' i fx : CreatePort w od req m = (m', Ok i, fx) ->
  mg_gateways m' = mg_gateways m /\ exists o, mg_ports m' = <[pq_Identifier req := mkPortRecord req o]> (mg_ports m) /\
  mg_ports m !! pq_Identifier req = None.
Proof.
  unfold CreatePort. destruct (createPort1 w req m) as [[m1 [[o attrs]|e]] fx1] eqn:E1; [|done].
  destruct (createPort2 od _ o attrs m1) as [[m2 [e|]] fx2] eqn:E2; [done|].
  destruct (createPort_done _ _ _ _ _ _ _ _ _ _ E1 E2) as (sw & es & p & _ & -> & -> & -> & _ & Hno).
  unfold createPort3. intros [= <- _ _]. cbn. eauto.
Qed.

Lemma achieves_CreateGateway wrap g :
  achieves running (gateway_recorded g) (wrapCall wrap (errOf (CreateGateway w od (gcf_Request g)))) /\
  forall g', survives running (gateway_recorded g') (wrapCall wrap (errOf (CreateGateway w od (gcf_Request g)))).
Proof.
  split.
  - apply achieves_wrap. intros m m' e fx [Hr Ho] E. unfold errOf in E.
    pose proof (CreateGateway_steps w od [] (gcf_Request g) m Hr) as Hr'. pose proof (CreateGateway_open (gcf_Request g) m Ho) as Ho'.
    destruct (CreateGateway w od (gcf_Request g) m) as [[m1 [i|e1]] fx1] eqn:EC; injection E as <- <- _; split; try done.
    intros _. apply CreateGateway_ok in EC as [Hg _]. unfold gateway_recorded. rewrite Hg. exists (mkGatewayRecord (gcf_Request g) (mg_next m)).
    by rewrite lookup_insert_eq.
  - intros g'. apply survives_wrap. intros m m' fx _ (rec & Hrec & Hq) E. unfold errOf in E.
    destruct (CreateGateway w od (gcf_Request g) m) as [[m1 [i|e1]] fx1] eqn:EC; [|done]. injection E as <- _.
    apply CreateGateway_ok in EC as [Hg Hno]. unfold gateway_recorded. rewrite Hg. exists rec. rewrite lookup_insert_ne; [done|]. congruence.
Qed.

Lemma achieves_replayGateway g :
  achieves running (gateway_recorded g) (replayGateway w od g) /\
  forall g', survives running (gateway_recorded g') (replayGateway w od g).
Proof.
  unfold replayGateway.
  assert (Hrest : forall (wrap : goerr -> goerr) (A : call), harmless A ->
    achieves running (gateway_recorded g) (andThen (wrapCall wrap (errOf (CreateGateway w od (gcf_Request g)))) A) /\
    forall g', survives running (gateway_recorded g') (andThen (wrapCall wrap (errOf (CreateGateway w od (gcf_Request g)))) A)).
  { intros wrap A [HA1 HA2]. destruct (achieves_CreateGateway wrap g) as [Hc1 Hc2]. split.
    - intros m m' e fx Hm E. destruct (achieves_andThen _ _ _ _ _ Hc1 HA1 (HA2 g) m m' e fx Hm E) as [H1 H2].
      split; [done|]. intros He. by apply H2.
    - intros g'. apply survives_andThen; [|apply Hc2 | apply HA2]. intros m m' fx Hm E. by apply (Hc1 m m' None fx Hm E). }
  apply Hrest. repeat apply harmless_andThen; try apply harmless_each; try apply harmless_opt; intros; apply harmless_mild;
    first [apply mild_AddForward | apply mild_setDHCP | apply mild_PutDHCPStatic | apply mild_SetSLAAC].
Qed.

Lemma achieves_CreatePort wrap p :
  achieves running (port_recorded p) (wrapCall wrap (errOf (CreatePort w od p))) /\
  (forall p', survives running (port_recorded p') (wrapCall wrap (errOf (CreatePort w od p)))) /\
  (forall g, survives running (gateway_recorded g) (wrapCall wrap (errOf (CreatePort w od p)))).
Proof.
  split_and!.
  - apply achieves_wrap. intros m m' e fx [Hr Ho] E. unfold errOf in E.
    pose proof (CreatePort_steps w od [] p m Hr) as Hr'. pose proof (CreatePort_open p m Ho) as Ho'.
    destruct (CreatePort w od p m) as [[m1 [i|e1]] fx1] eqn:EC; injection E as <- <- _; split; try done.
    intros _. apply CreatePort_gateways in EC as (_ & o & Hp & _). exists o. by rewrite Hp, lookup_insert_eq.
  - intros p'. apply survives_wrap. intros m m' fx _ [o Ho] E. unfold errOf in E.
    destruct (CreatePort w od p m) as [[m1 [i|e1]] fx1] eqn:EC; [|done]. injection E as <- _.
    apply CreatePort_gateways in EC as (_ & o' & Hp & Hno). exists o. rewrite Hp, lookup_insert_ne; [done | congruence].
  - intros g. apply survives_wrap. intros m m' fx _ (rec & Hrec & Hq) E. unfold errOf in E.
    destruct (CreatePort w od p m) as [[m1 [i|e1]] fx1] eqn:EC; [|done]. injection E as <- _.
    apply CreatePort_gateways in EC as (Hg & _). exists rec. by rewrite Hg.
Qed.

Lemma achieves_SetSTP wrap req :
  achieves running (fun _ => True) (wrapCall wrap (quiet (SetSTP od req))).
Proof.
  apply achieves_wrap. intros m m' e fx [Hr Ho] E. unfold quiet, SetSTP in E. injection E as <- <- _. split; [|done].
  set (c := mkSTPConfig _ _ _ _ _). split.
  - exact (reach_api [] m _ Hr (ApiSetSTP m od req Hrg)).
  - unfold open. cbn. destruct (evolves_SetSTPConfig (mo_sw od) c (mg_sw m) Hrg). by rewrite ev_stopped.
Qed.

(** The replay of a configuration. *)
Lemma replay_achieves c :
  achieves running (fun m => (forall g, g ∈ cf_Gateways c -> gateway_recorded g m) /\
                             (forall p, p ∈ cf_Ports c -> port_recorded p m)) (replay w od c).
Proof.
  assert (Hstp : achieves running (fun _ => True)
    (opt (fun r => wrapCall (fun e => Errorf "stp: %w" [AErr e]) (quiet (SetSTP od r))) (cf_STP c)))
    by (destruct (cf_STP c); [apply achieves_SetSTP | apply achieves_noCall]).
  destruct (achieves_each running (replayGateway w od) gateway_recorded (cf_Gateways c)) as [Hg _];
    [by intros; apply achieves_replayGateway | by intros; apply achieves_replayGateway |].
  set (port := fun p => wrapCall (fun e => Errorf "port %q: %w" [AStr (pq_Identifier p); AErr e]) (errOf (CreatePort w od p))).
  destruct (achieves_each running port port_recorded (cf_Ports c)) as [Hp Hk];
    [by intros; apply achieves_CreatePort | by intros; apply achieves_CreatePort |].
  assert (Hsur : survives running (fun m => forall g, g ∈ cf_Gateways c -> gateway_recorded g m) (each port (cf_Ports c))).
  { intros m0 m1 fx0 Hm0 Hgs E0 g Hin.
    eapply (Hk (gateway_recorded g)); [by intros; apply achieves_CreatePort | exact Hm0 | by apply Hgs | exact E0]. }
  assert (Hrest := achieves_andThen running _ _ _ _ Hg Hp Hsur). intros m m' e fx Hm E.
  destruct (achieves_andThen running _ _ _ _ Hstp Hrest ltac:(by intros ? ? ?) m m' e fx Hm E) as [H1 H2].
  split; [done|]. intros He. exact (proj2 (H2 He)).
Qed.
End replay.

(** C37: startup.  When the command serves requests, the program is in a
    reachable state of its transition system and running; and when a
    configuration file was given, it parsed, and every gateway and every port
    it lists is recorded with exactly the request listed.  Otherwise the command
    has exited: with code 2 and no manager when no control socket was given,
    and else with code 1, after closing the manager. *)
Theorem startup_complete w od ReadFile random f :
  ranges_ok (mo_sw od) ->
  match start w od ReadFile random f with
  | Serving m _ =>
      fg_listen f <> EmptyString /\ running m /\
      (fg_configPath f <> EmptyString -> exists j c,
         ReadFile (fg_configPath f) = Ok (Ok j) /\ decConfig j (mkConfig None [] []) = Ok c /\
         (forall g, g ∈ cf_Gateways c -> gateway_recorded g m) /\ (forall p, p ∈ cf_Ports c -> port_recorded p m))
  | Exit code m _ =>
      (code = 2 /\ m = None /\ fg_listen f = EmptyString) \/
      (code = 1 /\ fg_listen f <> EmptyString /\ exists m', m = Some m' /\ SwitchState.stopped (mg_sw m') = true)
  end.
Proof.
  intros Hrg. unfold start. destruct (fg_listen f) as [|lc ll] eqn:El; [by left|]. cbn [is_empty].
  assert (Hclose : forall m fx, match closing od 1 m fx with
    | Serving _ _ => False | Exit code m0 _ => code = 1 /\ exists m', m0 = Some m' /\ SwitchState.stopped (mg_sw m') = true end).
  { intros m fx. unfold closing, m_Close. destruct (Switch.Close _ _) as [sw es] eqn:Ec.
    pose proof (mf_stopped _ _ (mframe_runEffects od es (set_sw sw m))) as Hst. unfold Switch.Close in Ec. injection Ec as <- <-.
    destruct (runEffects _ _ _) as [m' fx']. split; [done|]. exists m'. split; [done|]. by cbn in Hst. }
  set (m0 := m_New random). assert (Hr0 : running m0) by (split; [constructor | done]).
  assert (H1 : running (if fg_stpEnable f then SetSTP od (mkSTPRequest true (u16 (fg_stpPriority f)) 0 0 0) m0 else (m0, None)).1).
  { destruct (fg_stpEnable f); [|done]. set (req := mkSTPRequest _ _ _ _ _).
    by apply (achieves_SetSTP od Hrg (fun e => e) req m0 (SetSTP od req m0).1 None []). }
  assert (He : (if fg_stpEnable f then SetSTP od (mkSTPRequest true (u16 (fg_stpPriority f)) 0 0 0) m0 else (m0, None)).2 = None)
    by by destruct (fg_stpEnable f).
  destruct (if fg_stpEnable f then _ else _) as [m1 e1]. cbn [fst snd] in H1, He. subst e1.
  destruct (if is_empty (fg_configPath f) then _ else _) as [[m2 [e2|]] fx2] eqn:E2.
  { specialize (Hclose m2 fx2). destruct (closing od 1 m2 fx2); [|done]. destruct Hclose as [-> H]. right. by split_and!. }
  destruct (api_Listen _ _) as [[a|e3] fx3].
  2: { specialize (Hclose m2 (fx2 ++ (MKernel <$> fx3))). destruct (closing od 1 m2 _); [|done]. destruct Hclose as [-> H].
       right. by split_and!. }
  split; [done|]. destruct (fg_configPath f) as [|pc pl] eqn:Ep.
  { cbn in E2. injection E2 as <- _. split; [done|]. done. }
  cbn [is_empty] in E2. unfold ReplayConfig in E2. destruct (ReadFile _) as [[j|e4]|e5] eqn:Er; cbn in E2; try done.
  destruct (decConfig j _) as [c|e6] eqn:Ed; cbn in E2; [|done].
  destruct (replay_achieves w od Hrg c m1 m2 None fx2 H1 E2) as [Hrun Hdone]. split; [done|]. intros _.
  exists j, c. by destruct (Hdone eq_refl).
Qed.
