(* ===== verification/Settings.v ===== *)
(** Settings of a gateway that are read back: what GET reports is what was set,
    and setting it again changes nothing. *)
From stdpp Require Import sorting.
From S2P Require Import Prelude Lease GoText NetText Dhcp Gateway Json ApiTypes Manager.

#[local] Open Scope Z_scope.

(** * Durations *)

(** A number of seconds that a [time.Duration] can hold. *)
Definition in_duration (n : Z) : Prop := - 9223372036 <= n <= 9223372036.

Lemma seconds_exact n : in_duration n -> seconds n = n * Second /\ inSeconds (seconds n) = n.
Proof.
  unfold in_duration, seconds, inSeconds, s64, Second. intros H. assert (E : (n * 1000000000 + 2 ^ 63) mod 2 ^ 64 - 2 ^ 63 = n * 1000000000).
  { rewrite Z.mod_small by lia. lia. }
  rewrite E. split; [done|]. apply Z.quot_mul. lia.
Qed.

(** A duration with a default. *)
Lemma positive_or_seconds n d : in_duration n -> in_duration d -> 0 < d ->
  let k := if n <=? 0 then d else n in
  positive_or (seconds n) (d * Second) = seconds k /\ inSeconds (seconds k) = k /\ in_duration k /\ 0 < k /\
  positive_or (seconds k) (d * Second) = seconds k.
Proof.
  intros Hn Hd Hp k. destruct (seconds_exact n Hn) as [En _]. destruct (seconds_exact d Hd) as [Ed Ed'].
  assert (Hk : in_duration k /\ 0 < k) by (unfold k; destruct (Z.leb_spec n 0); split; done || lia). destruct Hk as [Hk Hk0].
  destruct (seconds_exact k Hk) as [Ek Ek']. unfold positive_or. rewrite En, Ek.
  assert (Hs : 0 < k * Second) by (unfold Second; lia). replace (k * Second <=? 0) with false by (symmetry; apply Z.leb_gt; lia).
  rewrite <- Ek. split; [|done]. rewrite Ek. unfold k, Second.
  destruct (Z.leb_spec n 0); destruct (Z.leb_spec (n * 1000000000) 0); lia.
Qed.

(** * DHCP *)

Lemma ip_String_To16 ip : ip_ok ip -> ip_String (To16 ip) = ip_String ip.
Proof.
  intros [Hb Hl]. unfold To16. destruct Hl as [E|E]; unfold len; rewrite E; [|done].
  destruct ip as [|a [|b [|c [|d [|]]]]]; done.
Qed.

Lemma To16_idem ip : ip_ok ip -> To16 (To16 ip) = To16 ip /\ len (To16 ip) =? 0 = false.
Proof.
  intros [Hb [E|E]]; [by destruct ip as [|a [|b [|c [|d [|]]]]]|].
  assert (H : To16 ip = ip) by (unfold To16, len; by rewrite E). rewrite !H. unfold len. by rewrite E.
Qed.

Lemma parseDNS_String dns : Forall ip_ok dns -> parseDNS (ip_String <$> dns) = Ok (To16 <$> dns).
Proof.
  induction 1 as [|ip dns Hip _ IH]; [done|]. cbn [fmap list_fmap parseDNS]. rewrite ParseIP_String by done.
  destruct (To16_idem ip Hip) as [_ ->]. by rewrite IH.
Qed.

Lemma parseDNS_ok l dns : parseDNS l = Ok dns -> dns = ParseIP <$> l /\ Forall (fun ip => ip_ok ip /\ To16 ip = ip) dns.
Proof.
  revert dns. induction l as [|d l IH]; intros dns E; cbn [parseDNS] in E; [by injection E as <-|].
  destruct (len (ParseIP d) =? 0) eqn:El; [done|]. destruct (parseDNS l) as [r|]; [|done]. injection E as <-.
  destruct (IH r eq_refl) as [-> Hr]. split; [done|]. apply Forall_cons. split; [|done].
  assert (Hne : ParseIP d <> []) by (intros E'; by rewrite E' in El). destruct (ParseIP_ok d Hne) as [Hb Hl].
  split; [by apply ip_ok_ParseIP|]. unfold To16, len. by rewrite Hl.
Qed.

(** What a server stores for an accepted configuration; [own] is the address of
    the gateway. *)
Definition stored (own : bytes) (c : DHCPConfig) : DHCPConfig :=
  if Enabled c then
    mkCfg true (PoolStart c) (PoolEnd c) (if LeaseTime c <=? 0 then defaultLeaseTime else LeaseTime c)
      (match DNS c with [] => [own] | _ => DNS c end)
  else c.

(** [set] accepts [c], and whatever differs from it in lease time and servers. *)
Definition accepts (set : DHCPConfig -> dhcpServer -> dhcpServer * option goerr) (own : bytes) (c : DHCPConfig) : Prop :=
  forall c' s', Enabled c' = Enabled c -> PoolStart c' = PoolStart c -> PoolEnd c' = PoolEnd c ->
    set c' s' = (with_cfg (stored own c') s', None).

Definition own_ok (gw : GatewayT) : Prop :=
  (forall v4, gw_IPv4 gw = Some v4 -> ip_ok (v4_Address v4)) /\ (forall v6, gw_IPv6 gw = Some v6 -> ip_ok (v6_Address v6)).

Lemma accepts_disabled set own c : Enabled c = false -> (forall c' s', Enabled c' = false -> set c' s' = (with_cfg c' s', None)) ->
  accepts set own c.
Proof. intros E H c' s' E' _ _. rewrite H by congruence. unfold stored. by rewrite E', E. Qed.

Lemma dhcp4_accepts gw c s s1 : own_ok gw -> dhcp4_SetConfig gw c s = (s1, None) ->
  exists own, ip_ok own /\ accepts (dhcp4_SetConfig gw) own c.
Proof.
  intros [H4 _] E. destruct (Enabled c) eqn:En.
  - unfold dhcp4_SetConfig in E. rewrite En in E. destruct (gw_IPv4 gw) as [v4|] eqn:Ev; [|done]. exists (v4_Address v4).
    split; [by apply H4|]. intros c' s' E1 E2 E3. unfold dhcp4_SetConfig, stored. rewrite E1, E2, E3, En, Ev.
    destruct (_ || _); [done|]. destruct (Less _ _); [done|]. by destruct (_ || _).
  - exists [0; 0; 0; 0]. split; [split; [by repeat (apply Forall_cons; split; [lia|]); apply Forall_nil_2 | by left]|].
    apply accepts_disabled; [done|]. intros c' s' E'. unfold dhcp4_SetConfig. by rewrite E'.
Qed.

Lemma dhcp6_accepts gw c s s1 : own_ok gw -> dhcp6_SetConfig gw c s = (s1, None) ->
  exists own, ip_ok own /\ accepts (dhcp6_SetConfig gw) own c.
Proof.
  intros [_ H6] E. destruct (Enabled c) eqn:En.
  - unfold dhcp6_SetConfig in E. rewrite En in E. destruct (gw_IPv6 gw) as [v6|] eqn:Ev; [|done]. exists (v6_Address v6).
    split; [by apply H6|]. intros c' s' E1 E2 E3. unfold dhcp6_SetConfig, stored. rewrite E1, E2, E3, En, Ev.
    destruct (_ || _); [done|]. destruct (Less _ _); [done|]. by destruct (_ || _).
  - exists [0; 0; 0; 0]. split; [split; [by repeat (apply Forall_cons; split; [lia|]); apply Forall_nil_2 | by left]|].
    apply accepts_disabled; [done|]. intros c' s' E'. unfold dhcp6_SetConfig. by rewrite E'.
Qed.

(** [c1] says what [c] says, with the defaults filled in. *)
Record same_dhcp (c c1 : DHCP4Config) : Prop := {
  sd_Enabled : dq_Enabled c1 = dq_Enabled c;
  sd_PoolStart : dq_Enabled c = true -> ParseAddr (dq_PoolStart c1) = ParseAddr (dq_PoolStart c);
  sd_PoolEnd : dq_Enabled c = true -> ParseAddr (dq_PoolEnd c1) = ParseAddr (dq_PoolEnd c);
  sd_Lease : dq_LeaseSeconds c1 = if dq_Enabled c && (dq_LeaseSeconds c <=? 0) then 3600 else dq_LeaseSeconds c;
  sd_DNS : dq_Enabled c = true -> dq_DNS c <> [] -> ParseIP <$> dq_DNS c1 = ParseIP <$> dq_DNS c
}.

Lemma dhcpConfig_ok c g : dhcpConfig c = Ok g ->
  Enabled g = dq_Enabled c /\ LeaseTime g = seconds (dq_LeaseSeconds c) /\
  (if dq_Enabled c then
     ParseAddr (dq_PoolStart c) = Ok (PoolStart g) /\ ParseAddr (dq_PoolEnd c) = Ok (PoolEnd g) /\ parseDNS (dq_DNS c) = Ok (DNS g)
   else PoolStart g = AInvalid /\ PoolEnd g = AInvalid /\ DNS g = []).
Proof.
  unfold dhcpConfig. destruct (dq_Enabled c); [|by intros [= <-]].
  destruct (ParseAddr (dq_PoolStart c)) as [a|]; [|done]. destruct (ParseAddr (dq_PoolEnd c)) as [b|]; [|done].
  destruct (parseDNS (dq_DNS c)) as [d|]; [|done]. by intros [= <-].
Qed.

(** The configuration [c1] that is read back says what [c] says, and [set] would
    store the same again. *)
Definition reread (own : bytes) (c : DHCP4Config) (g : DHCPConfig) (c1 : DHCP4Config) : Prop :=
  same_dhcp c c1 /\
  exists g1, dhcpConfig c1 = Ok g1 /\ Enabled g1 = Enabled g /\ PoolStart g1 = PoolStart g /\ PoolEnd g1 = PoolEnd g /\
    apiDHCP (stored own g1) = c1.

Lemma reread_disabled own c g : in_duration (dq_LeaseSeconds c) -> dhcpConfig c = Ok g -> dq_Enabled c = false ->
  reread own c g (apiDHCP (stored own g)).
Proof.
  intros Hd Hg Ec. destruct (dhcpConfig_ok c g Hg) as (He & Hl & Hr). rewrite Ec in He, Hr. destruct Hr as (Ha & Hb & Hdns).
  destruct (seconds_exact _ Hd) as [_ Hs].
  assert (Eg : g = mkCfg false AInvalid AInvalid (seconds (dq_LeaseSeconds c)) []) by (destruct g; cbn in *; congruence).
  assert (Ec1 : apiDHCP (stored own g) = mkDHCPConfig false EmptyString EmptyString (dq_LeaseSeconds c) [])
    by (unfold apiDHCP, stored; rewrite Eg; cbn [Enabled PoolStart PoolEnd IsValid LeaseTime DNS]; by rewrite Hs).
  split; [rewrite Ec1; constructor; cbn; by rewrite ?Ec|]. exists g. split; [by rewrite Ec1, Eg | done].
Qed.

Section enabled.
Context (own : bytes) (c : DHCP4Config) (g : DHCPConfig).
Hypotheses (Hown : ip_ok own) (Hd : in_duration (dq_LeaseSeconds c)) (Hg : dhcpConfig c = Ok g) (Ec : dq_Enabled c = true).

Let k := if dq_LeaseSeconds c <=? 0 then 3600 else dq_LeaseSeconds c.
Let dns := match DNS g with [] => [own] | _ => DNS g end.

Lemma enabled_addrs : ParseAddr (dq_PoolStart c) = Ok (PoolStart g) /\ ParseAddr (dq_PoolEnd c) = Ok (PoolEnd g) /\
  addr_ok (PoolStart g) /\ addr_ok (PoolEnd g).
Proof.
  destruct (dhcpConfig_ok c g Hg) as (_ & _ & Hr). rewrite Ec in Hr. destruct Hr as (Ha & Hb & _).
  do 2 (split; [done|]). split; by eapply ParseAddr_ok.
Qed.

Lemma enabled_dns : Forall ip_ok dns /\ dns <> [] /\ (dq_DNS c <> [] -> ParseIP <$> (ip_String <$> dns) = ParseIP <$> dq_DNS c).
Proof.
  destruct (dhcpConfig_ok c g Hg) as (_ & _ & Hr). rewrite Ec in Hr. destruct Hr as (_ & _ & Hdns).
  destruct (parseDNS_ok _ _ Hdns) as [Edns Odns]. split; [|split].
  - unfold dns. destruct (DNS g) as [|x l]; [by apply Forall_singleton|]. eapply Forall_impl; [exact Odns|]. by intros ? [].
  - unfold dns. by destruct (DNS g).
  - intros Hn. rewrite <- Edns, <- list_fmap_compose. unfold dns. destruct (DNS g) as [|x l] eqn:Eg; [by destruct (dq_DNS c)|].
    rewrite <- (list_fmap_id (x :: l)) at 2. apply Forall_fmap_ext_1. eapply Forall_impl; [exact Odns|].
    intros ip [Hip E]. cbn. by rewrite ParseIP_String, E.
Qed.

Lemma enabled_stored l : l <> [] -> let st := stored own (mkCfg true (PoolStart g) (PoolEnd g) (seconds k) l) in
  st = mkCfg true (PoolStart g) (PoolEnd g) (seconds k) l /\
  apiDHCP st = mkDHCPConfig true (addr_String (PoolStart g)) (addr_String (PoolEnd g)) k (ip_String <$> l).
Proof.
  intros Hl st. destruct (positive_or_seconds _ 3600 Hd ltac:(done) ltac:(lia)) as (_ & K2 & _ & _ & K5). fold k in K2, K5.
  assert (E : st = mkCfg true (PoolStart g) (PoolEnd g) (seconds k) l).
  { unfold st, stored. cbn [Enabled PoolStart PoolEnd LeaseTime DNS]. change (3600 * Second) with defaultLeaseTime in K5.
    unfold positive_or in K5. rewrite K5. by destruct l. }
  split; [done|]. rewrite E. unfold apiDHCP. cbn [Enabled PoolStart PoolEnd LeaseTime DNS]. rewrite K2.
  destruct enabled_addrs as (_ & _ & Ha & _). by destruct (PoolStart g).
Qed.

Lemma reread_enabled : reread own c g (apiDHCP (stored own g)).
Proof.
  destruct enabled_addrs as (Ha & Hb & Oa & Ob). destruct enabled_dns as (Hok & Hne & Hsame).
  destruct (dhcpConfig_ok c g Hg) as (He & Hl & _). rewrite Ec in He.
  destruct (positive_or_seconds _ 3600 Hd ltac:(done) ltac:(lia)) as (K1 & _). fold k in K1.
  assert (Est : stored own g = mkCfg true (PoolStart g) (PoolEnd g) (seconds k) dns).
  { unfold stored. rewrite He, Hl. change (3600 * Second) with defaultLeaseTime in K1. unfold positive_or in K1. by rewrite K1. }
  destruct (enabled_stored dns Hne) as [E1 E2]. rewrite E1, <- Est in E2. rewrite E2. split.
  - constructor; cbn [dq_Enabled dq_PoolStart dq_PoolEnd dq_LeaseSeconds dq_DNS]; rewrite ?Ec; try done.
    + intros _. by rewrite ParseAddr_String.
    + intros _. by rewrite ParseAddr_String.
  - exists (mkCfg true (PoolStart g) (PoolEnd g) (seconds k) (To16 <$> dns)). split.
    { unfold dhcpConfig. cbn [dq_Enabled dq_PoolStart dq_PoolEnd dq_LeaseSeconds dq_DNS]. by rewrite !ParseAddr_String, parseDNS_String. }
    do 3 (split; [done|]). destruct (enabled_stored (To16 <$> dns)) as [_ ->]; [by destruct dns|]. f_equal.
    rewrite <- list_fmap_compose. apply Forall_fmap_ext_1. eapply Forall_impl; [exact Hok|]. intros ip Hip. by apply ip_String_To16.
Qed.
End enabled.

Lemma dhcp_reread own c g : ip_ok own -> in_duration (dq_LeaseSeconds c) -> dhcpConfig c = Ok g ->
  reread own c g (apiDHCP (stored own g)).
Proof. intros. destruct (dq_Enabled c) eqn:E; [by apply reread_enabled | by apply reread_disabled]. Qed.

(** * The manager *)

Lemma gateway_set vlan m rec g g' : gateway vlan m = Ok (rec, g) -> gateway vlan (set_gw (gr_gw rec) g' m) = Ok (rec, g').
Proof.
  unfold gateway. destruct (mg_gateways m !! vlan) as [r|] eqn:Er; [|done]. destruct (mg_gws m !! gr_gw r) as [x|]; [|done].
  intros [= -> ->]. cbn [mg_gateways mg_gws set_gw]. by rewrite Er, lookup_insert_eq.
Qed.

Lemma set_gw_same vlan m rec g : gateway vlan m = Ok (rec, g) -> set_gw (gr_gw rec) g m = m.
Proof.
  unfold gateway. destruct (mg_gateways m !! vlan) as [r|]; [|done]. destruct (mg_gws m !! gr_gw r) as [x|] eqn:Ex; [|done].
  intros [= -> ->]. unfold set_gw. destruct m. cbn in *. by rewrite insert_id.
Qed.

Definition setDHCP_of (family : Z) : Z -> DHCP4Config -> Manager -> Manager * option goerr := if family =? 4 then SetDHCP4 else SetDHCP6.
Definition getDHCP_of (family : Z) : Z -> Manager -> result DHCP4Config := if family =? 4 then GetDHCP4 else GetDHCP6.

Lemma dhcp_config_reread family vlan c m m1 rec g :
  gateway vlan m = Ok (rec, g) -> own_ok (gw_of g) -> in_duration (dq_LeaseSeconds c) ->
  setDHCP_of family vlan c m = (m1, None) ->
  exists c1 m2, getDHCP_of family vlan m1 = Ok c1 /\ same_dhcp c c1 /\
    setDHCP_of family vlan c1 m1 = (m2, None) /\ getDHCP_of family vlan m2 = Ok c1.
Proof.
  intros Hg Hown Hd E. unfold setDHCP_of, getDHCP_of, SetDHCP4, SetDHCP6, GetDHCP4, GetDHCP6, setDHCP, on_dhcp in *.
  destruct (family =? 4); cbn [Z.eqb Pos.eqb] in *; rewrite Hg in E; destruct (dhcpConfig c) as [gc|] eqn:Ec; try done.
  - destruct (dhcp4_SetConfig _ gc _) as [s1 e] eqn:Es. injection E as <- ->.
    destruct (dhcp4_accepts _ _ _ _ Hown Es) as (own & Ho & Ha). rewrite (Ha gc) in Es by done. injection Es as <-.
    destruct (dhcp_reread own c gc Ho Hd Ec) as (Hs & g1 & Eg1 & E1 & E2 & E3 & E4).
    exists (apiDHCP (stored own gc)). eexists. rewrite (gateway_set _ _ _ _ _ Hg). cbn [rbind snd g_dhcp4 g_set_dhcp4 cfg with_cfg]. rewrite Eg1.
    change (gw_of (g_set_dhcp4 ?s g)) with (gw_of g). rewrite (Ha g1) by done. do 3 (split; [done|]).
    erewrite gateway_set by (eapply gateway_set; exact Hg). cbn [rbind snd g_dhcp4 g_set_dhcp4 cfg with_cfg]. by rewrite E4.
  - destruct (dhcp6_SetConfig _ gc _) as [s1 e] eqn:Es. injection E as <- ->.
    destruct (dhcp6_accepts _ _ _ _ Hown Es) as (own & Ho & Ha). rewrite (Ha gc) in Es by done. injection Es as <-.
    destruct (dhcp_reread own c gc Ho Hd Ec) as (Hs & g1 & Eg1 & E1 & E2 & E3 & E4).
    exists (apiDHCP (stored own gc)). eexists. rewrite (gateway_set _ _ _ _ _ Hg). cbn [rbind snd g_dhcp6 g_set_dhcp6 cfg with_cfg]. rewrite Eg1.
    change (gw_of (g_set_dhcp6 ?s g)) with (gw_of g). rewrite (Ha g1) by done. do 3 (split; [done|]).
    erewrite gateway_set by (eapply gateway_set; exact Hg). cbn [rbind snd g_dhcp6 g_set_dhcp6 cfg with_cfg]. by rewrite E4.
Qed.

(** * Static bindings *)

Lemma bindingMAC_again b mac : bindingMAC b = Ok mac ->
  forall b', ds_MAC b' = mac -> bindingMAC b' = Ok mac.
Proof.
  unfold bindingMAC, badMac. intros E b' ->. destruct (ds_MAC b) as [s|]; [|by injection E as <-].
  destruct (ParseMAC s) as [hw|] eqn:Em; [|done]. injection E as <-. apply ParseMAC_ok in Em as [Hb Hs].
  by rewrite ParseMAC_hwString.
Qed.

Lemma static_again b gb : staticToGateway b = Ok gb ->
  staticToGateway (staticToAPI gb) = Ok gb /\ sb_ID gb = ds_ID b /\ ParseAddr (ds_IP b) = Ok (sb_IP gb).
Proof.
  unfold staticToGateway. destruct (bindingMAC b) as [mac|] eqn:Em; [|done]. cbn [rbind].
  destruct (ParseAddr (ds_IP b)) as [ip|] eqn:Ei; [|done]. cbn [rbind wrapErr]. intros [= <-]. split; [|done].
  pose proof (ParseAddr_ok _ _ Ei) as Hip.
  rewrite (bindingMAC_again b mac Em) by done. cbn [rbind staticToAPI ds_IP sb_IP]. by rewrite ParseAddr_String.
Qed.

Lemma put4_again b s s1 : dhcp4_PutStatic b s = (s1, None) -> statics s1 !! sb_ID b = Some b /\ dhcp4_PutStatic b s1 = (s1, None).
Proof.
  unfold dhcp4_PutStatic. destruct (binding_validate b); [done|]. destruct (negb _); [done|]. intros [= <-].
  cbn [statics with_statics]. split; [apply lookup_insert_eq|]. unfold with_statics. cbn. by rewrite insert_insert_eq.
Qed.

Lemma put6_again b s s1 : dhcp6_PutStatic b s = (s1, None) -> statics s1 !! sb_ID b = Some b /\ dhcp6_PutStatic b s1 = (s1, None).
Proof.
  unfold dhcp6_PutStatic. destruct (binding_validate b); [done|]. destruct (not_v6 _); [done|]. intros [= <-].
  cbn [statics with_statics]. split; [apply lookup_insert_eq|]. unfold with_statics. cbn. by rewrite insert_insert_eq.
Qed.

(** [b1] says what [b] says. *)
Record same_binding (b b1 : DHCPStaticBinding) : Prop := {
  sb1_ID : ds_ID b1 = ds_ID b;
  sb1_Order : ds_Order b1 = ds_Order b;
  sb1_Port : ds_PortIdentifier b1 = ds_PortIdentifier b;
  sb1_MAC : ParseMAC <$> ds_MAC b1 = ParseMAC <$> ds_MAC b;
  sb1_Client : ds_ClientID b1 = ds_ClientID b;
  sb1_IP : ParseAddr (ds_IP b1) = ParseAddr (ds_IP b)
}.

Lemma static_same b gb : staticToGateway b = Ok gb -> same_binding b (staticToAPI gb).
Proof.
  unfold staticToGateway. destruct (bindingMAC b) as [mac|] eqn:Em; [|done]. cbn [rbind].
  destruct (ParseAddr (ds_IP b)) as [ip|] eqn:Ei; [|done]. cbn [rbind wrapErr]. intros [= <-].
  constructor; cbn [staticToAPI ds_ID ds_Order ds_PortIdentifier ds_MAC ds_ClientID ds_IP sb_ID sb_Order sb_PortID sb_MAC sb_ClientID sb_IP]; try done.
  - unfold bindingMAC, badMac in Em. destruct (ds_MAC b) as [s|]; [|by injection Em as <-].
    destruct (ParseMAC s) as [hw|] eqn:Ep; [|done]. injection Em as <-. pose proof (ParseMAC_ok _ _ Ep) as [Hb Hs].
    cbn. rewrite ParseMAC_hwString by done. by rewrite Ep.
  - rewrite Ei. apply ParseAddr_String. by eapply ParseAddr_ok.
Qed.

Definition dhcpOf (family : Z) (g : Gateway) : dhcpServer := if family =? 4 then g_dhcp4 g else g_dhcp6 g.

Lemma static_listed od vlan family m rec g b : range_order (o_statics (mo_dhcp od)) -> gateway vlan m = Ok (rec, g) ->
  statics (dhcpOf family g) !! sb_ID b = Some b ->
  exists l, ListDHCPStatic od vlan family m = Ok l /\ staticToAPI b ∈ l.
Proof.
  intros Hr Hg Hb. unfold ListDHCPStatic. rewrite Hg. cbn [rbind snd]. eexists. split; [reflexivity|].
  rewrite merge_sort_Permutation. apply list_elem_of_fmap_2. unfold dhcpOf in Hb.
  destruct (family =? 4); apply list_elem_of_fmap; exists (sb_ID b, b); (split; [done | by apply (elem_of_range _ _ _ _ Hr)]).
Qed.

Lemma static_reread od vlan family b m m1 rec g : gateway vlan m = Ok (rec, g) -> range_order (o_statics (mo_dhcp od)) ->
  PutDHCPStatic vlan family b m = (m1, None) ->
  exists l b1, ListDHCPStatic od vlan family m1 = Ok l /\ b1 ∈ l /\ same_binding b b1 /\
    PutDHCPStatic vlan family b1 m1 = (m1, None).
Proof.
  intros Hg Hr E. unfold PutDHCPStatic in *. rewrite Hg in E. destruct (staticToGateway b) as [gb|] eqn:Eb; [|done].
  pose proof (static_same b gb Eb) as Hs. destruct (static_again b gb Eb) as (Eagain & _).
  assert (exists g1, m1 = set_gw (gr_gw rec) g1 m /\ statics (dhcpOf family g1) !! sb_ID gb = Some gb /\
    on_dhcp family vlan (set_gw (gr_gw rec) g1 m) (fun _ => dhcp4_PutStatic gb) (fun _ => dhcp6_PutStatic gb) =
    (set_gw (gr_gw rec) g1 (set_gw (gr_gw rec) g1 m), None)) as (g1 & -> & Hin & Hon).
  { unfold on_dhcp, dhcpOf in *. rewrite Hg in E. destruct (family =? 4).
    - destruct (dhcp4_PutStatic gb _) as [s1 e] eqn:Ep. injection E as <- ->. destruct (put4_again _ _ _ Ep) as [H1 H2].
      eexists. split; [done|]. split; [done|]. rewrite (gateway_set _ _ _ _ _ Hg). cbn [g_dhcp4 g_set_dhcp4]. by rewrite H2.
    - destruct (dhcp6_PutStatic gb _) as [s1 e] eqn:Ep. injection E as <- ->. destruct (put6_again _ _ _ Ep) as [H1 H2].
      eexists. split; [done|]. split; [done|]. rewrite (gateway_set _ _ _ _ _ Hg). cbn [g_dhcp6 g_set_dhcp6]. by rewrite H2. }
  pose proof (gateway_set _ _ _ _ g1 Hg) as Hg1. destruct (static_listed od vlan family _ _ _ _ Hr Hg1 Hin) as (l & El & Hl).
  exists l, (staticToAPI gb). do 3 (split; [done|]). rewrite Hg1, Eagain, Hon. by rewrite (set_gw_same _ _ _ _ Hg1).
Qed.

(** * Router advertisements *)

(** Durations that are whole seconds. *)
Definition whole (d : Z) : Prop := seconds (inSeconds d) = d.

Lemma whole_seconds n : in_duration n -> whole (seconds n).
Proof. intros H. destruct (seconds_exact n H) as [_ E]. unfold whole. by rewrite E. Qed.

Lemma whole_positive_or d dflt : whole d -> whole dflt -> whole (positive_or d dflt).
Proof. intros. unfold positive_or. by destruct (_ <=? _). Qed.

Lemma positive_or_again d dflt : 0 < dflt -> positive_or (positive_or d dflt) dflt = positive_or d dflt.
Proof.
  intros H. unfold positive_or at 1. replace (positive_or d dflt <=? 0) with false; [done|]. symmetry. apply Z.leb_gt.
  unfold positive_or. destruct (Z.leb_spec d 0); lia.
Qed.

Definition whole_prefix (p : Gateway.RAPrefix) : Prop :=
  prefix_ok (rap_Prefix p) /\ whole (rap_ValidLifetime p) /\ whole (rap_PreferredLifetime p).

Definition prefix_in_duration (p : ApiTypes.RAPrefix) : Prop := in_duration (rq_ValidLifetime p) /\ in_duration (rq_PreferredLifetime p).

Lemma parsePrefixes_whole ps : forall gps, parsePrefixes ps = Ok gps -> Forall prefix_in_duration ps ->
  Forall whole_prefix gps /\ (fun p => Ok (rap_Prefix p)) <$> gps = (fun p => ParsePrefix (rq_Prefix p)) <$> ps.
Proof.
  induction ps as [|p ps IH]; intros gps E H; cbn [parsePrefixes] in E; [by injection E as <-|].
  apply Forall_cons in H as [[Hv Hp] H]. destruct (ParsePrefix (rq_Prefix p)) as [px|] eqn:Ep; [|done].
  destruct (parsePrefixes ps) as [r|]; [|done]. injection E as <-. destruct (IH r eq_refl H) as [Hr Er]. split.
  - apply Forall_cons. split; [|done]. split; [by eapply ParsePrefix_ok|]. by split; apply whole_seconds.
  - cbn [fmap list_fmap rap_Prefix] in *. by rewrite Ep, Er.
Qed.

Lemma parsePrefixes_api gps : Forall whole_prefix gps -> parsePrefixes (apiPrefix <$> gps) = Ok gps.
Proof.
  induction 1 as [|p gps (Hp & Hv & Hpr) _ IH]; [done|]. cbn [fmap list_fmap parsePrefixes]. unfold apiPrefix at 1.
  cbn [rq_Prefix]. rewrite ParsePrefix_String by done. rewrite IH. unfold apiPrefix.
  cbn [rbind rq_ValidLifetime rq_PreferredLifetime rq_OnLink rq_Autonomous]. rewrite Hv, Hpr. by destruct p.
Qed.

Lemma raPrefixes_again gps : forall r, raPrefixes gps = Ok r -> Forall whole_prefix gps ->
  Forall whole_prefix r /\ raPrefixes r = Ok r /\ rap_Prefix <$> r = rap_Prefix <$> gps.
Proof.
  induction gps as [|p gps IH]; intros r E H; cbn [raPrefixes] in E; [by injection E as <-|].
  apply Forall_cons in H as [(Hp & Hv & Hpr) H]. destruct (_ || _) eqn:Eo; [done|]. destruct (raPrefixes gps) as [r'|]; [|done].
  injection E as <-. destruct (IH r' eq_refl H) as (Hw & Hr & Hm). split; [|split].
  - apply Forall_cons. split; [|done]. split; [done|]. by split; apply whole_positive_or.
  - cbn [raPrefixes rap_Prefix rap_ValidLifetime rap_PreferredLifetime rap_OnLink rap_Autonomous].
    by rewrite Eo, Hr, !positive_or_again by done.
  - cbn [fmap list_fmap rap_Prefix]. by rewrite Hm.
Qed.

Definition slaac_in_duration (c : ApiTypes.SLAACConfig) : Prop :=
  in_duration (sq_IntervalSeconds c) /\ in_duration (sq_RouterLifetimeSeconds c) /\ Forall prefix_in_duration (sq_Prefixes c).

(** [c1] says what [c] says, with the defaults filled in. *)
Record same_slaac (c c1 : ApiTypes.SLAACConfig) : Prop := {
  sl_Enabled : sq_Enabled c1 = sq_Enabled c;
  sl_Interval : sq_IntervalSeconds c1 = if sq_Enabled c && (sq_IntervalSeconds c <=? 0) then 200 else sq_IntervalSeconds c;
  sl_Managed : sq_Managed c1 = sq_Managed c;
  sl_Other : sq_Other c1 = sq_Other c;
  sl_Lifetime : sq_RouterLifetimeSeconds c1 =
    if sq_Enabled c && (sq_RouterLifetimeSeconds c <=? 0) then 1800 else sq_RouterLifetimeSeconds c;
  sl_Prefixes : (fun p => ParsePrefix (rq_Prefix p)) <$> sq_Prefixes c1 = (fun p => ParsePrefix (rq_Prefix p)) <$> sq_Prefixes c
}.

Definition whole_slaac (g : Gateway.SLAACConfig) : Prop :=
  whole (ra_Interval g) /\ whole (ra_RouterLifetime g) /\ Forall whole_prefix (ra_Prefixes g).

Lemma slaacConfig_api g : whole_slaac g -> slaacConfig (apiSLAAC g) = Ok g.
Proof.
  intros (Hi & Hl & Hp). unfold slaacConfig, apiSLAAC. cbn [sq_Prefixes sq_Enabled sq_IntervalSeconds sq_Managed sq_Other sq_RouterLifetimeSeconds].
  rewrite parsePrefixes_api by done. cbn [rbind]. rewrite Hi, Hl. by destruct g.
Qed.

Lemma parse_api_prefixes gps : Forall whole_prefix gps ->
  (fun p => ParsePrefix (rq_Prefix p)) <$> (apiPrefix <$> gps) = (fun p => Ok (rap_Prefix p)) <$> gps.
Proof.
  intros H. rewrite <- list_fmap_compose. apply Forall_fmap_ext_1. eapply Forall_impl; [done|]. intros p (Hp & _). cbn.
  by apply ParsePrefix_String.
Qed.

(** What [ra_SetConfig] stores is whole, says the same, and is stored again. *)
Lemma slaac_reread gw c g s s1 : slaac_in_duration c -> slaacConfig c = Ok g -> ra_SetConfig gw g s = (s1, None) ->
  whole_slaac (ra_Config s1) /\ same_slaac c (apiSLAAC (ra_Config s1)) /\ ra_SetConfig gw (ra_Config s1) s1 = (s1, None).
Proof.
  intros (Hi & Hl & Hp) Ec Es. unfold slaacConfig in Ec. destruct (parsePrefixes (sq_Prefixes c)) as [ps|] eqn:Eps; [|done].
  injection Ec as <-. destruct (parsePrefixes_whole _ _ Eps Hp) as [Hw Hm].
  pose proof (whole_seconds _ Hi) as Wi. pose proof (whole_seconds _ Hl) as Wl.
  unfold ra_SetConfig in *. cbn [ra_Enabled ra_Interval ra_Managed ra_Other ra_RouterLifetime ra_Prefixes] in *.
  destruct (sq_Enabled c) eqn:En.
  - destruct (gw_IPv6 gw) eqn:E6; [|done]. destruct (raPrefixes ps) as [r|] eqn:Er; [|done]. injection Es as <-.
    destruct (raPrefixes_again _ _ Er Hw) as (Hwr & Hrr & Hmr).
    destruct (positive_or_seconds _ 200 Hi ltac:(done) ltac:(lia)) as (I1 & I2 & _ & _ & I5).
    destruct (positive_or_seconds _ 1800 Hl ltac:(done) ltac:(lia)) as (L1 & L2 & _ & _ & L5).
    change (200 * Second) with defaultRAInterval in *. change (1800 * Second) with defaultRouterLifetime in *.
    unfold ra_Config. cbn [ra_cfg ra_Enabled ra_Interval ra_Managed ra_Other ra_RouterLifetime ra_Prefixes]. split; [|split].
    + split; [by apply whole_positive_or|]. split; [by apply whole_positive_or | done].
    + constructor; unfold apiSLAAC; cbn [sq_Enabled sq_IntervalSeconds sq_Managed sq_Other sq_RouterLifetimeSeconds sq_Prefixes
        ra_Enabled ra_Interval ra_Managed ra_Other ra_RouterLifetime ra_Prefixes]; rewrite ?En; try done.
      * by rewrite I1.
      * by rewrite L1.
      * rewrite parse_api_prefixes, <- Hm by done.
        change (fun p => Ok (rap_Prefix p)) with (Ok ∘ rap_Prefix). by rewrite !list_fmap_compose, Hmr.
    + by rewrite Hrr, I1, L1, I5, L5.
  - injection Es as <-. unfold ra_Config. cbn [ra_cfg ra_Enabled ra_Interval ra_Managed ra_Other ra_RouterLifetime ra_Prefixes].
    split; [done|]. split; [|done]. constructor; unfold apiSLAAC; cbn [sq_Enabled sq_IntervalSeconds sq_Managed sq_Other
      sq_RouterLifetimeSeconds sq_Prefixes ra_Enabled ra_Interval ra_Managed ra_Other ra_RouterLifetime ra_Prefixes]; rewrite ?En; try done.
    + apply seconds_exact, Hi.
    + apply seconds_exact, Hl.
    + by rewrite parse_api_prefixes.
Qed.

Lemma slaac_config_reread vlan c m m1 rec g : gateway vlan m = Ok (rec, g) -> slaac_in_duration c ->
  SetSLAAC vlan c m = (m1, None) ->
  exists c1, GetSLAAC vlan m1 = Ok c1 /\ same_slaac c c1 /\ SetSLAAC vlan c1 m1 = (m1, None).
Proof.
  intros Hg Hd E. unfold SetSLAAC, GetSLAAC in *. rewrite Hg in E. destruct (slaacConfig c) as [gc|] eqn:Ec; [|done].
  destruct (ra_SetConfig (gw_of g) gc (g_ra g)) as [s1 e] eqn:Es. injection E as <- ->.
  destruct (slaac_reread _ _ _ _ _ Hd Ec Es) as (Hw & Hs & Hagain). pose proof (gateway_set _ _ _ _ (g_set_ra s1 g) Hg) as Hg1.
  exists (apiSLAAC (ra_Config s1)). rewrite Hg1. cbn [rbind snd g_ra g_set_ra]. split; [done|]. split; [done|].
  rewrite slaacConfig_api by done. change (gw_of (g_set_ra s1 g)) with (gw_of g). rewrite Hagain.
  change (g_set_ra s1 (g_set_ra s1 g)) with (g_set_ra s1 g). by rewrite (set_gw_same _ _ _ _ Hg1).
Qed.

(** * Gateways made from requests *)

Lemma To4_ok ip : bytes_ok ip -> length ip = 16%nat -> len (To4 ip) =? 0 = false -> ip_ok (To4 ip).
Proof.
  intros Hb Hl. unfold To4. replace (len ip =? 4) with false by (unfold len; by rewrite Hl). destruct (_ && _); [|done].
  intros _. split; [by apply bytes_ok_drop|]. left. rewrite length_drop. lia.
Qed.

(** The gateway's own addresses are addresses. *)
Lemma configured_own_ok req c : gatewayConfig req = Ok c ->
  (forall v4, gc_IPv4 c = Some v4 -> ip_ok (v4_Address v4)) /\ (forall v6, gc_IPv6 c = Some v6 -> ip_ok (v6_Address v6)).
Proof.
  unfold gatewayConfig. destruct (configMAC req) as [mac|]; [|done]. cbn [rbind].
  destruct (configIPv4 req) as [o4|] eqn:E4; [|done]. cbn [rbind]. destruct (configIPv6 req) as [o6|] eqn:E6; [|done]. cbn [rbind].
  intros [= <-]. cbn [gc_IPv4 gc_IPv6]. split.
  - intros v4 ->. unfold configIPv4 in E4. destruct (gq_IPv4 req) as [r|]; [|done].
    destruct (len (To4 _) =? 0) eqn:Eo; [done|]. destruct (_ || _); [done|]. injection E4 as <-. cbn [v4_Address].
    assert (Hne : ParseIP (g4_Address r) <> []) by (intros E; by rewrite E in Eo).
    destruct (ParseIP_ok _ Hne) as [Hb Hl]. by apply To4_ok.
  - intros v6 ->. unfold configIPv6 in E6. destruct (gq_IPv6 req) as [r|]; [|done].
    destruct (len (ParseIP (g6_Address r)) =? 0) eqn:H1; [done|]. cbn [orb] in E6. destruct (negb (len _ =? 0)); [done|].
    destruct (_ || _); [done|].
    assert (Hne : ParseIP (g6_Address r) <> []) by (intros E; by rewrite E in H1).
    destruct (negb (is_empty _)); [|injection E6 as <-; by apply ip_ok_ParseIP].
    destruct (len (ParseIP (g6_LinkLocal r)) =? 0); [done|]. injection E6 as <-. by apply ip_ok_ParseIP.
Qed.

(** C39: settings are read back as they were set.  For a gateway that has
    addresses, after a request that sets DHCP, a static binding or router
    advertisements succeeded, GET reports a configuration that says the same,
    with the defaults filled in: the same addresses, prefixes, hardware addresses
    and durations, however the request wrote them.  Sending back what was
    reported succeeds: bindings and advertisements stay exactly as they are, and
    the DHCP configuration is reported unchanged.  Durations are those that fit
    [time.Duration]. *)
Theorem settings_restorable od vlan m rec g :
  gateway vlan m = Ok (rec, g) -> own_ok (gw_of g) -> range_order (o_statics (mo_dhcp od)) ->
  (forall family c m1, in_duration (dq_LeaseSeconds c) -> setDHCP_of family vlan c m = (m1, None) ->
     exists c1 m2, getDHCP_of family vlan m1 = Ok c1 /\ same_dhcp c c1 /\
       setDHCP_of family vlan c1 m1 = (m2, None) /\ getDHCP_of family vlan m2 = Ok c1) /\
  (forall family b m1, PutDHCPStatic vlan family b m = (m1, None) ->
     exists l b1, ListDHCPStatic od vlan family m1 = Ok l /\ b1 ∈ l /\ same_binding b b1 /\
       PutDHCPStatic vlan family b1 m1 = (m1, None)) /\
  (forall c m1, slaac_in_duration c -> SetSLAAC vlan c m = (m1, None) ->
     exists c1, GetSLAAC vlan m1 = Ok c1 /\ same_slaac c c1 /\ SetSLAAC vlan c1 m1 = (m1, None)).
Proof.
  intros Hg Hown Hr. split; [|split].
  - intros. by eapply dhcp_config_reread.
  - intros. by eapply static_reread.
  - intros. by eapply slaac_config_reread.
Qed.
