(* ===== verification/SystemDemo.v ===== *)
(** A concrete run of the whole program, on which the theorems about manager,
    REST interface and command are evaluated: a configuration file with a
    gateway on VLAN 5, a client port and a multiplexing server port. *)
From S2P Require Import Prelude Vlan Fdb Protect SwitchState Stp Switch SwitchInv SwitchProps Lease GoText Forwards ForwardsProps Framing Ports Server Dhcp DhcpProps Gateway Json ApiTypes Manager System SystemProps ManagerProps Policy Api ApiProps ApiDecode ApiStatus Command CommandProps NetText Settings.

#[local] Open Scope Z_scope.

(** * The world: every request is granted *)

Definition demoPeer : netAddr := mkAddr "tcp" "192.0.2.1:9000" AddrOther.

Definition demoNet : Net := {|
  ResolveTCPAddr s := Ok s;
  ResolveUDPAddr s := Ok s;
  DialTCP _ _ := Ok demoPeer;
  DialUDP _ _ := Ok demoPeer;
  DialUnix _ _ _ := Ok demoPeer;
  Listen _ _ _ := None;
  isAddrInUse _ := false;
  answers _ := false;
  isSocketFile _ := false;
  vsock_Dial _ _ := Ok demoPeer;
  vsock_ListenContextID _ _ := None;
  vsock_Listen _ := None;
  unix_Socket := None;
  unix_Bind _ _ := None;
  unix_Connect _ _ := None
|}.

Definition demoWorld : World := {|
  w_net := demoNet;
  w_netlink := mkNetlink None 1 (fun _ => Ok true) None None;
  w_xdp := mkXdp (Ok 2) None false None None None (fun _ => None) None None None;
  w_IPPortRange_Set _ := None;
  w_ResolveLinkLocalV6 _ _ := Ok ([0xfe; 0x80] ++ make_bytes 13 ++ [1]);
  w_CreateNIC := None;
  w_FwdAddr := string;
  w_NewFwdAddr := demo_new;
  w_DynLocalForwardTCP := demo_bind;
  w_DynLocalForwardUDP := demo_bind;
  w_fwdTable_Add := demo_table
|}.

Definition demoOrders : MgrOrders :=
  mkMgrOrders map_to_list map_to_list map_to_list map_to_list demo_orders std_orders std_ranges.

(** * The configuration file *)

Definition demoClient : json :=
  JObj [("identifier", JStr "p1"); ("mode", JStr "client"); ("transport", JStr "tcp"); ("remote", JStr "192.0.2.1:9000");
        ("vlan", JNum "5")].
Definition demoServer : json :=
  JObj [("identifier", JStr "s1"); ("mode", JStr "server"); ("transport", JStr "tcp"); ("local", JStr "127.0.0.1:9001");
        ("replacing_mode", JStr "multiplex"); ("storm_pps", JNum "4294967295")].
Definition demoGatewayDoc : json :=
  JObj [("vlan", JNum "5"); ("ipv4", JObj [("address", JStr "10.0.5.1"); ("prefix_len", JNum "24")]);
        ("dhcp4", JObj [("enabled", JBool true); ("pool_start", JStr "10.0.5.10"); ("pool_end", JStr "10.0.5.20");
                        ("lease_seconds", JNum "600")])].
Definition demoDoc : json :=
  JObj [("stp", JObj [("enabled", JBool true); ("priority", JNum "4096")]); ("ports", JArr [demoClient; demoServer]);
        ("gateways", JArr [demoGatewayDoc])].

Definition demoRead (path : string) : result (result json) := Ok (Ok demoDoc).
Definition demoFlags : Flags := mkFlags "127.0.0.1:8080" "gvswitch.json" "secret" false 32768.

Definition demoConf : Manager.Config :=
  match decConfig demoDoc (mkConfig None [] []) with Ok c => c | Err _ => mkConfig None [] [] end.

(** The manager when the command starts to serve. *)
Definition demoM : Manager := Eval vm_compute in (replay demoWorld demoOrders demoConf (m_New [1; 2; 3; 4; 5; 6])).1.1.

Lemma demo_replay : exists fx, replay demoWorld demoOrders demoConf (m_New [1; 2; 3; 4; 5; 6]) = (demoM, None, fx).
Proof. eexists. vm_compute. reflexivity. Qed.

Lemma demo_running : running demoM.
Proof.
  destruct demo_replay as [fx H]. eapply (replay_achieves demoWorld demoOrders std_ranges_ok demoConf); [|exact H].
  split; [constructor | done].
Qed.

Definition demoSys : System := mkSystem demoM [].

(** Its records. *)
Definition demoReq (doc : json) : PortRequest :=
  match decPortRequest true doc zeroPortRequest with Ok r => r | Err _ => zeroPortRequest end.
Definition demoGwReq : GatewayRequest := gcf_Request (default zeroGatewayConfig (head (cf_Gateways demoConf))).

Lemma demo_records :
  mg_ports demoM !! "p1" = Some (mkPortRecord (demoReq demoClient) 1) /\
  mg_ports demoM !! "s1" = Some (mkPortRecord (demoReq demoServer) 2) /\
  mg_gateways demoM !! 5 = Some (mkGatewayRecord demoGwReq 0).
Proof. split_and!; vm_compute; reflexivity. Qed.

(** * Witnesses *)

Lemma registries_agree_witness :
  reg demoM "p1" (OPort 1) /\ reg demoM "gw-vlan5" (OGateway 0) /\
  exists l, SwitchState.ports (mg_sw demoM) !! "s1" = Some l /\ mg_of demoM !! l = Some (OPort 2).
Proof.
  destruct (registries_agree demoSys (proj1 demo_running) (proj2 demo_running)) as (Hp & Hg & Hl).
  destruct demo_records as (H1 & H2 & H3). destruct (Hp _ _ H1) as (_ & _ & Hr1 & _). destruct (Hg _ _ H3) as (_ & _ & Hr3 & _).
  split_and!; [exact Hr1 | exact Hr3 |]. destruct (Hp _ _ H2) as (_ & _ & Hr2 & _). exact Hr2.
Defined.

(** A TAP port under the name of the gateway's port: the device is made, the
    switch refuses the name, and the device is removed again. *)
Definition demoTap (id : string) : PortRequest :=
  demoReq (JObj [("identifier", JStr id); ("mode", JStr "client"); ("transport", JStr "tap"); ("tap_name", JStr "tap0")]).

Lemma demo_create_fails : exists m' e fx,
  CreatePort demoWorld demoOrders (demoTap "gw-vlan5") demoM = (m', Err e, fx) /\ kernel fx <> [].
Proof. vm_compute. do 3 eexists. split; [reflexivity | discriminate]. Qed.

Lemma demo_create_works : exists m' i fx,
  CreatePort demoWorld demoOrders (demoTap "t1") demoM = (m', Ok i, fx) /\ kernel fx <> [].
Proof. vm_compute. do 3 eexists. split; [reflexivity | discriminate]. Qed.


Lemma range_order_std {K A} `{Countable K} : range_order (@map_to_list K A (gmap K A) _).
Proof. intros m. reflexivity. Qed.

Definition demoPatch : PortPatch :=
  match decPortPatch true (JObj [("vlan", JNum "7"); ("port_security", JStr "02:00:00:00:00:01")]) zeroPortPatch with
  | Ok p => p | Err _ => zeroPortPatch end.

Lemma demo_patch : exists m' i, PatchPort demoOrders "p1" demoPatch demoM = (m', Ok i).
Proof. vm_compute. do 2 eexists. reflexivity. Qed.

Lemma patch_port_applied_witness :
  exists m' i a, PatchPort demoOrders "p1" demoPatch demoM = (m', Ok i) /\
    PortAttrs_of "p1" (mg_sw m') = Some a /\ VLAN a = 7 /\ pi_VLAN i = 7 /\ pi_PortSecurity i = Some "02:00:00:00:00:01".
Proof.
  destruct demo_patch as (m' & i & H). exists m', i.
  destruct (patch_port_applied demoOrders demoSys "p1" demoPatch m' (Ok i) (proj1 demo_running) range_order_std H)
    as (rec & a & a' & Hrec & Ha & Happ & Ha' & _ & Hsh & _).
  exists a'.
  assert (Ea : PortAttrs_of "p1" (mg_sw demoM) = Some (mkPortAttrs None false 5 false false false 0 false 0 0))
    by (vm_compute; reflexivity).
  assert (E : a' = mkPortAttrs (Some [2; 0; 0; 0; 0; 1]) false 7 false false false 0 false 0 0).
  { change (mg_sw (sy_m demoSys)) with (mg_sw demoM) in Ha. rewrite Ea in Ha. injection Ha as <-.
    vm_compute in Happ. by injection Happ as <-. }
  destruct Hsh as (Hv & _ & Hm & _). rewrite E in Hv, Hm. split_and!; [exact H | exact Ha' | by rewrite E | exact Hv | exact Hm].
Defined.


(** ** The REST interface *)

#[local] Notation demoB := (manager_backend demoWorld demoOrders 0 0).

Definition demoRequest (method : string) (path : list string) (body : json) : Request :=
  mkRequest method ("api" :: "v1" :: path) [] "Bearer secret" (Ok body).

(** With the families registered the other way round, and the table reversed. *)
Lemma registration_order_irrelevant_witness :
  @serveMux Logged (rev (@routes Logged demoB [(6, "dhcp6"); (4, "dhcp4")])) (demoRequest "GET" ["gateways"; "5"; "dhcp4"] JNull) (demoM, []) =
  @NewHandler Logged demoB families (demoRequest "GET" ["gateways"; "5"; "dhcp4"] JNull) (demoM, []) /\
  rs_Code (@NewHandler Logged demoB families (demoRequest "GET" ["gateways"; "5"; "dhcp4"] JNull) (demoM, [])).2 = StatusOK.
Proof.
  split; [|vm_compute; reflexivity].
  apply (@registration_order_irrelevant Logged demoB [(6, "dhcp6"); (4, "dhcp4")]); [apply perm_swap|].
  symmetry. apply Permutation_rev.
Defined.

(** POST of a third port: it has a route, the token, and changes the records. *)
Lemma only_authorised_writes_witness :
  let r := demoRequest "POST" ["ports"] (JObj [("identifier", JStr "t1"); ("mode", JStr "client"); ("transport", JStr "tap"); ("tap_name", JStr "tap0")]) in
  let x := @WithAuth Logged "secret" (@NewHandler Logged demoB families) r (demoM, []) in
  x.1 <> (demoM, []) /\ rs_Code x.2 ∈ codes /\ rq_Method r ∈ writeMethods /\
  is_Some (findRoute (@routes Logged demoB families) r).
Proof.
  intros r x.
  assert (Hne : x.1 <> (demoM, [])).
  { intros H. apply (f_equal (fun s : Logged => mg_next s.1)) in H. vm_compute in H. discriminate H. }
  destruct (@only_authorised_writes Logged demoB "secret" r (demoM, [])) as [Hc Hw]. destruct (Hw Hne) as (_ & Hm & Hf).
  exact (conj Hne (conj Hc (conj Hm Hf))).
Defined.

Lemma requests_are_steps_witness :
  let r := demoRequest "DELETE" ["gateways"; "5"] JNull in
  let x := @WithAuth Logged "secret" (@NewHandler Logged demoB families) r (demoM, []) in
  sys_reachable (mkSystem x.1.1 []) /\ rs_Code x.2 = StatusNoContent /\ mg_gateways x.1.1 !! 5 = None.
Proof.
  intros r x. split.
  - exact (requests_are_steps demoWorld demoOrders 0 0 "secret" [] r (demoM, []) std_ranges_ok range_order_std (proj1 demo_running)).
  - split; vm_compute; reflexivity.
Defined.


Lemma status_codes_witness :
  serve demoWorld demoOrders 0 0 "GET" ["api"; "v1"; "ports"; "nope"] (Ok JNull) (demoM, []) =
    ((demoM, []), writeErr StatusNotFound (portNotFound "nope")) /\
  serve demoWorld demoOrders 0 0 "POST" ["api"; "v1"; "ports"] (Ok demoClient) (demoM, []) =
    ((demoM, []), writeErr StatusConflict (Errorf "port %q already exists" [AStr "p1"])) /\
  serve demoWorld demoOrders 0 0 "DELETE" ["api"; "v1"; "gateways"; "6"] (Ok JNull) (demoM, []) =
    ((demoM, []), writeErr StatusNotFound (gatewayNotFound 6)).
Proof.
  destruct (status_codes demoWorld demoOrders 0 0 demoM [] [] (proj1 demo_running)) as (Hp & He & Hg & _).
  destruct demo_records as (H1 & _). split_and!.
  - assert (Hno : mg_ports demoM !! "nope" = None) by (vm_compute; reflexivity).
    exact (proj1 (Hp "nope" (Ok JNull) eq_refl Hno)).
  - eapply (He "p1" _ demoClient (demoReq demoClient) _ H1); [|reflexivity|]; vm_compute; reflexivity.
  - assert (Hno : mg_gateways demoM !! 6 = None) by (vm_compute; reflexivity).
    assert (Hv : valid_vlan 6) by (split; discriminate). exact (proj2 (Hg 6 (Ok JNull) Hv Hno)).
Defined.

(** ** The command *)

Lemma startup_complete_witness :
  exists m fx, start demoWorld demoOrders demoRead [1; 2; 3; 4; 5; 6] demoFlags = Serving m fx /\
    running m /\ port_recorded (demoReq demoClient) m.
Proof.
  assert (H : exists m fx, start demoWorld demoOrders demoRead [1; 2; 3; 4; 5; 6] demoFlags = Serving m fx)
    by (vm_compute; do 2 eexists; reflexivity).
  destruct H as (m & fx & H). exists m, fx.
  pose proof (startup_complete demoWorld demoOrders demoRead [1; 2; 3; 4; 5; 6] demoFlags std_ranges_ok) as Hs.
  rewrite H in Hs. destruct Hs as (_ & Hrun & Hc). split_and!; [exact H | exact Hrun |].
  destruct (Hc ltac:(discriminate)) as (j & c & Hj & Hd & _ & Hp). apply Hp.
  injection Hj as <-. assert (E : decConfig demoDoc (mkConfig None [] []) = Ok demoConf) by (vm_compute; reflexivity).
  rewrite E in Hd. injection Hd as <-.
  assert (Ep : cf_Ports demoConf = [demoReq demoClient; demoReq demoServer]) by (vm_compute; reflexivity).
  rewrite Ep. apply list_elem_of_here.
Defined.

Lemma shutdown_closes_all_witness :
  exists m' fx, finish demoOrders demoM [] = Exit 0 (Some m') fx /\ SwitchState.ports (mg_sw m') = ∅ /\
    (exists p, mg_transports m' !! 1%nat = Some p /\ tp_closed p) /\ exists g, mg_gws m' !! 0%nat = Some g /\ g_done g = true.
Proof.
  destruct (shutdown_closes_all demoOrders demoM [] 0 ([] ++ [MKernel (Release RSocket)]) (proj1 demo_running) (proj2 demo_running)
    std_ranges_ok) as (m' & fx & H & _ & Hp & Ht & Hg).
  destruct demo_records as (H1 & _ & H3). exists m', ([MKernel (Release RSocket)] ++ fx).
  split_and!; [exact H | exact Hp | exact (Ht _ _ H1) | exact (Hg _ _ H3)].
Defined.

(** A binding and a pool, written as no printer would write them. *)
Definition demoBinding : DHCPStaticBinding := mkDHCPStatic "b1" 0 None (Some "02-00-00-00-00-0A") None "10.0.5.99".
Definition demoPool : DHCP4Config := mkDHCPConfig true "10.0.5.30" "10.0.5.40" 0 ["0:0:0::1"].

Lemma settings_restorable_witness :
  (exists m1 c1, SetDHCP4 5 demoPool demoM = (m1, None) /\ GetDHCP4 5 m1 = Ok c1 /\ dq_LeaseSeconds c1 = 3600 /\
     ParseIP <$> dq_DNS c1 = [ParseIP "::1"]) /\
  (exists m1 l b1, PutDHCPStatic 5 4 demoBinding demoM = (m1, None) /\ ListDHCPStatic demoOrders 5 4 m1 = Ok l /\ b1 ∈ l /\
     same_binding demoBinding b1 /\ PutDHCPStatic 5 4 b1 m1 = (m1, None)).
Proof.
  assert (Hg : exists rec g, gateway 5 demoM = Ok (rec, g) /\ own_ok (gw_of g)).
  { eexists _, _. split; [vm_compute; reflexivity|]. split; [|intros v6 H; vm_compute in H; discriminate H].
    intros v4 H. vm_compute in H. injection H as <-. split; [|left; vm_compute; reflexivity].
    apply Forall_forall. cbn. intros x Hx. set_unfold. lia. }
  destruct Hg as (rec & g & Hg & Hown).
  destruct (settings_restorable demoOrders 5 demoM rec g Hg Hown range_order_std) as (Hd & Hb & _). split.
  - destruct (SetDHCP4 5 demoPool demoM) as [m1 e] eqn:E. assert (e = None) as -> by (vm_compute in E; by injection E).
    destruct (Hd 4 demoPool m1) as (c1 & m2 & Hget & Hs & _); [vm_compute; split; discriminate | exact E |].
    exists m1, c1. split_and!; [reflexivity | exact Hget | by rewrite (sd_Lease _ _ Hs) | by rewrite (sd_DNS _ _ Hs)].
  - destruct (PutDHCPStatic 5 4 demoBinding demoM) as [m1 e] eqn:E. assert (e = None) as -> by (vm_compute in E; by injection E).
    destruct (Hb 4 demoBinding m1 E) as (l & b1 & H). exists m1, l, b1. split; [reflexivity | exact H].
Defined.

(** * Policy *)

(** The port [p1] in an empty switch, step by step. *)
Definition polReq : PortRequest := demoReq demoClient.
Definition polAttrs : PortAttrs := mkPortAttrs None false 5 false false false 0 false 0 0.
Definition polM0 : Manager := m_New [1; 2; 3; 4; 5; 6].
Definition polM1 : Manager := Eval vm_compute in (createPort1 demoWorld polReq polM0).1.1.
Definition polM2 : Manager := Eval vm_compute in (createPort2 demoOrders "p1" 0 polAttrs polM1).1.1.
Definition polM3 : Manager := Eval vm_compute in (createPort3 demoOrders polReq 0 polM2).1.

Lemma pol_created : serial_reachable (mkSystem polM3 []).
Proof.
  assert (E1 : exists fx, createPort1 demoWorld polReq polM0 = (polM1, Ok (0%nat, polAttrs), fx)) by (eexists; vm_compute; reflexivity).
  assert (E2 : exists fx, createPort2 demoOrders "p1" 0 polAttrs polM1 = (polM2, None, fx)) by (eexists; vm_compute; reflexivity).
  destruct E1 as [fx1 E1]. destruct E2 as [fx2 E2].
  assert (H1 := SerialStep _ _ (SerialNew [1; 2; 3; 4; 5; 6]) (SysPortBuild _ _ _ _ _ _ _ [] E1) ltac:(constructor)).
  assert (H2 := SerialStep _ _ H1 (SysPortAdd demoOrders polReq _ _ _ _ _ [] [] E2) ltac:(apply NoDup_singleton)).
  assert (H3 := SerialStep _ _ H2 (SysPortRecord demoOrders polReq _ _ [] []) ltac:(constructor)).
  exact H3.
Qed.

Definition polPatched : PortAttrs := mkPortAttrs (Some [2; 0; 0; 0; 0; 1]) false 7 false false false 0 false 0 0.
Definition polM4 : Manager := Eval vm_compute in (patchSwitch "p1" polPatched polM3).1.
Definition polM5 : Manager := Eval vm_compute in patchRecord "p1" 0 polPatched polM4.

Lemma pol_patched : serial_reachable (mkSystem polM5 []).
Proof.
  assert (E0 : mg_ports polM3 !! "p1" = Some (mkPortRecord polReq 0)) by (vm_compute; reflexivity).
  assert (E1 : patchAttrs "p1" demoPatch polM3 = Ok polPatched) by (vm_compute; reflexivity).
  assert (E2 : patchSwitch "p1" polPatched polM3 = (polM4, None)) by (vm_compute; reflexivity).
  assert (H1 := SerialStep _ _ pol_created (SysPatchFind _ demoPatch _ _ [] E0) ltac:(apply NoDup_singleton)).
  assert (H2 := SerialStep _ _ H1 (SysPatchApply _ _ _ _ _ [] [] E1) ltac:(apply NoDup_singleton)).
  assert (H3 := SerialStep _ _ H2 (SysPatchSwitch _ _ _ _ _ [] [] E2) ltac:(apply NoDup_singleton)).
  assert (H4 := SerialStep _ _ H3 (SysPatchServer demoOrders _ _ _ _ [] [] range_order_std) ltac:(apply NoDup_singleton)).
  exact (SerialStep _ _ H4 (SysPatchRecord _ _ _ _ [] []) ltac:(constructor)).
Qed.

Lemma get_shows_policy_witness :
  exists i a, GetPort demoOrders "p1" polM5 = Ok i /\ PortAttrs_of "p1" (mg_sw polM5) = Some a /\
    pi_VLAN i = 7 /\ VLAN a = 7 /\ pi_PortSecurity i = Some "02:00:00:00:00:01" /\ SecurityMAC a = Some [2; 0; 0; 0; 0; 1].
Proof.
  assert (E : exists i, GetPort demoOrders "p1" polM5 = Ok i /\ pi_VLAN i = 7 /\ pi_PortSecurity i = Some "02:00:00:00:00:01").
  { eexists. split; [vm_compute; reflexivity | split; reflexivity]. }
  destruct E as (i & E & Hv & Hm). exists i.
  destruct (get_shows_policy demoOrders (mkSystem polM5 []) "p1" i pol_patched) as (a & Ha & Hva & _ & _ & Hs);
    [reflexivity | intros p Hp; by apply elem_of_nil in Hp | exact E |].
  rewrite Hm in Hs. destruct Hs as (mac & Hmac & Hs). vm_compute in Hmac. injection Hmac as <-.
  exists a. split_and!; [exact E | exact Ha | exact Hv | congruence | exact Hm | exact Hs].
Defined.

(** Two PATCHes of [p1] at once: one isolates the port, the other changes its
    VLAN. *)
Definition raceIsolate : PortPatch := mkPortPatch None (Some true) None None None None None None None None.
Definition raceVLAN : PortPatch := mkPortPatch (Some 7) None None None None None None None None None.
Definition raceA1 : PortAttrs := mkPortAttrs None true 5 false false false 0 false 0 0.
Definition raceA2 : PortAttrs := mkPortAttrs None false 7 false false false 0 false 0 0.
Definition raceM1 : Manager := Eval vm_compute in (patchSwitch "p1" raceA1 polM3).1.
Definition raceM2 : Manager := Eval vm_compute in (patchSwitch "p1" raceA2 raceM1).1.
Definition raceM3 : Manager := Eval vm_compute in patchRecord "p1" 0 raceA1 (patchRecord "p1" 0 raceA2 raceM2).

(** two PATCHes of one port that overlap leave it unprotected.  [PatchPort]
    reads the policy, changes it and writes it back under no common lock: in a
    run with one port and two PATCHes, of which one isolates the port and the
    other moves it to VLAN 7, both are answered without an error and nothing is
    under way afterwards, yet the switch does not isolate the port while GET says
    that it does. *)
Theorem overlapping_patches :
  sys_reachable (mkSystem raceM3 []) /\ open raceM3 /\
  exists i a, GetPort demoOrders "p1" raceM3 = Ok i /\ PortAttrs_of "p1" (mg_sw raceM3) = Some a /\
    pi_Isolated i = true /\ Isolated a = false.
Proof.
  split_and!; [|reflexivity | do 2 eexists; split; [vm_compute; reflexivity|]; split; [vm_compute; reflexivity | done]].
  assert (E0 : mg_ports polM3 !! "p1" = Some (mkPortRecord polReq 0)) by (vm_compute; reflexivity).
  assert (E1 : patchAttrs "p1" raceIsolate polM3 = Ok raceA1) by (vm_compute; reflexivity).
  assert (E2 : patchAttrs "p1" raceVLAN polM3 = Ok raceA2) by (vm_compute; reflexivity).
  assert (E3 : patchSwitch "p1" raceA1 polM3 = (raceM1, None)) by (vm_compute; reflexivity).
  assert (E4 : patchSwitch "p1" raceA2 raceM1 = (raceM2, None)) by (vm_compute; reflexivity).
  pose proof (proj1 (serial_is_run _ pol_created)) as H0.
  assert (H1 := SysStep _ _ H0 (SysPatchFind _ raceIsolate _ _ [] E0)).
  assert (H2 := SysStep _ _ H1 (SysPatchFind _ raceVLAN _ _ [_] E0)).
  assert (H3 := SysStep _ _ H2 (SysPatchApply _ _ _ _ _ [] [_] E1)).
  assert (H4 := SysStep _ _ H3 (SysPatchApply _ _ _ _ _ [_] [] E2)).
  assert (H5 := SysStep _ _ H4 (SysPatchSwitch _ _ _ _ _ [] [_] E3)).
  assert (H6 := SysStep _ _ H5 (SysPatchSwitch _ _ _ _ _ [_] [] E4)).
  assert (H7 := SysStep _ _ H6 (SysPatchServer demoOrders _ _ _ _ [] [_] range_order_std)).
  assert (H8 := SysStep _ _ H7 (SysPatchServer demoOrders _ _ _ _ [_] [] range_order_std)).
  assert (H9 := SysStep _ _ H8 (SysPatchRecord _ _ _ _ [_] [])).
  exact (SysStep _ _ H9 (SysPatchRecord _ _ _ _ [] [])).
Qed.
